(* ===== verification/_CoqProject ===== *)
-Q . S2P
Prelude.v
Outcomes.v
Sorting.v
Store.v
Donations.v
Stats.v
Geo.v
Numbers.v
BloodBanks.v
Security.v
Users.v
Ledger.v
Traces.v
Auth.v
Roundtrips.v
Interleaving.v
Connections.v
Server.v
Serial.v
Http.v
Routes.v
Atomicity.v
Methods.v
Boot.v
Refinement.v
Ordering.v
Concrete.v
Contract.v
Conformance.v
Linear.v
