(* ===== verification/Prelude.v ===== *)
(** * Donor Darah API: a verification development

    The program is the back end of a blood-donation application
    (src/donor-darah-api): an Express server whose route handlers validate a
    JSON request, issue one or more SQL statements against a MySQL store
    through [db.query], and answer with an envelope
    [{success, message?, data?}] and an HTTP status.

    ** The parts of the program and the files that model them

    - [Prelude] (this file).  What every handler shares: JavaScript values
      as they arrive in a request body ([JsVal]) with the language's
      truthiness ([truthy], the [!x] and [a || b] of the handlers) and
      [Array.prototype.includes]; the response envelope, typed by its
      data inside a handler ([Response]) and as the object on the wire
      once [res.json] has sent it ([Envelope], [respond]); and the
      handler monad [Prog]: a handler is a tree whose nodes are the
      [await db.query(...)] suspension points ([Await]), whose leaves are
      the value returned ([Ret]) or an exception on its way to the
      handler's [catch] ([Throw]).  [run] executes a tree against a
      [World]: the store and a schedule of store failures ([w_faults]), of
      which every statement issued consumes one entry.  The combinators
      [preserves], [stmt_preserves] and [safe_prog] (every statement a
      handler can issue keeps an invariant, which is what survives
      interleaving) with the hint database [donor] carry the invariant
      proofs of the handlers.
    - [Outcomes].  What a handler owes its client: [answers n Q p], the
      handler [p] ends after at most [n] statements with a value that
      satisfies [Q], whatever the store answers and whichever statements
      fail; [typed], the well-formed envelopes of a route; and three
      shapes of the tree of a handler: it writes at its end and says so
      ([commits]), it validates before it asks the store ([asked]), and
      it ends when a statement fails ([fails_closed]).
    - [Sorting].  The stable sort that stands for [Array.prototype.sort]
      with a comparator callback and for SQL's [ORDER BY]; the interface
      [Comparator] (strict weak orders); permutation, sortedness,
      stability, and uniqueness: under a consistent comparator every stable
      sort computes the same list, so the insertion sort of the model
      stands for the sort of any engine.
    - [Store].  The relational store behind config/database.js: the tables
      [users], [blood_banks], [blood_stock] and [donation_history] as lists
      of rows in storage order with their AUTO_INCREMENT counters ([Db]),
      the combinators [sql_select], [sql_update], [sql_delete],
      [sql_count] and [sql_sum], the abstraction of a keyed table as a
      finite map ([table_map]) with the refinement lemmas (an update is
      [alter], a deletion is [delete], an insertion at a fresh key is
      [insert]), the interfaces [Driver] (how a JavaScript value bound to a
      [?] placeholder becomes a column value, and how the DECIMAL of a
      result row becomes a JavaScript value) and [Collation] (the order
      of a text column) with one instance each for concrete runs, the
      binding of a route parameter to the key placeholder of a statement
      ([keyed]), and the well-formedness invariant [db_wf].
    - [Donations].  routes/donations.js: the five handlers
      ([get_donations_by_user], [post_donation], [put_donation_status],
      [get_donation], [delete_donation]) with their statements, the status
      taxonomy [validStatuses], the lifecycle that the file's header
      documents ([Lifecycle]), and the router as a transition system
      ([donations_step]).
    - [Stats].  The statistics handler of routes/users.js
      ([get_user_stats], GET /api/users/stats/:id) against the statistics
      of the list of completed donations ([stats_of]).
    - [Geo].  [calculateDistance] of routes/bloodBanks.js over the real
      numbers of the Standard Library, against the spherical law of
      cosines ([great_circle]).
    - [Numbers].  The numbers of the ranking: [JsNumber] (a real, an
      infinity, NaN), subtraction and the sign test, [parseFloat] as an
      executable scan of the longest decimal prefix ([float_literal]) and
      [calculateDistance] on such numbers.
    - [BloodBanks].  routes/bloodBanks.js: [get_blood_banks] (listing, with
      the ranking by distance when a location is given), [get_blood_bank]
      (detail with stock, or 404) and [get_blood_stock] (stock ordered by
      blood type).
    - [Security].  bcryptjs and jsonwebtoken, which the sources only call:
      the interfaces [Bcrypt] and [Jwt] with the laws the handlers rely on,
      the calls as the handlers make them ([bcrypt_hash],
      [bcrypt_compare], [jwt_sign], [jwt_verify]) and one instance of each
      for concrete runs.
    - [Users].  The other handlers of routes/users.js: [get_profile],
      [put_profile] and [put_password], and the router with the
      statistics ([users_router]).
    - [Ledger].  The specification of the writes, apart from SQL and
      from the handlers: the users and the donations by key ([Ledger]),
      the six writes that can take effect ([Event], [occur]) and the
      histories of writes ([replay]).
    - [Traces].  An event as a write of one table under one key
      ([writes]), the events that are independent, and histories up to
      the order of independent neighbours ([same_trace]).
    - [Auth].  routes/auth.js ([register], [login]) and
      middleware/auth.js ([authenticateToken]).
    - [Roundtrips].  What one request writes and the next reads: create,
      update or delete a donation and read it; complete a donation and
      read the statistics; register, log in and pass the middleware;
      change a profile or a password and use it.
    - [Interleaving].  Requests in flight: handlers over one store that
      advance one awaited statement at a time, in any order
      ([pool_step]).
    - [Connections].  config/database.js: the options of the pool with
      their defaults from the environment ([pool_options]), the pool as
      the counts of its open and idle connections and the queue of its
      waiting callers ([getConnection], [release]), the test at start-up
      ([startup]) and the requests in flight when every statement takes
      a connection of the pool ([pooled_step]).
    - [Server].  server.js: the four routers under their mount points,
      GET / and the final 404 ([app]), with requests arriving at any time
      ([api_step]).
    - [Serial].  Which requests are serializable: those of the routes
      that issue one statement ([one_statement]), against the schedules
      that handle the requests one after the other
      ([Interleaving.serial_step]).
    - [Http].  The requests server.js receives: each router as the table
      of its registrations ([donations_routes], [users_routes],
      [blood_banks_routes], [auth_routes]), the matching of a path by a
      route ([match_path], [find_route]), the classification of a
      request ([dispatch]), the middleware chain from [cors()] to the
      final 404 ([serve]), and the server behind the pool
      ([pooled_server]), with requests arriving at any time
      ([http_step]).
    - [Routes].  The endpoints of the API as a list ([endpoints]) and
      the test that tells two route paths apart ([apart]).
    - [Atomicity].  What an error tells the client, for every request
      through the chain of server.js: nothing was written, the store was
      not asked before the request was validated, and nothing was asked
      after a statement had failed.
    - [Methods].  What the methods of HTTP promise: the routes that are
      safe ([safe_route]) and those that can be repeated
      ([idempotent_route], [idem]).
    - [Boot].  The start of the process: the test of the pool of
      config/database.js and [app.listen] of server.js with their
      callbacks and what they log ([startup_console], [listen],
      [listening]), and the state the server starts to serve from
      ([boot]).
    - [Refinement].  The store read as a ledger ([abs]), each statement
      that writes as the event it is, the requests answered with a
      success ([acknowledged]), and the server as an implementation of
      [Ledger].
    - [Ordering].  The rows of users and of donations in the order of
      their keys ([ordered]), which every statement keeps, and the store
      as a function of its ledger.
    - [Concrete].  The way back from the ledger: a map read in the order
      of its keys ([rows]) and the store that holds the records of a
      ledger ([conc]).
    - [Contract].  The donation routes and the statistics as the
      operations of one service ([Op]), what each promises said of the
      ledger at a time ([promise], [Book]), the interface of the
      implementations that keep the promise ([Service], [Registry],
      [Calm]) with the ledger as the first instance, and clients as
      programs over the operations ([Client], [exec]).
    - [Conformance].  The handlers as an implementation of [Contract]:
      the handler of each operation ([handler]) run alone against the
      store, with and without failures ([world_service],
      [server_service]).
    - [Linear].  Calls of the donation routes in flight together
      ([flight], over [Interleaving.pool_step]) against a desk that
      answers one call at a time as the contract allows ([desk_step]).

    ** How the model corresponds to the code

    A handler [router.METHOD(path, async (req, res) => { try {...} catch
    {...} })] is one [Definition] of type [Prog Db (Response D)]: the
    destructured request fields are its arguments, every [if (...) return
    res.status(c).json(...)] is a branch that returns that response, every
    [await db.query(sql, params)] is an [Await] node built by [db_query]
    from the statement's meaning on the tables, and the [try]/[catch] that
    wraps the body is [try_catch], whose handler returns the status-500
    envelope.  A route parameter ([req.params.id]) is the string of the
    path: it reaches the key placeholder of the statement as it is
    ([keyed]), and the driver binds it to the integer the key column is
    compared with, or refuses it; the theorems on a keyed route hold for
    every parameter the driver binds.  Query parameters are strings or
    absent.  Body fields are [JsVal]s, whose numbers are integers.  What a
    handler draws from its environment is an argument: the salt of
    [bcrypt.hash], [process.env.JWT_SECRET] (absent or a string) and the
    time at which a token is signed or verified.  A router is the list of
    its [router.METHOD(path, ...)] registrations in the order of the
    file, and server.js is the chain of its [app.use] and [app.get]
    calls in theirs.

    ** What the theorems show

    - Donations.  For each handler the response and the store after it on
      every branch: success as a refinement of the map of donations by key
      ([put_status_ok], [post_donation_created], [delete_donation_ok]),
      the validation branches that answer 400 without issuing a statement,
      the 404 of the detail, and the 500 of a store failure.  The documented
      flow is not enforced
      ([put_status_any_transition]); an update or deletion of an absent id
      and a negative quantity are accepted, and so is the quantity 0 when
      it arrives as a text ([post_donation_zero_text]).
    - Stats.  The handler computes the count, the sum and the latest date
      of the completed donations of one user, with zeros and null for a
      user without any; the sum is a number behind a client that decodes
      it as one ([get_user_stats_spec]) and a text behind a client that
      does not ([get_user_stats_text]); creating a donation changes no
      statistics.
    - Geo.  The quantity under the square roots lies in [[0, 1]] for all
      inputs; the distance is the great-circle distance, zero on identical
      points, symmetric, between 0 and half the circumference.
    - BloodBanks.  With a numeric location and numeric coordinates the
      response is a permutation of the banks in ascending distance, ties
      in storage order, the nearest first; without a location it is the
      table as stored; a location that is not a number yields NaN
      distances and storage order; a single NaN distance makes the
      comparator inconsistent.  The detail and the stock are characterised
      against the tables, and the router never writes.
    - Users and Auth.  For each handler the response and the store after
      it on every branch: a registration adds one user whose stored
      password passes against the one given; a login answers a token that
      verifies for seven days with the id and email of the user, and the
      same 401 for an unknown email and a wrong password; profile and
      password updates as refinements of the map of users by key.  The
      middleware grants exactly on a token signed with the secret that
      has not expired, found as the second word of the header, whatever
      the first word is.  A registration that runs alone keeps emails
      distinct ([register_keeps_emails_distinct]).
    - Outcomes.  Every handler answers, within one, two or three
      statements, with a well-formed envelope whose status is one of its
      route's ([donations_router_typed] and its likes): success exactly
      below 400, a message on every failure, no exception past the
      catch.
    - Roundtrips.  A donation that POST created is what GET shows, with
      the status and notes of the last update, until it is deleted
      ([post_then_get], [put_status_then_get], [delete_then_get]); a
      completed donation counts in the statistics of its user
      ([complete_then_stats]); the token of the login of a registered
      user passes the middleware ([register_login_authenticate]); a new
      password opens the session ([put_password_then_login]).
    - Interleaving and Server.  Two registrations with the same email
      whose statements interleave both succeed ([register_race]).  The
      invariant of the store (keys unique and below their counters,
      statuses in the taxonomy) holds in every state the application can
      reach, whatever requests arrive, however their statements
      interleave and whichever fail ([api_inv_reachable]).  Liveness:
      every schedule of the requests in flight ends, after at most three
      steps per request, with every request answered by an envelope of
      its route ([pool_drains], [api_drains]).
    - Connections.  With the options of config/database.js the pool
      refuses no caller while the store can be reached
      ([pool_options_waits]); waiting callers are served in the order
      they came ([release_fifo]); the pool accounts for its connections
      ([conns_inv], kept by every step); a schedule through the pool is
      a schedule of [pool_step] ([pooled_refines]), so what every
      statement keeps holds behind the pool, where at most ten
      statements run at once ([pooled_at_most_ten]); no state is stuck
      while a request has a statement to issue ([pooled_progress]) and
      every schedule through the pool ends with every request answered,
      however many requests compete for the connections
      ([pooled_drains]).
    - Http.  The request a client writes for an endpoint is served by
      the handler of that endpoint with the parameters and fields it
      wrote, so no route is shadowed ([serve_request_of]), and a request
      reaches a handler only by the method and the path of its endpoint
      ([dispatch_endpoint], [delete_reached]), and reaches it whenever
      they match, since no two endpoints can serve one request
      ([Routes.dispatch_exact]); the donation
      a client creates is the one it reads back under the key it was
      answered ([http_post_then_get]); every request, whatever its
      method, path and body, is answered with a response of the right
      shape ([serve_answers]); a body the parsers refuse is answered 500
      by the error middleware ([serve_malformed]); no answer depends on
      the Authorization header; and for the whole server behind the
      pool, the invariant of the store holds in every state it reaches,
      whatever requests arrive ([http_inv_reachable]), and every
      schedule of the requests in flight ends with every request
      answered ([http_pooled_drains]).
    - Ledger and Refinement.  Every history of writes keeps the ledger
      well-formed and extends it: no user is removed and no email
      changes, a donation that is still there is the gift it was (donor,
      blood bank, date, blood type, quantity), a key given up is never
      issued again, blood banks and stock are never written
      ([replay_extends]).  Each of the six statements that write is one
      event, or none when its WHERE clause finds no row, and every
      statement any handler issues is one of them or a read
      ([Refinement.logged]); a handler that has written answers with a
      success at once.  So the store of the server goes through a
      history of the ledger, whatever requests arrive, however their
      statements go through the pool and whichever fail, and the
      history has no more events than requests were answered with a
      success ([http_refines]); what every history keeps holds of the
      server ([http_records_kept]).
    - Ordering.  An INSERT appends under the key of the counter, an
      UPDATE rewrites rows where they are and a DELETE removes rows, so
      the rows stay in the order of their keys; a table in that order is
      determined by what it holds under each key ([table_map_inj]).
      Two states the server can reach that are the same ledger are the
      same store, and every request is answered the same in both
      ([http_store_exact]): the ledger forgets nothing that an answer
      can depend on.  Out of order it would ([unordered_same_ledger]).
    - Concrete.  The rows of a map are in the order of their keys and
      are the table of the map, so that stores in order and well-formed
      ledgers correspond one to one ([conc_abs]).
    - Contract and Conformance.  The theorems of [Contract] are proved of
      the interface, from its laws alone: every run of every client is a
      run the contract allows ([exec_may]); against an implementation
      that refuses nothing on its own it is the run of the ledger
      ([exec_promise]); a donation that was created is found as it was
      recorded, a status that was written is read back, a donation that
      was deleted is not found ([created_pending], [status_read_back],
      [deleted_not_found]).  [Conformance] discharges the laws for the
      handlers, operation by operation ([answered]): on a store in
      order, a handler whose statements go through answers with the
      status and the data promised of the ledger, down to the rows a
      join finds and the order a listing is sorted in, and one with a
      statement that fails answers 500 and leaves the store as it was.
      So a client that calls the routes one after the other cannot tell
      the server from the ledger while the store answers
      ([server_keeps_promise]), and stays within the contract whichever
      statements fail ([server_fails_closed]).
    - Linear.  The donation routes are linearizable: a call of one
      statement takes effect at its statement, so when calls in flight
      have all been answered, in whatever order their statements ran
      and whichever failed, the answers and the store are those of the
      calls answered one at a time in some order, each as the contract
      allows ([donations_linearizable], by a simulation of the pool by
      the desk).  The statistics are not ([Serial.stats_torn]).
    - Traces.  Two events that write different tables, or different
      keys of one table without both taking the counter, occur in either
      order with the same ledger at the end or with none
      ([occur_commute]); so the ledger is a function of the trace
      ([replay_proper], the instance that lets a history be rewritten
      into one of the same trace), and two states the server reaches
      through histories of the same trace are the same store
      ([http_trace_exact]).
    - Serial.  The schedules of requests of one statement are the orders
      in which the requests can be handled one after the other
      ([api_serializable]): every donation route, the list and the stock
      of the blood banks, the profile routes, the login.  The routes of
      more statements that read what others write are not serializable:
      the registration ([register_race]), the change of a password
      ([password_race]) and the statistics, whose count and sum can come
      from two different stores ([stats_torn]).
    - Atomicity.  A request that is answered 400 or above has left the
      store as it was, whichever statements failed
      ([serve_error_unchanged]); a 400 is answered before any statement,
      but for the registration of an email that is taken
      ([serve_validation_first]); a statement that the environment fails
      is the last of its request, which is answered 500
      ([serve_store_failure]).
    - Methods.  A request with GET, HEAD or OPTIONS issues no statement
      that changes the store, so it changes nothing alone or among other
      requests ([safe_methods_read_only]); the update of a status, the
      update of a profile and the deletion of a donation, sent twice,
      change nothing the second time unless the first changed nothing
      ([routes_idempotent]); the creation of a donation sent twice is
      recorded twice ([post_twice]).
    - Boot.  The process listens on [PORT] (3000 when the environment
      gives none or an empty one) whether or not the store could be
      reached; the state it starts from satisfies the invariant of the
      server, which therefore holds in every state it reaches
      ([boot_inv_reachable]); from every state it reaches, once no more
      requests arrive, every schedule ends after at most six steps for
      each request in flight with every request answered
      ([boot_quiesces], by the invariant [http_owes] of Http); with the
      store out of reach it listens all the same, logs the error, and
      answers 500 to a request that asks the store ([boot_store_down]).
    - Witnesses apply the theorems to [sample_db] (Donations) and
      [sample_banks] (BloodBanks), with the instances of [Security].

    ** Bounds and idealisations

    No fuel is used: every definition is structurally recursive and total.
    A finite double is the real number it denotes, so rounding, overflow
    and the sign of zero are outside the model; NaN and the infinities are
    values of [JsNumber].  Definitions over the reals ([calculateDistance],
    the comparator of the ranking) do not evaluate: their concrete runs are
    proved with the lemmas of [Geo]; everything else evaluates by
    [vm_compute].  Strings are sequences of 8-bit characters.  The failure
    schedule is a finite list; past its end no statement fails.  [run]
    takes one request to completion; the theorems on responses are about
    such runs, and [pool_step] gives the interleavings, under which the
    invariants and the refinement are proved again and the races are
    exhibited.  A statement that fails has not run: the model has no
    statement that takes effect and whose answer is lost.  A client of
    [Contract] makes one call after the other, each to its end; calls
    that interleave are requests in flight, in [Interleaving], [Serial]
    and [Linear].
    The bounds of the liveness theorems are counted in steps: three
    statements at most for a request (the statistics issue three), and
    behind the pool two steps for a statement, one to ask for the
    connection and one to end.  A path is given split at its slashes,
    without percent escapes; a body is given as the outcome of the two
    parsers, the fields of the object they read or the error they
    raised.  In the pool a connection is counted, not identified, and
    opening one takes no time: it succeeds or fails when it is asked
    for.  At the start of the process the port is granted or not, as
    the environment decides; the two callbacks of the start run in
    either order, before the first request.
    The digest and the token are abstract: the theorems hold for every
    implementation of [Bcrypt] and [Jwt] that satisfies the two laws, and
    say nothing of the strength of either.

    ** What is not modelled

    The bytes of a request and of a response: the parsing of a body by
    body-parser, the headers [cors()] adds to a response, and JSON
    serialisation (the names of the columns that [SELECT *] puts into a
    response are those of a schema that is not part of the sources).
    How Node reads a port that is not a number, and how dotenv reads
    the file .env: the environment is a parameter.  The protocol spoken
    on a connection of the pool, and time-outs.  The insides of bcryptjs
    and jsonwebtoken: what can be said of them without their code is
    the two laws of [Security], and nothing more of the program can be
    modelled there.  No route applies [authenticateToken]
    (routes/donations.js imports it without using it), so the handlers
    are modelled as the code serves them: without it.  The
    [console.error] of the [catch] of a handler is output only and is
    left out; the console of the start of the process is in [Boot]. *)

From Stdlib Require Import ZArith.
From stdpp Require Import base tactics option list strings.

#[local] Open Scope Z_scope.

(** ** JavaScript values of a request *)

(** A field of [req.body] after JSON parsing, or [undefined] when the
    field is absent.  Arrays and objects are not inspected by any handler:
    they are one opaque, truthy value. *)
Inductive JsVal : Type :=
| JsUndefined
| JsNull
| JsBool (b : bool)
| JsNum (z : Z)
| JsStr (s : string)
| JsObj.

#[export] Instance JsVal_eq_dec : EqDecision JsVal.
Proof. solve_decision. Defined.

(** ToBoolean: what [if (v)], [!v] and [v || d] test. *)
Definition truthy (v : JsVal) : bool :=
  match v with
  | JsUndefined | JsNull => false
  | JsBool b => b
  | JsNum z => negb (z =? 0)
  | JsStr s => negb (String.eqb s "")
  | JsObj => true
  end.

(** [a || b] *)
Definition js_or (a b : JsVal) : JsVal := if truthy a then a else b.

(** SameValueZero, the comparison of [Array.prototype.includes]: two
    objects are the same only when they are one reference, which an array
    literal of strings never holds. *)
Definition same_value_zero (a b : JsVal) : bool :=
  match a, b with
  | JsObj, _ | _, JsObj => false
  | _, _ => bool_decide (a = b)
  end.

Definition includes (arr : list JsVal) (v : JsVal) : bool :=
  existsb (same_value_zero v) arr.

(** A value of [req.query] or [req.params]: absent, or a string. *)
Definition truthy_str (q : option string) : bool :=
  match q with
  | None => false
  | Some s => negb (String.eqb s "")
  end.

(** The value of a decimal digit, for the decimal texts the store and
    [parseFloat] read. *)
Definition digit (c : Ascii.ascii) : option Z :=
  let n := Z.of_N (Ascii.N_of_ascii c) in
  if (48 <=? n) && (n <=? 57) then Some (n - 48) else None.

(** ** The response envelope *)

(** [res.status(c).json({success, message, data})]; [res.json] alone
    answers with status 200. *)
Record Response (D : Type) : Type := mkResponse {
  res_status : Z;
  res_success : bool;
  res_message : option string;
  res_data : option D
}.
Arguments mkResponse {D} _ _ _ _.
Arguments res_status {D} _.
Arguments res_success {D} _.
Arguments res_message {D} _.
Arguments res_data {D} _.

Definition json_ok {D} (d : D) : Response D :=
  mkResponse 200 true None (Some d).
Definition json_msg {D} (m : string) : Response D :=
  mkResponse 200 true (Some m) None.
Definition json_ok_with {D} (m : string) (d : D) : Response D :=
  mkResponse 200 true (Some m) (Some d).
Definition json_created {D} (m : string) (d : D) : Response D :=
  mkResponse 201 true (Some m) (Some d).
Definition json_error {D} (code : Z) (m : string) : Response D :=
  mkResponse code false (Some m) None.

(** ** The handler monad *)

(** What an awaited promise settles to. *)
Inductive Outcome (R : Type) : Type :=
| Resolved (r : R)
| Rejected.
Arguments Resolved {R} r.
Arguments Rejected {R}.

(** An [async] function body over a store of type [S]. [Await q k] issues
    the statement [q] and continues with [k] on what the promise settles
    to; [q] answers [None] when the store refuses the statement. *)
Inductive Prog (S A : Type) : Type :=
| Ret (a : A)
| Throw
| Await {R : Type} (q : S -> option (R * S)) (k : Outcome R -> Prog S A).
Arguments Ret {S A} a.
Arguments Throw {S A}.
Arguments Await {S A R} q k.

Fixpoint prog_bind {S A B} (f : A -> Prog S B) (p : Prog S A) : Prog S B :=
  match p with
  | Ret a => f a
  | Throw => Throw
  | Await q k => Await q (fun o => prog_bind f (k o))
  end.

#[export] Instance prog_mret {S} : MRet (Prog S) := fun A a => Ret a.
#[export] Instance prog_mbind {S} : MBind (Prog S) :=
  fun A B f p => prog_bind f p.

(** [await db.query(...)] outside any handler of its own: a rejection
    becomes an exception. *)
Definition db_query {S R} (q : S -> option (R * S)) : Prog S R :=
  Await q (fun o => match o with Resolved r => Ret r | Rejected => Throw end).

(** [try { p } catch (error) { h }] *)
Fixpoint try_catch {S A} (p : Prog S A) (h : Prog S A) : Prog S A :=
  match p with
  | Ret a => Ret a
  | Throw => h
  | Await q k => Await q (fun o => try_catch (k o) h)
  end.

(** ** What reaches the client *)

(** A response on the wire: the status and the fields of the JSON body,
    the data reduced to its presence.  [env_success] is absent when the
    body has no [success] field; [env_other] names the fields of the body
    that are none of [success], [message] and [data]. *)
Record Envelope : Type := mkEnvelope {
  env_status : Z;
  env_success : option bool;
  env_message : option string;
  env_data : bool;
  env_other : list string
}.

#[export] Instance Envelope_eq_dec : EqDecision Envelope.
Proof. solve_decision. Defined.

Definition envelope {D} (r : Response D) : Envelope :=
  mkEnvelope (res_status r) (Some (res_success r)) (res_message r)
    (bool_decide (is_Some (res_data r))) [].

(** A handler as the router sees it: whatever it computes, what leaves
    is the response it sends. *)
Definition respond {S D} (p : Prog S (Response D)) : Prog S Envelope :=
  r ← p; mret (envelope r).

(** ** Worlds and runs *)

(** The store and the failures to come: the n-th statement issued fails
    (connection lost, pool exhausted) iff the n-th entry is [true]. *)
Record World (S : Type) : Type := mkWorld {
  w_store : S;
  w_faults : list bool
}.
Arguments mkWorld {S} _ _.
Arguments w_store {S} _.
Arguments w_faults {S} _.

Definition exec_query {S R} (q : S -> option (R * S)) (w : World S)
  : Outcome R * World S :=
  match w_faults w with
  | true :: fs => (Rejected, mkWorld (w_store w) fs)
  | fs =>
      match q (w_store w) with
      | Some (r, s') => (Resolved r, mkWorld s' (tail fs))
      | None => (Rejected, mkWorld (w_store w) (tail fs))
      end
  end.

(** The next statement fails whatever it is. *)
Definition faulty {S} (w : World S) : bool :=
  match w_faults w with
  | true :: _ => true
  | _ => false
  end.

(** The world after a statement that changed nothing. *)
Definition advance {S} (w : World S) : World S :=
  mkWorld (w_store w) (tail (w_faults w)).

(** None of the next [n] statements is failed by the environment. *)
Fixpoint calm (n : nat) (fs : list bool) : bool :=
  match n, fs with
  | O, _ | _, [] => true
  | Datatypes.S _, true :: _ => false
  | Datatypes.S n', false :: fs' => calm n' fs'
  end.

(** The run of a handler to completion: [None] is an uncaught exception. *)
Fixpoint run {S A} (p : Prog S A) (w : World S) : option A * World S :=
  match p with
  | Ret a => (Some a, w)
  | Throw => (None, w)
  | Await q k => let '(o, w') := exec_query q w in run (k o) w'
  end.

(** The number of statements a run issues. *)
Fixpoint queries_issued {S A} (p : Prog S A) (w : World S) : nat :=
  match p with
  | Ret _ | Throw => 0%nat
  | Await q k => let '(o, w') := exec_query q w in
      Datatypes.S (queries_issued (k o) w')
  end.

(** Two handlers are equivalent when no world tells their runs apart. *)
Definition prog_equiv {S A} (p1 p2 : Prog S A) : Prop :=
  forall w, run p1 w = run p2 w.

Infix "≈ₚ" := prog_equiv (at level 70, no associativity).

#[export] Instance prog_equiv_equivalence {S A} :
  Equivalence (@prog_equiv S A).
Proof.
  split.
  - by intros p w.
  - by intros p1 p2 H w.
  - intros p1 p2 p3 H12 H23 w. by rewrite H12.
Qed.

(** ** Laws of runs *)

Section run_laws.
Context {S : Type}.
Implicit Types w : World S.

Lemma run_bind {A B} (f : A -> Prog S B) (p : Prog S A) w :
  run (p ≫= f) w =
  match run p w with
  | (Some a, w') => run (f a) w'
  | (None, w') => (None, w')
  end.
Proof.
  revert w. induction p as [a| |R q k IH]; intros w; cbn; try done.
  destruct (exec_query q w) as [o w']. apply IH.
Qed.

Lemma run_try_catch {A} (p h : Prog S A) w :
  run (try_catch p h) w =
  match run p w with
  | (Some a, w') => (Some a, w')
  | (None, w') => run h w'
  end.
Proof.
  revert w. induction p as [a| |R q k IH]; intros w; cbn; try done.
  destruct (exec_query q w) as [o w']. apply IH.
Qed.

Lemma run_db_query {R} (q : S -> option (R * S)) w :
  run (db_query q) w =
  match exec_query q w with
  | (Resolved r, w') => (Some r, w')
  | (Rejected, w') => (None, w')
  end.
Proof. cbn. by destruct (exec_query q w) as [[r|] w']. Qed.

Lemma exec_query_fault {R} (q : S -> option (R * S)) s fs :
  exec_query q (mkWorld s (true :: fs)) = (Rejected, mkWorld s fs).
Proof. done. Qed.

Lemma exec_query_nofault {R} (q : S -> option (R * S)) s fs :
  head fs <> Some true ->
  exec_query q (mkWorld s fs) =
  match q s with
  | Some (r, s') => (Resolved r, mkWorld s' (tail fs))
  | None => (Rejected, mkWorld s (tail fs))
  end.
Proof. intros H. unfold exec_query; cbn. by destruct fs as [|[] fs]. Qed.

Lemma exec_query_quiet {R} (q : S -> option (R * S)) s :
  exec_query q (mkWorld s []) =
  match q s with
  | Some (r, s') => (Resolved r, mkWorld s' [])
  | None => (Rejected, mkWorld s [])
  end.
Proof. by apply exec_query_nofault. Qed.

(** The three ways a statement ends: the environment fails it, the store
    refuses it, or it takes effect. *)
Lemma exec_query_eq {R} (q : S -> option (R * S)) w :
  exec_query q w =
  if faulty w then (Rejected, advance w)
  else match q (w_store w) with
       | Some (r, s') => (Resolved r, mkWorld s' (tail (w_faults w)))
       | None => (Rejected, advance w)
       end.
Proof. unfold exec_query, faulty, advance. by destruct w as [s [|[] fs]]. Qed.

(** A handler that starts with a statement, inside its [try]. *)
(** What is sent is what the handler answered. *)
Lemma run_respond {D} (p : Prog S (Response D)) w :
  run (respond p) w = (envelope <$> (run p w).1, (run p w).2).
Proof.
  unfold respond. rewrite run_bind. by destruct (run p w) as [[r|] w'].
Qed.

Lemma run_try_query {R A} (q : S -> option (R * S)) (k : R -> Prog S A)
    (h : Prog S A) w :
  run (try_catch (db_query q ≫= k) h) w =
  if faulty w then run h (advance w)
  else match q (w_store w) with
       | Some (r, s') =>
           run (try_catch (k r) h) (mkWorld s' (tail (w_faults w)))
       | None => run h (advance w)
       end.
Proof.
  cbn. rewrite exec_query_eq. destruct (faulty w); [done|].
  by destruct (q (w_store w)) as [[r s']|].
Qed.

Lemma calm_S n w :
  calm (Datatypes.S n) (w_faults w) = true ->
  faulty w = false /\ calm n (w_faults (advance w)) = true.
Proof.
  unfold faulty. destruct w as [s [|[] fs]]; cbn; try done.
  by destruct n.
Qed.

Lemma calm_nil n : calm n [] = true.
Proof. by destruct n. Qed.

(** A statement consumes exactly one entry of the schedule. *)
Lemma exec_query_faults {R} (q : S -> option (R * S)) w :
  w_faults (exec_query q w).2 = tail (w_faults w).
Proof.
  unfold exec_query. destruct w as [s [|[] fs]]; cbn; try done;
    by destruct (q s) as [[r s']|].
Qed.

(** The monad laws, up to [≈ₚ]. *)
Lemma prog_left_id {A B} (a : A) (f : A -> Prog S B) : mret a ≫= f ≈ₚ f a.
Proof. by intros w. Qed.

Lemma prog_right_id {A} (p : Prog S A) : p ≫= mret ≈ₚ p.
Proof. intros w. rewrite run_bind. by destruct (run p w) as [[a|] w']. Qed.

Lemma prog_assoc {A B C} (p : Prog S A) (f : A -> Prog S B)
    (g : B -> Prog S C) :
  (p ≫= f) ≫= g ≈ₚ p ≫= (fun a => f a ≫= g).
Proof.
  intros w. rewrite !run_bind.
  destruct (run p w) as [[a|] w']; [by rewrite run_bind | done].
Qed.

#[export] Instance prog_bind_proper {A B} :
  Proper (pointwise_relation A prog_equiv ==> prog_equiv ==> prog_equiv)
    (mbind (M := Prog S) (A := A) (B := B)).
Proof.
  intros f g Hfg p1 p2 Hp w. rewrite !run_bind, Hp.
  destruct (run p2 w) as [[a|] w']; [apply Hfg | done].
Qed.

#[export] Instance try_catch_proper {A} :
  Proper (prog_equiv ==> prog_equiv ==> prog_equiv) (@try_catch S A).
Proof.
  intros p1 p2 Hp h1 h2 Hh w. rewrite !run_try_catch, Hp.
  destruct (run p2 w) as [[a|] w']; [done | apply Hh].
Qed.

(** A handler whose [catch] returns never lets an exception escape. *)
Lemma try_catch_total {A} (p : Prog S A) (a : A) w :
  is_Some (run (try_catch p (Ret a)) w).1.
Proof.
  rewrite run_try_catch. destruct (run p w) as [[r|] w']; cbn; eauto.
Qed.

(** *** Invariants of the store along a run *)

(** Every run of [p] from a store that satisfies [I] ends in one that
    does, whatever the failures. *)
Definition preserves {A} (I : S -> Prop) (p : Prog S A) : Prop :=
  forall w, I (w_store w) -> I (w_store (run p w).2).

(** A statement keeps [I] when its effect, if it has one, does. *)
Definition stmt_preserves {R} (I : S -> Prop) (q : S -> option (R * S))
  : Prop :=
  forall s r s', I s -> q s = Some (r, s') -> I s'.

Lemma exec_query_preserves {R} (I : S -> Prop) (q : S -> option (R * S)) w :
  stmt_preserves I q -> I (w_store w) -> I (w_store (exec_query q w).2).
Proof.
  intros Hq Hw. rewrite exec_query_eq. destruct (faulty w); [done|].
  destruct (q (w_store w)) as [[r s']|] eqn:E; [|done]. by eapply Hq.
Qed.

Lemma preserves_ret {A} (I : S -> Prop) (a : A) : preserves I (mret a).
Proof. by intros w. Qed.

Lemma preserves_throw {A} (I : S -> Prop) : preserves I (@Throw S A).
Proof. by intros w. Qed.

Lemma preserves_await {R A} (I : S -> Prop) (q : S -> option (R * S))
    (k : Outcome R -> Prog S A) :
  stmt_preserves I q -> (forall o, preserves I (k o)) ->
  preserves I (Await q k).
Proof.
  intros Hq Hk w Hw. cbn.
  pose proof (exec_query_preserves I q w Hq Hw) as Hw'.
  destruct (exec_query q w) as [o w']. by apply Hk.
Qed.

Lemma preserves_db_query {R} (I : S -> Prop) (q : S -> option (R * S)) :
  stmt_preserves I q -> preserves I (db_query q).
Proof. intros Hq. apply preserves_await; [done|]. by intros [r|] w. Qed.

Lemma preserves_bind {A B} (I : S -> Prop) (p : Prog S A)
    (f : A -> Prog S B) :
  preserves I p -> (forall a, preserves I (f a)) -> preserves I (p ≫= f).
Proof.
  intros Hp Hf w Hw. rewrite run_bind. specialize (Hp w Hw).
  destruct (run p w) as [[a|] w']; [by apply Hf | done].
Qed.

Lemma preserves_try_catch {A} (I : S -> Prop) (p h : Prog S A) :
  preserves I p -> preserves I h -> preserves I (try_catch p h).
Proof.
  intros Hp Hh w Hw. rewrite run_try_catch. specialize (Hp w Hw).
  destruct (run p w) as [[a|] w']; [done | by apply Hh].
Qed.

Lemma preserves_if {A} (I : S -> Prop) (b : bool) (p1 p2 : Prog S A) :
  preserves I p1 -> preserves I p2 -> preserves I (if b then p1 else p2).
Proof. by destruct b. Qed.

Lemma preserves_match_list {A B} (I : S -> Prop) (l : list B)
    (p1 : Prog S A) (p2 : B -> list B -> Prog S A) :
  preserves I p1 -> (forall b t, preserves I (p2 b t)) ->
  preserves I (match l with [] => p1 | b :: t => p2 b t end).
Proof. by destruct l. Qed.

(** A statement that does not write keeps every invariant. *)
Lemma stmt_preserves_read {R} (I : S -> Prop) (f : S -> R) :
  stmt_preserves I (fun s => Some (f s, s)).
Proof. by intros s r s' Hs [= _ <-]. Qed.

Lemma respond_preserves {D} (I : S -> Prop) (p : Prog S (Response D)) :
  preserves I p -> preserves I (respond p).
Proof.
  intros Hp. unfold respond. apply preserves_bind; [done|].
  intros r. apply preserves_ret.
Qed.

Lemma preserves_and {A} (I J : S -> Prop) (p : Prog S A) :
  preserves I p -> preserves J p -> preserves (fun s => I s /\ J s) p.
Proof. intros HI HJ w [Hi Hj]. split; [by apply HI | by apply HJ]. Qed.

(** *** Invariants statement by statement *)

(** Every statement [p] can come to issue keeps [I]: the form of the
    invariant that survives the interleaving of requests. *)
Fixpoint safe_prog {A} (I : S -> Prop) (p : Prog S A) : Prop :=
  match p with
  | Ret _ | Throw => True
  | Await q k => stmt_preserves I q /\ forall o, safe_prog I (k o)
  end.

Lemma safe_mret {A} (I : S -> Prop) (a : A) : safe_prog I (mret a).
Proof. done. Qed.

Lemma safe_throw {A} (I : S -> Prop) : safe_prog I (@Throw S A).
Proof. done. Qed.

Lemma safe_db_query {R} (I : S -> Prop) (q : S -> option (R * S)) :
  stmt_preserves I q -> safe_prog I (db_query q).
Proof. intros Hq. split; [done|]. by intros [r|]. Qed.

Lemma safe_bind {A B} (I : S -> Prop) (p : Prog S A) (f : A -> Prog S B) :
  safe_prog I p -> (forall a, safe_prog I (f a)) -> safe_prog I (p ≫= f).
Proof.
  intros Hp Hf. induction p as [a| |R q k IH]; cbn in *; [apply Hf|done|].
  destruct Hp as [Hq Hk]. split; [done|]. intros o. by apply IH.
Qed.

Lemma safe_try_catch {A} (I : S -> Prop) (p h : Prog S A) :
  safe_prog I p -> safe_prog I h -> safe_prog I (try_catch p h).
Proof.
  intros Hp Hh. induction p as [a| |R q k IH]; cbn in *; [done..|].
  destruct Hp as [Hq Hk]. split; [done|]. intros o. by apply IH.
Qed.

Lemma safe_if {A} (I : S -> Prop) (b : bool) (p1 p2 : Prog S A) :
  safe_prog I p1 -> safe_prog I p2 -> safe_prog I (if b then p1 else p2).
Proof. by destruct b. Qed.

Lemma safe_match_list {A B} (I : S -> Prop) (l : list B)
    (p1 : Prog S A) (p2 : B -> list B -> Prog S A) :
  safe_prog I p1 -> (forall b t, safe_prog I (p2 b t)) ->
  safe_prog I (match l with [] => p1 | b :: t => p2 b t end).
Proof. by destruct l. Qed.

Lemma safe_respond {D} (I : S -> Prop) (p : Prog S (Response D)) :
  safe_prog I p -> safe_prog I (respond p).
Proof. intros Hp. by apply safe_bind. Qed.

(** What holds statement by statement holds of the run. *)
Lemma safe_prog_preserves {A} (I : S -> Prop) (p : Prog S A) :
  safe_prog I p -> preserves I p.
Proof.
  induction p as [a| |R q k IH]; [intros; apply preserves_ret
                                 |intros; apply preserves_throw|].
  intros [Hq Hk]. apply preserves_await; [done|]. intros o. by apply IH.
Qed.

End run_laws.

(** ** Automation shared by the components *)

Create HintDb donor discriminated.
Create Rewrite HintDb donor_run.
#[export] Hint Rewrite @run_bind @run_try_catch @run_db_query
  @exec_query_fault @exec_query_quiet : donor_run.

(** Evaluate the run of a handler as far as the constructors allow. *)
Ltac run_simpl :=
  repeat first
    [ progress autorewrite with donor_run
    | progress cbn [run try_catch prog_bind mbind mret prog_mbind prog_mret
                    fst snd w_store w_faults tail head] ].

(** Close a decidable goal on concrete data by evaluating its decision
    procedure. *)
Ltac by_decide := apply (bool_decide_unpack _); vm_compute; exact I.

(** Split on the test of the first [if] or [match] of the goal. *)
Ltac case_if :=
  match goal with
  | |- context [if ?b then _ else _] => destruct b eqn:?
  end.

(** ** Facts on JavaScript values *)

Lemma truthy_num z : truthy (JsNum z) = true <-> z <> 0.
Proof. cbn. rewrite negb_true_iff, Z.eqb_neq. done. Qed.

Lemma truthy_str_iff s : truthy (JsStr s) = true <-> s <> "".
Proof.
  cbn. rewrite negb_true_iff. split.
  - intros H ->. by rewrite String.eqb_refl in H.
  - intros H. by apply String.eqb_neq.
Qed.

Lemma js_or_truthy a b : truthy a = true -> js_or a b = a.
Proof. unfold js_or. by intros ->. Qed.

Lemma js_or_falsy a b : truthy a = false -> js_or a b = b.
Proof. unfold js_or. by intros ->. Qed.

(** [n || 0] is [n] for a number, [null || d] is [d]. *)
Lemma js_or_num_zero z : js_or (JsNum z) (JsNum 0) = JsNum z.
Proof. unfold js_or. cbn. destruct (Z.eqb_spec z 0); by subst. Qed.

Lemma js_or_null d : js_or JsNull d = d.
Proof. done. Qed.

Lemma same_value_zero_str s v :
  same_value_zero v (JsStr s) = true <-> v = JsStr s.
Proof.
  destruct v; cbn; rewrite ?bool_decide_eq_true; split; try done.
Qed.

(** [includes] over an array of string literals holds exactly for the
    strings of the array. *)
Lemma includes_strs (l : list string) v :
  includes (JsStr <$> l) v = true <-> exists s, v = JsStr s /\ s ∈ l.
Proof.
  unfold includes. rewrite existsb_exists. split.
  - intros (x & Hx & Hv). apply list_elem_of_In, list_elem_of_fmap in Hx
      as (s & -> & Hs). apply same_value_zero_str in Hv. eauto.
  - intros (s & -> & Hs). exists (JsStr s). split.
    + apply list_elem_of_In, list_elem_of_fmap. eauto.
    + by apply same_value_zero_str.
Qed.

#[export] Hint Resolve js_or_truthy js_or_falsy : donor.
#[export] Hint Resolve preserves_ret preserves_throw preserves_db_query
  preserves_bind preserves_try_catch preserves_if preserves_match_list
  stmt_preserves_read respond_preserves : donor.
#[export] Hint Resolve safe_mret safe_throw safe_db_query safe_bind
  safe_try_catch safe_if safe_match_list safe_respond : donor.
