(* ===== verification/Outcomes.v ===== *)
(** * Outcomes: what a handler answers, and after how many statements

    A handler is a tree of awaited statements.  [within n Q E p] says of
    such a tree that, whatever the store answers and whichever statements
    fail, [p] ends after at most [n] statements, with a value that
    satisfies [Q] when it returns and with [E] when an exception escapes.
    It is the form in which the types of the responses and the bound on
    the statements of a request are proved once per handler and used both
    for a request that runs alone ([within_run]) and for requests whose
    statements interleave.

    The other predicates on the tree have the same use.  [commits ok p]:
    a statement that writes is the last one and is answered with [ok].
    [asked Q p]: whatever is answered after the first statement
    satisfies [Q].  [fails_closed Q p]: a statement that fails ends the
    handler, with an answer that satisfies [Q].  [statements P p]: every
    statement satisfies [P], of which [safe_prog] is the case of an
    invariant.  Each has its lemma for a run ([commits_run],
    [asked_run], [fails_closed_run]), and [handler_walk] is the tactic
    that proves them of an unfolded handler. *)

From Stdlib Require Import ZArith Lia.
From stdpp Require Import base tactics option list strings.
From S2P Require Import Prelude.

#[local] Open Scope Z_scope.

Section outcomes.
Context {S : Type}.

Fixpoint within {A} (n : nat) (Q : A -> Prop) (E : Prop) (p : Prog S A)
    {struct p} : Prop :=
  match p with
  | Ret a => Q a
  | Throw => E
  | Await q k =>
      match n with
      | O => False
      | Datatypes.S n' => forall o, within n' Q E (k o)
      end
  end.

(** [p] answers within [n] statements with a value that satisfies [Q]:
    no exception escapes. *)
Definition answers {A} (n : nat) (Q : A -> Prop) (p : Prog S A) : Prop :=
  within n Q False p.

Lemma within_mono {A} n m (Q Q' : A -> Prop) (E E' : Prop) (p : Prog S A) :
  (n <= m)%nat -> (forall a, Q a -> Q' a) -> (E -> E') ->
  within n Q E p -> within m Q' E' p.
Proof.
  intros Hnm HQ HE. revert n m Hnm.
  induction p as [a| |R q k IH]; intros n m Hnm; cbn; [by auto..|].
  destruct n as [|n]; [done|]. destruct m as [|m]; [lia|].
  intros Hk o. apply (IH o n m); [lia|done].
Qed.

Lemma within_bind {A B} n m (Q : B -> Prop) (E : Prop) (p : Prog S A)
    (f : A -> Prog S B) :
  within n (fun a => within m Q E (f a)) E p ->
  within (n + m) Q E (p ≫= f).
Proof.
  revert n. induction p as [a| |R q k IH]; intros n; cbn.
  - apply within_mono; [lia|done..].
  - done.
  - destruct n as [|n]; [done|]. intros Hk o. by apply IH.
Qed.

Lemma within_try_catch {A} n m (Q : A -> Prop) (E : Prop) (p h : Prog S A) :
  within n Q (within m Q E h) p -> within (n + m) Q E (try_catch p h).
Proof.
  revert n. induction p as [a| |R q k IH]; intros n; cbn.
  - done.
  - apply within_mono; [lia|done..].
  - destruct n as [|n]; [done|]. intros Hk o. by apply IH.
Qed.

Lemma within_db_query {R} (Q : R -> Prop) (E : Prop)
    (q : S -> option (R * S)) :
  (forall r, Q r) -> E -> within 1 Q E (db_query q).
Proof. intros HQ HE [r|]; cbn; auto. Qed.

(** What holds of the tree holds of every run: of its result and of the
    number of statements it issues. *)
Lemma within_run {A} n (Q : A -> Prop) (E : Prop) (p : Prog S A) w :
  within n Q E p ->
  match (run p w).1 with Some a => Q a | None => E end
  /\ (queries_issued p w <= n)%nat.
Proof.
  revert n w. induction p as [a| |R q k IH]; intros n w; cbn;
    [split; [done|lia]..|].
  destruct n as [|n]; [done|]. intros Hk.
  destruct (exec_query q w) as [o w']. destruct (IH o n w' (Hk o)).
  split; [done|lia].
Qed.

Lemma answers_run {A} n (Q : A -> Prop) (p : Prog S A) w :
  answers n Q p ->
  exists a, (run p w).1 = Some a /\ Q a /\ (queries_issued p w <= n)%nat.
Proof.
  intros H. destruct (within_run n Q False p w H) as [Hr Hn].
  destruct (run p w).1 as [a|]; [eauto|done].
Qed.

Lemma answers_mono {A} n m (Q Q' : A -> Prop) (p : Prog S A) :
  (n <= m)%nat -> (forall a, Q a -> Q' a) -> answers n Q p -> answers m Q' p.
Proof. intros Hnm HQ. by apply within_mono. Qed.

(** The router keeps the bound and sends the envelope of the response. *)
Lemma answers_respond {D} n (Q : Envelope -> Prop) (p : Prog S (Response D)) :
  answers n (fun r => Q (envelope r)) p -> answers n Q (respond p).
Proof.
  intros H. unfold answers, respond. rewrite <- (Nat.add_0_r n).
  apply within_bind. revert H. by apply within_mono.
Qed.

(** ** Handlers that write at their end *)

(** The statement leaves the store as it is. *)
Definition reads {R} (q : S -> option (R * S)) : Prop :=
  forall s r s', q s = Some (r, s') -> s' = s.

(** Every statement of [p] leaves the store as it is, or [p] returns as
    soon as the statement is answered, with a value [ok] holds of: [p]
    writes at most once, at its end, and says so. *)
Fixpoint commits {A} (ok : A -> Prop) (p : Prog S A) : Prop :=
  match p with
  | Ret _ | Throw => True
  | Await q k =>
      (forall s r s', q s = Some (r, s') ->
         s' = s \/ exists a, k (Resolved r) = Ret a /\ ok a)
      /\ forall o, commits ok (k o)
  end.

(** [p] only reads. *)
Definition silent {A} (p : Prog S A) : Prop := commits (fun _ => False) p.

Lemma commits_mono {A} (ok ok' : A -> Prop) (p : Prog S A) :
  (forall a, ok a -> ok' a) -> commits ok p -> commits ok' p.
Proof.
  intros Hok. induction p as [a| |R q k IH]; cbn; [done..|].
  intros [Hq Hk]. split; [|by auto]. intros s r s' Hs.
  destruct (Hq s r s' Hs) as [->|(a & Ha & Hoka)]; eauto.
Qed.

Lemma silent_db_query {R} (q : S -> option (R * S)) :
  reads q -> silent (db_query q).
Proof. intros Hq. split; [by eauto|]. by intros [r|]. Qed.

(** Reads, then whatever follows. *)
Lemma commits_bind {A B} (ok : B -> Prop) (p : Prog S A) (f : A -> Prog S B) :
  silent p -> (forall a, commits ok (f a)) -> commits ok (p ≫= f).
Proof.
  unfold silent. intros Hp Hf.
  induction p as [a| |R q k IH]; cbn in *; [apply Hf|done|].
  destruct Hp as [Hq Hk]. split; [|intros o; apply IH, Hk].
  intros s r s' Hs. destruct (Hq s r s' Hs) as [->|(a & _ & [])]. by left.
Qed.

(** A statement, and the answer once it is answered. *)
Lemma commits_write {R A} (ok : A -> Prop) (q : S -> option (R * S))
    (g : R -> A) :
  (forall r, ok (g r)) -> commits ok (db_query q ≫= fun r => mret (g r)).
Proof. intros Hg. split; [by eauto|]. by intros [r|]. Qed.

Lemma commits_try_catch {A} (ok : A -> Prop) (p h : Prog S A) :
  commits ok p -> commits ok h -> commits ok (try_catch p h).
Proof.
  intros Hp Hh. induction p as [a| |R q k IH]; cbn in *; [done..|].
  destruct Hp as [Hq Hk]. split; [|intros o; apply IH, Hk].
  intros s r s' Hs.
  destruct (Hq s r s' Hs) as [->|(a & Ha & Hoka)]; [by left|right].
  exists a. by rewrite Ha.
Qed.

Lemma commits_if {A} (ok : A -> Prop) (b : bool) (p1 p2 : Prog S A) :
  commits ok p1 -> commits ok p2 -> commits ok (if b then p1 else p2).
Proof. by destruct b. Qed.

Lemma commits_match_list {A B} (ok : A -> Prop) (l : list B)
    (p1 : Prog S A) (p2 : B -> list B -> Prog S A) :
  commits ok p1 -> (forall b t, commits ok (p2 b t)) ->
  commits ok (match l with [] => p1 | b :: t => p2 b t end).
Proof. by destruct l. Qed.

Lemma commits_mret {A} (ok : A -> Prop) (a : A) :
  commits ok (mret a : Prog S A).
Proof. done. Qed.

Lemma commits_map {A B} (ok : B -> Prop) (g : A -> B) (p : Prog S A) :
  commits (fun a => ok (g a)) p -> commits ok (p ≫= fun a => mret (g a)).
Proof.
  intros Hp. induction p as [a| |R q k IH]; cbn in *; [done..|].
  destruct Hp as [Hq Hk]. split; [|intros o; apply IH, Hk].
  intros s r s' Hs.
  destruct (Hq s r s' Hs) as [->|(a & Ha & Hoka)]; [by left|right].
  exists (g a). by rewrite Ha.
Qed.

Lemma commits_respond {D} (ok : Envelope -> Prop) (p : Prog S (Response D)) :
  commits (fun r => ok (envelope r)) p -> commits ok (respond p).
Proof. apply commits_map. Qed.

(** A handler that writes at its end and does not say so has written
    nothing: whichever statements fail. *)
Lemma commits_run {A} (ok : A -> Prop) (p : Prog S A) w a w' :
  commits ok p -> run p w = (Some a, w') -> ok a \/ w_store w' = w_store w.
Proof.
  revert w. induction p as [b| |R q k IH]; intros w Hp Hrun; cbn in *;
    [by simplify_eq; right|done|].
  destruct Hp as [Hq Hk]. destruct (exec_query q w) as [o w1] eqn:Hex.
  assert (w_store w1 = w_store w -> ok a \/ w_store w' = w_store w) as Hsame.
  { intros <-. by apply (IH o). }
  rewrite exec_query_eq in Hex. destruct (faulty w); [by simplify_eq; auto|].
  destruct (q (w_store w)) as [[r s']|] eqn:Hs; simplify_eq; [|by auto].
  destruct (Hq _ _ _ Hs) as [->|(b & Hb & Hok)]; [by auto|].
  rewrite Hb in Hrun. cbn in Hrun. simplify_eq. by left.
Qed.

(** A handler that only reads leaves the store as it is, whatever it
    answers and whichever statements fail. *)
Lemma silent_run {A} (p : Prog S A) w :
  silent p -> w_store (run p w).2 = w_store w.
Proof.
  revert w. induction p as [b| |R q k IH]; intros w Hp; cbn; [done..|].
  destruct Hp as [Hq Hk]. destruct (exec_query q w) as [o w1] eqn:Hex.
  rewrite (IH o w1 (Hk o)). rewrite exec_query_eq in Hex.
  destruct (faulty w); [by simplify_eq|].
  destruct (q (w_store w)) as [[r s']|] eqn:Hs; simplify_eq; [|done].
  by destruct (Hq _ _ _ Hs) as [->|(b & _ & [])].
Qed.

(** ** What a handler answers once it has asked the store *)

(** Every value [p] can return satisfies [Q]. *)
Fixpoint always {A} (Q : A -> Prop) (p : Prog S A) : Prop :=
  match p with
  | Ret a => Q a
  | Throw => True
  | Await q k => forall o, always Q (k o)
  end.

(** Every value [p] can return after a statement satisfies [Q]. *)
Definition asked {A} (Q : A -> Prop) (p : Prog S A) : Prop :=
  match p with
  | Await q k => forall o, always Q (k o)
  | _ => True
  end.

Lemma always_run {A} (Q : A -> Prop) (p : Prog S A) w a w' :
  always Q p -> run p w = (Some a, w') -> Q a.
Proof.
  revert w. induction p as [b| |R q k IH]; intros w Hp Hrun; cbn in *;
    [by simplify_eq|done|].
  destruct (exec_query q w) as [o w1]. by apply (IH o w1).
Qed.

(** A value that does not satisfy [Q] was returned before any
    statement. *)
Lemma asked_run {A} (Q : A -> Prop) (p : Prog S A) w a w' :
  asked Q p -> run p w = (Some a, w') -> queries_issued p w = 0%nat \/ Q a.
Proof.
  destruct p as [b| |R q k]; intros Hp Hrun; [by left..|right].
  by apply (always_run Q (Await q k) w a w').
Qed.

(** ** Handlers that end when a statement fails *)

(** Whenever a statement of [p] is rejected, [p] returns at once, a value
    that satisfies [Q]: no statement follows a failure. *)
Fixpoint fails_closed {A} (Q : A -> Prop) (p : Prog S A) : Prop :=
  match p with
  | Ret _ | Throw => True
  | Await q k =>
      (exists a, k Rejected = Ret a /\ Q a)
      /\ forall r, fails_closed Q (k (Resolved r))
  end.

(** A statement that the environment fails is the last of its run, and
    the run returns a value that satisfies [Q]. *)
Lemma fails_closed_run {A} (Q : A -> Prop) (p : Prog S A) w i :
  fails_closed Q p -> w_faults w !! i = Some true ->
  (i < queries_issued p w)%nat ->
  queries_issued p w = Datatypes.S i
  /\ exists a, (run p w).1 = Some a /\ Q a.
Proof.
  revert w i. induction p as [b| |R q k IH]; intros w i Hp Hi Hlt; cbn in *;
    [lia..|].
  destruct Hp as [(a & Ha & HQ) Hk]. rewrite exec_query_eq in *.
  assert (faulty w = true \/ q (w_store w) = None ->
          i = 0%nat /\ exists a, (run (k Rejected) (advance w)).1 = Some a
                                 /\ Q a) as Hrej.
  { intros Hw. rewrite Ha. split; [|by eauto].
    destruct Hw as [Hw|Hw]; rewrite Hw in Hlt; [|destruct (faulty w)];
      cbn in Hlt; rewrite Ha in Hlt; cbn in Hlt; lia. }
  destruct (faulty w) eqn:Hf.
  { destruct Hrej as [-> ?]; [by left|]. cbn. rewrite Ha. cbn. eauto. }
  destruct (q (w_store w)) as [[r s']|] eqn:Hq.
  2:{ destruct Hrej as [-> ?]; [by right|]. cbn. rewrite Ha. cbn. eauto. }
  destruct w as [s [|[] fs]], i as [|i]; simplify_eq/=.
  by destruct (IH (Resolved r) (mkWorld s' fs) i (Hk r) Hi ltac:(lia))
    as [-> ?].
Qed.

(** ** What every statement satisfies *)

(** Every statement [p] can come to issue satisfies [P]. *)
Fixpoint statements (P : forall R, (S -> option (R * S)) -> Prop) {A}
    (p : Prog S A) : Prop :=
  match p with
  | Ret _ | Throw => True
  | Await q k => P _ q /\ forall o, statements P (k o)
  end.

Lemma statements_mono (P P' : forall R, (S -> option (R * S)) -> Prop) {A}
    (p : Prog S A) :
  (forall R q, P R q -> P' R q) -> statements P p -> statements P' p.
Proof. intros HP. induction p as [| |R q k IH]; cbn; naive_solver. Qed.

Lemma statements_and (P P' : forall R, (S -> option (R * S)) -> Prop) {A}
    (p : Prog S A) :
  statements P p -> statements P' p ->
  statements (fun R q => P R q /\ P' R q) p.
Proof. induction p as [| |R q k IH]; cbn; naive_solver. Qed.

(** [silent] is the case of the statements that read. *)
Lemma statements_silent {A} (p : Prog S A) :
  statements (fun R => reads) p <-> silent p.
Proof.
  unfold silent. induction p as [| |R q k IH]; cbn; [done..|].
  split; intros [Hq Hk]; (split; [|intros o; by apply IH]).
  - intros s r s' Hs. left. by eapply Hq.
  - intros s r s' Hs. by destruct (Hq s r s' Hs) as [->|(b & _ & [])].
Qed.

(** [safe_prog] is the case of an invariant. *)
Lemma statements_safe (I : S -> Prop) {A} (p : Prog S A) :
  statements (fun R => stmt_preserves I) p <-> safe_prog I p.
Proof. induction p as [| |R q k IH]; cbn; naive_solver. Qed.

End outcomes.

(** ** Well-formed envelopes *)

(** The envelope of the API: [success] is present and is true exactly on
    the statuses below 400, a failure carries a message and no data, and
    the body has no other field.  [allowed] are the statuses of the
    route. *)
Definition typed (allowed : list Z) (e : Envelope) : bool :=
  bool_decide (env_status e ∈ allowed)
  && bool_decide (env_success e = Some (env_status e <? 400))
  && (if env_status e <? 400 then true
      else bool_decide (is_Some (env_message e)) && negb (env_data e))
  && bool_decide (env_other e = []).

Lemma typed_status allowed e : typed allowed e = true -> env_status e ∈ allowed.
Proof. unfold typed. rewrite !andb_true_iff, bool_decide_eq_true. tauto. Qed.

Lemma typed_success allowed e :
  typed allowed e = true -> env_success e = Some (env_status e <? 400).
Proof. unfold typed. rewrite !andb_true_iff, !bool_decide_eq_true. tauto. Qed.

Lemma typed_failure allowed e :
  typed allowed e = true -> 400 <= env_status e ->
  is_Some (env_message e) /\ env_data e = false.
Proof.
  unfold typed. rewrite !andb_true_iff. intros [[_ H] _] Hs.
  destruct (Z.ltb_spec (env_status e) 400); [lia|].
  apply andb_true_iff in H as [H1 H2].
  by rewrite bool_decide_eq_true in H1; rewrite negb_true_iff in H2.
Qed.

Lemma typed_weaken allowed allowed' e :
  allowed ⊆ allowed' -> typed allowed e = true -> typed allowed' e = true.
Proof.
  unfold typed. rewrite !andb_true_iff, !bool_decide_eq_true.
  intros Hsub [[[H1 H2] H3] H4]. auto.
Qed.

(** ** Automation *)

(** Walk the tree of a handler whose definition is unfolded, down to
    what its statements and its answers must satisfy: reduce the
    predicate along the statements and split on every test of the
    control flow.  [leaf] is tried first on every goal, [part] takes a
    goal of several parts apart. *)
Ltac handler_walk leaf part :=
  repeat first
    [ leaf
    | progress cbn [within answers commits always asked fails_closed
                    statements safe_prog try_catch prog_bind mbind mret
                    prog_mbind prog_mret db_query respond]
    | progress unfold answers, respond
    | part
    | intros ?
    | case_match ].

Ltac within_walk := handler_walk ltac:(fail) ltac:(fail).

#[export] Hint Resolve answers_respond : donor.
#[export] Hint Resolve commits_mret commits_write commits_try_catch commits_if
  commits_match_list commits_respond commits_bind silent_db_query : donor.
