(* ===== verification/Sorting.v ===== *)
(** * Sorting: the stable sort behind [Array.prototype.sort] and [ORDER BY]

    routes/bloodBanks.js ranks the banks with
    [bloodBanks.sort((a, b) => a.distance - b.distance)]; routes/donations.js
    and routes/users.js ask the store to [ORDER BY] a column.  Both are a
    sort directed by a comparison.  This file holds the sort as a function
    of the test "the comparator puts [x] strictly before [y]" ([before]),
    what a comparator must satisfy to be consistent ([Comparator]: the
    strict weak orders), and the three facts the handlers rely on: the
    result is a permutation, it is sorted, and elements the comparator ties
    keep their order (the sort is stable, as ECMAScript 2019 requires of
    [Array.prototype.sort]). *)

From Stdlib Require Import ZArith.
From stdpp Require Import base tactics list sorting.
From S2P Require Import Prelude.

(** A sorted list stays sorted under a weaker order. *)
Lemma StronglySorted_weaken {A} (R1 R2 : relation A) (l : list A) :
  (forall x y, R1 x y -> R2 x y) -> StronglySorted R1 l -> StronglySorted R2 l.
Proof.
  intros H. induction 1; constructor; [done|]. eapply Forall_impl; eauto.
Qed.

(** The head of a selection is an element of the list. *)
Lemma filter_head_elem_of {A} (p : A -> bool) (l t : list A) (x : A) :
  List.filter p l = x :: t -> x ∈ l.
Proof.
  intros H. assert (x ∈ List.filter p l) as Hx by (rewrite H; constructor).
  rewrite list_elem_of_In, filter_In, <- list_elem_of_In in Hx. tauto.
Qed.

Section stable_sort.
Context {A : Type} (before : A -> A -> bool).
Implicit Types (x y z : A) (l : list A).

(** Insertion behind every element that goes strictly before [x]. *)
Fixpoint sort_insert (x : A) (l : list A) : list A :=
  match l with
  | [] => [x]
  | y :: l' => if before y x then y :: sort_insert x l' else x :: y :: l'
  end.

Definition stable_sort (l : list A) : list A := foldr sort_insert [] l.

(** [x] may stand to the left of [y]. *)
Definition not_after (x y : A) : Prop := before y x = false.

(** The comparator ties [x] and [y] (it answers 0, or NaN). *)
Definition tied (x y : A) : bool := negb (before x y) && negb (before y x).

(** A consistent comparator: a strict weak order. *)
Class Comparator : Prop := {
  before_asym x y : before x y = true -> before y x = false;
  before_negtrans x y z :
    before x y = false -> before y z = false -> before x z = false
}.

(** *** Facts that need no assumption on the comparator *)

Lemma stable_sort_cons x l :
  stable_sort (x :: l) = sort_insert x (stable_sort l).
Proof. done. Qed.

Lemma sort_insert_perm x l : sort_insert x l ≡ₚ x :: l.
Proof.
  induction l as [|y l IH]; cbn; [done|].
  destruct (before y x); [|done]. by rewrite IH, Permutation_swap.
Qed.

Lemma stable_sort_perm l : stable_sort l ≡ₚ l.
Proof.
  induction l as [|x l IH]; [done|].
  by rewrite stable_sort_cons, sort_insert_perm, IH.
Qed.

Lemma stable_sort_length l : length (stable_sort l) = length l.
Proof. by rewrite stable_sort_perm. Qed.

Lemma stable_sort_elem_of x l : x ∈ stable_sort l <-> x ∈ l.
Proof. by rewrite stable_sort_perm. Qed.

Lemma stable_sort_Forall (P : A -> Prop) l :
  Forall P (stable_sort l) <-> Forall P l.
Proof. by rewrite stable_sort_perm. Qed.

Lemma stable_sort_nil_inv l : stable_sort l = [] -> l = [].
Proof.
  intros H. apply Permutation_nil_r. by rewrite <- H, stable_sort_perm.
Qed.

(** An element that nothing precedes stays in front. *)
Lemma sort_insert_front x l :
  Forall (not_after x) l -> sort_insert x l = x :: l.
Proof. destruct 1 as [|y l Hy _]; cbn; [done|]. by rewrite Hy. Qed.

(** A sorted list is left as it is. *)
Lemma stable_sort_sorted_id l :
  StronglySorted not_after l -> stable_sort l = l.
Proof.
  induction 1 as [|x l _ IH Hx]; [done|].
  rewrite stable_sort_cons, IH. by apply sort_insert_front.
Qed.

(** When the comparator never answers "before" (every distance is NaN,
    say), the array keeps its order. *)
Lemma stable_sort_all_tied l :
  (forall x y, x ∈ l -> y ∈ l -> before x y = false) -> stable_sort l = l.
Proof.
  intros H. apply stable_sort_sorted_id.
  induction l as [|x l IH]; constructor.
  - apply IH. intros y z Hy Hz. apply H; by constructor.
  - apply Forall_forall. intros y Hy. apply H; [by constructor 2|constructor].
Qed.

(** *** Facts of a consistent comparator *)

Section laws.
Context {cmp_ok : Comparator}.

Lemma before_irrefl x : before x x = false.
Proof.
  destruct (before x x) eqn:E; [|done]. by rewrite (before_asym x x E) in E.
Qed.

Lemma before_trans x y z :
  before x y = true -> before y z = true -> before x z = true.
Proof.
  intros Hxy Hyz. destruct (before x z) eqn:E; [done|].
  apply before_asym in Hyz.
  by rewrite (before_negtrans x z y E Hyz) in Hxy.
Qed.

#[export] Instance not_after_trans : Transitive not_after.
Proof. intros x y z Hxy Hyz. exact (before_negtrans z y x Hyz Hxy). Qed.

#[export] Instance not_after_refl : Reflexive not_after.
Proof. intros x. apply before_irrefl. Qed.

Lemma not_after_total x y : not_after x y \/ not_after y x.
Proof.
  unfold not_after. destruct (before y x) eqn:E; [|by left].
  right. by apply before_asym.
Qed.

Lemma tied_iff x y : tied x y = true <-> not_after x y /\ not_after y x.
Proof.
  unfold tied, not_after. rewrite andb_true_iff, !negb_true_iff. tauto.
Qed.

Lemma tied_refl x : tied x x = true.
Proof. apply tied_iff. split; apply before_irrefl. Qed.

Lemma tied_sym x y : tied x y = tied y x.
Proof. unfold tied. apply andb_comm. Qed.

Lemma tied_trans x y z : tied x y = true -> tied y z = true -> tied x z = true.
Proof.
  rewrite !tied_iff. intros [] []. split; by etrans.
Qed.

(** Two elements tied with a third are not ordered by the comparator. *)
Lemma tied_not_before k x y :
  tied k x = true -> tied k y = true -> before y x = false.
Proof.
  intros Hx Hy. rewrite tied_sym in Hy.
  by apply (tied_trans _ _ _ Hy), tied_iff in Hx as [].
Qed.

Lemma sort_insert_sorted x l :
  StronglySorted not_after l -> StronglySorted not_after (sort_insert x l).
Proof.
  induction 1 as [|y l Hl IH Hy]; cbn; [repeat constructor|].
  destruct (before y x) eqn:E.
  - constructor; [done|]. rewrite sort_insert_perm. constructor; [|done].
    by apply before_asym.
  - constructor; [by constructor|]. constructor; [done|].
    eapply Forall_impl; [exact Hy|]. intros z Hz. by trans y.
Qed.

Lemma stable_sort_sorted l : StronglySorted not_after (stable_sort l).
Proof.
  induction l; [constructor|].
  rewrite stable_sort_cons. by apply sort_insert_sorted.
Qed.

Lemma stable_sort_idemp l : stable_sort (stable_sort l) = stable_sort l.
Proof. apply stable_sort_sorted_id, stable_sort_sorted. Qed.

(** The first element of the result is a least element of the input. *)
Lemma stable_sort_head m l :
  head (stable_sort l) = Some m ->
  m ∈ l /\ forall x, x ∈ l -> before x m = false.
Proof.
  intros H. pose proof (stable_sort_sorted l) as Hs.
  destruct (stable_sort l) as [|m' l'] eqn:E; simplify_eq/=.
  apply StronglySorted_inv in Hs as [_ Hm]. split.
  - apply stable_sort_elem_of. rewrite E. constructor.
  - intros x Hx. apply stable_sort_elem_of in Hx. rewrite E in Hx.
    apply elem_of_cons in Hx as [->|Hx]; [apply before_irrefl|].
    by eapply Forall_forall in Hm.
Qed.

(** Stability, on one insertion: the elements tied with [k] come out in
    the order they went in. *)
Lemma sort_insert_stable k x l :
  List.filter (tied k) (sort_insert x l) = List.filter (tied k) (x :: l).
Proof.
  induction l as [|y l IH]; [done|]. cbn [sort_insert].
  destruct (before y x) eqn:E; [|done].
  cbn [List.filter] in *. rewrite IH.
  destruct (tied k y) eqn:Hy, (tied k x) eqn:Hx; try done.
  by rewrite (tied_not_before k x y) in E.
Qed.

Lemma stable_sort_stable k l :
  List.filter (tied k) (stable_sort l) = List.filter (tied k) l.
Proof.
  induction l as [|x l IH]; [done|].
  rewrite stable_sort_cons, sort_insert_stable. cbn. by rewrite IH.
Qed.

(** Two sorted lists in which every class of tied elements appears in the
    same order are the same list. *)
Lemma sorted_stable_unique l1 l2 :
  StronglySorted not_after l1 -> StronglySorted not_after l2 ->
  (forall k, List.filter (tied k) l1 = List.filter (tied k) l2) ->
  l1 = l2.
Proof.
  intros H1. revert l2.
  induction H1 as [|x t1 _ IH Hx]; intros l2 H2 Hf.
  { destruct l2 as [|y t2]; [done|]. specialize (Hf y). cbn in Hf.
    by rewrite tied_refl in Hf. }
  destruct H2 as [|y t2 H2 Hy].
  { specialize (Hf x). cbn in Hf. by rewrite tied_refl in Hf. }
  assert (x = y) as <-.
  { pose proof (Hf x) as Hfx. pose proof (Hf y) as Hfy. cbn in Hfx, Hfy.
    rewrite !tied_refl in *. destruct (tied x y) eqn:E; [by simplify_eq|].
    rewrite tied_sym, E in Hfy.
    symmetry in Hfx. apply filter_head_elem_of in Hfx, Hfy.
    rewrite Forall_forall in Hx, Hy.
    apply not_true_iff_false in E. destruct E. apply tied_iff.
    split; [apply Hx|apply Hy]; done. }
  f_equal. apply IH; [done|]. intros k. specialize (Hf k). cbn in Hf.
  destruct (tied k x); by simplify_eq.
Qed.

(** Every stable sort computes [stable_sort]: a list that is sorted and
    keeps the order of tied elements of [l] is [stable_sort l]. *)
Theorem stable_sort_unique l l' :
  StronglySorted not_after l' ->
  (forall k, List.filter (tied k) l' = List.filter (tied k) l) ->
  l' = stable_sort l.
Proof.
  intros Hs Hf. apply sorted_stable_unique; [done|apply stable_sort_sorted|].
  intros k. by rewrite stable_sort_stable.
Qed.

End laws.
End stable_sort.

Arguments Comparator {A} before.

(** ** Comparators that agree on a list *)

(** The sort consults the comparator on elements of the list only. *)
Lemma sort_insert_ext {A} (before1 before2 : A -> A -> bool) x l :
  (forall y, y ∈ l -> before1 y x = before2 y x) ->
  sort_insert before1 x l = sort_insert before2 x l.
Proof.
  induction l as [|y l IH]; intros H; cbn; [done|].
  rewrite <- (H y) by constructor.
  rewrite IH; [done|]. intros z Hz. apply H. by constructor.
Qed.

Lemma stable_sort_ext {A} (before1 before2 : A -> A -> bool) l :
  (forall x y, x ∈ l -> y ∈ l -> before1 x y = before2 x y) ->
  stable_sort before1 l = stable_sort before2 l.
Proof.
  induction l as [|x l IH]; intros H; [done|].
  rewrite !stable_sort_cons, IH.
  - apply sort_insert_ext. intros y Hy%stable_sort_elem_of.
    apply H; [by constructor|constructor].
  - intros y z Hy Hz. apply H; by constructor.
Qed.

(** ** Comparators by key *)

(** Ascending and descending order of an integer column. *)
Definition asc_by {A} (key : A -> Z) (x y : A) : bool := (key x <? key y)%Z.
Definition desc_by {A} (key : A -> Z) (x y : A) : bool := (key y <? key x)%Z.

#[export] Instance asc_by_comparator {A} (key : A -> Z) :
  Comparator (asc_by key).
Proof. split; unfold asc_by; intros; lia. Qed.

#[export] Instance desc_by_comparator {A} (key : A -> Z) :
  Comparator (desc_by key).
Proof. split; unfold desc_by; intros; lia. Qed.

(** The head of a descending sort carries the greatest key. *)
Lemma desc_sort_head_max {A} (key : A -> Z) (m : A) (l : list A) :
  head (stable_sort (desc_by key) l) = Some m ->
  m ∈ l /\ forall x, x ∈ l -> (key x <= key m)%Z.
Proof.
  intros [Hm Hle]%stable_sort_head; [|apply _]. split; [done|].
  intros x Hx. specialize (Hle x Hx). unfold desc_by in Hle. lia.
Qed.

Lemma asc_sort_sorted {A} (key : A -> Z) (l : list A) :
  StronglySorted (fun x y => (key x <= key y)%Z) (stable_sort (asc_by key) l).
Proof.
  eapply StronglySorted_weaken; [|apply stable_sort_sorted, _].
  unfold not_after, asc_by. intros x y. lia.
Qed.

Lemma desc_sort_sorted {A} (key : A -> Z) (l : list A) :
  StronglySorted (fun x y => (key y <= key x)%Z) (stable_sort (desc_by key) l).
Proof.
  eapply StronglySorted_weaken; [|apply stable_sort_sorted, _].
  unfold not_after, desc_by. intros x y. lia.
Qed.

(** ** A concrete sort *)

Lemma stable_sort_unique_witness :
  [(1, 20); (1, 10); (2, 30)]%Z =
  stable_sort (asc_by fst) [(2, 30); (1, 20); (1, 10)]%Z.
Proof.
  apply (stable_sort_unique (asc_by fst)).
  - repeat constructor.
  - intros [k v]. unfold tied, asc_by. cbn.
    destruct (Z.ltb_spec k 1), (Z.ltb_spec 1 k), (Z.ltb_spec k 2),
      (Z.ltb_spec 2 k); cbn; try done; lia.
Defined.
