(* ===== verification/Store.v ===== *)
(** * Store: the relational store behind [db.query]

    config/database.js exports a promise-based pool; every handler reaches
    the MySQL database through [db.query(sql, params)].  This file holds
    what those statements act on: the four tables as lists of rows in
    storage order with their AUTO_INCREMENT counters ([Db]), the meaning of
    [SELECT ... WHERE], [UPDATE ... WHERE], [DELETE ... WHERE], [COUNT] and
    [SUM] on a table, the abstraction of a keyed table as a finite map
    ([table_map]), the interface [Driver] that says how a JavaScript
    value bound to a [?] placeholder becomes a column value (mysql2 and the
    server's type conversion, which the sources only call) and the
    interface [Collation] that orders a text column, one instance of each
    for concrete runs, and the invariant [db_wf] that primary keys and
    counters maintain. *)

From Stdlib Require Import ZArith Ascii DecimalString DecimalZ DecimalPos.
From Stdlib Require Import OrderedTypeEx.
From stdpp Require Import base tactics option list strings gmap.
From S2P Require Import Prelude Sorting.

#[local] Open Scope Z_scope.

(** ** Rows *)

(** A row of [users]. *)
Record User : Type := mkUser {
  u_id : Z;
  u_name : string;
  u_email : string;
  u_password : string;
  u_phone : string;
  u_blood_type : string;
  u_address : string;
  u_created_at : Z
}.

(** A row of [blood_banks]; coordinates are DECIMAL columns, which the
    driver hands over as strings (hence the [parseFloat] of the handler). *)
Record BloodBank : Type := mkBloodBank {
  bb_id : Z;
  bb_name : string;
  bb_latitude : string;
  bb_longitude : string;
  bb_address : string;
  bb_phone : string
}.

(** A row of [blood_stock]. *)
Record BloodStock : Type := mkBloodStock {
  bs_blood_bank_id : Z;
  bs_blood_type : string;
  bs_quantity : Z
}.

(** A row of [donation_history]; a date is the integer YYYYMMDD, whose
    order is the order of dates. *)
Record Donation : Type := mkDonation {
  dh_id : Z;
  dh_user_id : Z;
  dh_blood_bank_id : Z;
  dh_donation_date : Z;
  dh_blood_type : string;
  dh_quantity : Z;
  dh_status : string;
  dh_notes : option string;
  dh_created_at : Z
}.

#[export] Instance User_eq_dec : EqDecision User.
Proof. solve_decision. Defined.
#[export] Instance BloodBank_eq_dec : EqDecision BloodBank.
Proof. solve_decision. Defined.
#[export] Instance BloodStock_eq_dec : EqDecision BloodStock.
Proof. solve_decision. Defined.
#[export] Instance Donation_eq_dec : EqDecision Donation.
Proof. solve_decision. Defined.

(** ** The database *)

Record Db : Type := mkDb {
  users : list User;
  blood_banks : list BloodBank;
  blood_stock : list BloodStock;
  donation_history : list Donation;
  next_user_id : Z;
  next_donation_id : Z;
  db_now : Z
}.

Definition set_users (f : list User -> list User) (n : Z) (db : Db) : Db :=
  mkDb (f (users db)) (blood_banks db) (blood_stock db) (donation_history db)
       n (next_donation_id db) (db_now db).

Definition set_donations (f : list Donation -> list Donation) (n : Z)
    (db : Db) : Db :=
  mkDb (users db) (blood_banks db) (blood_stock db) (f (donation_history db))
       (next_user_id db) n (db_now db).

Definition empty_db : Db := mkDb [] [] [] [] 1 1 0.

(** [db'] differs from [db] in [donation_history] and its counter at
    most: what a statement on that table leaves alone. *)
Definition same_but_donations (db db' : Db) : Prop :=
  users db' = users db /\ blood_banks db' = blood_banks db
  /\ blood_stock db' = blood_stock db /\ next_user_id db' = next_user_id db
  /\ db_now db' = db_now db.

(** A statement that changes no row and no counter changes nothing. *)
Lemma set_donations_same f db :
  f (donation_history db) = donation_history db ->
  set_donations f (next_donation_id db) db = db.
Proof. intros H. unfold set_donations. rewrite H. by destruct db. Qed.

(** The same for [users]. *)
Definition same_but_users (db db' : Db) : Prop :=
  blood_banks db' = blood_banks db /\ blood_stock db' = blood_stock db
  /\ donation_history db' = donation_history db
  /\ next_donation_id db' = next_donation_id db /\ db_now db' = db_now db.

Lemma set_users_frame f n db : same_but_users db (set_users f n db).
Proof. done. Qed.

Lemma set_users_same f db :
  f (users db) = users db -> set_users f (next_user_id db) db = db.
Proof. intros H. unfold set_users. rewrite H. by destruct db. Qed.

Lemma set_donations_frame f n db : same_but_donations db (set_donations f n db).
Proof. done. Qed.

(** ** Statements on one table *)

Section sql.
Context {Row : Type}.
Implicit Types (p : Row -> bool) (t : list Row).

(** [SELECT * FROM t WHERE p] *)
Definition sql_select p t : list Row := List.filter p t.

(** [UPDATE t SET ... WHERE p] *)
Definition sql_update p (f : Row -> Row) t : list Row :=
  (fun r => if p r then f r else r) <$> t.

(** [DELETE FROM t WHERE p] *)
Definition sql_delete p t : list Row := List.filter (fun r => negb (p r)) t.

(** [SELECT COUNT( * ) FROM t WHERE p] *)
Definition sql_count p t : Z := Z.of_nat (length (sql_select p t)).

(** [SELECT SUM(col) FROM t WHERE p]: NULL over no row. *)
Definition sql_sum (col : Row -> Z) p t : option Z :=
  match sql_select p t with
  | [] => None
  | rows => Some (foldr (fun r acc => col r + acc) 0 rows)
  end.

Lemma sql_select_cons p r t :
  sql_select p (r :: t) = if p r then r :: sql_select p t else sql_select p t.
Proof. done. Qed.

Lemma sql_update_cons p f r t :
  sql_update p f (r :: t) = (if p r then f r else r) :: sql_update p f t.
Proof. done. Qed.

Lemma sql_delete_cons p r t :
  sql_delete p (r :: t) = if p r then sql_delete p t else r :: sql_delete p t.
Proof. unfold sql_delete. cbn. by destruct (p r). Qed.

Lemma elem_of_sql_select p t r : r ∈ sql_select p t <-> r ∈ t /\ p r = true.
Proof. unfold sql_select. rewrite !list_elem_of_In. apply filter_In. Qed.

Lemma elem_of_sql_delete p t r : r ∈ sql_delete p t <-> r ∈ t /\ p r = false.
Proof.
  unfold sql_delete. rewrite !list_elem_of_In, filter_In, negb_true_iff. done.
Qed.

Lemma sql_select_none p t :
  sql_select p t = [] <-> forall r, r ∈ t -> p r = false.
Proof.
  split.
  - intros H r Hr. destruct (p r) eqn:E; [|done].
    assert (r ∈ sql_select p t) as Hin by by apply elem_of_sql_select.
    rewrite H in Hin. by apply elem_of_nil in Hin.
  - intros H. destruct (sql_select p t) as [|r l] eqn:E; [done|].
    assert (r ∈ sql_select p t) as [Hr Hp]%elem_of_sql_select
      by (rewrite E; constructor).
    by rewrite (H r Hr) in Hp.
Qed.

(** A statement whose [WHERE] matches no row changes nothing. *)
Lemma sql_delete_none p t : sql_select p t = [] -> sql_delete p t = t.
Proof.
  rewrite sql_select_none. intros H. unfold sql_delete.
  induction t as [|r t IH]; [done|]. cbn.
  rewrite (H r) by constructor. cbn. f_equal. apply IH.
  intros r' Hr'. apply H. by constructor.
Qed.

Lemma sql_update_none p f t : sql_select p t = [] -> sql_update p f t = t.
Proof.
  rewrite sql_select_none. intros H. unfold sql_update.
  induction t as [|r t IH]; [done|]. cbn.
  rewrite (H r) by constructor. f_equal. apply IH.
  intros r' Hr'. apply H. by constructor.
Qed.

Lemma sql_update_length p f t : length (sql_update p f t) = length t.
Proof. unfold sql_update. by rewrite length_fmap. Qed.

(** An update that leaves a column alone leaves that column of the table
    alone. *)
Lemma sql_update_col {C} (col : Row -> C) p f t :
  (forall r, col (f r) = col r) -> col <$> sql_update p f t = col <$> t.
Proof.
  intros H. unfold sql_update. rewrite <- list_fmap_compose.
  apply list_fmap_ext. intros _ r _. cbn. by destruct (p r).
Qed.

Lemma elem_of_sql_update p f t r' :
  r' ∈ sql_update p f t <->
  exists r, r ∈ t /\ r' = if p r then f r else r.
Proof.
  unfold sql_update. rewrite list_elem_of_fmap.
  split; intros (r & ? & ?); eauto.
Qed.

Lemma sql_update_Forall (P : Row -> Prop) p f t :
  Forall P t -> (forall r, P r -> p r = true -> P (f r)) ->
  Forall P (sql_update p f t).
Proof.
  intros Ht Hf. unfold sql_update. apply Forall_fmap.
  eapply Forall_impl; [exact Ht|]. intros r Hr. cbn.
  destruct (p r) eqn:E; auto.
Qed.

Lemma sql_delete_Forall (P : Row -> Prop) p t :
  Forall P t -> Forall P (sql_delete p t).
Proof.
  rewrite !Forall_forall. intros H r [Hr _]%elem_of_sql_delete. auto.
Qed.

Lemma sql_select_Forall (P : Row -> Prop) p t :
  Forall P t -> Forall P (sql_select p t).
Proof.
  rewrite !Forall_forall. intros H r [Hr _]%elem_of_sql_select. auto.
Qed.

(** Deleting rows keeps the keys that remain distinct. *)
Lemma sql_delete_NoDup {C} (col : Row -> C) p t :
  NoDup (col <$> t) -> NoDup (col <$> sql_delete p t).
Proof.
  unfold sql_delete. induction t as [|r t IH]; cbn; [done|].
  rewrite NoDup_cons. intros [Hr Ht]. destruct (p r); cbn; [auto|].
  apply NoDup_cons. split; [|auto].
  rewrite list_elem_of_fmap in *. intros (r' & Heq & Hr').
  apply Hr. exists r'. split; [done|].
  apply list_elem_of_In, filter_In in Hr' as [Hr' _]. by apply list_elem_of_In.
Qed.

Lemma sql_count_nonneg p t : 0 <= sql_count p t.
Proof. unfold sql_count. lia. Qed.

Lemma sql_sum_None (col : Row -> Z) p t :
  sql_sum col p t = None <-> sql_select p t = [].
Proof. unfold sql_sum. by destruct (sql_select p t). Qed.

End sql.

(** With a unique key, [WHERE key = k] selects at most one row. *)
Lemma sql_select_key_unique {Row} (key : Row -> Z) (k : Z) (t : list Row) :
  NoDup (key <$> t) ->
  (length (sql_select (fun r => (key r =? k)%Z) t) <= 1)%nat.
Proof.
  unfold sql_select. induction t as [|r t IH]; cbn; [lia|].
  rewrite NoDup_cons. intros [Hr Ht]. destruct (Z.eqb_spec (key r) k); [|auto].
  cbn. enough (List.filter (fun r => key r =? k) t = []) as -> by (cbn; lia).
  apply sql_select_none. intros r' Hr'. apply Z.eqb_neq. intros Heq.
  apply Hr, list_elem_of_fmap. exists r'. split; [congruence|done].
Qed.

(** ** A keyed table as a finite map *)

(** The abstract view of a table with a key column: the map from a key to
    the first row that carries it (the only one, under [db_wf]). *)
Section table_map.
Context {Row : Type} (key : Row -> Z).
Implicit Types (t : list Row) (k : Z).

Definition table_map t : gmap Z Row :=
  list_to_map ((fun r => (key r, r)) <$> t).

Lemma table_map_cons r t : table_map (r :: t) = <[key r := r]> (table_map t).
Proof. done. Qed.

(** [WHERE key = k] finds what the map holds at [k]. *)
Lemma table_map_lookup t k :
  table_map t !! k = head (sql_select (fun r => key r =? k) t).
Proof.
  induction t as [|r t IH]; [done|].
  rewrite table_map_cons, lookup_insert. unfold sql_select in *. cbn.
  case_decide as Hk; destruct (Z.eqb_spec (key r) k); try done.
Qed.

(** No row under a key the map does not hold. *)
Lemma table_map_lookup_None t k :
  table_map t !! k = None -> sql_select (fun r => key r =? k) t = [].
Proof. rewrite table_map_lookup. by destruct (sql_select _ t). Qed.

Lemma table_map_elem_of t k r : table_map t !! k = Some r -> r ∈ t /\ key r = k.
Proof.
  rewrite table_map_lookup. intros Hh.
  assert (r ∈ sql_select (fun r => key r =? k) t) as Hr.
  { destruct (sql_select _ t); simplify_eq/=. constructor. }
  apply elem_of_sql_select in Hr as [? ?%Z.eqb_eq]. done.
Qed.

(** [UPDATE ... WHERE key = k] is [alter] at [k]. *)
Lemma table_map_update (f : Row -> Row) t k :
  (forall r, key (f r) = key r) ->
  table_map (sql_update (fun r => key r =? k) f t) = alter f k (table_map t).
Proof.
  intros Hf. induction t as [|r t IH].
  - symmetry. apply alter_empty.
  - rewrite sql_update_cons, !table_map_cons, IH.
    destruct (Z.eqb_spec (key r) k) as [<-|Hk].
    + by rewrite Hf, alter_insert_eq, insert_alter_eq.
    + by rewrite alter_insert_ne.
Qed.

(** [DELETE ... WHERE key = k] is [delete] at [k]. *)
Lemma table_map_delete t k :
  table_map (sql_delete (fun r => key r =? k) t) = delete k (table_map t).
Proof.
  induction t as [|r t IH].
  - symmetry. apply delete_empty.
  - rewrite sql_delete_cons.
    destruct (Z.eqb_spec (key r) k) as [<-|Hk].
    + by rewrite IH, table_map_cons, delete_insert_eq.
    + by rewrite !table_map_cons, IH, delete_insert_ne.
Qed.

(** [INSERT] of a row with a fresh key is [insert]. *)
Lemma table_map_append t r :
  key r ∉ key <$> t -> table_map (t ++ [r]) = <[key r := r]> (table_map t).
Proof.
  induction t as [|r' t IH]; [done|].
  rewrite fmap_cons, not_elem_of_cons. intros [Hne Hk].
  rewrite <- app_comm_cons, !table_map_cons, IH by done.
  by rewrite insert_insert_ne.
Qed.

End table_map.

(** ** Joins *)

Section joins.
Context {A B : Type}.
Implicit Types (l : list A) (g : A -> list B) (p : B -> bool).

Lemma sql_select_app {R} (p : R -> bool) (l1 l2 : list R) :
  sql_select p (l1 ++ l2) = sql_select p l1 ++ sql_select p l2.
Proof. apply List.filter_app. Qed.

(** [WHERE] over a join, pushed to the rows each outer row joins with. *)
Lemma sql_select_bind p l g :
  sql_select p (l ≫= g) = l ≫= (fun x => sql_select p (g x)).
Proof.
  induction l as [|x l IH]; [done|].
  by rewrite !bind_cons, sql_select_app, IH.
Qed.

(** A [WHERE] that only looks at the outer row selects outer rows. *)
Lemma sql_select_bind_outer (q : A -> bool) p l g :
  (forall x y, y ∈ g x -> p y = q x) ->
  sql_select p (l ≫= g) = sql_select q l ≫= g.
Proof.
  intros H. rewrite sql_select_bind. induction l as [|x l IH]; [done|].
  rewrite bind_cons, IH. unfold sql_select at 3. cbn.
  assert (sql_select p (g x) = if q x then g x else []) as ->.
  { specialize (H x). destruct (q x).
    - unfold sql_select. apply forallb_filter_id, forallb_forall.
      intros y Hy. apply H. by apply list_elem_of_In.
    - apply sql_select_none. auto. }
  by destruct (q x).
Qed.
End joins.

Lemma sql_select_ext {R} (p q : R -> bool) (t : list R) :
  (forall r, p r = q r) -> sql_select p t = sql_select q t.
Proof. intros H. apply List.filter_ext. auto. Qed.

(** Altering a key that is present is inserting the altered row. *)
Lemma alter_present {A} (f : A -> A) (m : gmap Z A) k x :
  m !! k = Some x -> alter f k m = <[k := f x]> m.
Proof.
  intros Hk. apply map_eq. intros j. destruct (decide (j = k)) as [->|Hj].
  - by rewrite lookup_alter_eq, lookup_insert_eq, Hk.
  - by rewrite lookup_alter_ne, lookup_insert_ne.
Qed.

(** With a unique key, [WHERE key = k] is the lookup of the map. *)
Lemma sql_select_key {Row} (key : Row -> Z) (k : Z) (t : list Row) :
  NoDup (key <$> t) ->
  sql_select (fun r => key r =? k) t = option_list (table_map key t !! k).
Proof.
  intros Hnd. rewrite table_map_lookup.
  pose proof (sql_select_key_unique key k t Hnd) as Hlen.
  by destruct (sql_select _ t) as [|r [|r' l]]; cbn in *; try lia.
Qed.

Lemma bind_option_list {A B} (o : option A) (g : A -> list B) :
  option_list o ≫= g = match o with Some x => g x | None => [] end.
Proof. destruct o; cbn; [apply app_nil_r | done]. Qed.

(** ** The driver: from bound values to columns, and back *)

(** What the store does with the JavaScript value bound to a placeholder
    of an [INSERT] or [UPDATE], by the type of the column: [None] when the
    statement is refused; and what the client makes of a DECIMAL of a
    result row, the type of [SUM(...)] over an integer column: a number,
    or its decimal text.  The laws are the conversions every
    configuration of mysql2 and MySQL agrees on; the handlers are
    verified against this interface. *)
Class Driver : Type := {
  bind_int : JsVal -> option Z;
  bind_text : JsVal -> option string;
  bind_text_null : JsVal -> option (option string);
  bind_date : JsVal -> option Z;
  decode_decimal : Z -> JsVal;
  bind_int_num z : bind_int (JsNum z) = Some z;
  bind_text_str s : bind_text (JsStr s) = Some s;
  bind_text_null_str s : bind_text_null (JsStr s) = Some (Some s);
  bind_text_null_undefined : bind_text_null JsUndefined = Some None;
  bind_text_null_null : bind_text_null JsNull = Some None
}.

(** The collation of a text column: the order [ORDER BY] sorts it by. *)
Class Collation : Type := {
  collates_before : string -> string -> bool;
  collation_comparator :: Comparator collates_before
}.

(** [a = b] on a text column: neither collates before the other. *)
Definition collates_equal `{Collation} (a b : string) : bool :=
  tied collates_before a b.

(** [ORDER BY col] on a text column. *)
Definition asc_by_text `{Collation} {A} (key : A -> string) (x y : A) : bool :=
  collates_before (key x) (key y).

#[export] Instance asc_by_text_comparator `{Collation} {A} (key : A -> string) :
  Comparator (asc_by_text key).
Proof.
  split; unfold asc_by_text; intros *.
  - apply before_asym, _.
  - apply before_negtrans, _.
Qed.

(** ** One driver, for concrete runs *)

(** Decimal integers, as the server reads a numeric string. *)
Definition parse_int (s : string) : option Z :=
  Z.of_int <$> NilZero.int_of_string s.

Definition print_int (z : Z) : string := NilZero.string_of_int (Z.to_int z).

Fixpoint digits (acc : Z) (s : list Ascii.ascii) : option Z :=
  match s with
  | [] => Some acc
  | c :: s' => d ← digit c; digits (10 * acc + d) s'
  end.

(** ['YYYY-MM-DD'] with a month of 1 to 12 and a day of 1 to 31. *)
Definition parse_date (s : string) : option Z :=
  match String.list_ascii_of_string s with
  | [y1; y2; y3; y4; "-"%char; m1; m2; "-"%char; d1; d2] =>
      y ← digits 0 [y1; y2; y3; y4];
      m ← digits 0 [m1; m2];
      d ← digits 0 [d1; d2];
      if (1 <=? m) && (m <=? 12) && (1 <=? d) && (d <=? 31)
      then Some (y * 10000 + m * 100 + d) else None
  | _ => None
  end.

(** A strict-mode server: numbers and numeric strings go into an integer
    column, strings and numbers into a text column, [null] and [undefined]
    only into a nullable column, objects nowhere. *)
Definition strict_bind_int (v : JsVal) : option Z :=
  match v with
  | JsNum z => Some z
  | JsStr s => parse_int s
  | JsBool b => Some (if b then 1 else 0)
  | _ => None
  end.

Definition strict_bind_text (v : JsVal) : option string :=
  match v with
  | JsStr s => Some s
  | JsNum z => Some (print_int z)
  | JsBool b => Some (if b then "1" else "0")%string
  | _ => None
  end.

Definition strict_bind_text_null (v : JsVal) : option (option string) :=
  match v with
  | JsUndefined | JsNull => Some None
  | _ => Some <$> strict_bind_text v
  end.

Definition strict_bind_date (v : JsVal) : option Z :=
  match v with
  | JsStr s => parse_date s
  | _ => None
  end.

#[export] Instance strict_driver : Driver := {|
  bind_int := strict_bind_int;
  bind_text := strict_bind_text;
  bind_text_null := strict_bind_text_null;
  bind_date := strict_bind_date;
  decode_decimal := JsNum;
  bind_int_num z := eq_refl;
  bind_text_str s := eq_refl;
  bind_text_null_str s := eq_refl;
  bind_text_null_undefined := eq_refl;
  bind_text_null_null := eq_refl
|}.

(** The same server behind a client that hands a DECIMAL over as its
    decimal text. *)
Definition text_decimals : Driver := {|
  bind_int := strict_bind_int;
  bind_text := strict_bind_text;
  bind_text_null := strict_bind_text_null;
  bind_date := strict_bind_date;
  decode_decimal z := JsStr (print_int z);
  bind_int_num z := eq_refl;
  bind_text_str s := eq_refl;
  bind_text_null_str s := eq_refl;
  bind_text_null_undefined := eq_refl;
  bind_text_null_null := eq_refl
|}.

(** Printing then parsing an integer gives it back. *)
Lemma parse_print_int z : parse_int (print_int z) = Some z.
Proof.
  unfold parse_int, print_int. rewrite NilZero.isi.
  - cbn. by rewrite DecimalZ.of_to.
  - destruct z as [|p|p]; cbn; try done.
    intros [=H]. by apply DecimalPos.Unsigned.to_uint_nonnil in H.
  - destruct z as [|p|p]; cbn; try done.
    intros [=H]. by apply DecimalPos.Unsigned.to_uint_nonnil in H.
Qed.

(** The binary collation: strings by their characters' codes. *)
Definition binary_before (a b : string) : bool :=
  match String.compare a b with Lt => true | _ => false end.

Lemma binary_before_lt a b : binary_before a b = true <-> String_as_OT.lt a b.
Proof.
  unfold binary_before. rewrite <- String_as_OT.cmp_lt.
  unfold String_as_OT.cmp. by destruct (String.compare a b).
Qed.

Lemma binary_before_total a b :
  binary_before a b = false -> binary_before b a = false -> a = b.
Proof.
  unfold binary_before. rewrite (String.compare_antisym a b).
  destruct (String.compare b a) eqn:E; cbn; try done.
  intros _ _. symmetry. by apply String.compare_eq_iff.
Qed.

Lemma binary_before_irrefl a : binary_before a a = false.
Proof.
  apply not_true_iff_false. intros H%binary_before_lt.
  by apply String_as_OT.lt_not_eq in H.
Qed.

Lemma binary_before_trans a b c :
  binary_before a b = true -> binary_before b c = true ->
  binary_before a c = true.
Proof. rewrite !binary_before_lt. apply String_as_OT.lt_trans. Qed.

#[export] Instance binary_comparator : Comparator binary_before.
Proof.
  split.
  - intros x y Hxy. apply not_true_iff_false. intros Hyx.
    pose proof (binary_before_trans _ _ _ Hxy Hyx) as H.
    by rewrite binary_before_irrefl in H.
  - intros x y z Hxy Hyz. apply not_true_iff_false. intros Hxz.
    destruct (binary_before y x) eqn:Hyx.
    + destruct (binary_before z y) eqn:Hzy.
      * pose proof (binary_before_trans _ _ _ Hzy
                      (binary_before_trans _ _ _ Hyx Hxz)) as H.
        by rewrite binary_before_irrefl in H.
      * apply (binary_before_total _ _ Hyz) in Hzy as ->. congruence.
    + apply (binary_before_total _ _ Hxy) in Hyx as ->. congruence.
Qed.

#[export] Instance binary_collation : Collation := {|
  collates_before := binary_before
|}.

(** ** Well-formed databases *)

(** What primary keys and AUTO_INCREMENT maintain: keys are positive,
    distinct and below the counter that issues the next one. *)
Record db_wf (db : Db) : Prop := mk_db_wf {
  wf_user_ids : NoDup (u_id <$> users db);
  wf_user_next : Forall (fun u => 0 < u_id u < next_user_id db) (users db);
  wf_bank_ids : NoDup (bb_id <$> blood_banks db);
  wf_donation_ids : NoDup (dh_id <$> donation_history db);
  wf_donation_next :
    Forall (fun d => 0 < dh_id d < next_donation_id db) (donation_history db);
  wf_next_pos : 0 < next_user_id db /\ 0 < next_donation_id db
}.

Lemma empty_db_wf : db_wf empty_db.
Proof. split; cbn; try done; constructor. Qed.

(** Appending a row under the counter's key and stepping the counter. *)
Lemma insert_donation_wf db (d : Donation) :
  db_wf db -> dh_id d = next_donation_id db ->
  db_wf (set_donations (fun t => t ++ [d]) (next_donation_id db + 1) db).
Proof.
  intros [] Hid. split; cbn; try done.
  - rewrite fmap_app. apply NoDup_app.
    split_and!; [done| |apply NoDup_singleton].
    intros k (d' & -> & Hd')%list_elem_of_fmap Hk. cbn in Hk.
    apply list_elem_of_singleton in Hk.
    eapply Forall_forall in wf_donation_next0; [|done]. lia.
  - apply Forall_app. split.
    + eapply Forall_impl; [done|]. cbn. lia.
    + apply Forall_singleton. lia.
  - lia.
Qed.

(** A statement that rewrites or removes rows of [donation_history]
    without touching their keys. *)
Lemma update_donations_wf db p (f : Donation -> Donation) :
  db_wf db -> (forall d, dh_id (f d) = dh_id d) ->
  db_wf (set_donations (sql_update p f) (next_donation_id db) db).
Proof.
  intros [] Hf. split; cbn; try done.
  - by rewrite sql_update_col.
  - apply sql_update_Forall; [done|]. intros d. by rewrite Hf.
Qed.

Lemma delete_donations_wf db p :
  db_wf db -> db_wf (set_donations (sql_delete p) (next_donation_id db) db).
Proof.
  intros []. split; cbn; try done.
  - by apply sql_delete_NoDup.
  - by apply sql_delete_Forall.
Qed.

Lemma insert_user_wf db (u : User) :
  db_wf db -> u_id u = next_user_id db ->
  db_wf (set_users (fun t => t ++ [u]) (next_user_id db + 1) db).
Proof.
  intros [] Hid. split; cbn; try done.
  - rewrite fmap_app. apply NoDup_app.
    split_and!; [done| |apply NoDup_singleton].
    intros k (u' & -> & Hu')%list_elem_of_fmap Hk. cbn in Hk.
    apply list_elem_of_singleton in Hk.
    eapply Forall_forall in wf_user_next0; [|done]. lia.
  - apply Forall_app. split.
    + eapply Forall_impl; [done|]. cbn. lia.
    + apply Forall_singleton. lia.
  - lia.
Qed.

Lemma update_users_wf db p (f : User -> User) :
  db_wf db -> (forall u, u_id (f u) = u_id u) ->
  db_wf (set_users (sql_update p f) (next_user_id db) db).
Proof.
  intros [] Hf. split; cbn; try done.
  - by rewrite sql_update_col.
  - apply sql_update_Forall; [done|]. intros u. by rewrite Hf.
Qed.

#[export] Hint Resolve empty_db_wf insert_donation_wf update_donations_wf
  delete_donations_wf insert_user_wf update_users_wf : donor.

(** A property of the store that the table of users has no part in. *)
Definition users_independent (P : Db -> Prop) : Prop :=
  forall db db', same_but_users db db' -> P db -> P db'.

(** A statement that writes [users] only and keeps keys and counters
    well-formed keeps every such property as well. *)
Lemma set_users_inv (P : Db -> Prop) f n db :
  users_independent P -> db_wf (set_users f n db) -> P db ->
  db_wf (set_users f n db) /\ P (set_users f n db).
Proof.
  intros HP Hwf Hdb. split; [done|].
  eapply HP; [apply set_users_frame|done].
Qed.

(** ** Statements as the handler monad issues them *)

(** A statement that only reads. *)
Definition sql_read {R} (f : Db -> R) : Db -> option (R * Db) :=
  fun db => Some (f db, db).

(** A statement whose key placeholder is bound to a route parameter
    ([req.params.id], a string): the store refuses it when it does not
    read the parameter as a key. *)
Definition keyed `{Driver} {R} (id : JsVal) (q : Z -> Db -> option (R * Db))
  : Db -> option (R * Db) :=
  match bind_int id with
  | Some n => q n
  | None => fun _ => None
  end.

(** The users and the blood banks of a database by key. *)
Definition user_map (db : Db) : gmap Z User := table_map u_id (users db).
Definition bank_map (db : Db) : gmap Z BloodBank :=
  table_map bb_id (blood_banks db).

(** The donations of a database by key. *)
Definition donation_map (db : Db) : gmap Z Donation :=
  table_map dh_id (donation_history db).

Lemma user_map_set f n db :
  user_map (set_users f n db) = table_map u_id (f (users db)).
Proof. done. Qed.

Lemma donation_map_set f n db :
  donation_map (set_donations f n db)
  = table_map dh_id (f (donation_history db)).
Proof. done. Qed.

(** The counter is above every key in use. *)
Lemma next_donation_id_fresh db :
  db_wf db -> next_donation_id db ∉ dh_id <$> donation_history db.
Proof.
  intros [] (d & Hid & Hd)%list_elem_of_fmap.
  eapply Forall_forall in wf_donation_next0; [|done]. lia.
Qed.

(** A handler that starts with a read, inside its [try]: on a store that
    answers, the rows are handed on and the store is as before. *)
Lemma run_try_read {R A} (f : Db -> R) (k : R -> Prog Db A) (h : Prog Db A)
    (w : World Db) :
  faulty w = false ->
  run (try_catch (db_query (sql_read f) ≫= k) h) w =
  run (try_catch (k (f (w_store w))) h) (advance w).
Proof. intros Hf. by rewrite run_try_query, Hf. Qed.

(** A read keeps every invariant of the store. *)
Lemma sql_read_preserves {R} (I : Db -> Prop) (f : Db -> R) :
  stmt_preserves I (sql_read f).
Proof. apply stmt_preserves_read. Qed.

Section keyed.
Context `{Driver} {R : Type}.
Implicit Types (id : JsVal) (q : Z -> Db -> option (R * Db)).

Lemma keyed_bound id n q : bind_int id = Some n -> keyed id q = q n.
Proof. intros Hn. unfold keyed. by rewrite Hn. Qed.

Lemma keyed_unbound id q db : bind_int id = None -> keyed id q db = None.
Proof. intros Hn. unfold keyed. by rewrite Hn. Qed.

Lemma keyed_preserves (I : Db -> Prop) id q :
  (forall n, stmt_preserves I (q n)) -> stmt_preserves I (keyed id q).
Proof.
  intros Hq. unfold keyed. destruct (bind_int id) as [n|]; [apply Hq|].
  by intros db r db' _ ?.
Qed.

Lemma keyed_read_preserves (I : Db -> Prop) id (f : Z -> Db -> R) :
  stmt_preserves I (keyed id (sql_read ∘ f)).
Proof. apply keyed_preserves. intros n. apply sql_read_preserves. Qed.

End keyed.

(** Bind the key of the statements of the goal to the integer the store
    reads the parameter as. *)
Ltac bind_key Hk := unfold keyed; rewrite !Hk; cbv beta iota; cbn [compose].

#[export] Hint Resolve sql_read_preserves keyed_preserves
  keyed_read_preserves : donor.
