(* ===== verification/Donations.v ===== *)
(** * Donations: routes/donations.js

    The five handlers of the donations router, each the whole callback of
    its route: [get_donations_by_user] (GET /user/:userId), [post_donation]
    (POST /), [put_donation_status] (PUT /:id/status), [get_donation]
    (GET /:id) and [delete_donation] (DELETE /:id), with the statements they
    issue.  [Lifecycle] is the flow the header of the source file and the
    specification describe (pending, then approved or rejected, then
    completed); the theorems say what the handlers do on every branch, which
    invariants they keep, and how far the status update is from that
    flow. *)

From Stdlib Require Import ZArith.
From stdpp Require Import base tactics option list strings relations.
From stdpp Require Import gmap sorting.
From S2P Require Import Prelude Outcomes Sorting Store.

#[local] Open Scope Z_scope.

(** ** Result rows *)

(** [dh.*, bb.name as blood_bank_name] *)
Record DonationView : Type := mkDonationView {
  dv_donation : Donation;
  dv_blood_bank_name : string
}.

(** [dh.*, bb.name as blood_bank_name, u.name as user_name] *)
Record DonationDetail : Type := mkDonationDetail {
  dd_donation : Donation;
  dd_blood_bank_name : string;
  dd_user_name : string
}.

(** [{ id: result.insertId }] *)
Record Created : Type := mkCreated { created_id : Z }.

(** ** The status taxonomy *)

Definition status_names : list string :=
  ["pending"; "approved"; "rejected"; "completed"]%string.

(** [const validStatuses = ['pending', 'approved', 'rejected', 'completed']] *)
Definition validStatuses : list JsVal := JsStr <$> status_names.

(** Every stored status is one of the taxonomy. *)
Definition status_inv (db : Db) : Prop :=
  Forall (fun d => dh_status d ∈ status_names) (donation_history db).

(** ** The statements *)

Section handlers.
Context {driver : Driver}.

(** [SELECT dh.*, bb.name as blood_bank_name FROM donation_history dh
     JOIN blood_banks bb ON dh.blood_bank_id = bb.id
     WHERE dh.user_id = ? ORDER BY dh.donation_date DESC] *)
Definition select_donations_by_user (userId : Z) (db : Db)
  : list DonationView :=
  stable_sort (desc_by (fun v => dh_donation_date (dv_donation v)))
    (sql_select (fun v => dh_user_id (dv_donation v) =? userId)
       (dh ← donation_history db;
        bb ← sql_select (fun bb => dh_blood_bank_id dh =? bb_id bb)
               (blood_banks db);
        [mkDonationView dh (bb_name bb)])).

(** [INSERT INTO donation_history (user_id, blood_bank_id, donation_date,
     blood_type, quantity, status, notes) VALUES (?, ?, ?, ?, ?, 'pending', ?)];
    the answer is [result.insertId]. *)
Definition insert_donation
    (user_id blood_bank_id donation_date blood_type quantity notes : JsVal)
    (db : Db) : option (Z * Db) :=
  uid ← bind_int user_id;
  bid ← bind_int blood_bank_id;
  date ← bind_date donation_date;
  bt ← bind_text blood_type;
  qty ← bind_int quantity;
  nt ← bind_text_null notes;
  let id := next_donation_id db in
  Some (id, set_donations
              (fun t => t ++ [mkDonation id uid bid date bt qty "pending" nt
                                (db_now db)])
              (id + 1) db).

(** The row an update of the status writes. *)
Definition with_status (st : string) (nt : option string) (d : Donation)
  : Donation :=
  mkDonation (dh_id d) (dh_user_id d) (dh_blood_bank_id d)
    (dh_donation_date d) (dh_blood_type d) (dh_quantity d) st nt
    (dh_created_at d).

(** [UPDATE donation_history SET status = ?, notes = ? WHERE id = ?] *)
Definition update_donation_status (status notes : JsVal) (id : Z) (db : Db)
  : option (unit * Db) :=
  st ← bind_text status;
  nt ← bind_text_null notes;
  Some ((), set_donations (sql_update (fun d => dh_id d =? id)
                             (with_status st nt))
              (next_donation_id db) db).

(** [SELECT dh.*, bb.name as blood_bank_name, u.name as user_name
     FROM donation_history dh
     JOIN blood_banks bb ON dh.blood_bank_id = bb.id
     JOIN users u ON dh.user_id = u.id WHERE dh.id = ?] *)
Definition select_donation_detail (id : Z) (db : Db) : list DonationDetail :=
  sql_select (fun v => dh_id (dd_donation v) =? id)
    (dh ← donation_history db;
     bb ← sql_select (fun bb => dh_blood_bank_id dh =? bb_id bb)
            (blood_banks db);
     u ← sql_select (fun u => dh_user_id dh =? u_id u) (users db);
     [mkDonationDetail dh (bb_name bb) (u_name u)]).

(** [DELETE FROM donation_history WHERE id = ?] *)
Definition delete_donation_row (id : Z) (db : Db) : option (unit * Db) :=
  Some ((), set_donations (sql_delete (fun d => dh_id d =? id))
              (next_donation_id db) db).

(** ** The handlers *)

(** GET /api/donations/user/:userId *)
Definition get_donations_by_user (userId : JsVal)
  : Prog Db (Response (list DonationView)) :=
  try_catch
    (donations ← db_query (keyed userId (sql_read ∘ select_donations_by_user));
     mret (json_ok donations))
    (mret (json_error 500 "Gagal mengambil riwayat donor")).

(** POST /api/donations *)
Definition post_donation
    (user_id blood_bank_id donation_date blood_type quantity notes : JsVal)
  : Prog Db (Response Created) :=
  try_catch
    (if negb (truthy user_id) || negb (truthy blood_bank_id)
        || negb (truthy donation_date) || negb (truthy blood_type)
        || negb (truthy quantity)
     then mret (json_error 400 "Data tidak lengkap")
     else
       insertId ← db_query (insert_donation user_id blood_bank_id
                              donation_date blood_type quantity notes);
       mret (json_created "Permintaan donor berhasil dibuat"
               (mkCreated insertId)))
    (mret (json_error 500 "Gagal membuat permintaan donor")).

(** PUT /api/donations/:id/status *)
Definition put_donation_status (id status notes : JsVal)
  : Prog Db (Response unit) :=
  try_catch
    (if negb (includes validStatuses status)
     then mret (json_error 400 "Status tidak valid")
     else
       _ ← db_query (keyed id (update_donation_status status notes));
       mret (json_msg "Status donor berhasil diupdate"))
    (mret (json_error 500 "Gagal mengupdate status donor")).

(** GET /api/donations/:id *)
Definition get_donation (id : JsVal) : Prog Db (Response DonationDetail) :=
  try_catch
    (donations ← db_query (keyed id (sql_read ∘ select_donation_detail));
     match donations with
     | [] => mret (json_error 404 "Riwayat donor tidak ditemukan")
     | d :: _ => mret (json_ok d)
     end)
    (mret (json_error 500 "Gagal mengambil data donor")).

(** DELETE /api/donations/:id *)
Definition delete_donation (id : JsVal) : Prog Db (Response unit) :=
  try_catch
    (_ ← db_query (keyed id delete_donation_row);
     mret (json_msg "Riwayat donor berhasil dihapus"))
    (mret (json_error 500 "Gagal menghapus riwayat donor")).

End handlers.

(** ** The documented lifecycle *)

(** The flow of the source file's header ("FLOW DONOR") and of the
    specification: a request is created pending, the blood bank approves or
    rejects it, and an approved donation is completed. *)
Module Lifecycle.

Inductive Status : Type := Pending | Approved | Rejected | Completed.

#[export] Instance Status_eq_dec : EqDecision Status.
Proof. solve_decision. Defined.

Definition status_name (s : Status) : string :=
  match s with
  | Pending => "pending"
  | Approved => "approved"
  | Rejected => "rejected"
  | Completed => "completed"
  end.

Definition status_of_name (n : string) : option Status :=
  if decide (n = "pending") then Some Pending
  else if decide (n = "approved") then Some Approved
  else if decide (n = "rejected") then Some Rejected
  else if decide (n = "completed") then Some Completed
  else None.

Inductive flow : Status -> Status -> Prop :=
| flow_approve : flow Pending Approved
| flow_reject : flow Pending Rejected
| flow_complete : flow Approved Completed.

Definition flow_allowed (a b : Status) : bool :=
  match a, b with
  | Pending, Approved | Pending, Rejected | Approved, Completed => true
  | _, _ => false
  end.

(** How far a status is along the flow. *)
Definition rank (s : Status) : nat :=
  match s with
  | Pending => 0
  | Approved => 1
  | Rejected | Completed => 2
  end.

Definition terminal (s : Status) : Prop := forall s', ~ flow s s'.

Lemma flow_allowed_spec a b : flow_allowed a b = true <-> flow a b.
Proof.
  split; [|by destruct 1].
  destruct a, b; cbn; try done; constructor.
Qed.

#[export] Instance flow_dec a b : Decision (flow a b).
Proof.
  refine (cast_if (decide (flow_allowed a b = true)));
    by rewrite <- flow_allowed_spec.
Defined.

Lemma status_of_name_name s : status_of_name (status_name s) = Some s.
Proof. by destruct s. Qed.

Lemma status_name_of_name n s : status_of_name n = Some s -> status_name s = n.
Proof.
  unfold status_of_name. repeat case_decide; intros [=<-]; by subst.
Qed.

Lemma status_of_name_is_Some n :
  is_Some (status_of_name n) <-> n ∈ status_names.
Proof.
  unfold status_names. rewrite !elem_of_cons, elem_of_nil. split.
  - intros [s <-%status_name_of_name]. destruct s; cbn; tauto.
  - intros [->|[->|[->|[->|[]]]]]; by eexists.
Qed.

Lemma flow_rank a b : flow a b -> (rank a < rank b)%nat.
Proof. destruct 1; cbn; lia. Qed.

Lemma rejected_terminal : terminal Rejected.
Proof. intros s' H. inversion H. Qed.

Lemma completed_terminal : terminal Completed.
Proof. intros s' H. inversion H. Qed.

(** A path of the flow. *)
Inductive path : Status -> list Status -> Prop :=
| path_nil s : path s []
| path_cons s s' l : flow s s' -> path s' l -> path s (s' :: l).

Lemma path_rank s l : path s l -> (rank s + length l <= 2)%nat.
Proof.
  induction 1 as [s|s s' l Hf _ IH]; cbn.
  - destruct s; cbn; lia.
  - apply flow_rank in Hf. lia.
Qed.

End Lifecycle.

(** ** What the handlers do *)

Section properties.
Context {driver : Driver}.
Implicit Types (w : World Db) (db : Db) (id : Z) (key : JsVal) (s : string).

Lemma includes_validStatuses status :
  includes validStatuses status = true <->
  exists s, status = JsStr s /\ s ∈ status_names.
Proof. apply includes_strs. Qed.

(** *** PUT /:id/status *)

(** The statement of the update, once its placeholders are bound. *)
Lemma update_donation_status_bound s notes nt id db :
  bind_text_null notes = Some nt ->
  update_donation_status (JsStr s) notes id db =
  Some ((), set_donations
              (sql_update (fun d => dh_id d =? id) (with_status s nt))
              (next_donation_id db) db).
Proof.
  intros Hn. unfold update_donation_status. by rewrite bind_text_str, Hn.
Qed.

(** C4. A status outside the taxonomy (any value that is not one of the
    four strings) is answered 400 before any statement is issued: the
    store and the failure schedule are as before. *)
Theorem put_status_invalid key status notes w :
  (forall s, s ∈ status_names -> status <> JsStr s) ->
  run (put_donation_status key status notes) w =
    (Some (json_error 400 "Status tidak valid"), w)
  /\ queries_issued (put_donation_status key status notes) w = 0%nat.
Proof.
  intros Hs. unfold put_donation_status.
  destruct (includes validStatuses status) eqn:E; [|done].
  apply includes_validStatuses in E as (s & -> & Hin). by destruct (Hs s).
Qed.

(** A status of the taxonomy passes the guard. *)
Lemma run_put_status key id s notes nt w :
  bind_int key = Some id ->
  s ∈ status_names -> bind_text_null notes = Some nt -> faulty w = false ->
  run (put_donation_status key (JsStr s) notes) w =
    (Some (json_msg "Status donor berhasil diupdate"),
     mkWorld (set_donations
                (sql_update (fun d => dh_id d =? id) (with_status s nt))
                (next_donation_id (w_store w)) (w_store w))
             (tail (w_faults w))).
Proof.
  intros Hk Hs Hn Hf. unfold put_donation_status. bind_key Hk.
  rewrite (proj2 (includes_validStatuses _)) by eauto. cbn [negb].
  by rewrite run_try_query, Hf, (update_donation_status_bound _ _ nt).
Qed.

(** C1. A status of the taxonomy, on a store that answers: the response
    is 200; the donations by key are the old ones with the row of that id
    altered, which then carries the new status and the new notes whatever
    its status was; no other table and no counter changes. *)
Theorem put_status_ok key id s notes nt w :
  bind_int key = Some id ->
  s ∈ status_names -> bind_text_null notes = Some nt -> faulty w = false ->
  exists db',
    run (put_donation_status key (JsStr s) notes) w =
      (Some (json_msg "Status donor berhasil diupdate"),
       mkWorld db' (tail (w_faults w)))
    /\ donation_map db' = alter (with_status s nt) id (donation_map (w_store w))
    /\ (forall d, donation_map db' !! id = Some d ->
                  dh_status d = s /\ dh_notes d = nt)
    /\ next_donation_id db' = next_donation_id (w_store w)
    /\ same_but_donations (w_store w) db'.
Proof.
  intros Hk Hs Hn Hf. rewrite (run_put_status _ id _ _ nt) by done.
  eexists. split; [done|]. rewrite donation_map_set, table_map_update by done.
  split_and!; try done.
  intros d. rewrite lookup_alter_eq. by intros (d0 & _ & ->)%fmap_Some.
Qed.

(** A failure of the store, or notes the driver refuses, are answered 500
    and leave the table as it was. *)
Theorem put_status_failure key s notes w :
  s ∈ status_names ->
  faulty w = true \/ bind_text_null notes = None \/ bind_int key = None ->
  run (put_donation_status key (JsStr s) notes) w =
    (Some (json_error 500 "Gagal mengupdate status donor"), advance w).
Proof.
  intros Hs Hf. unfold put_donation_status.
  rewrite (proj2 (includes_validStatuses _)) by eauto. cbn [negb].
  rewrite run_try_query. destruct (faulty w); [done|].
  destruct Hf as [|[Hn|Hk]]; [done| |by rewrite keyed_unbound].
  unfold keyed, update_donation_status. rewrite bind_text_str, Hn.
  by destruct (bind_int key).
Qed.

(** An id that no row carries is answered like any other: 200, with the
    store as it was. *)
Theorem put_status_absent key id s notes nt w :
  bind_int key = Some id ->
  s ∈ status_names -> bind_text_null notes = Some nt -> faulty w = false ->
  donation_map (w_store w) !! id = None ->
  run (put_donation_status key (JsStr s) notes) w =
    (Some (json_msg "Status donor berhasil diupdate"), advance w).
Proof.
  intros Hk Hs Hn Hf Hid. rewrite (run_put_status _ id _ _ nt) by done.
  unfold advance. do 2 f_equal.
  by apply set_donations_same, sql_update_none, table_map_lookup_None.
Qed.

(** *** POST / *)

(** The five required fields, as the guard of the handler tests them. *)
Definition complete
    (user_id blood_bank_id donation_date blood_type quantity : JsVal) : bool :=
  truthy user_id && truthy blood_bank_id && truthy donation_date
  && truthy blood_type && truthy quantity.

Lemma post_guard_complete user_id blood_bank_id donation_date blood_type
    quantity :
  negb (truthy user_id) || negb (truthy blood_bank_id)
  || negb (truthy donation_date) || negb (truthy blood_type)
  || negb (truthy quantity)
  = negb (complete user_id blood_bank_id donation_date blood_type quantity).
Proof. unfold complete. by rewrite !negb_andb. Qed.

(** C9. A request with a required field absent, null, empty, zero or
    false is answered 400 and nothing is persisted: no statement is issued
    and the world is as before. *)
Theorem post_donation_incomplete user_id blood_bank_id donation_date
    blood_type quantity notes w :
  complete user_id blood_bank_id donation_date blood_type quantity = false ->
  run (post_donation user_id blood_bank_id donation_date blood_type quantity
         notes) w
  = (Some (json_error 400 "Data tidak lengkap"), w)
  /\ queries_issued (post_donation user_id blood_bank_id donation_date
                       blood_type quantity notes) w = 0%nat.
Proof.
  intros Hc. unfold post_donation. by rewrite post_guard_complete, Hc.
Qed.

(** The row a successful creation appends. *)
Definition created_row (db : Db) (uid bid date : Z) (bt : string) (qty : Z)
    (nt : option string) : Donation :=
  mkDonation (next_donation_id db) uid bid date bt qty "pending" nt (db_now db).

(** A complete request whose values the driver binds, on a store that
    answers. *)
Lemma run_post_donation user_id blood_bank_id donation_date blood_type
    quantity notes uid bid date bt qty nt w :
  complete user_id blood_bank_id donation_date blood_type quantity = true ->
  bind_int user_id = Some uid -> bind_int blood_bank_id = Some bid ->
  bind_date donation_date = Some date -> bind_text blood_type = Some bt ->
  bind_int quantity = Some qty -> bind_text_null notes = Some nt ->
  faulty w = false ->
  run (post_donation user_id blood_bank_id donation_date blood_type quantity
         notes) w
  = (Some (json_created "Permintaan donor berhasil dibuat"
             (mkCreated (next_donation_id (w_store w)))),
     mkWorld (set_donations
                (fun t => t ++ [created_row (w_store w) uid bid date bt qty nt])
                (next_donation_id (w_store w) + 1) (w_store w))
             (tail (w_faults w))).
Proof.
  intros Hc Hu Hb Hd Ht Hq Hn Hf. unfold post_donation.
  rewrite post_guard_complete, Hc. cbn [negb].
  rewrite run_try_query, Hf. unfold insert_donation.
  by rewrite Hu, Hb, Hd, Ht, Hq, Hn.
Qed.

(** C5. A complete request whose values the driver binds, on a well-formed
    database and a store that answers: the response is 201 with the key
    the counter held; the donations by key are the old ones with one row
    inserted at that key, in status pending; the counter is one more; no
    other table changes. *)
Theorem post_donation_created user_id blood_bank_id donation_date blood_type
    quantity notes uid bid date bt qty nt w :
  db_wf (w_store w) ->
  complete user_id blood_bank_id donation_date blood_type quantity = true ->
  bind_int user_id = Some uid -> bind_int blood_bank_id = Some bid ->
  bind_date donation_date = Some date -> bind_text blood_type = Some bt ->
  bind_int quantity = Some qty -> bind_text_null notes = Some nt ->
  faulty w = false ->
  exists db',
    run (post_donation user_id blood_bank_id donation_date blood_type quantity
           notes) w
    = (Some (json_created "Permintaan donor berhasil dibuat"
               (mkCreated (next_donation_id (w_store w)))),
       mkWorld db' (tail (w_faults w)))
    /\ donation_map db' =
         <[next_donation_id (w_store w) :=
             mkDonation (next_donation_id (w_store w)) uid bid date bt qty
               "pending" nt (db_now (w_store w))]> (donation_map (w_store w))
    /\ next_donation_id db' = next_donation_id (w_store w) + 1
    /\ same_but_donations (w_store w) db'.
Proof.
  intros Hwf Hc Hu Hb Hd Ht Hq Hn Hf.
  rewrite (run_post_donation _ _ _ _ _ _ uid bid date bt qty nt) by done.
  eexists. split; [done|]. split; [|done]. rewrite donation_map_set.
  by rewrite table_map_append by by apply next_donation_id_fresh.
Qed.

(** C36. The guard tests that the quantity is present, not that it is a
    volume: a negative number of millilitres is stored. *)
Theorem post_donation_negative_quantity uid bid ds date bt q w :
  uid <> 0 -> bid <> 0 -> ds <> "" -> bt <> "" ->
  bind_date (JsStr ds) = Some date -> q < 0 -> faulty w = false ->
  exists d,
    res_status <$> (run (post_donation (JsNum uid) (JsNum bid) (JsStr ds)
                           (JsStr bt) (JsNum q) JsUndefined) w).1 = Some 201
    /\ d ∈ donation_history
             (w_store (run (post_donation (JsNum uid) (JsNum bid) (JsStr ds)
                              (JsStr bt) (JsNum q) JsUndefined) w).2)
    /\ dh_quantity d = q.
Proof.
  intros Hu Hb Hs Ht Hd Hq Hf.
  rewrite (run_post_donation _ _ _ _ _ _ uid bid date bt q None);
    rewrite ?bind_int_num, ?bind_text_str, ?bind_text_null_undefined; try done.
  - eexists. cbn [fst snd w_store fmap option_fmap option_map res_status
                  json_created set_donations donation_history].
    split; [done|]. split; [apply elem_of_app; right; constructor|done].
  - unfold complete.
    rewrite !(proj2 (truthy_num _)), !(proj2 (truthy_str_iff _));
      try done; lia.
Qed.

(** C37. The quantity 0 is refused as a number and stored as a text: a form
    body, which server.js also parses, carries every field as a string,
    and the string [0] is truthy. *)
Theorem post_donation_zero_text user_id blood_bank_id donation_date
    blood_type notes uid bid date bt nt w :
  complete user_id blood_bank_id donation_date blood_type (JsStr "0") = true ->
  bind_int user_id = Some uid -> bind_int blood_bank_id = Some bid ->
  bind_date donation_date = Some date -> bind_text blood_type = Some bt ->
  bind_int (JsStr "0") = Some 0 -> bind_text_null notes = Some nt ->
  faulty w = false ->
  complete user_id blood_bank_id donation_date blood_type (JsNum 0) = false
  /\ exists d,
       res_status <$> (run (post_donation user_id blood_bank_id donation_date
                              blood_type (JsStr "0") notes) w).1 = Some 201
       /\ d ∈ donation_history
                (w_store (run (post_donation user_id blood_bank_id
                                 donation_date blood_type (JsStr "0") notes)
                            w).2)
       /\ dh_quantity d = 0.
Proof.
  intros Hc Hu Hb Hd Ht Hq Hn Hf.
  split; [unfold complete; cbn; apply andb_false_r|].
  rewrite (run_post_donation _ _ _ _ _ _ uid bid date bt 0 nt) by done.
  eexists. cbn [fst snd w_store fmap option_fmap option_map res_status
                json_created set_donations donation_history].
  split; [done|]. split; [apply elem_of_app; right; constructor|done].
Qed.

(** *** DELETE /:id *)

Lemma run_delete_donation key id w :
  bind_int key = Some id ->
  faulty w = false ->
  run (delete_donation key) w =
    (Some (json_msg "Riwayat donor berhasil dihapus"),
     mkWorld (set_donations (sql_delete (fun d => dh_id d =? id))
                (next_donation_id (w_store w)) (w_store w))
             (tail (w_faults w))).
Proof.
  intros Hk Hf. unfold delete_donation. bind_key Hk.
  by rewrite run_try_query, Hf.
Qed.

(** Deletion is unconditional: on a store that answers, the response
    is 200 and the donations by key are the old ones without that key,
    whatever the status of the row was; no other table and no counter
    changes. *)
Theorem delete_donation_ok key id w :
  bind_int key = Some id ->
  faulty w = false ->
  exists db',
    run (delete_donation key) w =
      (Some (json_msg "Riwayat donor berhasil dihapus"),
       mkWorld db' (tail (w_faults w)))
    /\ donation_map db' = delete id (donation_map (w_store w))
    /\ next_donation_id db' = next_donation_id (w_store w)
    /\ same_but_donations (w_store w) db'.
Proof.
  intros Hk Hf. rewrite (run_delete_donation _ id) by done.
  eexists. split; [done|]. split; [|done]. apply table_map_delete.
Qed.

(** A failure of the store is answered 500 and nothing is deleted. *)
Theorem delete_donation_failure key w :
  faulty w = true \/ bind_int key = None ->
  run (delete_donation key) w =
    (Some (json_error 500 "Gagal menghapus riwayat donor"), advance w).
Proof.
  intros Hf. unfold delete_donation. rewrite run_try_query.
  destruct (faulty w); [done|]. destruct Hf as [|Hk]; [done|].
  by rewrite keyed_unbound.
Qed.

(** Deleting a key that no row carries still answers 200 and leaves
    the store as it was. *)
Theorem delete_donation_absent key id w :
  bind_int key = Some id ->
  faulty w = false -> donation_map (w_store w) !! id = None ->
  run (delete_donation key) w =
    (Some (json_msg "Riwayat donor berhasil dihapus"), advance w).
Proof.
  intros Hk Hf Hid. rewrite (run_delete_donation _ id) by done.
  unfold advance. do 2 f_equal.
  by apply set_donations_same, sql_delete_none, table_map_lookup_None.
Qed.

(** *** GET /:id *)

(** The detail of a donation, read off the three maps: what the double
    join computes. *)
Definition detail_of (db : Db) (id : Z) : option DonationDetail :=
  dh ← donation_map db !! id;
  bb ← bank_map db !! dh_blood_bank_id dh;
  u ← user_map db !! dh_user_id dh;
  Some (mkDonationDetail dh (bb_name bb) (u_name u)).

Lemma join_key_select {Row} (key : Row -> Z) (k : Z) (t : list Row) :
  NoDup (key <$> t) ->
  sql_select (fun r => k =? key r) t = option_list (table_map key t !! k).
Proof.
  intros Hnd. rewrite <- sql_select_key by done.
  apply sql_select_ext. intros r. apply Z.eqb_sym.
Qed.

(** On a well-formed database the double join of GET /:id selects
    exactly the detail found by key: the donation of that id, with the
    name of its blood bank and of its user, when all three exist. *)
Lemma select_donation_detail_lookup db id :
  db_wf db -> select_donation_detail id db = option_list (detail_of db id).
Proof.
  intros Hwf. unfold select_donation_detail, detail_of.
  rewrite (sql_select_bind_outer (fun dh => dh_id dh =? id)).
  - rewrite sql_select_key, bind_option_list by apply Hwf.
    fold (donation_map db). destruct (donation_map db !! id) as [dh|]; [|done].
    cbn [mbind option_bind]. rewrite (join_key_select bb_id) by apply Hwf.
    rewrite bind_option_list. fold (bank_map db).
    destruct (bank_map db !! _) as [bb|]; [|done].
    cbn [mbind option_bind]. rewrite (join_key_select u_id) by apply Hwf.
    rewrite bind_option_list. fold (user_map db).
    by destruct (user_map db !! _).
  - intros dh v (bb & Hv & _)%list_elem_of_bind.
    apply list_elem_of_bind in Hv as (u & Hv & _).
    by apply list_elem_of_singleton in Hv as ->.
Qed.

(** GET /:id on a well-formed database and a store that answers:
    200 with the detail when the donation, its blood bank and its user all
    exist, and 404 otherwise; the store is not written. *)
Theorem get_donation_spec key id w :
  bind_int key = Some id ->
  db_wf (w_store w) -> faulty w = false ->
  run (get_donation key) w =
    (Some (match detail_of (w_store w) id with
           | Some d => json_ok d
           | None => json_error 404 "Riwayat donor tidak ditemukan"
           end), advance w).
Proof.
  intros Hk Hwf Hf. unfold get_donation. bind_key Hk. unfold sql_read.
  rewrite run_try_query, Hf, select_donation_detail_lookup by done.
  by destruct (detail_of _ id).
Qed.

(** A donation whose blood bank is not in [blood_banks] is answered 404
    although its row exists. *)
Theorem get_donation_orphan key id dh w :
  bind_int key = Some id ->
  db_wf (w_store w) -> faulty w = false ->
  donation_map (w_store w) !! id = Some dh ->
  bank_map (w_store w) !! dh_blood_bank_id dh = None ->
  run (get_donation key) w =
    (Some (json_error 404 "Riwayat donor tidak ditemukan"), advance w).
Proof.
  intros Hk Hwf Hf Hd Hb. unfold get_donation. bind_key Hk.
  rewrite run_try_read, select_donation_detail_lookup by done.
  unfold detail_of. by rewrite Hd; cbn; rewrite Hb.
Qed.

(** *** GET /user/:userId *)

(** The rows the join of GET /user/:userId ranges over. *)
Lemma elem_of_donations_by_user userId db v :
  v ∈ select_donations_by_user userId db <->
  dv_donation v ∈ donation_history db
  /\ dh_user_id (dv_donation v) = userId
  /\ exists bb, bb ∈ blood_banks db
        /\ bb_id bb = dh_blood_bank_id (dv_donation v)
        /\ dv_blood_bank_name v = bb_name bb.
Proof.
  unfold select_donations_by_user.
  rewrite stable_sort_elem_of, elem_of_sql_select, list_elem_of_bind.
  setoid_rewrite list_elem_of_bind. setoid_rewrite elem_of_sql_select.
  setoid_rewrite list_elem_of_singleton. rewrite Z.eqb_eq. split.
  - intros [(dh & (bb & -> & Hbb & Hk%Z.eqb_eq) & Hdh) Hu]. cbn in *. eauto 8.
  - intros (Hdh & Hu & bb & Hbb & Hk & Hn). split; [|done].
    exists (dv_donation v). split; [|done]. exists bb.
    rewrite Z.eqb_eq. destruct v; cbn in *. by subst.
Qed.

(** GET /user/:userId on a store that answers: 200 with the
    donations of that user that join a blood bank, each with the bank's
    name, newest donation date first. *)
Theorem get_donations_by_user_spec key userId w :
  bind_int key = Some userId ->
  faulty w = false ->
  exists rows,
    run (get_donations_by_user key) w = (Some (json_ok rows), advance w)
    /\ (forall v, v ∈ rows <-> v ∈ select_donations_by_user userId (w_store w))
    /\ StronglySorted
         (fun a b => dh_donation_date (dv_donation b)
                     <= dh_donation_date (dv_donation a)) rows
    /\ Forall (fun v => dh_user_id (dv_donation v) = userId) rows.
Proof.
  intros Hk Hf. eexists. split; [|split; [done|split]].
  - unfold get_donations_by_user. bind_key Hk. unfold sql_read.
    by rewrite run_try_query, Hf.
  - apply desc_sort_sorted.
  - apply Forall_forall. by intros v (_ & Hv & _)%elem_of_donations_by_user.
Qed.

(** *** Invariants *)

(** The invariant of the donations router: keys and counters are
    well-formed and every stored status is in the taxonomy. *)
Definition donations_inv (db : Db) : Prop := db_wf db /\ status_inv db.

Lemma insert_donation_inv user_id blood_bank_id donation_date blood_type
    quantity notes :
  stmt_preserves donations_inv
    (insert_donation user_id blood_bank_id donation_date blood_type quantity
       notes).
Proof.
  intros db r db' [Hwf Hst] Hq. unfold insert_donation in Hq.
  simplify_option_eq. split; [by apply insert_donation_wf|].
  apply Forall_app. split; [done|].
  apply Forall_singleton. cbn. constructor.
Qed.

Lemma update_donation_status_inv status notes id :
  includes validStatuses status = true ->
  stmt_preserves donations_inv (update_donation_status status notes id).
Proof.
  intros (s & -> & Hs)%includes_validStatuses db r db' [Hwf Hst] Hq.
  unfold update_donation_status in Hq. rewrite bind_text_str in Hq.
  simplify_option_eq. split; [by apply update_donations_wf|].
  by apply sql_update_Forall.
Qed.

Lemma delete_donation_row_inv id :
  stmt_preserves donations_inv (delete_donation_row id).
Proof.
  intros db r db' [Hwf Hst] [= _ <-].
  split; [by apply delete_donations_wf | by apply sql_delete_Forall].
Qed.

#[local] Hint Resolve insert_donation_inv update_donation_status_inv
  delete_donation_row_inv : donor.

Lemma get_donations_by_user_safe key :
  safe_prog donations_inv (get_donations_by_user key).
Proof. unfold get_donations_by_user. eauto 10 with donor. Qed.

Lemma post_donation_safe user_id blood_bank_id donation_date blood_type
    quantity notes :
  safe_prog donations_inv
    (post_donation user_id blood_bank_id donation_date blood_type quantity
       notes).
Proof. unfold post_donation. eauto 10 with donor. Qed.

Lemma put_donation_status_safe key status notes :
  safe_prog donations_inv (put_donation_status key status notes).
Proof.
  unfold put_donation_status.
  destruct (includes validStatuses status) eqn:E; cbn [negb];
    eauto 10 with donor.
Qed.

Lemma get_donation_safe key : safe_prog donations_inv (get_donation key).
Proof. unfold get_donation. eauto 10 with donor. Qed.

Lemma delete_donation_safe key :
  safe_prog donations_inv (delete_donation key).
Proof. unfold delete_donation. eauto 10 with donor. Qed.

(** *** The router as a transition system *)

(** A request to the donations router, by route. *)
Inductive DonationsReq : Type :=
| GetUserDonations (userId : JsVal)
| PostDonation (user_id blood_bank_id donation_date blood_type quantity
                  notes : JsVal)
| PutDonationStatus (id status notes : JsVal)
| GetDonation (id : JsVal)
| DeleteDonation (id : JsVal).

Definition donations_router (req : DonationsReq) : Prog Db Envelope :=
  match req with
  | GetUserDonations userId => respond (get_donations_by_user userId)
  | PostDonation u b d t q n => respond (post_donation u b d t q n)
  | PutDonationStatus id st n => respond (put_donation_status id st n)
  | GetDonation id => respond (get_donation id)
  | DeleteDonation id => respond (delete_donation id)
  end.

(** One step of the system: a request is served, or the environment
    decides which of the statements to come will fail. *)
Inductive donations_step : World Db -> World Db -> Prop :=
| step_request req w : donations_step w (run (donations_router req) w).2
| step_faults fs w : donations_step w (mkWorld (w_store w) fs).

(** Every statement of every handler keeps the invariant. *)
Lemma donations_router_safe req :
  safe_prog donations_inv (donations_router req).
Proof.
  destruct req; apply safe_respond;
    auto using get_donations_by_user_safe, post_donation_safe,
      put_donation_status_safe, get_donation_safe, delete_donation_safe.
Qed.

Lemma donations_router_inv req : preserves donations_inv (donations_router req).
Proof. apply safe_prog_preserves, donations_router_safe. Qed.

Lemma donations_step_inv w w' :
  donations_step w w' ->
  donations_inv (w_store w) -> donations_inv (w_store w').
Proof. destruct 1; [apply donations_router_inv | done]. Qed.

(** Safety: from a well-formed database whose statuses are in the
    taxonomy, every sequence of requests and store failures leads to a
    well-formed database whose statuses are in the taxonomy. *)
Theorem donations_inv_reachable w w' :
  donations_inv (w_store w) -> rtc donations_step w w' ->
  donations_inv (w_store w').
Proof. intros Hw. induction 1; eauto using donations_step_inv. Qed.

(** Every handler answers: no exception escapes its [catch]. *)
Theorem donations_router_answers req w :
  is_Some (run (donations_router req) w).1.
Proof.
  destruct req; cbn [donations_router]; unfold respond; rewrite run_bind;
    match goal with
    | |- context [run ?p w] =>
        pose proof (try_catch_total (S := Db) _ _ w : is_Some (run p w).1) as H
    end;
    destruct (run _ w) as [[r|] w']; cbn in *; by eauto using is_Some_None.
Qed.

(** *** The answers of the routes *)

(** The statuses of each route. *)
Definition donations_statuses (req : DonationsReq) : list Z :=
  match req with
  | GetUserDonations _ => [200; 500]
  | PostDonation _ _ _ _ _ _ => [201; 400; 500]
  | PutDonationStatus _ _ _ => [200; 400; 500]
  | GetDonation _ => [200; 404; 500]
  | DeleteDonation _ => [200; 500]
  end.

(** Whatever the store answers, every route answers after at most one
    statement with a well-formed envelope whose status is one of the
    route's. *)
Lemma donations_router_typed req :
  answers 1 (fun e => typed (donations_statuses req) e = true)
    (donations_router req).
Proof.
  destruct req; cbn [donations_router donations_statuses];
    unfold get_donations_by_user, post_donation, put_donation_status,
      get_donation, delete_donation; within_walk; done.
Qed.

(** *** The flow is not enforced *)

(** The status of the donation of key [id], read in the lifecycle. *)
Definition status_at (db : Db) (id : Z) : option Lifecycle.Status :=
  d ← donation_map db !! id; Lifecycle.status_of_name (dh_status d).

(** C14. The update moves a donation from any status to any status of
    the taxonomy: the handler tests the new status only. *)
Theorem put_status_any_transition key id (a b : Lifecycle.Status) notes nt w :
  bind_int key = Some id -> status_at (w_store w) id = Some a ->
  bind_text_null notes = Some nt -> faulty w = false ->
  let r := run (put_donation_status key
                  (JsStr (Lifecycle.status_name b)) notes) w in
  res_status <$> r.1 = Some 200 /\ status_at (w_store r.2) id = Some b.
Proof.
  intros Hk Ha Hn Hf r.
  assert (Lifecycle.status_name b ∈ status_names) as Hb.
  { apply Lifecycle.status_of_name_is_Some.
    by rewrite Lifecycle.status_of_name_name. }
  unfold status_at in *. subst r.
  rewrite (run_put_status _ id _ _ nt) by done. split; [done|].
  cbn [snd w_store].
  rewrite donation_map_set, table_map_update, lookup_alter_eq by done.
  fold (donation_map (w_store w)). destruct (donation_map _ !! id); [|done].
  cbn. apply Lifecycle.status_of_name_name.
Qed.

End properties.

(** ** Concrete runs *)

(** A database with one user, one blood bank and three donations of that
    user: completed 300 ml, pending 200 ml, completed 150 ml. *)
Definition sample_db : Db :=
  mkDb [mkUser 1 "Ani" "ani@example.org" "hash" "0812" "A+" "Jakarta" 10]
       [mkBloodBank 1 "PMI Jakarta" "-6.2" "106.8" "Jl. Kramat" "021"]
       [mkBloodStock 1 "O+" 12; mkBloodStock 1 "A+" 7]
       [mkDonation 1 1 1 20240110 "A+" 300 "completed" None 20;
        mkDonation 2 1 1 20240305 "A+" 200 "pending" None 30;
        mkDonation 3 1 1 20240220 "A+" 150 "completed" (Some "ok") 40]
       2 4 100.

Lemma sample_db_inv : donations_inv sample_db.
Proof.
  split; [split|]; cbn; by_decide.
Qed.

(** A string that is no status: the hypothesis of [put_status_invalid]. *)
Lemma not_a_status (n : string) :
  bool_decide (n ∈ status_names) = false ->
  forall s, s ∈ status_names -> JsStr n <> JsStr s.
Proof. intros Hn%bool_decide_eq_false s Hs [= ->]. done. Qed.

Lemma sample_db_wf : db_wf sample_db.
Proof. apply sample_db_inv. Qed.

(** [sample_db] with a fourth donation, completed, at a blood bank that is
    not in [blood_banks]. *)
Definition orphan_db : Db :=
  set_donations
    (fun t => t ++ [mkDonation 4 1 9 20240401 "A+" 100 "completed" None 50])
    5 sample_db.

Lemma orphan_db_wf : db_wf orphan_db.
Proof. split; cbn; by_decide. Qed.

Lemma put_status_invalid_witness :
  run (put_donation_status (JsStr "2") (JsStr "invalid_value") JsNull)
      (mkWorld sample_db [])
  = (Some (json_error 400 "Status tidak valid"), mkWorld sample_db [])
  /\ queries_issued
       (put_donation_status (JsStr "2") (JsStr "invalid_value") JsNull)
       (mkWorld sample_db []) = 0%nat.
Proof.
  apply (put_status_invalid (JsStr "2") (JsStr "invalid_value") JsNull
           (mkWorld sample_db [])).
  by apply not_a_status.
Defined.

Lemma put_status_ok_witness :
  exists db',
    run (put_donation_status (JsStr "2") (JsStr "approved") JsUndefined)
        (mkWorld sample_db [])
    = (Some (json_msg "Status donor berhasil diupdate"), mkWorld db' [])
    /\ donation_map db' =
       alter (with_status "approved" None) 2 (donation_map sample_db)
    /\ (forall d, donation_map db' !! 2 = Some d ->
                  dh_status d = "approved" /\ dh_notes d = None)
    /\ next_donation_id db' = 4
    /\ same_but_donations sample_db db'.
Proof.
  apply (put_status_ok (JsStr "2") 2 "approved" JsUndefined None
           (mkWorld sample_db []));
    [done | by_decide | done | done].
Defined.

Lemma put_status_absent_witness :
  run (put_donation_status (JsStr "77") (JsStr "approved") JsUndefined)
      (mkWorld sample_db [])
  = (Some (json_msg "Status donor berhasil diupdate"), mkWorld sample_db []).
Proof.
  apply (put_status_absent (JsStr "77") 77 "approved" JsUndefined None
           (mkWorld sample_db [])); [done | by_decide | done | done | done].
Defined.

Lemma put_status_failure_witness :
  run (put_donation_status (JsStr "2") (JsStr "approved") JsUndefined)
      (mkWorld sample_db [true])
  = (Some (json_error 500 "Gagal mengupdate status donor"),
     mkWorld sample_db []).
Proof.
  apply (put_status_failure (JsStr "2") "approved" JsUndefined
           (mkWorld sample_db [true])); [by_decide | by left].
Defined.

Lemma put_status_any_transition_witness :
  let r := run (put_donation_status (JsStr "1") (JsStr "pending") JsUndefined)
             (mkWorld sample_db []) in
  res_status <$> r.1 = Some 200
  /\ status_at (w_store r.2) 1 = Some Lifecycle.Pending.
Proof.
  apply (put_status_any_transition (JsStr "1") 1 Lifecycle.Completed
           Lifecycle.Pending
           JsUndefined None (mkWorld sample_db [])); done.
Defined.

Lemma donations_inv_reachable_witness :
  donations_inv
    (w_store (run (donations_router (DeleteDonation (JsStr "1")))
                (mkWorld sample_db [false])).2).
Proof.
  apply (donations_inv_reachable (mkWorld sample_db [false])).
  - exact sample_db_inv.
  - apply rtc_once, step_request.
Defined.

Lemma post_donation_created_witness :
  exists db',
    run (post_donation (JsNum 1) (JsNum 1) (JsStr "2024-04-01") (JsStr "A+")
           (JsNum 350) JsUndefined) (mkWorld sample_db [])
    = (Some (json_created "Permintaan donor berhasil dibuat" (mkCreated 4)),
       mkWorld db' [])
    /\ donation_map db' =
         <[4 := mkDonation 4 1 1 20240401 "A+" 350 "pending" None 100]>
           (donation_map sample_db)
    /\ next_donation_id db' = 5
    /\ same_but_donations sample_db db'.
Proof.
  apply (post_donation_created (JsNum 1) (JsNum 1) (JsStr "2024-04-01")
           (JsStr "A+") (JsNum 350) JsUndefined 1 1 20240401 "A+" 350 None
           (mkWorld sample_db [])); solve [done | exact sample_db_wf].
Defined.

Lemma post_donation_incomplete_witness :
  run (post_donation (JsNum 1) (JsNum 1) (JsStr "2024-04-01") (JsStr "A+")
         (JsNum 0) JsUndefined) (mkWorld sample_db [])
  = (Some (json_error 400 "Data tidak lengkap"), mkWorld sample_db [])
  /\ queries_issued
       (post_donation (JsNum 1) (JsNum 1) (JsStr "2024-04-01") (JsStr "A+")
          (JsNum 0) JsUndefined) (mkWorld sample_db []) = 0%nat.
Proof.
  apply (post_donation_incomplete (JsNum 1) (JsNum 1) (JsStr "2024-04-01")
           (JsStr "A+") (JsNum 0) JsUndefined (mkWorld sample_db [])).
  done.
Defined.

Lemma post_donation_negative_quantity_witness :
  exists d,
    res_status <$> (run (post_donation (JsNum 1) (JsNum 1)
                           (JsStr "2024-04-01") (JsStr "A+") (JsNum (-350))
                           JsUndefined) (mkWorld sample_db [])).1 = Some 201
    /\ d ∈ donation_history
             (w_store (run (post_donation (JsNum 1) (JsNum 1)
                              (JsStr "2024-04-01") (JsStr "A+")
                              (JsNum (-350)) JsUndefined)
                         (mkWorld sample_db [])).2)
    /\ dh_quantity d = -350.
Proof.
  apply (post_donation_negative_quantity 1 1 "2024-04-01" 20240401 "A+"
           (-350) (mkWorld sample_db [])); done.
Defined.

Lemma post_donation_zero_text_witness :
  complete (JsStr "1") (JsStr "1") (JsStr "2024-04-01") (JsStr "A+") (JsNum 0)
  = false
  /\ exists d,
       res_status <$> (run (post_donation (JsStr "1") (JsStr "1")
                              (JsStr "2024-04-01") (JsStr "A+") (JsStr "0")
                              JsUndefined) (mkWorld sample_db [])).1
       = Some 201
       /\ d ∈ donation_history
                (w_store (run (post_donation (JsStr "1") (JsStr "1")
                                 (JsStr "2024-04-01") (JsStr "A+")
                                 (JsStr "0") JsUndefined)
                            (mkWorld sample_db [])).2)
       /\ dh_quantity d = 0.
Proof.
  apply (post_donation_zero_text (JsStr "1") (JsStr "1") (JsStr "2024-04-01")
           (JsStr "A+") JsUndefined 1 1 20240401 "A+" None
           (mkWorld sample_db [])); done.
Defined.

Lemma delete_donation_ok_witness :
  exists db',
    run (delete_donation (JsStr "1")) (mkWorld sample_db [])
    = (Some (json_msg "Riwayat donor berhasil dihapus"), mkWorld db' [])
    /\ donation_map db' = delete 1 (donation_map sample_db)
    /\ next_donation_id db' = 4
    /\ same_but_donations sample_db db'.
Proof.
  apply (delete_donation_ok (JsStr "1") 1 (mkWorld sample_db [])); done.
Defined.

Lemma delete_donation_absent_witness :
  run (delete_donation (JsStr "77")) (mkWorld sample_db [])
  = (Some (json_msg "Riwayat donor berhasil dihapus"), mkWorld sample_db []).
Proof.
  apply (delete_donation_absent (JsStr "77") 77 (mkWorld sample_db [])); done.
Defined.

Lemma delete_donation_failure_witness :
  run (delete_donation (JsStr "1")) (mkWorld sample_db [true])
  = (Some (json_error 500 "Gagal menghapus riwayat donor"),
     mkWorld sample_db []).
Proof.
  apply (delete_donation_failure (JsStr "1") (mkWorld sample_db [true])).
  by left.
Defined.

Lemma get_donation_spec_witness :
  run (get_donation (JsStr "3")) (mkWorld sample_db [])
  = (Some (json_ok (mkDonationDetail
                      (mkDonation 3 1 1 20240220 "A+" 150 "completed"
                         (Some "ok") 40) "PMI Jakarta" "Ani")),
     mkWorld sample_db []).
Proof.
  apply (get_donation_spec (JsStr "3") 3 (mkWorld sample_db []));
    [done | exact sample_db_wf | done].
Defined.

Lemma get_donation_orphan_witness :
  run (get_donation (JsStr "4")) (mkWorld orphan_db [])
  = (Some (json_error 404 "Riwayat donor tidak ditemukan"),
     mkWorld orphan_db []).
Proof.
  apply (get_donation_orphan (JsStr "4") 4
           (mkDonation 4 1 9 20240401 "A+" 100 "completed" None 50)
           (mkWorld orphan_db [])); solve [done | exact orphan_db_wf].
Defined.

Lemma get_donations_by_user_spec_witness :
  exists rows,
    run (get_donations_by_user (JsStr "1")) (mkWorld sample_db [])
    = (Some (json_ok rows), mkWorld sample_db [])
    /\ (forall v, v ∈ rows <-> v ∈ select_donations_by_user 1 sample_db)
    /\ StronglySorted
         (fun a b => dh_donation_date (dv_donation b)
                     <= dh_donation_date (dv_donation a)) rows
    /\ Forall (fun v => dh_user_id (dv_donation v) = 1) rows.
Proof.
  apply (get_donations_by_user_spec (JsStr "1") 1 (mkWorld sample_db []));
    done.
Defined.
