(* ===== verification/Stats.v ===== *)
(** * Stats: the statistics handler of routes/users.js

    [GET /api/users/stats/:id] issues three statements over the completed
    donations of one user (a count, a sum of the quantities and the latest
    donation date) and assembles them with [||] defaults.  The status
    column holds strings of the taxonomy only ([status_inv]), on which the
    comparison [status = "completed"] of the store is equality.  The sum
    reaches the handler as the client decodes a DECIMAL
    ([decode_decimal]): as a number, or as its decimal text; the date of
    the latest donation is a date or [null]. *)

From Stdlib Require Import ZArith.
From stdpp Require Import base tactics option list strings sorting.
From S2P Require Import Prelude Outcomes Sorting Store Donations.

#[local] Open Scope Z_scope.

(** [{ total_donations, total_blood_donated, last_donation }] *)
Record UserStats : Type := mkUserStats {
  total_donations : JsVal;
  total_blood_donated : JsVal;
  last_donation : option Z
}.

(** [WHERE user_id = ? AND status = "completed"] *)
Definition completed_of (id : Z) (d : Donation) : bool :=
  (dh_user_id d =? id) && bool_decide (dh_status d = "completed").

(** [SELECT COUNT( * ) as total FROM donation_history WHERE ...]: the
    [total] of the one row. *)
Definition count_completed (id : Z) (db : Db) : JsVal :=
  JsNum (sql_count (completed_of id) (donation_history db)).

(** [SELECT SUM(quantity) as total FROM donation_history WHERE ...]: the
    [total] of the one row, NULL over no row. *)
Definition sum_completed `{Driver} (id : Z) (db : Db) : JsVal :=
  match sql_sum dh_quantity (completed_of id) (donation_history db) with
  | Some z => decode_decimal z
  | None => JsNull
  end.

(** [SELECT donation_date FROM donation_history WHERE ...
     ORDER BY donation_date DESC LIMIT 1] *)
Definition last_completed (id : Z) (db : Db) : list Z :=
  take 1 (dh_donation_date <$>
            stable_sort (desc_by dh_donation_date)
              (sql_select (completed_of id) (donation_history db))).

(** GET /api/users/stats/:id *)
Definition get_user_stats `{Driver} (id : JsVal)
  : Prog Db (Response UserStats) :=
  try_catch
    (countResult ← db_query (keyed id (sql_read ∘ count_completed));
     bloodResult ← db_query (keyed id (sql_read ∘ sum_completed));
     lastDonation ← db_query (keyed id (sql_read ∘ last_completed));
     mret (json_ok (mkUserStats (js_or countResult (JsNum 0))
                      (js_or bloodResult (JsNum 0))
                      (head lastDonation))))
    (mret (json_error 500 "Gagal mengambil statistik user")).

(** ** The reference: statistics of a list of donations *)

(** The completed donations of a user, in storage order. *)
Definition completed_donations (id : Z) (db : Db) : list Donation :=
  sql_select (completed_of id) (donation_history db).

Definition total_quantity (l : list Donation) : Z :=
  foldr (fun d acc => dh_quantity d + acc) 0 l.

(** The greatest donation date of a list, if any. *)
Definition latest_date (l : list Donation) : option Z :=
  foldr (fun d acc => Some (match acc with
                            | Some m => Z.max (dh_donation_date d) m
                            | None => dh_donation_date d
                            end)) None l.

Definition stats_of (id : Z) (db : Db) : UserStats :=
  let l := completed_donations id db in
  mkUserStats (JsNum (Z.of_nat (length l))) (JsNum (total_quantity l))
    (latest_date l).

(** What the handler reports: the sum as the client decodes it, and the
    number 0 when there is no sum or the sum is falsy. *)
Definition donated `{Driver} (l : list Donation) : JsVal :=
  match l with
  | [] => JsNum 0
  | _ => js_or (decode_decimal (total_quantity l)) (JsNum 0)
  end.

Definition reported `{Driver} (id : Z) (db : Db) : UserStats :=
  let l := completed_donations id db in
  mkUserStats (JsNum (Z.of_nat (length l))) (donated l) (latest_date l).

(** ** The statements against the reference *)

Section properties.
Context {driver : Driver}.
Implicit Types (w : World Db) (db : Db) (id : Z) (key : JsVal).
Implicit Types (l : list Donation).

Lemma count_completed_or id db :
  js_or (count_completed id db) (JsNum 0) =
  JsNum (Z.of_nat (length (completed_donations id db))).
Proof. apply js_or_num_zero. Qed.

(** [SUM(...) || 0]: the NULL of an empty selection becomes the number
    0. *)
Lemma sum_completed_or id db :
  js_or (sum_completed id db) (JsNum 0) =
  donated (completed_donations id db).
Proof.
  unfold sum_completed, sql_sum, completed_donations, donated.
  by destruct (sql_select _ _).
Qed.

(** A client that decodes a DECIMAL as a number reports the sum. *)
Lemma donated_number l :
  decode_decimal (total_quantity l) = JsNum (total_quantity l) ->
  donated l = JsNum (total_quantity l).
Proof.
  intros Hd. unfold donated. destruct l; [done|]. rewrite Hd.
  apply js_or_num_zero.
Qed.

(** A client that decodes a DECIMAL as its text reports a text when
    there is a completed donation, also when the sum is 0. *)
Lemma donated_text l s :
  l <> [] -> s <> "" -> decode_decimal (total_quantity l) = JsStr s ->
  donated l = JsStr s.
Proof.
  intros Hl Hs Hd. unfold donated. destruct l; [done|]. rewrite Hd.
  unfold js_or. by rewrite (proj2 (truthy_str_iff s)).
Qed.

Lemma latest_date_cons d l :
  latest_date (d :: l) =
  Some (match latest_date l with
        | Some m => Z.max (dh_donation_date d) m
        | None => dh_donation_date d
        end).
Proof. done. Qed.

Lemma latest_date_None l : latest_date l = None <-> l = [].
Proof. by destruct l. Qed.

(** [latest_date] is the greatest date of the list, and one of them. *)
Lemma latest_date_Some l m :
  latest_date l = Some m <->
  m ∈ dh_donation_date <$> l /\ forall d, d ∈ l -> dh_donation_date d <= m.
Proof.
  revert m. induction l as [|d l IH]; intros m.
  { split; [done|]. by intros [?%elem_of_nil _]. }
  rewrite latest_date_cons, fmap_cons, elem_of_cons.
  setoid_rewrite elem_of_cons.
  destruct (latest_date l) as [m'|] eqn:E.
  - destruct (IH m') as [[IH1 IH2] _]; [done|].
    apply list_elem_of_fmap in IH1 as (d' & Hm' & Hd'). split.
    + intros [= <-]. split.
      * destruct (Z.max_spec (dh_donation_date d) m') as [[_ ->]|[_ ->]];
          [right; apply list_elem_of_fmap; eauto | by left].
      * intros d'' [->|Hd'']; [lia|]. specialize (IH2 d'' Hd''). lia.
    + intros [Hm Hle]. f_equal. apply Z.le_antisymm.
      * apply Z.max_lub; [by apply Hle; left|]. subst m'. apply Hle. by right.
      * destruct Hm as [->|(d'' & -> & Hd'')%list_elem_of_fmap]; [lia|].
        specialize (IH2 d'' Hd''). lia.
  - apply latest_date_None in E as ->. split.
    + intros [= <-]. split; [by left|]. intros d' [->|?%elem_of_nil]; lia.
    + intros [[->|?%elem_of_nil] _]; done.
Qed.

(** [ORDER BY donation_date DESC LIMIT 1] finds the latest date. *)
Lemma last_completed_latest id db :
  head (last_completed id db) = latest_date (completed_donations id db).
Proof.
  unfold last_completed. fold (completed_donations id db).
  set (l := completed_donations id db).
  set (sorted := stable_sort (desc_by dh_donation_date) l).
  assert (head (take 1 (dh_donation_date <$> sorted))
          = dh_donation_date <$> head sorted) as -> by by destruct sorted.
  destruct (head sorted) as [m|] eqn:E; cbn; symmetry.
  - apply desc_sort_head_max in E as [Hm Hle].
    apply latest_date_Some. split; [|done]. apply list_elem_of_fmap. eauto.
  - apply latest_date_None, (stable_sort_nil_inv (desc_by dh_donation_date)).
    fold sorted. by destruct sorted.
Qed.

(** The handler on a store that answers its three statements. *)
Lemma run_get_user_stats key id w :
  bind_int key = Some id -> calm 3 (w_faults w) = true ->
  run (get_user_stats key) w =
    (Some (json_ok (reported id (w_store w))),
     advance (advance (advance w))).
Proof.
  intros Hk [Hf1 [Hf2 [Hf3 _]%calm_S]%calm_S]%calm_S.
  unfold get_user_stats. bind_key Hk. rewrite !run_try_read by done.
  cbn [run try_catch mret prog_mret w_store advance].
  by rewrite count_completed_or, sum_completed_or, last_completed_latest.
Qed.

(** C8. On a store that answers its three statements, behind a client that
    decodes the sum as a number, the handler responds 200 with the number
    of completed donations of the user, the sum of their quantities and
    their latest date: a date of one of them that none exceeds, or null
    when there is none.  Donations in another status or of another user
    do not count. *)
Theorem get_user_stats_spec key id w :
  bind_int key = Some id -> calm 3 (w_faults w) = true ->
  let l := completed_donations id (w_store w) in
  decode_decimal (total_quantity l) = JsNum (total_quantity l) ->
  exists last,
    run (get_user_stats key) w =
      (Some (json_ok (mkUserStats (JsNum (Z.of_nat (length l)))
                        (JsNum (total_quantity l)) last)),
       advance (advance (advance w)))
    /\ (last = None <-> l = [])
    /\ forall m, last = Some m <->
         m ∈ dh_donation_date <$> l
         /\ forall d, d ∈ l -> dh_donation_date d <= m.
Proof.
  intros Hk Hc l Hd. exists (latest_date l). split; [|split].
  - rewrite (run_get_user_stats _ id) by done. unfold reported. fold l.
    by rewrite donated_number.
  - apply latest_date_None.
  - apply latest_date_Some.
Qed.

(** C38. Behind a client that decodes the sum as its decimal text, the sum of
    a user with a completed donation is reported as that text, where the
    count is a number and where the sum of a user without one is the
    number 0. *)
Theorem get_user_stats_text key id s w :
  bind_int key = Some id -> calm 3 (w_faults w) = true ->
  let l := completed_donations id (w_store w) in
  l <> [] -> s <> "" -> decode_decimal (total_quantity l) = JsStr s ->
  exists last,
    (run (get_user_stats key) w).1 =
    Some (json_ok (mkUserStats (JsNum (Z.of_nat (length l))) (JsStr s) last)).
Proof.
  intros Hk Hc l Hl Hs Hd. exists (latest_date l).
  rewrite (run_get_user_stats _ id) by done. unfold reported. fold l.
  by rewrite (donated_text l s).
Qed.

(** A user with no completed donation gets zero counts and a null
    date, never an error. *)
Theorem get_user_stats_none key id w :
  bind_int key = Some id -> calm 3 (w_faults w) = true ->
  (forall d, d ∈ donation_history (w_store w) -> completed_of id d = false) ->
  run (get_user_stats key) w =
    (Some (json_ok (mkUserStats (JsNum 0) (JsNum 0) None)),
     advance (advance (advance w))).
Proof.
  intros Hk Hc Hd. rewrite (run_get_user_stats _ id) by done.
  unfold reported, completed_donations.
  by rewrite (proj2 (sql_select_none _ _) Hd).
Qed.

(** The three statements read: they keep every invariant. *)
Lemma get_user_stats_safe (I : Db -> Prop) key :
  safe_prog I (get_user_stats key).
Proof. unfold get_user_stats. eauto 12 with donor. Qed.

(** Whatever the store answers, the handler answers after at most three
    statements, with 200 or 500. *)
Lemma get_user_stats_typed key :
  answers 3 (fun r => typed [200; 500] (envelope r) = true)
    (get_user_stats key).
Proof. unfold get_user_stats. within_walk; done. Qed.

Lemma get_user_stats_preserves (I : Db -> Prop) key :
  preserves I (get_user_stats key).
Proof. apply safe_prog_preserves, get_user_stats_safe. Qed.

(** The handler only reads: whatever fails, the store is as before. *)
Theorem get_user_stats_reads key w :
  w_store (run (get_user_stats key) w).2 = w_store w.
Proof. by apply (get_user_stats_preserves (fun db => db = w_store w)). Qed.

(** A failure of any of the three statements is answered 500. *)
Theorem get_user_stats_failure key w :
  calm 3 (w_faults w) = false \/ bind_int key = None ->
  (run (get_user_stats key) w).1 =
    Some (json_error 500 "Gagal mengambil statistik user").
Proof.
  unfold get_user_stats, keyed. destruct (bind_int key) as [id|].
  - intros [Hc|]; [|done]. destruct w as [db fs].
    destruct fs as [|[] [|[] [|[] fs]]]; cbn [calm] in Hc; try done;
      repeat (rewrite run_try_query;
              cbn [faulty w_faults w_store sql_read tail compose mbind
                   option_bind]); done.
  - intros _. rewrite run_try_query. by destruct (faulty w).
Qed.

(** Rows that are not completed donations of the user do not count. *)
Lemma reported_append id db d n :
  completed_of id d = false ->
  reported id (set_donations (fun t => t ++ [d]) n db) = reported id db.
Proof.
  intros Hd. unfold reported, completed_donations.
  cbn [donation_history set_donations].
  by rewrite sql_select_app; cbn; rewrite Hd, app_nil_r.
Qed.

End properties.

(** Creating a donation changes the statistics of no user: a new
    request is pending, and only completed donations count. *)
Theorem stats_unchanged_by_post `{Driver} u b d t q n id w :
  reported id (w_store (run (post_donation u b d t q n) w).2)
  = reported id (w_store w).
Proof.
  unfold post_donation. rewrite post_guard_complete.
  destruct (complete u b d t q); cbn [negb]; [|done].
  rewrite run_try_query. destruct (faulty w); [done|].
  destruct (insert_donation u b d t q n (w_store w)) as [[i db']|] eqn:E;
    [|done].
  unfold insert_donation in E. simplify_option_eq.
  apply reported_append. unfold completed_of. cbn. apply andb_false_r.
Qed.

(** ** Concrete runs *)

(** The statistics of the user of [sample_db], whose donations are
    completed 300 ml, pending 200 ml and completed 150 ml: two donations,
    450 ml, and the later of the two completed dates. *)
Example get_user_stats_sample :
  run (get_user_stats (JsStr "1")) (mkWorld sample_db []) =
  (Some (json_ok (mkUserStats (JsNum 2) (JsNum 450) (Some 20240220))),
   mkWorld sample_db []).
Proof. by rewrite (run_get_user_stats _ 1). Qed.

Lemma get_user_stats_spec_witness :
  let l := completed_donations 1 sample_db in
  exists last,
    run (get_user_stats (JsStr "1")) (mkWorld sample_db []) =
      (Some (json_ok (mkUserStats (JsNum (Z.of_nat (length l)))
                        (JsNum (total_quantity l)) last)),
       mkWorld sample_db [])
    /\ (last = None <-> l = [])
    /\ forall m, last = Some m <->
         m ∈ dh_donation_date <$> l
         /\ forall d, d ∈ l -> dh_donation_date d <= m.
Proof.
  apply (get_user_stats_spec (JsStr "1") 1 (mkWorld sample_db [])); done.
Defined.

Lemma no_donation_of_user_2 d :
  d ∈ donation_history sample_db -> completed_of 2 d = false.
Proof. revert d. apply Forall_forall. by_decide. Qed.

Lemma get_user_stats_none_witness :
  run (get_user_stats (JsStr "2")) (mkWorld sample_db []) =
  (Some (json_ok (mkUserStats (JsNum 0) (JsNum 0) None)),
   mkWorld sample_db []).
Proof.
  apply (get_user_stats_none (JsStr "2") 2 (mkWorld sample_db []));
    [done | done | exact no_donation_of_user_2].
Defined.

(** The same store behind a client that decodes a DECIMAL as text: the
    sum is the text [450] where the count is the number 2. *)
Example get_user_stats_sample_text :
  run (get_user_stats (H := text_decimals) (JsStr "1")) (mkWorld sample_db [])
  = (Some (json_ok (mkUserStats (JsNum 2) (JsStr "450") (Some 20240220))),
     mkWorld sample_db []).
Proof. by rewrite (run_get_user_stats (driver := text_decimals) _ 1). Qed.

Lemma get_user_stats_text_witness :
  exists last,
    (run (get_user_stats (H := text_decimals) (JsStr "1"))
       (mkWorld sample_db [])).1 =
    Some (json_ok (mkUserStats
                     (JsNum (Z.of_nat (length (completed_donations 1
                                                 sample_db))))
                     (JsStr "450") last)).
Proof.
  apply (get_user_stats_text (driver := text_decimals) (JsStr "1") 1 "450"
           (mkWorld sample_db [])); done.
Defined.

Lemma get_user_stats_failure_witness :
  (run (get_user_stats (JsStr "1")) (mkWorld sample_db [false; true])).1 =
  Some (json_error 500 "Gagal mengambil statistik user").
Proof.
  apply (get_user_stats_failure (JsStr "1") (mkWorld sample_db [false; true])).
  by left.
Defined.

(** A completed donation at a blood bank that is not in [blood_banks]
    counts in the statistics of its user although the history of that
    user, which joins the banks, does not list it. *)
Example orphan_counted_not_listed :
  exists st rows,
    run (get_user_stats (JsStr "1")) (mkWorld orphan_db []) =
      (Some (json_ok st), mkWorld orphan_db [])
    /\ total_donations st = JsNum 3
    /\ run (get_donations_by_user (JsStr "1")) (mkWorld orphan_db []) =
         (Some (json_ok rows), mkWorld orphan_db [])
    /\ dh_id ∘ dv_donation <$> rows = [2; 3; 1].
Proof.
  eexists _, _. split; [by rewrite (run_get_user_stats _ 1)|].
  split; [done|].
  split; [by unfold get_donations_by_user; rewrite run_try_query|].
  done.
Qed.
