(* ===== verification/Geo.v ===== *)
(** * Geo: [calculateDistance] of routes/bloodBanks.js

    The haversine distance between two coordinates given in degrees, as the
    source computes it, over the real numbers: [Math.sin], [Math.cos],
    [Math.sqrt] and [Math.PI] are the functions and the constant of the
    Standard Library's reals, [Math.atan2] is [atan2] below.  The theorems
    show that the quantity under the square roots always lies between 0 and
    1 (so that no square root of a negative number is taken, whatever the
    inputs), that the result is the great-circle distance on a sphere of
    radius 6371 (it agrees with the spherical law of cosines), and the
    properties a distance needs for ranking: zero on identical points,
    symmetric, non-negative, at most half the circumference.

    Rounding is outside the model: a double is the real number it
    denotes. *)

From Stdlib Require Import Reals Lra Psatz.

#[local] Open Scope R_scope.

(** ** [Math.atan2] *)

(** The angle of the point [(x, y)], in [(-PI, PI]], by quadrant. *)
Definition atan2 (y x : R) : R :=
  if Rlt_dec 0 x then atan (y / x)
  else if Rlt_dec x 0 then
    if Rle_dec 0 y then atan (y / x) + PI else atan (y / x) - PI
  else if Rlt_dec 0 y then PI / 2
  else if Rlt_dec y 0 then - (PI / 2)
  else 0.

(** ** The distance *)

(** The quantity [a] of the source: the square of half the chord between
    the two points of the unit sphere. *)
Definition haversine_a (lat1 lon1 lat2 lon2 : R) : R :=
  let dLat := (lat2 - lat1) * PI / 180 in
  let dLon := (lon2 - lon1) * PI / 180 in
  sin (dLat / 2) * sin (dLat / 2) +
  cos (lat1 * PI / 180) * cos (lat2 * PI / 180) *
  sin (dLon / 2) * sin (dLon / 2).

Definition calculateDistance (lat1 lon1 lat2 lon2 : R) : R :=
  let R := 6371 in
  let dLat := (lat2 - lat1) * PI / 180 in
  let dLon := (lon2 - lon1) * PI / 180 in
  let a :=
    sin (dLat / 2) * sin (dLat / 2) +
    cos (lat1 * PI / 180) * cos (lat2 * PI / 180) *
    sin (dLon / 2) * sin (dLon / 2) in
  let c := 2 * atan2 (sqrt a) (sqrt (1 - a)) in
  let distance := R * c in
  distance.

(** ** The reference: the spherical law of cosines *)

(** The cosine of the angle between the two points seen from the centre
    of the sphere. *)
Definition central_cos (lat1 lon1 lat2 lon2 : R) : R :=
  let p1 := lat1 * PI / 180 in
  let p2 := lat2 * PI / 180 in
  let dl := (lon2 - lon1) * PI / 180 in
  sin p1 * sin p2 + cos p1 * cos p2 * cos dl.

Definition great_circle (lat1 lon1 lat2 lon2 : R) : R :=
  6371 * acos (central_cos lat1 lon1 lat2 lon2).

(** ** Trigonometry shared by the proofs *)

Lemma sin_cos_sq x : sin x * sin x + cos x * cos x = 1.
Proof. pose proof (sin2_cos2 x) as H. unfold Rsqr in H. lra. Qed.

Lemma cos_half_sq x : 2 * (sin (x / 2) * sin (x / 2)) = 1 - cos x.
Proof.
  replace x with (2 * (x / 2)) at 3 by lra. rewrite cos_2a_sin. lra.
Qed.

Lemma sq_nonneg x : 0 <= x * x.
Proof. nra. Qed.

(** The product of two unit vectors of the plane lies in [[-1, 1]]. *)
Lemma unit_dot_bound s1 c1 s2 c2 :
  s1 * s1 + c1 * c1 = 1 -> s2 * s2 + c2 * c2 = 1 ->
  -1 <= s1 * s2 + c1 * c2 <= 1.
Proof.
  intros H1 H2.
  pose proof (sq_nonneg (s1 - s2)). pose proof (sq_nonneg (c1 - c2)).
  pose proof (sq_nonneg (s1 + s2)). pose proof (sq_nonneg (c1 + c2)).
  lra.
Qed.

(** The same with one component scaled by a factor of [[-1, 1]]. *)
Lemma unit_dot_scaled_bound s1 c1 s2 c2 t :
  s1 * s1 + c1 * c1 = 1 -> s2 * s2 + c2 * c2 = 1 -> -1 <= t <= 1 ->
  -1 <= s1 * s2 + c1 * c2 * t <= 1.
Proof.
  intros H1 H2 [Hlo Hhi].
  pose proof (unit_dot_bound s1 c1 s2 c2 H1 H2) as [Ha Hb].
  assert (s2 * s2 + (- c2) * (- c2) = 1) as H2' by lra.
  pose proof (unit_dot_bound s1 c1 s2 (- c2) H1 H2') as [Hc Hd].
  pose proof (Rmult_le_pos (1 + t) (1 - (s1 * s2 + c1 * c2))
                ltac:(lra) ltac:(lra)).
  pose proof (Rmult_le_pos (1 - t) (1 - (s1 * s2 + c1 * - c2))
                ltac:(lra) ltac:(lra)).
  pose proof (Rmult_le_pos (1 + t) (1 + (s1 * s2 + c1 * c2))
                ltac:(lra) ltac:(lra)).
  pose proof (Rmult_le_pos (1 - t) (1 + (s1 * s2 + c1 * - c2))
                ltac:(lra) ltac:(lra)).
  split; lra.
Qed.

(** A point of the unit circle in the first quadrant is found by its
    angle. *)
Lemma atan2_first_quadrant y x :
  0 <= y -> 0 <= x -> x * x + y * y = 1 ->
  0 <= atan2 y x <= PI / 2 /\ sin (atan2 y x) = y /\ cos (atan2 y x) = x.
Proof.
  intros Hy Hx Hxy. unfold atan2. pose proof PI_RGT_0 as Hpi.
  destruct (Rlt_dec 0 x) as [Hpos|Hnpos].
  - pose proof (atan_bound (y / x)) as [Hlo Hhi].
    assert (0 <= y / x) as Hq.
    { unfold Rdiv. apply Rmult_le_pos; [lra|].
      left. now apply Rinv_0_lt_compat. }
    assert (0 <= atan (y / x)) as H0.
    { rewrite <- atan_0. destruct Hq as [Hq|<-]; [|lra].
      left. now apply atan_increasing. }
    assert (0 < cos (atan (y / x))) as Hc by (apply cos_gt_0; lra).
    pose proof (tan_atan (y / x)) as Ht. unfold tan in Ht.
    pose proof (sin_cos_sq (atan (y / x))) as Hs.
    assert (0 <= sin (atan (y / x))) as Hs0 by (apply sin_ge_0; lra).
    set (s := sin (atan (y / x))) in *. set (c := cos (atan (y / x))) in *.
    assert (s * x = y * c) as Hsx.
    { apply (f_equal (fun z => z * (c * x))) in Ht. field_simplify in Ht; lra. }
    assert (c * c = x * x) as Hsq.
    { assert (s * x * (s * x) = y * c * (y * c)) as Hm by (now rewrite Hsx).
      nra. }
    assert (c = x) as Hcx by nra.
    split; [lra|]. split; [|assumption]. rewrite Hcx in Hsx. nra.
  - assert (x = 0) as -> by lra. assert (y = 1) as -> by nra.
    destruct (Rlt_dec 0 0) as [?|_]; [lra|].
    destruct (Rlt_dec 0 1) as [_|?]; [|lra].
    rewrite sin_PI2, cos_PI2. lra.
Qed.

(** ** The quantity under the square roots *)

(** [1 - 2a] is the cosine of the central angle. *)
Lemma haversine_a_central lat1 lon1 lat2 lon2 :
  1 - 2 * haversine_a lat1 lon1 lat2 lon2 = central_cos lat1 lon1 lat2 lon2.
Proof.
  unfold haversine_a, central_cos. cbv zeta.
  pose proof (cos_half_sq ((lat2 - lat1) * PI / 180)) as Hlat.
  pose proof (cos_half_sq ((lon2 - lon1) * PI / 180)) as Hlon.
  replace ((lat2 - lat1) * PI / 180) with (lat2 * PI / 180 - lat1 * PI / 180)
    in Hlat at 3 by lra.
  rewrite cos_minus in Hlat. nra.
Qed.

(** The cosine of the central angle is a cosine: it lies in [[-1, 1]],
    for all inputs, latitudes outside [[-90, 90]] included. *)
Lemma central_cos_bound lat1 lon1 lat2 lon2 :
  -1 <= central_cos lat1 lon1 lat2 lon2 <= 1.
Proof.
  unfold central_cos. cbv zeta.
  apply unit_dot_scaled_bound; [apply sin_cos_sq.. | apply COS_bound].
Qed.

Lemma haversine_a_unit lat1 lon1 lat2 lon2 :
  0 <= haversine_a lat1 lon1 lat2 lon2 <= 1.
Proof.
  pose proof (haversine_a_central lat1 lon1 lat2 lon2) as H.
  pose proof (central_cos_bound lat1 lon1 lat2 lon2). lra.
Qed.


(** ** The central angle *)

(** The angle [c] of the source. *)
Definition central_angle (lat1 lon1 lat2 lon2 : R) : R :=
  let a := haversine_a lat1 lon1 lat2 lon2 in
  2 * atan2 (sqrt a) (sqrt (1 - a)).

Lemma calculateDistance_angle lat1 lon1 lat2 lon2 :
  calculateDistance lat1 lon1 lat2 lon2 =
  6371 * central_angle lat1 lon1 lat2 lon2.
Proof. reflexivity. Qed.

(** The angle lies in [[0, PI]] and its cosine is [1 - 2a]. *)
Lemma central_angle_spec lat1 lon1 lat2 lon2 :
  0 <= central_angle lat1 lon1 lat2 lon2 <= PI
  /\ cos (central_angle lat1 lon1 lat2 lon2) =
     central_cos lat1 lon1 lat2 lon2.
Proof.
  pose proof (haversine_a_unit lat1 lon1 lat2 lon2) as [Ha0 Ha1].
  rewrite <- haversine_a_central. unfold central_angle. cbv zeta.
  set (a := haversine_a lat1 lon1 lat2 lon2) in *.
  destruct (atan2_first_quadrant (sqrt a) (sqrt (1 - a))) as (Hr & Hs & Hc).
  - apply sqrt_pos.
  - apply sqrt_pos.
  - rewrite !sqrt_sqrt by lra. lra.
  - split; [lra|]. rewrite cos_2a_sin, Hs, Rmult_assoc, sqrt_sqrt by lra. lra.
Qed.

(** ** The properties of the distance *)

Lemma calculateDistance_acos lat1 lon1 lat2 lon2 :
  calculateDistance lat1 lon1 lat2 lon2 =
  6371 * acos (central_cos lat1 lon1 lat2 lon2).
Proof.
  rewrite calculateDistance_angle. f_equal.
  destruct (central_angle_spec lat1 lon1 lat2 lon2) as [Hr <-].
  symmetry. now apply acos_cos.
Qed.

(** C3. The distance of the source is the great-circle distance on a sphere
    of radius 6371: the arc whose angle the spherical law of cosines
    gives. *)
Theorem calculateDistance_great_circle lat1 lon1 lat2 lon2 :
  calculateDistance lat1 lon1 lat2 lon2 = great_circle lat1 lon1 lat2 lon2
  /\ cos (calculateDistance lat1 lon1 lat2 lon2 / 6371) =
     central_cos lat1 lon1 lat2 lon2.
Proof.
  split; [apply calculateDistance_acos|].
  rewrite calculateDistance_angle.
  replace (6371 * _ / 6371) with (central_angle lat1 lon1 lat2 lon2) by field.
  apply central_angle_spec.
Qed.

(** The distance is never negative and never more than half the
    circumference of the sphere. *)
Theorem calculateDistance_bounds lat1 lon1 lat2 lon2 :
  0 <= calculateDistance lat1 lon1 lat2 lon2 <= 6371 * PI.
Proof.
  rewrite calculateDistance_angle.
  destruct (central_angle_spec lat1 lon1 lat2 lon2) as [Hr _]. lra.
Qed.

(** The distance from a point to itself is zero. *)
Theorem calculateDistance_self lat lon : calculateDistance lat lon lat lon = 0.
Proof.
  rewrite calculateDistance_acos. unfold central_cos.
  cbv zeta. replace ((lon - lon) * PI / 180) with 0 by lra.
  rewrite cos_0, Rmult_1_r.
  replace (_ + _) with 1 by (symmetry; apply sin_cos_sq).
  rewrite acos_1. lra.
Qed.

(** The distance is symmetric. *)
Theorem calculateDistance_sym lat1 lon1 lat2 lon2 :
  calculateDistance lat1 lon1 lat2 lon2 =
  calculateDistance lat2 lon2 lat1 lon1.
Proof.
  rewrite !calculateDistance_acos. unfold central_cos.
  cbv zeta. f_equal. f_equal.
  replace ((lon1 - lon2) * PI / 180) with (- ((lon2 - lon1) * PI / 180))
    by lra.
  rewrite cos_neg. lra.
Qed.

(** Along a meridian the distance is the difference of the latitudes, in
    radians, times the radius. *)
Lemma calculateDistance_meridian lat1 lat2 lon :
  Rabs (lat2 - lat1) <= 180 ->
  calculateDistance lat1 lon lat2 lon = 6371 * (Rabs (lat2 - lat1) * PI / 180).
Proof.
  intros Hd. rewrite calculateDistance_acos.
  unfold central_cos. cbv zeta. f_equal.
  replace ((lon - lon) * PI / 180) with 0 by lra.
  rewrite cos_0, Rmult_1_r, (Rplus_comm (sin _ * _)), <- cos_minus.
  pose proof PI_RGT_0 as Hpi.
  assert (cos (lat1 * PI / 180 - lat2 * PI / 180)
          = cos (Rabs (lat2 - lat1) * PI / 180)) as ->.
  { unfold Rabs. destruct (Rcase_abs _); [f_equal; lra|].
    rewrite <- cos_neg. f_equal. lra. }
  apply acos_cos. pose proof (Rabs_pos (lat2 - lat1)). split; nra.
Qed.

(** Two points at distance zero have the same position on the sphere:
    the cosine of their central angle is 1. *)
Theorem calculateDistance_zero lat1 lon1 lat2 lon2 :
  calculateDistance lat1 lon1 lat2 lon2 = 0 ->
  central_cos lat1 lon1 lat2 lon2 = 1.
Proof.
  rewrite calculateDistance_angle. intros H.
  destruct (central_angle_spec lat1 lon1 lat2 lon2) as [_ <-].
  replace (central_angle lat1 lon1 lat2 lon2) with 0 by lra. apply cos_0.
Qed.
