(* ===== verification/Numbers.v ===== *)
(** * Numbers: the JavaScript numbers of routes/bloodBanks.js

    The ranking handler reads coordinates with [parseFloat], passes them to
    [calculateDistance] and orders the banks by the sign of
    [a.distance - b.distance].  This file holds the numbers those steps
    exchange: [JsNumber] (a real, an infinity or NaN), subtraction and the
    sign test with their behaviour on NaN, [parseFloat] as the scan of the
    longest decimal prefix, and [calculateDistance] on such numbers.

    A finite double is the real number it denotes: rounding and overflow
    are outside the model, and so is the sign of zero.  Strings are
    sequences of 8-bit characters. *)

From Stdlib Require Import Reals Lra ZArith Ascii.
From stdpp Require Import base tactics option list strings.
From S2P Require Import Prelude Geo.

#[local] Open Scope Z_scope.

(** ** Numbers *)

Inductive JsNumber : Type :=
| NaN
| Inf (negative : bool)
| Num (r : R).

#[export] Instance Rlt_decision (x y : R) : Decision (x < y)%R := Rlt_dec x y.
#[export] Instance Req_decision : EqDecision R := Req_dec_T.

Definition is_num (x : JsNumber) : bool :=
  match x with Num _ => true | _ => false end.

Definition is_NaN (x : JsNumber) : bool :=
  match x with NaN => true | _ => false end.

(** [a - b] *)
Definition js_sub (a b : JsNumber) : JsNumber :=
  match a, b with
  | NaN, _ | _, NaN => NaN
  | Inf s, Inf s' => if bool_decide (s = s') then NaN else Inf s
  | Inf s, Num _ => Inf s
  | Num _, Inf s => Inf (negb s)
  | Num x, Num y => Num (x - y)
  end.

(** [x < 0], false on NaN. *)
Definition js_negative (x : JsNumber) : bool :=
  match x with
  | NaN => false
  | Inf s => s
  | Num r => bool_decide (r < 0)%R
  end.

(** ** [parseFloat] *)

(** What the scan of a string finds: nothing numeric, [Infinity] with its
    sign, or a decimal literal with value [m * 10 ^ e]. *)
Inductive Literal : Type :=
| NotNumeric
| Infinite (negative : bool)
| Decimal (m e : Z).

#[export] Instance Literal_eq_dec : EqDecision Literal.
Proof. solve_decision. Defined.

(** White space and line terminators below 256: TAB, LF, VT, FF, CR, SP,
    NBSP. *)
Definition is_space (c : ascii) : bool :=
  let n := Z.of_N (N_of_ascii c) in
  ((9 <=? n) && (n <=? 13)) || (n =? 32) || (n =? 160).

Fixpoint skip_spaces (s : list ascii) : list ascii :=
  match s with
  | c :: s' => if is_space c then skip_spaces s' else s
  | [] => []
  end.

(** The longest run of digits at the front of [s], read after the digits
    already in [acc]: the number, how many digits were read, the rest. *)
Fixpoint take_digits (acc n : Z) (s : list ascii) : Z * Z * list ascii :=
  match s with
  | c :: s' =>
      match digit c with
      | Some d => take_digits (10 * acc + d) (n + 1) s'
      | None => (acc, n, s)
      end
  | [] => (acc, n, [])
  end.

Definition take_sign (s : list ascii) : bool * list ascii :=
  match s with
  | "+"%char :: s' => (false, s')
  | "-"%char :: s' => (true, s')
  | _ => (false, s)
  end.

(** The exponent part at the front of [s], 0 when there is none or when
    it has no digit. *)
Definition scan_exponent (s : list ascii) : Z :=
  match s with
  | c :: s' =>
      if bool_decide (c = "e"%char) || bool_decide (c = "E"%char) then
        let '(neg, s'') := take_sign s' in
        let '(v, n, _) := take_digits 0 0 s'' in
        if n =? 0 then 0 else if neg then - v else v
      else 0
  | [] => 0
  end.

(** Digits, an optional point, digits, an optional exponent; at least one
    digit before the exponent. *)
Definition scan_unsigned (s : list ascii) : option (Z * Z) :=
  let '(i, ni, r1) := take_digits 0 0 s in
  match r1 with
  | "."%char :: r2 =>
      let '(f, nf, r3) := take_digits i 0 r2 in
      if (ni =? 0) && (nf =? 0) then None
      else Some (f, scan_exponent r3 - nf)
  | _ => if ni =? 0 then None else Some (i, scan_exponent r1)
  end.

Definition infinity_text : list ascii := String.list_ascii_of_string "Infinity".

Definition starts_with (p s : list ascii) : bool :=
  bool_decide (take (length p) s = p).

Definition float_literal (s : string) : Literal :=
  let '(neg, u) := take_sign (skip_spaces (String.list_ascii_of_string s)) in
  if starts_with infinity_text u then Infinite neg
  else match scan_unsigned u with
       | Some (m, e) => Decimal (if neg then - m else m) e
       | None => NotNumeric
       end.

(** [m * 10 ^ e] *)
Definition decimal_value (m e : Z) : R :=
  if 0 <=? e then IZR (m * 10 ^ e) else (IZR m / IZR (10 ^ (- e)))%R.

Definition number_of (l : Literal) : JsNumber :=
  match l with
  | NotNumeric => NaN
  | Infinite s => Inf s
  | Decimal m e => Num (decimal_value m e)
  end.

Definition parseFloat (s : string) : JsNumber := number_of (float_literal s).

(** ** [calculateDistance] on numbers *)

(** On finite arguments the distance of [Geo.calculateDistance]; NaN as
    soon as one argument is NaN or infinite (the sine of an infinity is
    NaN, and every later operation keeps it). *)
Definition js_calculateDistance (lat1 lon1 lat2 lon2 : JsNumber) : JsNumber :=
  match lat1, lon1, lat2, lon2 with
  | Num a, Num b, Num c, Num d => Num (calculateDistance a b c d)
  | _, _, _, _ => NaN
  end.

(** ** Subtraction and sign *)

Lemma js_negative_sub_num x y :
  js_negative (js_sub (Num x) (Num y)) = bool_decide (x < y)%R.
Proof. cbn. apply bool_decide_ext. lra. Qed.

Lemma js_sub_NaN_l b : js_sub NaN b = NaN.
Proof. done. Qed.

Lemma js_sub_NaN_r a : js_sub a NaN = NaN.
Proof. by destruct a. Qed.

(** A difference with NaN on either side is not negative: the comparator
    of the ranking reports a tie. *)
Lemma js_negative_sub_NaN a b :
  is_NaN a || is_NaN b = true -> js_negative (js_sub a b) = false.
Proof. by destruct a, b. Qed.

(** The sign test of a difference is asymmetric. *)
Lemma js_negative_sub_asym a b :
  js_negative (js_sub a b) = true -> js_negative (js_sub b a) = false.
Proof.
  destruct a as [|[]|x], b as [|[]|y]; cbn; try done.
  rewrite bool_decide_eq_true, bool_decide_eq_false. lra.
Qed.

(** ** What [parseFloat] answers *)

Lemma number_of_is_num l :
  is_num (number_of l) = true <-> exists m e, l = Decimal m e.
Proof.
  destruct l; cbn; (split; [try done|by intros (?&?&?)]). eauto.
Qed.

Lemma parseFloat_decimal s m e :
  float_literal s = Decimal m e -> parseFloat s = Num (decimal_value m e).
Proof. unfold parseFloat. by intros ->. Qed.

Lemma parseFloat_not_numeric s :
  float_literal s = NotNumeric -> parseFloat s = NaN.
Proof. unfold parseFloat. by intros ->. Qed.

(** An integer literal denotes its integer. *)
Lemma decimal_value_int m : decimal_value m 0 = IZR m.
Proof. unfold decimal_value. cbn. by rewrite Z.mul_1_r. Qed.

(** Appending a zero to the fraction does not change the value. *)
Lemma decimal_value_scale m e :
  e <= 0 -> decimal_value (10 * m) (e - 1) = decimal_value m e.
Proof.
  intros He. unfold decimal_value.
  destruct (Z.leb_spec 0 (e - 1)); [lia|].
  replace (- (e - 1)) with (Z.succ (- e)) by lia.
  rewrite Z.pow_succ_r, !mult_IZR by lia.
  assert (IZR (10 ^ (- e)) <> 0%R) as Hnz.
  { apply not_0_IZR. apply Z.pow_nonzero; lia. }
  destruct (Z.leb_spec 0 e).
  - assert (e = 0) as -> by lia.
    change (10 ^ (- 0)) with 1. change (10 ^ 0) with 1.
    field.
  - by field.
Qed.

(** The empty string, the text of no parameter value, is not a number. *)
Lemma float_literal_empty : float_literal "" = NotNumeric.
Proof. done. Qed.

(** The scan does not look past white space at the front. *)
Lemma skip_spaces_idemp s : skip_spaces (skip_spaces s) = skip_spaces s.
Proof.
  induction s as [|c s IH]; [done|]. cbn. destruct (is_space c) eqn:Hc; [done|].
  cbn. by rewrite Hc.
Qed.

Lemma float_literal_space c s :
  is_space c = true -> float_literal (String c s) = float_literal s.
Proof. intros Hc. unfold float_literal. cbn. by rewrite Hc. Qed.

(** ** The distance on numbers *)

Lemma js_calculateDistance_num a b c d :
  js_calculateDistance (Num a) (Num b) (Num c) (Num d) =
  Num (calculateDistance a b c d).
Proof. done. Qed.

(** The distance is a number exactly when the four arguments are. *)
Lemma js_calculateDistance_is_num lat1 lon1 lat2 lon2 :
  is_num (js_calculateDistance lat1 lon1 lat2 lon2) =
  is_num lat1 && is_num lon1 && is_num lat2 && is_num lon2.
Proof. by destruct lat1, lon1, lat2, lon2. Qed.

(** Otherwise it is NaN, never an infinity. *)
Lemma js_calculateDistance_cases lat1 lon1 lat2 lon2 :
  is_num (js_calculateDistance lat1 lon1 lat2 lon2) = false ->
  js_calculateDistance lat1 lon1 lat2 lon2 = NaN.
Proof. by destruct lat1, lon1, lat2, lon2. Qed.
