(* ===== verification/BloodBanks.v ===== *)
(** * BloodBanks: the handlers of routes/bloodBanks.js

    [get_blood_banks] is GET /api/blood-banks: all banks, and when the
    query string carries [lat] and [lng] each bank annotated with its
    distance to that point and the array sorted by
    [(a, b) => a.distance - b.distance].  [get_blood_bank] is
    GET /api/blood-banks/:id (the bank with its stock, or 404) and
    [get_blood_stock] is GET /api/blood-banks/:id/stock (the stock rows of
    the bank, ordered by blood type).

    The theorems show what the ranking returns: a permutation of the
    annotated banks, in ascending distance, equal distances in storage
    order, each distance the great-circle distance of [Geo]; what it
    returns when the location is absent or is not a number; that a
    distance that is not a number makes the comparator inconsistent; and
    the answers of the two other handlers against the tables as maps. *)

From Stdlib Require Import Reals Lra ZArith.
From stdpp Require Import base tactics option list strings sorting gmap.
From S2P Require Import Prelude Outcomes Sorting Store Geo Numbers.

#[local] Open Scope Z_scope.

(** ** Data of the responses *)

(** A bank of the listing: the row, and the [distance] property when the
    handler has set it. *)
Record BankView : Type := mkBankView {
  bv_bank : BloodBank;
  bv_distance : option JsNumber
}.

(** A row of [SELECT blood_type, quantity FROM blood_stock]. *)
Record StockView : Type := mkStockView {
  sv_blood_type : string;
  sv_quantity : Z
}.

(** [{...bloodBanks[0], blood_stock: bloodStock}] *)
Record BankDetail : Type := mkBankDetail {
  bd_bank : BloodBank;
  bd_blood_stock : list StockView
}.

(** ** The ranking *)

(** A row as it is answered when no distance is computed. *)
Definition plain (bank : BloodBank) : BankView := mkBankView bank None.

(** [bank.distance = calculateDistance(userLat, userLng,
     parseFloat(bank.latitude), parseFloat(bank.longitude))] *)
Definition set_distance (userLat userLng : JsNumber) (bank : BloodBank)
  : BankView :=
  mkBankView bank
    (Some (js_calculateDistance userLat userLng
             (parseFloat (bb_latitude bank))
             (parseFloat (bb_longitude bank)))).

(** [a.distance] where a number is expected: an absent property is
    [undefined], which arithmetic reads as NaN. *)
Definition distance (v : BankView) : JsNumber := default NaN (bv_distance v).

(** [(a, b) => a.distance - b.distance] *)
Definition by_distance (a b : BankView) : JsNumber :=
  js_sub (distance a) (distance b).

(** [array.sort(compareFn)]: [a] goes before [b] when [compareFn(a, b)]
    is negative. *)
Definition array_sort {A} (compareFn : A -> A -> JsNumber) (l : list A)
  : list A :=
  stable_sort (fun a b => js_negative (compareFn a b)) l.

(** ** The statements *)

(** [SELECT * FROM blood_banks WHERE id = ?] *)
Definition select_bank (id : Z) (db : Db) : list BloodBank :=
  sql_select (fun b => bb_id b =? id) (blood_banks db).

(** [SELECT blood_type, quantity FROM blood_stock WHERE blood_bank_id = ?] *)
Definition select_stock (id : Z) (db : Db) : list StockView :=
  (fun s => mkStockView (bs_blood_type s) (bs_quantity s)) <$>
    sql_select (fun s => bs_blood_bank_id s =? id) (blood_stock db).

Section handlers.
Context {driver : Driver} {collation : Collation}.

(** [SELECT * FROM blood_stock WHERE blood_bank_id = ? ORDER BY blood_type] *)
Definition select_stock_ordered (id : Z) (db : Db) : list BloodStock :=
  stable_sort (asc_by_text bs_blood_type)
    (sql_select (fun s => bs_blood_bank_id s =? id) (blood_stock db)).

(** ** The handlers *)

(** GET /api/blood-banks *)
Definition get_blood_banks (lat lng : option string)
  : Prog Db (Response (list BankView)) :=
  try_catch
    (bloodBanks ← db_query (sql_read blood_banks);
     if truthy_str lat && truthy_str lng then
       let userLat := parseFloat (default "" lat) in
       let userLng := parseFloat (default "" lng) in
       mret (json_ok (array_sort by_distance
                        (set_distance userLat userLng <$> bloodBanks)))
     else mret (json_ok (plain <$> bloodBanks)))
    (mret (json_error 500 "Gagal mengambil data PMI")).

(** GET /api/blood-banks/:id *)
Definition get_blood_bank (id : JsVal) : Prog Db (Response BankDetail) :=
  try_catch
    (bloodBanks ← db_query (keyed id (sql_read ∘ select_bank));
     match bloodBanks with
     | [] => mret (json_error 404 "PMI tidak ditemukan")
     | bank :: _ =>
         bloodStock ← db_query (keyed id (sql_read ∘ select_stock));
         mret (json_ok (mkBankDetail bank bloodStock))
     end)
    (mret (json_error 500 "Gagal mengambil data PMI")).

(** GET /api/blood-banks/:id/stock *)
Definition get_blood_stock (id : JsVal)
  : Prog Db (Response (list BloodStock)) :=
  try_catch
    (bloodStock ← db_query (keyed id (sql_read ∘ select_stock_ordered));
     mret (json_ok bloodStock))
    (mret (json_error 500 "Gagal mengambil data stok darah")).

End handlers.

(** ** The reference: ranking by kilometres *)

(** The distance of a view as a real, for views whose distance is a
    number. *)
Definition km (v : BankView) : R :=
  match distance v with Num r => r | _ => 0%R end.

(** Ascending order of a real key. *)
Definition asc_by_real {A} (key : A -> R) (x y : A) : bool :=
  bool_decide (key x < key y)%R.

#[export] Instance asc_by_real_comparator {A} (key : A -> R) :
  Comparator (asc_by_real key).
Proof.
  split; unfold asc_by_real; intros *;
    rewrite ?bool_decide_eq_true, ?bool_decide_eq_false; lra.
Qed.

(** A string that [parseFloat] reads as a finite number. *)
Definition numeric (s : string) : bool :=
  match float_literal s with Decimal _ _ => true | _ => false end.

(** The coordinates of every bank are numbers. *)
Definition located (db : Db) : bool :=
  forallb (fun b => numeric (bb_latitude b) && numeric (bb_longitude b))
    (blood_banks db).

(** The banks as the ranking annotates them. *)
Definition annotated (lat lng : string) (db : Db) : list BankView :=
  set_distance (parseFloat lat) (parseFloat lng) <$> blood_banks db.

(** The coordinate a numeric string denotes. *)
Definition coord (s : string) : R :=
  match parseFloat s with Num r => r | _ => 0%R end.

(** ** The comparator *)

Lemma numeric_parseFloat s : numeric s = true -> parseFloat s = Num (coord s).
Proof.
  unfold numeric, coord, parseFloat. by destruct (float_literal s).
Qed.

Lemma not_numeric_parseFloat s :
  numeric s = false -> is_num (parseFloat s) = false.
Proof. unfold numeric, parseFloat. by destruct (float_literal s). Qed.

(** A numeric string is not empty: it passes the test [lat && lng]. *)
Lemma numeric_truthy s : numeric s = true -> truthy_str (Some s) = true.
Proof. by destruct s. Qed.

(** On two numbers the comparator orders by the real distance. *)
Lemma by_distance_km a b :
  is_num (distance a) = true -> is_num (distance b) = true ->
  js_negative (by_distance a b) = asc_by_real km a b.
Proof.
  unfold by_distance, asc_by_real, km.
  destruct (distance a), (distance b); try done. intros _ _.
  apply js_negative_sub_num.
Qed.

(** A distance that is not a number ties with every distance. *)
Lemma by_distance_NaN a b :
  is_NaN (distance a) || is_NaN (distance b) = true ->
  js_negative (by_distance a b) = false.
Proof. apply js_negative_sub_NaN. Qed.

(** The comparator never puts [a] before [b] and [b] before [a]. *)
Lemma by_distance_asym a b :
  js_negative (by_distance a b) = true -> js_negative (by_distance b a) = false.
Proof. apply js_negative_sub_asym. Qed.

(** ** The sort *)

Section ranking.
Implicit Types (l : list BankView) (v : BankView).

(** Sorting rearranges: no bank is lost, added or repeated, whatever the
    distances are. *)
Lemma array_sort_perm {A} (compareFn : A -> A -> JsNumber) (l : list A) :
  array_sort compareFn l ≡ₚ l.
Proof. apply stable_sort_perm. Qed.

(** When every distance is a number the sort is the sort by the real
    distance. *)
Lemma array_sort_by_km l :
  Forall (fun v => is_num (distance v) = true) l ->
  array_sort by_distance l = stable_sort (asc_by_real km) l.
Proof.
  rewrite Forall_forall. intros H. apply stable_sort_ext.
  intros a b Ha Hb. apply by_distance_km; by apply H.
Qed.

Lemma array_sort_sorted l :
  Forall (fun v => is_num (distance v) = true) l ->
  StronglySorted (fun a b => km a <= km b)%R (array_sort by_distance l).
Proof.
  intros H. rewrite array_sort_by_km by done.
  eapply StronglySorted_weaken; [|apply stable_sort_sorted, _].
  unfold not_after, asc_by_real. intros a b.
  rewrite bool_decide_eq_false. lra.
Qed.

(** Banks at one distance keep the order they had. *)
Lemma array_sort_stable l (d : R) :
  Forall (fun v => is_num (distance v) = true) l ->
  List.filter (fun v => bool_decide (km v = d)) (array_sort by_distance l) =
  List.filter (fun v => bool_decide (km v = d)) l.
Proof.
  intros H. rewrite array_sort_by_km by done.
  set (k := mkBankView (mkBloodBank 0 "" "" "" "" "") (Some (Num d))).
  rewrite !(List.filter_ext (fun v => bool_decide (km v = d))
              (tied (asc_by_real km) k)).
  - apply stable_sort_stable, _.
  - intros v. unfold tied, asc_by_real. cbn.
    repeat case_bool_decide; try done; lra.
  - intros v. unfold tied, asc_by_real. cbn.
    repeat case_bool_decide; try done; lra.
Qed.

(** When no distance is a number the array keeps its order. *)
Lemma array_sort_all_NaN l :
  Forall (fun v => is_NaN (distance v) = true) l ->
  array_sort by_distance l = l.
Proof.
  rewrite Forall_forall. intros H. apply stable_sort_all_tied.
  intros a b Ha _. apply by_distance_NaN. by rewrite (H a Ha).
Qed.

(** The first bank of the ranking is a nearest one. *)
Lemma array_sort_head l v :
  Forall (fun v => is_num (distance v) = true) l ->
  head (array_sort by_distance l) = Some v ->
  v ∈ l /\ forall u, u ∈ l -> (km v <= km u)%R.
Proof.
  intros H. rewrite array_sort_by_km by done.
  intros [Hv Hle]%stable_sort_head; [|apply _]. split; [done|].
  intros u Hu. specialize (Hle u Hu). unfold asc_by_real in Hle.
  rewrite bool_decide_eq_false in Hle. lra.
Qed.

End ranking.

(** ** The distances the ranking computes *)

(** With numeric coordinates on both sides the distance of a bank is the
    distance of [Geo] between the coordinates the strings denote. *)
Lemma set_distance_numeric lat lng bank :
  numeric lat = true -> numeric lng = true ->
  numeric (bb_latitude bank) = true -> numeric (bb_longitude bank) = true ->
  distance (set_distance (parseFloat lat) (parseFloat lng) bank) =
  Num (calculateDistance (coord lat) (coord lng)
         (coord (bb_latitude bank)) (coord (bb_longitude bank))).
Proof.
  intros H1 H2 H3 H4. unfold distance, set_distance. cbn.
  by rewrite (numeric_parseFloat lat), (numeric_parseFloat lng),
    (numeric_parseFloat (bb_latitude _)), (numeric_parseFloat (bb_longitude _)).
Qed.

(** When the location is not numeric every distance is NaN. *)
Lemma set_distance_NaN lat lng bank :
  numeric lat && numeric lng = false ->
  distance (set_distance (parseFloat lat) (parseFloat lng) bank) = NaN.
Proof.
  intros H. unfold distance, set_distance. cbn.
  apply js_calculateDistance_cases. rewrite js_calculateDistance_is_num.
  apply andb_false_iff in H as [H|H]; apply not_numeric_parseFloat in H;
    rewrite H; by rewrite ?andb_false_r.
Qed.

Lemma annotated_numeric lat lng db :
  numeric lat = true -> numeric lng = true -> located db = true ->
  Forall (fun v => is_num (distance v) = true) (annotated lat lng db).
Proof.
  intros H1 H2 Hl. unfold located in Hl. rewrite forallb_forall in Hl.
  apply Forall_fmap, Forall_forall. intros b Hb%list_elem_of_In%Hl.
  apply andb_true_iff in Hb as [H3 H4]. unfold compose.
  by rewrite set_distance_numeric.
Qed.

Lemma annotated_NaN lat lng db :
  numeric lat && numeric lng = false ->
  Forall (fun v => is_NaN (distance v) = true) (annotated lat lng db).
Proof.
  intros H. apply Forall_fmap, Forall_forall. intros b _. unfold compose.
  by rewrite set_distance_NaN.
Qed.

(** The banks of the annotated list are the banks of the table, in
    storage order. *)
Lemma annotated_banks lat lng db :
  bv_bank <$> annotated lat lng db = blood_banks db.
Proof.
  unfold annotated. rewrite <- list_fmap_compose. apply list_fmap_id.
Qed.

(** ** GET /api/blood-banks *)

Section properties.
Context {driver : Driver} {collation : Collation}.

(** The handler with a location, on a store that answers. *)
Lemma run_get_blood_banks_located lat lng w :
  truthy_str (Some lat) && truthy_str (Some lng) = true -> faulty w = false ->
  run (get_blood_banks (Some lat) (Some lng)) w =
  (Some (json_ok (array_sort by_distance (annotated lat lng (w_store w)))),
   advance w).
Proof.
  intros Ht Hf. unfold get_blood_banks. by rewrite run_try_read, Ht.
Qed.

(** C2. Ranking: with a numeric location and numeric coordinates of every
    bank, on a store that answers, the response is 200 with the banks
    annotated with their distances, a permutation of the table in
    ascending distance, banks at the same distance in storage order. *)
Theorem get_blood_banks_ranked lat lng w :
  numeric lat = true -> numeric lng = true -> located (w_store w) = true ->
  faulty w = false ->
  exists ranked,
    run (get_blood_banks (Some lat) (Some lng)) w =
      (Some (json_ok ranked), advance w)
    /\ ranked ≡ₚ annotated lat lng (w_store w)
    /\ StronglySorted (fun a b => km a <= km b)%R ranked
    /\ forall d, List.filter (fun v => bool_decide (km v = d)) ranked =
                 List.filter (fun v => bool_decide (km v = d))
                   (annotated lat lng (w_store w)).
Proof.
  intros H1 H2 Hl Hf. eexists. split; [|split; [|split]].
  - apply run_get_blood_banks_located; [|done].
    by rewrite !numeric_truthy.
  - apply array_sort_perm.
  - by apply array_sort_sorted, annotated_numeric.
  - intros d. by apply array_sort_stable, annotated_numeric.
Qed.

(** The first bank of the ranking is a nearest bank. *)
Theorem get_blood_banks_nearest_first lat lng w ranked v :
  numeric lat = true -> numeric lng = true -> located (w_store w) = true ->
  (run (get_blood_banks (Some lat) (Some lng)) w).1 = Some (json_ok ranked) ->
  head ranked = Some v ->
  forall u, u ∈ ranked -> (km v <= km u)%R.
Proof.
  intros H1 H2 Hl Hrun Hv u Hu. destruct (faulty w) eqn:Hf.
  { unfold get_blood_banks in Hrun. by rewrite run_try_query, Hf in Hrun. }
  rewrite run_get_blood_banks_located in Hrun
    by (by rewrite ?numeric_truthy).
  injection Hrun as <-.
  apply array_sort_head in Hv as [_ Hv]; [|by apply annotated_numeric].
  apply Hv. by rewrite <- (array_sort_perm by_distance).
Qed.

(** C10. Without a location (a parameter absent or empty) the response is the
    table in storage order, without distances. *)
Theorem get_blood_banks_unranked lat lng w :
  truthy_str lat && truthy_str lng = false -> faulty w = false ->
  run (get_blood_banks lat lng) w =
  (Some (json_ok (plain <$> blood_banks (w_store w))), advance w).
Proof.
  intros Ht Hf. unfold get_blood_banks. by rewrite run_try_read, Ht.
Qed.

(** C39. A location that is given but is not a number (text, or an infinity)
    is answered 200 with the banks in storage order, every distance NaN. *)
Theorem get_blood_banks_nan_location lat lng w :
  truthy_str (Some lat) && truthy_str (Some lng) = true ->
  numeric lat && numeric lng = false -> faulty w = false ->
  run (get_blood_banks (Some lat) (Some lng)) w =
    (Some (json_ok (annotated lat lng (w_store w))), advance w)
  /\ Forall (fun v => bv_distance v = Some NaN) (annotated lat lng (w_store w)).
Proof.
  intros Ht Hn Hf. split.
  - rewrite run_get_blood_banks_located by done.
    by rewrite array_sort_all_NaN by by apply annotated_NaN.
  - apply Forall_fmap, Forall_forall. intros b _. cbn. f_equal.
    by apply (set_distance_NaN lat lng b).
Qed.

(** A failure of the statement is answered 500. *)
Theorem get_blood_banks_failure lat lng w :
  faulty w = true ->
  run (get_blood_banks lat lng) w =
  (Some (json_error 500 "Gagal mengambil data PMI"), advance w).
Proof. intros Hf. unfold get_blood_banks. by rewrite run_try_query, Hf. Qed.

(** A distance that is not a number makes the comparator inconsistent:
    it ties a bank without a distance with every other bank, the nearer
    and the farther of two alike. *)
Theorem by_distance_inconsistent a b c :
  is_num (distance a) = true -> is_NaN (distance b) = true ->
  is_num (distance c) = true -> (km a < km c)%R ->
  js_negative (by_distance a b) = false
  /\ js_negative (by_distance b a) = false
  /\ js_negative (by_distance b c) = false
  /\ js_negative (by_distance c b) = false
  /\ js_negative (by_distance a c) = true.
Proof.
  intros Ha Hb Hc Hlt.
  rewrite !by_distance_NaN by (by rewrite Hb, ?orb_true_r).
  rewrite by_distance_km by done. unfold asc_by_real.
  by rewrite bool_decide_true.
Qed.

(** So it is no strict weak order, and the order in which
    [Array.prototype.sort] leaves such an array is up to the
    implementation. *)
Lemma by_distance_not_comparator :
  ~ Comparator (fun a b : BankView => js_negative (by_distance a b)).
Proof.
  intros [_ Hnt].
  set (at_km d := mkBankView (mkBloodBank 0 "" "" "" "" "") (Some d)).
  specialize (Hnt (at_km (Num 1)) (at_km NaN) (at_km (Num 2)) eq_refl eq_refl).
  unfold by_distance in Hnt. cbn in Hnt.
  apply bool_decide_eq_false in Hnt. lra.
Qed.

(** ** GET /api/blood-banks/:id *)

(** The stock rows of a bank, as the detail shows them. *)
Definition stock_view (s : BloodStock) : StockView :=
  mkStockView (bs_blood_type s) (bs_quantity s).

(** The detail of a bank, by key. *)
Definition bank_detail (db : Db) (id : Z) : option BankDetail :=
  bank ← bank_map db !! id;
  Some (mkBankDetail bank (select_stock id db)).

Lemma head_select_bank id db : head (select_bank id db) = bank_map db !! id.
Proof. symmetry. apply table_map_lookup. Qed.

(** The stock of the detail: the rows of [blood_stock] of that bank. *)
Lemma elem_of_select_stock id db sv :
  sv ∈ select_stock id db <->
  exists s, s ∈ blood_stock db /\ bs_blood_bank_id s = id /\ sv = stock_view s.
Proof.
  unfold select_stock. rewrite list_elem_of_fmap. split.
  - intros (s & -> & [Hs Hid%Z.eqb_eq]%elem_of_sql_select). eauto.
  - intros (s & Hs & Hid & ->). exists s. split; [done|].
    apply elem_of_sql_select. by rewrite Hid, Z.eqb_refl.
Qed.

(** The detail on a store that answers both statements: 200 with the bank
    of that id and its stock, 404 when there is no such bank. *)
Theorem get_blood_bank_spec key id w :
  bind_int key = Some id ->
  calm 2 (w_faults w) = true ->
  (run (get_blood_bank key) w).1 =
  Some (match bank_detail (w_store w) id with
        | Some d => json_ok d
        | None => json_error 404 "PMI tidak ditemukan"
        end).
Proof.
  intros Hk [Hf [Hf' _]%calm_S]%calm_S. unfold get_blood_bank, bank_detail.
  bind_key Hk.
  rewrite run_try_read, <- head_select_bank by done.
  destruct (select_bank id (w_store w)) as [|bank rest]; [done|].
  by rewrite run_try_read.
Qed.

(** The 404 is decided by the first statement alone: the second is not
    issued. *)
Theorem get_blood_bank_not_found key id w :
  bind_int key = Some id ->
  bank_map (w_store w) !! id = None -> faulty w = false ->
  run (get_blood_bank key) w =
  (Some (json_error 404 "PMI tidak ditemukan"), advance w).
Proof.
  intros Hk Hb Hf. unfold get_blood_bank. bind_key Hk.
  rewrite run_try_read by done. rewrite <- head_select_bank in Hb.
  by destruct (select_bank id (w_store w)).
Qed.

(** A failure of either statement is answered 500: the bank is never
    shown without its stock. *)
Theorem get_blood_bank_failure key id w :
  bind_int key = Some id ->
  faulty w = true \/
  (is_Some (bank_map (w_store w) !! id) /\ faulty (advance w) = true) ->
  (run (get_blood_bank key) w).1 =
  Some (json_error 500 "Gagal mengambil data PMI").
Proof.
  intros Hk. unfold get_blood_bank. bind_key Hk.
  rewrite run_try_query. destruct (faulty w) eqn:Hf.
  { by intros _. }
  intros [?|[[bank Hb] Hf']]; [done|]. rewrite <- head_select_bank in Hb.
  cbn [sql_read w_store]. destruct (select_bank id (w_store w)); [done|].
  fold (advance w). by rewrite run_try_query, Hf'.
Qed.

(** ** GET /api/blood-banks/:id/stock *)

(** The stock on a store that answers: 200 with the stock rows of that
    bank, each once, in the order of their blood types. *)
Theorem get_blood_stock_spec key id w :
  bind_int key = Some id ->
  faulty w = false ->
  exists rows,
    run (get_blood_stock key) w = (Some (json_ok rows), advance w)
    /\ rows ≡ₚ sql_select (fun s => bs_blood_bank_id s =? id)
                 (blood_stock (w_store w))
    /\ StronglySorted
         (fun a b =>
            collates_before (bs_blood_type b) (bs_blood_type a) = false)
         rows.
Proof.
  intros Hk Hf. eexists. split; [|split].
  - unfold get_blood_stock. bind_key Hk. by rewrite run_try_read.
  - apply stable_sort_perm.
  - apply (stable_sort_sorted (asc_by_text bs_blood_type)).
Qed.

(** An id without stock rows (a bank that does not exist, say) is
    answered 200 with the empty list, not 404. *)
Theorem get_blood_stock_unknown key id w :
  bind_int key = Some id ->
  Forall (fun s => bs_blood_bank_id s <> id) (blood_stock (w_store w)) ->
  faulty w = false ->
  run (get_blood_stock key) w = (Some (json_ok []), advance w).
Proof.
  intros Hk Hs Hf. unfold get_blood_stock. bind_key Hk.
  unfold select_stock_ordered. rewrite run_try_read by done.
  replace (sql_select _ _) with (@nil BloodStock); [done|].
  symmetry. apply sql_select_none. rewrite Forall_forall in Hs.
  intros s Hin. by apply Z.eqb_neq, Hs.
Qed.

(** A failure of the statement is answered 500. *)
Theorem get_blood_stock_failure key w :
  faulty w = true \/ bind_int key = None ->
  run (get_blood_stock key) w =
  (Some (json_error 500 "Gagal mengambil data stok darah"), advance w).
Proof.
  intros Hf. unfold get_blood_stock. rewrite run_try_query.
  destruct (faulty w); [done|]. destruct Hf as [|Hk]; [done|].
  by rewrite keyed_unbound.
Qed.

(** ** The router *)

(** A request to the blood-bank router, by route. *)
Inductive BloodBanksReq : Type :=
| ListBloodBanks (lat lng : option string)
| GetBloodBank (id : JsVal)
| GetBloodStock (id : JsVal).

Definition blood_banks_router (req : BloodBanksReq) : Prog Db Envelope :=
  match req with
  | ListBloodBanks lat lng => respond (get_blood_banks lat lng)
  | GetBloodBank id => respond (get_blood_bank id)
  | GetBloodStock id => respond (get_blood_stock id)
  end.

(** Every statement of the router reads: it keeps every invariant. *)
Lemma blood_banks_router_safe (I : Db -> Prop) req :
  safe_prog I (blood_banks_router req).
Proof.
  destruct req; cbn [blood_banks_router];
    unfold get_blood_banks, get_blood_bank, get_blood_stock;
    eauto 12 with donor.
Qed.

(** The statuses of each route. *)
Definition blood_banks_statuses (req : BloodBanksReq) : list Z :=
  match req with
  | ListBloodBanks _ _ => [200; 500]
  | GetBloodBank _ => [200; 404; 500]
  | GetBloodStock _ => [200; 500]
  end.

(** Whatever the store answers, every route answers after at most two
    statements with a well-formed envelope whose status is one of the
    route's. *)
Lemma blood_banks_router_typed req :
  answers 2 (fun e => typed (blood_banks_statuses req) e = true)
    (blood_banks_router req).
Proof.
  destruct req; cbn [blood_banks_router blood_banks_statuses];
    unfold get_blood_banks, get_blood_bank, get_blood_stock;
    within_walk; done.
Qed.

Lemma blood_banks_router_preserves (I : Db -> Prop) req :
  preserves I (blood_banks_router req).
Proof. apply safe_prog_preserves, blood_banks_router_safe. Qed.

(** The router only reads: whatever the request and whatever fails, the
    store is as it was. *)
Theorem blood_banks_router_reads req w :
  w_store (run (blood_banks_router req) w).2 = w_store w.
Proof.
  by apply (blood_banks_router_preserves (fun db => db = w_store w)).
Qed.

End properties.

(** ** A ranking along a meridian *)

(** The distance of a numeric bank on the meridian of the location is the
    difference of the latitudes, in radians, times the radius. *)
Lemma km_meridian lat lng bank :
  numeric lat = true -> numeric lng = true ->
  numeric (bb_latitude bank) = true -> numeric (bb_longitude bank) = true ->
  coord (bb_longitude bank) = coord lng ->
  (Rabs (coord (bb_latitude bank) - coord lat) <= 180)%R ->
  km (set_distance (parseFloat lat) (parseFloat lng) bank) =
  (6371 * (Rabs (coord (bb_latitude bank) - coord lat) * PI / 180))%R.
Proof.
  intros H1 H2 H3 H4 Hlng Hlat. unfold km.
  rewrite set_distance_numeric, Hlng by done.
  by apply calculateDistance_meridian.
Qed.

(** The coordinate of an integer literal. *)
Lemma coord_int s m : float_literal s = Decimal m 0 -> coord s = IZR m.
Proof.
  intros H. unfold coord.
  by rewrite (parseFloat_decimal s m 0), decimal_value_int.
Qed.

(** Three banks on the meridian of Greenwich, at 5, 1 and 3 degrees of
    latitude, each with stock. *)
Definition sample_banks : Db :=
  mkDb []
       [mkBloodBank 1 "PMI Utara" "5" "0" "Jl. Satu" "021-1";
        mkBloodBank 2 "PMI Pusat" "1" "0" "Jl. Dua" "021-2";
        mkBloodBank 3 "PMI Timur" "3" "0" "Jl. Tiga" "021-3"]
       [mkBloodStock 1 "O+" 12; mkBloodStock 2 "B-" 4; mkBloodStock 1 "A+" 7;
        mkBloodStock 1 "AB-" 2]
       [] 1 1 0.

(** The kilometres of the three banks from latitude 0 on their meridian. *)
Lemma sample_banks_km :
  km <$> annotated "0" "0" sample_banks =
  [6371 * (5 * PI / 180); 6371 * (1 * PI / 180); 6371 * (3 * PI / 180)]%R.
Proof.
  unfold annotated. cbn [sample_banks blood_banks fmap list_fmap].
  rewrite !km_meridian; try done; cbn [bb_latitude bb_longitude];
    rewrite ?(coord_int "0" 0), ?(coord_int "5" 5), ?(coord_int "1" 1),
      ?(coord_int "3" 3) by done;
    rewrite ?Rminus_0_r, ?Rabs_right by lra; try done; lra.
Qed.

(** The three banks as the ranking from latitude 0 annotates them. *)
Definition sample_view (bank : BloodBank) : BankView :=
  set_distance (parseFloat "0") (parseFloat "0") bank.

Definition utara : BloodBank :=
  mkBloodBank 1 "PMI Utara" "5" "0" "Jl. Satu" "021-1".
Definition pusat : BloodBank :=
  mkBloodBank 2 "PMI Pusat" "1" "0" "Jl. Dua" "021-2".
Definition timur : BloodBank :=
  mkBloodBank 3 "PMI Timur" "3" "0" "Jl. Tiga" "021-3".

(** The sort puts them in the order 1, 3 and 5 degrees. *)
Lemma sample_banks_ranked :
  array_sort by_distance (annotated "0" "0" sample_banks) =
  sample_view <$> [pusat; timur; utara].
Proof.
  rewrite array_sort_by_km by (by apply annotated_numeric).
  pose proof sample_banks_km as Hkm. pose proof PI_RGT_0 as Hpi.
  unfold annotated in *. cbn [sample_banks blood_banks fmap list_fmap] in *.
  injection Hkm as Hk1 Hk2 Hk3.
  cbn [stable_sort foldr sort_insert]. unfold asc_by_real.
  repeat (rewrite ?Hk1, ?Hk2, ?Hk3; case_bool_decide; try lra;
          cbn [sort_insert]).
  done.
Qed.

(** Banks at 5, 1 and 3 degrees from the location are answered in the
    order 1, 3, 5. *)
Example get_blood_banks_meridian :
  exists ranked,
    run (get_blood_banks (Some "0") (Some "0")) (mkWorld sample_banks []) =
      (Some (json_ok ranked), mkWorld sample_banks [])
    /\ bv_bank <$> ranked = [pusat; timur; utara].
Proof.
  eexists. split; [by apply run_get_blood_banks_located|]. cbn [w_store].
  by rewrite sample_banks_ranked.
Qed.

(** The stock of the first bank, in the order of the binary collation. *)
Example get_blood_stock_sample :
  run (get_blood_stock (JsStr "1")) (mkWorld sample_banks []) =
  (Some (json_ok [mkBloodStock 1 "A+" 7; mkBloodStock 1 "AB-" 2;
                  mkBloodStock 1 "O+" 12]), mkWorld sample_banks []).
Proof. unfold get_blood_stock. by rewrite run_try_query. Qed.

(** ** Concrete runs of the theorems *)

Lemma get_blood_banks_ranked_witness :
  exists ranked,
    run (get_blood_banks (Some "0") (Some "0")) (mkWorld sample_banks []) =
      (Some (json_ok ranked), mkWorld sample_banks [])
    /\ ranked ≡ₚ annotated "0" "0" sample_banks
    /\ StronglySorted (fun a b => km a <= km b)%R ranked
    /\ forall d, List.filter (fun v => bool_decide (km v = d)) ranked =
                 List.filter (fun v => bool_decide (km v = d))
                   (annotated "0" "0" sample_banks).
Proof.
  apply (get_blood_banks_ranked "0" "0" (mkWorld sample_banks [])); done.
Defined.

Lemma get_blood_banks_nearest_first_witness :
  (km (sample_view pusat) <= km (sample_view utara))%R.
Proof.
  apply (get_blood_banks_nearest_first "0" "0" (mkWorld sample_banks [])
           (sample_view <$> [pusat; timur; utara]) (sample_view pusat));
    try done.
  - rewrite run_get_blood_banks_located by done. cbn [fst w_store].
    by rewrite sample_banks_ranked.
  - do 2 constructor 2. constructor.
Defined.

(** A bank whose coordinates are not numbers, between a near and a far
    one. *)
Lemma by_distance_inconsistent_witness :
  let at_km d := mkBankView pusat (Some d) in
  js_negative (by_distance (at_km (Num 1)) (at_km NaN)) = false
  /\ js_negative (by_distance (at_km NaN) (at_km (Num 1))) = false
  /\ js_negative (by_distance (at_km NaN) (at_km (Num 2))) = false
  /\ js_negative (by_distance (at_km (Num 2)) (at_km NaN)) = false
  /\ js_negative (by_distance (at_km (Num 1)) (at_km (Num 2))) = true.
Proof.
  intros at_km.
  apply (by_distance_inconsistent (at_km (Num 1)) (at_km NaN) (at_km (Num 2)));
    try done.
  cbn. lra.
Defined.

Lemma get_blood_banks_unranked_witness :
  run (get_blood_banks None (Some "106.8")) (mkWorld sample_banks []) =
  (Some (json_ok (plain <$> [utara; pusat; timur])), mkWorld sample_banks []).
Proof.
  apply (get_blood_banks_unranked None (Some "106.8")
           (mkWorld sample_banks [])); done.
Defined.

Lemma get_blood_banks_nan_location_witness :
  run (get_blood_banks (Some "abc") (Some "0")) (mkWorld sample_banks []) =
    (Some (json_ok (annotated "abc" "0" sample_banks)),
     mkWorld sample_banks [])
  /\ Forall (fun v => bv_distance v = Some NaN)
       (annotated "abc" "0" sample_banks).
Proof.
  apply (get_blood_banks_nan_location "abc" "0" (mkWorld sample_banks []));
    done.
Defined.

Lemma get_blood_bank_spec_witness :
  (run (get_blood_bank (JsStr "1")) (mkWorld sample_banks [])).1 =
  Some (json_ok (mkBankDetail utara
                   [mkStockView "O+" 12; mkStockView "A+" 7;
                    mkStockView "AB-" 2])).
Proof.
  apply (get_blood_bank_spec (JsStr "1") 1 (mkWorld sample_banks [])); done.
Defined.

Lemma get_blood_bank_failure_witness :
  (run (get_blood_bank (JsStr "1")) (mkWorld sample_banks [false; true])).1 =
  Some (json_error 500 "Gagal mengambil data PMI").
Proof.
  apply (get_blood_bank_failure (JsStr "1") 1
           (mkWorld sample_banks [false; true])); [done|].
  right. split; [by eexists | done].
Defined.

Lemma get_blood_stock_spec_witness :
  exists rows,
    run (get_blood_stock (JsStr "1")) (mkWorld sample_banks []) =
      (Some (json_ok rows), mkWorld sample_banks [])
    /\ rows ≡ₚ sql_select (fun s => bs_blood_bank_id s =? 1)
                 (blood_stock sample_banks)
    /\ StronglySorted
         (fun a b => binary_before (bs_blood_type b) (bs_blood_type a) = false)
         rows.
Proof.
  exact (get_blood_stock_spec (JsStr "1") 1 (mkWorld sample_banks []) eq_refl
           eq_refl).
Defined.

Lemma get_blood_stock_unknown_witness :
  run (get_blood_stock (JsStr "9")) (mkWorld sample_banks []) =
  (Some (json_ok []), mkWorld sample_banks []).
Proof.
  apply (get_blood_stock_unknown (JsStr "9") 9 (mkWorld sample_banks []));
    [done | by_decide | done].
Defined.
