(* ===== verification/Security.v ===== *)
(** * Security: bcryptjs and jsonwebtoken as the handlers call them

    routes/auth.js and routes/users.js hash and compare passwords with
    [bcrypt.hash(password, 10)] and [bcrypt.compare(password, hash)];
    routes/auth.js signs a token with [jwt.sign(payload, secret,
    {expiresIn: '7d'})] and middleware/auth.js checks it with
    [jwt.verify].  Both libraries are only called by the sources: this
    file states what the handlers rely on as two interfaces, [Bcrypt] and
    [Jwt], with the calls as the handlers make them (what they answer on
    values that are not strings, on a missing secret, on an expired token)
    and one instance of each for concrete runs. *)

From Stdlib Require Import ZArith Ascii.
From stdpp Require Import base tactics option list strings countable.
From S2P Require Import Prelude.

#[local] Open Scope Z_scope.

(** ** bcryptjs *)

(** A digest of a password under a salt, and the test of a password
    against a digest.  The one law: a password passes against its own
    digest, whatever the salt.  Nothing is assumed of other passwords (the
    library reads 72 bytes of a password only). *)
Class Bcrypt : Type := {
  bcrypt_digest : string -> string -> string;
  bcrypt_check : string -> string -> bool;
  bcrypt_check_digest pw salt :
    bcrypt_check pw (bcrypt_digest pw salt) = true
}.

Section bcrypt.
Context {bcrypt : Bcrypt} {S : Type}.

(** [await bcrypt.hash(s, 10)] with the salt the library draws: rejected
    unless [s] is a string. *)
Definition bcrypt_hash (salt : string) (s : JsVal) : Prog S string :=
  match s with
  | JsStr pw => Ret (bcrypt_digest pw salt)
  | _ => Throw
  end.

(** [await bcrypt.compare(s, hash)]: rejected unless [s] is a string. *)
Definition bcrypt_compare (s : JsVal) (hash : string) : Prog S bool :=
  match s with
  | JsStr pw => Ret (bcrypt_check pw hash)
  | _ => Throw
  end.

Lemma bcrypt_compare_hash pw salt :
  bcrypt_compare (JsStr pw) (bcrypt_digest pw salt) = Ret true.
Proof. cbn. by rewrite bcrypt_check_digest. Qed.

(** The library issues no statement. *)
Lemma safe_bcrypt_hash (I : S -> Prop) salt s :
  safe_prog I (bcrypt_hash salt s).
Proof. by destruct s. Qed.

Lemma safe_bcrypt_compare (I : S -> Prop) s hash :
  safe_prog I (bcrypt_compare s hash).
Proof. by destruct s. Qed.

End bcrypt.

(** ** jsonwebtoken *)

(** The payload of a token: [{id, email}] of the login, with the times
    the library adds. *)
Record Claims : Type := mkClaims {
  c_id : Z;
  c_email : string;
  c_iat : Z;
  c_exp : Z
}.

#[export] Instance Claims_eq_dec : EqDecision Claims.
Proof. solve_decision. Defined.

#[export] Instance Claims_countable : Countable Claims.
Proof.
  apply (inj_countable' (fun c => (c_id c, c_email c, c_iat c, c_exp c))
           (fun t => mkClaims t.1.1.1 t.1.1.2 t.1.2 t.2)).
  by intros [].
Defined.

(** A token is a string without spaces that decodes, under the secret it
    was encoded with, to its payload. *)
Class Jwt : Type := {
  jwt_encode : string -> Claims -> string;
  jwt_decode : string -> string -> option Claims;
  jwt_decode_encode secret c : jwt_decode secret (jwt_encode secret c) = Some c;
  jwt_encode_plain secret c :
    jwt_encode secret c <> ""
    /\ " "%char ∉ String.list_ascii_of_string (jwt_encode secret c)
}.

(** Seven days, in seconds. *)
Definition week : Z := 7 * 24 * 60 * 60.

Section jwt.
Context {jwt : Jwt} {S : Type}.

(** [jwt.sign({id, email}, process.env.JWT_SECRET, {expiresIn: '7d'})] at
    time [now]: throws when no secret is configured. *)
Definition jwt_sign (secret : option string) (now : Z) (id : Z)
    (email : string) : Prog S string :=
  match secret with
  | Some k => Ret (jwt_encode k (mkClaims id email now (now + week)))
  | None => Throw
  end.

(** [jwt.verify(token, process.env.JWT_SECRET, callback)] at time [now]:
    the payload, or an error when no secret is configured, the token does
    not decode or its expiry is reached. *)
Definition jwt_verify (secret : option string) (now : Z) (token : string)
  : option Claims :=
  k ← secret;
  c ← jwt_decode k token;
  if now <? c_exp c then Some c else None.

(** A token signed at [t0] verifies for seven days, and not after. *)
Lemma jwt_verify_sign k t0 now id email :
  jwt_verify (Some k) now (jwt_encode k (mkClaims id email t0 (t0 + week))) =
  if now <? t0 + week then Some (mkClaims id email t0 (t0 + week)) else None.
Proof. unfold jwt_verify. cbn. by rewrite jwt_decode_encode. Qed.

Lemma jwt_verify_no_secret now token : jwt_verify None now token = None.
Proof. done. Qed.

Lemma safe_jwt_sign (I : S -> Prop) secret now id email :
  safe_prog I (jwt_sign secret now id email).
Proof. by destruct secret. Qed.

End jwt.

#[export] Hint Resolve safe_bcrypt_hash safe_bcrypt_compare safe_jwt_sign
  : donor.

(** ** Instances for concrete runs *)

(** The password itself stands for its digest. *)
#[export] Instance plain_bcrypt : Bcrypt := {|
  bcrypt_digest pw salt := pw;
  bcrypt_check pw hash := String.eqb pw hash;
  bcrypt_check_digest pw salt := String.eqb_refl pw
|}.

(** A positive number in binary, lowest bit first. *)
Fixpoint bits_of_pos (p : positive) : string :=
  match p with
  | xH => ""
  | xO p => String "0" (bits_of_pos p)
  | xI p => String "1" (bits_of_pos p)
  end.

Fixpoint pos_of_bits (s : string) : option positive :=
  match s with
  | "" => Some xH
  | String c s' =>
      if bool_decide (c = "0"%char) then xO <$> pos_of_bits s'
      else if bool_decide (c = "1"%char) then xI <$> pos_of_bits s'
      else None
  end.

Lemma pos_of_bits_of_pos p : pos_of_bits (bits_of_pos p) = Some p.
Proof. induction p as [p IH|p IH|]; cbn; by rewrite ?IH. Qed.

Lemma bits_of_pos_plain p :
  " "%char ∉ String.list_ascii_of_string (bits_of_pos p).
Proof.
  induction p as [p IH|p IH|]; cbn; rewrite ?not_elem_of_cons;
    [done..|apply not_elem_of_nil].
Qed.

(** The payload in binary behind a letter: the secret plays no part. *)
Definition bits_encode (secret : string) (c : Claims) : string :=
  String "t" (bits_of_pos (encode c)).

Definition bits_decode (secret token : string) : option Claims :=
  match token with
  | String "t" s => pos_of_bits s ≫= decode
  | _ => None
  end.

Lemma bits_decode_encode secret c :
  bits_decode secret (bits_encode secret c) = Some c.
Proof. cbn. rewrite pos_of_bits_of_pos. cbn. apply decode_encode. Qed.

Lemma bits_encode_plain secret c :
  bits_encode secret c <> ""
  /\ " "%char ∉ String.list_ascii_of_string (bits_encode secret c).
Proof.
  split; [done|]. cbn. rewrite not_elem_of_cons.
  split; [done|apply bits_of_pos_plain].
Qed.

#[export] Instance bits_jwt : Jwt := {|
  jwt_encode := bits_encode;
  jwt_decode := bits_decode;
  jwt_decode_encode := bits_decode_encode;
  jwt_encode_plain := bits_encode_plain
|}.
