(* ===== verification/Users.v ===== *)
(** * Users: the profile and password handlers of routes/users.js

    [get_profile] is GET /api/users/profile/:id (the columns of the user
    without the password, or 404), [put_profile] is PUT
    /api/users/profile/:id (name, phone, blood type and address, all
    required) and [put_password] is PUT /api/users/password/:id (the old
    password is verified against the stored digest before the digest of
    the new one is written).  The statistics handler of the same file is
    in [Stats]; [users_router] is the router of the four routes.

    The theorems show what each handler answers on every branch and what
    it writes: a profile never carries the password, a profile update
    changes neither the email nor the password nor the key, and a password
    is replaced only after the old one has passed. *)

From Stdlib Require Import ZArith.
From stdpp Require Import base tactics option list strings gmap.
From S2P Require Import Prelude Outcomes Sorting Store Donations Stats Security.

#[local] Open Scope Z_scope.

(** ** Data of the responses *)

(** A row of [SELECT id, name, email, phone, blood_type, address,
    created_at FROM users]. *)
Record Profile : Type := mkProfile {
  p_id : Z;
  p_name : string;
  p_email : string;
  p_phone : string;
  p_blood_type : string;
  p_address : string;
  p_created_at : Z
}.

#[export] Instance Profile_eq_dec : EqDecision Profile.
Proof. solve_decision. Defined.

Definition profile_of (u : User) : Profile :=
  mkProfile (u_id u) (u_name u) (u_email u) (u_phone u) (u_blood_type u)
    (u_address u) (u_created_at u).

(** ** The statements *)

Section handlers.
Context {driver : Driver} {bcrypt : Bcrypt}.

(** [SELECT id, name, email, phone, blood_type, address, created_at
     FROM users WHERE id = ?] *)
Definition select_profile (id : Z) (db : Db) : list Profile :=
  profile_of <$> sql_select (fun u => u_id u =? id) (users db).

(** The row an update of the profile writes. *)
Definition with_profile (name phone blood_type address : string) (u : User)
  : User :=
  mkUser (u_id u) name (u_email u) (u_password u) phone blood_type address
    (u_created_at u).

(** [UPDATE users SET name = ?, phone = ?, blood_type = ?, address = ?
     WHERE id = ?] *)
Definition update_profile (name phone blood_type address : JsVal) (id : Z)
    (db : Db) : option (unit * Db) :=
  n ← bind_text name;
  p ← bind_text phone;
  bt ← bind_text blood_type;
  a ← bind_text address;
  Some ((), set_users (sql_update (fun u => u_id u =? id)
                         (with_profile n p bt a))
              (next_user_id db) db).

(** [SELECT password FROM users WHERE id = ?] *)
Definition select_password (id : Z) (db : Db) : list string :=
  u_password <$> sql_select (fun u => u_id u =? id) (users db).

(** The row an update of the password writes. *)
Definition with_password (hash : string) (u : User) : User :=
  mkUser (u_id u) (u_name u) (u_email u) hash (u_phone u) (u_blood_type u)
    (u_address u) (u_created_at u).

(** [UPDATE users SET password = ? WHERE id = ?] *)
Definition update_password (hashedPassword : string) (id : Z) (db : Db)
  : option (unit * Db) :=
  Some ((), set_users (sql_update (fun u => u_id u =? id)
                         (with_password hashedPassword))
              (next_user_id db) db).

(** ** The handlers *)

(** GET /api/users/profile/:id *)
Definition get_profile (id : JsVal) : Prog Db (Response Profile) :=
  try_catch
    (users ← db_query (keyed id (sql_read ∘ select_profile));
     match users with
     | [] => mret (json_error 404 "User tidak ditemukan")
     | user :: _ => mret (json_ok user)
     end)
    (mret (json_error 500 "Gagal mengambil profil user")).

(** PUT /api/users/profile/:id *)
Definition put_profile (id name phone blood_type address : JsVal)
  : Prog Db (Response unit) :=
  try_catch
    (if negb (truthy name) || negb (truthy phone) || negb (truthy blood_type)
        || negb (truthy address)
     then mret (json_error 400 "Semua field harus diisi")
     else
       _ ← db_query (keyed id (update_profile name phone blood_type address));
       mret (json_msg "Profile berhasil diupdate"))
    (mret (json_error 500 "Gagal mengupdate profile")).

(** PUT /api/users/password/:id; [salt] is the salt [bcrypt.hash]
    draws. *)
Definition put_password (salt : string)
    (id old_password new_password : JsVal) : Prog Db (Response unit) :=
  try_catch
    (if negb (truthy old_password) || negb (truthy new_password)
     then mret (json_error 400 "Password lama dan baru harus diisi")
     else
       users ← db_query (keyed id (sql_read ∘ select_password));
       match users with
       | [] => mret (json_error 404 "User tidak ditemukan")
       | password :: _ =>
           isValidPassword ← bcrypt_compare old_password password;
           if negb isValidPassword
           then mret (json_error 401 "Password lama salah")
           else
             hashedPassword ← bcrypt_hash salt new_password;
             _ ← db_query (keyed id (update_password hashedPassword));
             mret (json_msg "Password berhasil diupdate")
       end)
    (mret (json_error 500 "Gagal mengupdate password")).

End handlers.

(** ** What the handlers do *)

Section properties.
Context {driver : Driver} {bcrypt : Bcrypt}.
Implicit Types (w : World Db) (db : Db) (id : Z) (key : JsVal) (u : User).

(** *** GET /profile/:id *)

Lemma head_select_profile id db :
  head (select_profile id db) = profile_of <$> user_map db !! id.
Proof.
  unfold select_profile, user_map. rewrite table_map_lookup.
  by destruct (sql_select _ _).
Qed.

(** The profile on a store that answers: 200 with the columns of the
    user of that id other than the password, 404 when there is no such
    user. *)
Lemma run_get_profile key id w :
  bind_int key = Some id ->
  faulty w = false ->
  run (get_profile key) w =
    (Some (match user_map (w_store w) !! id with
           | Some u => json_ok (mkProfile id (u_name u) (u_email u) (u_phone u)
                                  (u_blood_type u) (u_address u)
                                  (u_created_at u))
           | None => json_error 404 "User tidak ditemukan"
           end), advance w).
Proof.
  intros Hk Hf. unfold get_profile. bind_key Hk.
  rewrite run_try_read by done.
  pose proof (head_select_profile id (w_store w)) as Hh.
  destruct (user_map (w_store w) !! id) as [u|] eqn:Hu.
  - apply table_map_elem_of in Hu as [_ <-].
    by destruct (select_profile _ _); simplify_eq/=.
  - by destruct (select_profile _ _).
Qed.

(** *** PUT /profile/:id *)

(** The four required fields, as the guard tests them. *)
Definition profile_complete (name phone blood_type address : JsVal) : bool :=
  truthy name && truthy phone && truthy blood_type && truthy address.

Lemma put_profile_guard name phone blood_type address :
  negb (truthy name) || negb (truthy phone) || negb (truthy blood_type)
  || negb (truthy address)
  = negb (profile_complete name phone blood_type address).
Proof. unfold profile_complete. by rewrite !negb_andb. Qed.

Lemma run_put_profile key id name phone blood_type address n p bt a w :
  bind_int key = Some id ->
  profile_complete name phone blood_type address = true ->
  bind_text name = Some n -> bind_text phone = Some p ->
  bind_text blood_type = Some bt -> bind_text address = Some a ->
  faulty w = false ->
  run (put_profile key name phone blood_type address) w =
    (Some (json_msg "Profile berhasil diupdate"),
     mkWorld (set_users (sql_update (fun u => u_id u =? id)
                           (with_profile n p bt a))
                (next_user_id (w_store w)) (w_store w))
             (tail (w_faults w))).
Proof.
  intros Hk Hc Hn Hp Hbt Ha Hf. unfold put_profile. bind_key Hk.
  rewrite put_profile_guard, Hc. cbn [negb].
  rewrite run_try_query, Hf. unfold update_profile.
  by rewrite Hn, Hp, Hbt, Ha.
Qed.

(** A complete update, on a store that answers: the response is 200;
    the users by key are the old ones with the row of that id altered,
    which then carries the new name, phone, blood type and address and
    the email, the password and the creation time it had; no other table
    and no counter changes. *)
Theorem put_profile_ok key id name phone blood_type address n p bt a w :
  bind_int key = Some id ->
  profile_complete name phone blood_type address = true ->
  bind_text name = Some n -> bind_text phone = Some p ->
  bind_text blood_type = Some bt -> bind_text address = Some a ->
  faulty w = false ->
  exists db',
    run (put_profile key name phone blood_type address) w =
      (Some (json_msg "Profile berhasil diupdate"),
       mkWorld db' (tail (w_faults w)))
    /\ user_map db' = alter (with_profile n p bt a) id (user_map (w_store w))
    /\ (forall u', user_map db' !! id = Some u' ->
          exists u, user_map (w_store w) !! id = Some u
            /\ u' = mkUser id n (u_email u) (u_password u) p bt a
                      (u_created_at u))
    /\ next_user_id db' = next_user_id (w_store w)
    /\ same_but_users (w_store w) db'.
Proof.
  intros Hk Hc Hn Hp Hbt Ha Hf.
  rewrite (run_put_profile _ id _ _ _ _ n p bt a) by done.
  eexists. split; [done|]. rewrite user_map_set, table_map_update by done.
  split_and!; try done.
  intros u'. rewrite lookup_alter_eq. intros (u & Hu & ->)%fmap_Some.
  exists u. split; [done|]. apply table_map_elem_of in Hu as [_ <-]. done.
Qed.

(** A request with a field absent, null or empty is answered 400 and
    nothing is written. *)
Theorem put_profile_incomplete key name phone blood_type address w :
  profile_complete name phone blood_type address = false ->
  run (put_profile key name phone blood_type address) w =
    (Some (json_error 400 "Semua field harus diisi"), w)
  /\ queries_issued (put_profile key name phone blood_type address) w = 0%nat.
Proof. intros Hc. unfold put_profile. by rewrite put_profile_guard, Hc. Qed.

(** An id that no user carries is answered 200 as well, with the store
    as it was. *)
Theorem put_profile_absent key id name phone blood_type address n p bt a w :
  bind_int key = Some id ->
  profile_complete name phone blood_type address = true ->
  bind_text name = Some n -> bind_text phone = Some p ->
  bind_text blood_type = Some bt -> bind_text address = Some a ->
  faulty w = false -> user_map (w_store w) !! id = None ->
  run (put_profile key name phone blood_type address) w =
    (Some (json_msg "Profile berhasil diupdate"), advance w).
Proof.
  intros Hk Hc Hn Hp Hbt Ha Hf Hid.
  rewrite (run_put_profile _ id _ _ _ _ n p bt a) by done.
  unfold advance. do 2 f_equal.
  by apply set_users_same, sql_update_none, table_map_lookup_None.
Qed.

(** *** PUT /password/:id *)

Lemma head_select_password id db :
  head (select_password id db) = u_password <$> user_map db !! id.
Proof.
  unfold select_password, user_map. rewrite table_map_lookup.
  by destruct (sql_select _ _).
Qed.

(** The handler once both passwords are given and the store has answered
    the first statement with the digest of the user. *)
Lemma run_put_password salt key id old new u w :
  bind_int key = Some id ->
  old <> "" -> new <> "" -> faulty w = false ->
  user_map (w_store w) !! id = Some u ->
  run (put_password salt key (JsStr old) (JsStr new)) w =
  if bcrypt_check old (u_password u) then
    run (try_catch
           (_ ← db_query (update_password (bcrypt_digest new salt) id);
            mret (json_msg "Password berhasil diupdate"))
           (mret (json_error 500 "Gagal mengupdate password"))) (advance w)
  else (Some (json_error 401 "Password lama salah"), advance w).
Proof.
  intros Hk Ho Hn Hf Hu. unfold put_password. bind_key Hk.
  rewrite !(proj2 (truthy_str_iff _)) by done. cbn [negb orb].
  rewrite run_try_read by done.
  pose proof (head_select_password id (w_store w)) as Hh. rewrite Hu in Hh.
  destruct (select_password id (w_store w)) as [|pw rest]; simplify_eq/=.
  by destruct (bcrypt_check old (u_password u)).
Qed.

(** The old password passes, on a store that answers both statements:
    the response is 200; the users by key are the old ones with the
    password of that id replaced by a digest against which the new
    password passes; nothing else of the row and no other table
    changes. *)
Theorem put_password_ok salt key id old new u w :
  bind_int key = Some id ->
  old <> "" -> new <> "" -> calm 2 (w_faults w) = true ->
  user_map (w_store w) !! id = Some u ->
  bcrypt_check old (u_password u) = true ->
  exists db',
    run (put_password salt key (JsStr old) (JsStr new)) w =
      (Some (json_msg "Password berhasil diupdate"),
       mkWorld db' (tail (tail (w_faults w))))
    /\ user_map db' =
       <[id := with_password (bcrypt_digest new salt) u]> (user_map (w_store w))
    /\ bcrypt_check new (u_password (with_password (bcrypt_digest new salt) u))
       = true
    /\ next_user_id db' = next_user_id (w_store w)
    /\ same_but_users (w_store w) db'.
Proof.
  intros Hk Ho Hn [Hf [Hf' _]%calm_S]%calm_S Hu Hold.
  rewrite (run_put_password _ _ id _ _ u), Hold by done.
  rewrite run_try_query, Hf'. cbn [update_password advance w_store w_faults].
  eexists. split; [done|]. rewrite user_map_set, table_map_update by done.
  split_and!; try done; [by apply alter_present|apply bcrypt_check_digest].
Qed.

(** The old password does not pass: the response is 401 and the store is
    as it was, the digest included. *)
Theorem put_password_wrong salt key id old new u w :
  bind_int key = Some id ->
  old <> "" -> new <> "" -> faulty w = false ->
  user_map (w_store w) !! id = Some u ->
  bcrypt_check old (u_password u) = false ->
  run (put_password salt key (JsStr old) (JsStr new)) w =
    (Some (json_error 401 "Password lama salah"), advance w).
Proof.
  intros Hk Ho Hn Hf Hu Hold.
  by rewrite (run_put_password _ _ id _ _ u), Hold by done.
Qed.

(** No user of that id: 404, whatever the passwords. *)
Theorem put_password_not_found salt key id old_password new_password w :
  bind_int key = Some id ->
  truthy old_password && truthy new_password = true -> faulty w = false ->
  user_map (w_store w) !! id = None ->
  run (put_password salt key old_password new_password) w =
    (Some (json_error 404 "User tidak ditemukan"), advance w).
Proof.
  intros Hk [Ho Hn]%andb_true_iff Hf Hu. unfold put_password. bind_key Hk.
  rewrite Ho, Hn. cbn [negb orb]. rewrite run_try_read by done.
  pose proof (head_select_password id (w_store w)) as Hh. rewrite Hu in Hh.
  by destruct (select_password id (w_store w)).
Qed.

(** A password absent, null or empty is answered 400 before any
    statement. *)
Theorem put_password_incomplete salt key old_password new_password w :
  truthy old_password && truthy new_password = false ->
  run (put_password salt key old_password new_password) w =
    (Some (json_error 400 "Password lama dan baru harus diisi"), w)
  /\ queries_issued (put_password salt key old_password new_password) w = 0%nat.
Proof.
  intros H. unfold put_password.
  rewrite <- negb_andb, H. done.
Qed.

(** An old password that is given but is not a string (a number, say)
    makes [bcrypt.compare] reject: the response is 500, not 401, and
    nothing is written. *)
Theorem put_password_not_string salt key id z new_password u w :
  bind_int key = Some id ->
  z <> 0 -> truthy new_password = true -> faulty w = false ->
  user_map (w_store w) !! id = Some u ->
  run (put_password salt key (JsNum z) new_password) w =
    (Some (json_error 500 "Gagal mengupdate password"), advance w).
Proof.
  intros Hk Hz Hn Hf Hu. unfold put_password. bind_key Hk.
  rewrite (proj2 (truthy_num z)), Hn by done. cbn [negb orb].
  rewrite run_try_read by done.
  pose proof (head_select_password id (w_store w)) as Hh. rewrite Hu in Hh.
  by destruct (select_password id (w_store w)).
Qed.

End properties.

(** ** Invariants *)

Section invariants.
Context {driver : Driver} {bcrypt : Bcrypt}.
Context (P : Db -> Prop) (HP : users_independent P).

(** Keys and counters well-formed, and a property of the other tables. *)
Let inv (db : Db) : Prop := db_wf db /\ P db.

Lemma update_profile_inv name phone blood_type address id :
  stmt_preserves inv (update_profile name phone blood_type address id).
Proof.
  intros db r db' [Hwf Hdb] Hq. unfold update_profile in Hq.
  simplify_option_eq. apply set_users_inv; [done| |done].
  by apply update_users_wf.
Qed.

Lemma update_password_inv hashedPassword id :
  stmt_preserves inv (update_password hashedPassword id).
Proof.
  intros db r db' [Hwf Hdb] [= _ <-]. apply set_users_inv; [done| |done].
  by apply update_users_wf.
Qed.

#[local] Hint Resolve update_profile_inv update_password_inv : donor.

Lemma get_profile_safe key : safe_prog inv (get_profile key).
Proof. unfold get_profile. eauto 10 with donor. Qed.

Lemma put_profile_safe key name phone blood_type address :
  safe_prog inv (put_profile key name phone blood_type address).
Proof. unfold put_profile. eauto 10 with donor. Qed.

Lemma put_password_safe salt key old_password new_password :
  safe_prog inv (put_password salt key old_password new_password).
Proof. unfold put_password. eauto 15 with donor. Qed.

(** ** The router *)

(** A request to the users router, by route. *)
Inductive UsersReq : Type :=
| GetProfile (id : JsVal)
| PutProfile (id name phone blood_type address : JsVal)
| PutPassword (salt : string) (id old_password new_password : JsVal)
| GetStats (id : JsVal).

Definition users_router (req : UsersReq) : Prog Db Envelope :=
  match req with
  | GetProfile id => respond (get_profile id)
  | PutProfile id name phone blood_type address =>
      respond (put_profile id name phone blood_type address)
  | PutPassword salt id old_password new_password =>
      respond (put_password salt id old_password new_password)
  | GetStats id => respond (get_user_stats id)
  end.

Lemma users_router_safe req : safe_prog inv (users_router req).
Proof.
  destruct req; apply safe_respond;
    auto using get_profile_safe, put_profile_safe, put_password_safe,
      get_user_stats_safe.
Qed.

End invariants.

(** ** The answers of the routes *)

(** The statuses of each route. *)
Definition users_statuses (req : UsersReq) : list Z :=
  match req with
  | GetProfile _ => [200; 404; 500]
  | PutProfile _ _ _ _ _ => [200; 400; 500]
  | PutPassword _ _ _ _ => [200; 400; 401; 404; 500]
  | GetStats _ => [200; 500]
  end.

(** Whatever the store answers, every route answers after at most three
    statements with a well-formed envelope whose status is one of the
    route's. *)
Lemma users_router_typed `{Driver, Bcrypt} req :
  answers 3 (fun e => typed (users_statuses req) e = true) (users_router req).
Proof.
  destruct req; cbn [users_router users_statuses];
    [unfold get_profile|unfold put_profile|unfold put_password
    |apply answers_respond, get_user_stats_typed];
    unfold bcrypt_compare, bcrypt_hash; within_walk; done.
Qed.

(** ** Concrete runs *)

(** The user of [sample_db], whose stored digest is the text [hash]. *)
Definition ani : User :=
  mkUser 1 "Ani" "ani@example.org" "hash" "0812" "A+" "Jakarta" 10.

Lemma put_profile_ok_witness :
  exists db',
    run (put_profile (JsStr "1") (JsStr "Ani B") (JsStr "0813") (JsStr "A+")
           (JsStr "Bogor")) (mkWorld sample_db []) =
      (Some (json_msg "Profile berhasil diupdate"), mkWorld db' [])
    /\ user_map db' =
       alter (with_profile "Ani B" "0813" "A+" "Bogor") 1 (user_map sample_db)
    /\ (forall u', user_map db' !! 1 = Some u' ->
          exists u, user_map sample_db !! 1 = Some u
            /\ u' = mkUser 1 "Ani B" (u_email u) (u_password u) "0813" "A+"
                      "Bogor" (u_created_at u))
    /\ next_user_id db' = 2
    /\ same_but_users sample_db db'.
Proof.
  apply (put_profile_ok (JsStr "1") 1 (JsStr "Ani B") (JsStr "0813")
           (JsStr "A+") (JsStr "Bogor") "Ani B" "0813" "A+" "Bogor"
           (mkWorld sample_db [])); done.
Defined.

Lemma put_password_ok_witness :
  exists db',
    run (put_password "salt" (JsStr "1") (JsStr "hash") (JsStr "baru"))
        (mkWorld sample_db []) =
      (Some (json_msg "Password berhasil diupdate"), mkWorld db' [])
    /\ user_map db' =
       <[1 := with_password (bcrypt_digest "baru" "salt") ani]>
         (user_map sample_db)
    /\ bcrypt_check "baru"
         (u_password (with_password (bcrypt_digest "baru" "salt") ani)) = true
    /\ next_user_id db' = 2
    /\ same_but_users sample_db db'.
Proof.
  apply (put_password_ok "salt" (JsStr "1") 1 "hash" "baru" ani
           (mkWorld sample_db []));
    done.
Defined.

Lemma put_password_wrong_witness :
  run (put_password "salt" (JsStr "1") (JsStr "salah") (JsStr "baru"))
      (mkWorld sample_db []) =
  (Some (json_error 401 "Password lama salah"), mkWorld sample_db []).
Proof.
  apply (put_password_wrong "salt" (JsStr "1") 1 "salah" "baru" ani
           (mkWorld sample_db [])); done.
Defined.
