(* ===== verification/Ledger.v ===== *)
(** * Ledger: what the service promises about its records

    The handlers of routes/auth.js, routes/users.js and
    routes/donations.js write the store with six statements: the INSERT
    of a registration, the two UPDATEs of a profile and of a password,
    the INSERT of a donation, the UPDATE of its status and its DELETE.
    This file is the specification of those writes, apart from SQL and
    from the handlers: a ledger holds the users and the donations by
    key, an [Event] is one write that took effect, [occur] is what it
    does to the ledger, [replay] a history of events.  The theorems are
    what every history keeps, proved once here: keys stay under the
    counters that issue them and statuses in the taxonomy
    ([replay_wf]), and the ledger is only ever extended
    ([replay_extends], with [extends]): a key that was given up is never
    issued again, what was donated, by whom and where never changes, no
    user is ever removed and no email changes, blood banks and their
    stock are never written.  [Refinement] shows that the store of the
    server goes through such a history, whatever requests arrive. *)

From Stdlib Require Import ZArith Lia.
From stdpp Require Import base tactics option list strings gmap.
From S2P Require Import Prelude Store Donations Users.

#[local] Open Scope Z_scope.

(** ** Ledgers and events *)

(** The records of the service: users and donations by key, the keys to
    issue next, the blood banks and their stock. *)
Record Ledger : Type := mkLedger {
  lg_members : gmap Z User;
  lg_donations : gmap Z Donation;
  lg_banks : list BloodBank;
  lg_stock : list BloodStock;
  lg_next_member : Z;
  lg_next_donation : Z
}.

#[export] Instance Ledger_eq_dec : EqDecision Ledger.
Proof. solve_decision. Defined.

Definition set_members (f : gmap Z User -> gmap Z User) (n : Z) (l : Ledger)
  : Ledger :=
  mkLedger (f (lg_members l)) (lg_donations l) (lg_banks l) (lg_stock l)
    n (lg_next_donation l).

Definition set_gifts (f : gmap Z Donation -> gmap Z Donation) (n : Z)
    (l : Ledger) : Ledger :=
  mkLedger (lg_members l) (f (lg_donations l)) (lg_banks l) (lg_stock l)
    (lg_next_member l) n.

(** A write that took effect. *)
Inductive Event : Type :=
| UserRegistered (u : User)
| ProfileUpdated (id : Z) (name phone blood_type address : string)
| PasswordChanged (id : Z) (hash : string)
| DonationRecorded (d : Donation)
| StatusChanged (id : Z) (status : string) (notes : option string)
| DonationDeleted (id : Z).

#[export] Instance Event_eq_dec : EqDecision Event.
Proof. solve_decision. Defined.

(** What an event does to the ledger, when it can occur: a user and a
    donation enter under the key of the counter, a donation enters as
    pending, a status is one of the taxonomy, and only what is there is
    updated or deleted. *)
Definition occur (e : Event) (l : Ledger) : option Ledger :=
  match e with
  | UserRegistered u =>
      if bool_decide (u_id u = lg_next_member l)
      then Some (set_members <[u_id u := u]> (lg_next_member l + 1) l)
      else None
  | ProfileUpdated id name phone blood_type address =>
      u ← lg_members l !! id;
      Some (set_members <[id := with_profile name phone blood_type address u]>
              (lg_next_member l) l)
  | PasswordChanged id hash =>
      u ← lg_members l !! id;
      Some (set_members <[id := with_password hash u]> (lg_next_member l) l)
  | DonationRecorded d =>
      if bool_decide (dh_id d = lg_next_donation l /\ dh_status d = "pending")
      then Some (set_gifts <[dh_id d := d]> (lg_next_donation l + 1) l)
      else None
  | StatusChanged id status notes =>
      d ← lg_donations l !! id;
      if bool_decide (status ∈ status_names)
      then Some (set_gifts <[id := with_status status notes d]>
                   (lg_next_donation l) l)
      else None
  | DonationDeleted id =>
      _ ← lg_donations l !! id;
      Some (set_gifts (delete id) (lg_next_donation l) l)
  end.

(** A history, oldest event first. *)
Fixpoint replay (es : list Event) (l : Ledger) : option Ledger :=
  match es with
  | [] => Some l
  | e :: es => occur e l ≫= replay es
  end.

(** What a donation is, apart from its status and notes: who gave, where,
    when, what and how much. *)
Definition gift (d : Donation) : Z * Z * Z * string * Z * Z :=
  (dh_user_id d, dh_blood_bank_id d, dh_donation_date d, dh_blood_type d,
   dh_quantity d, dh_created_at d).

(** What identifies a user: the email and the time of the registration. *)
Definition identity (u : User) : string * Z := (u_email u, u_created_at u).

(** ** Well-formed ledgers *)

(** Every record is under its own key, keys are positive and below the
    counter that issues the next one, and every status is one of the
    taxonomy. *)
Record ledger_wf (l : Ledger) : Prop := mkLedgerWf {
  lwf_members :
    map_Forall (fun k u => u_id u = k /\ 0 < k < lg_next_member l)
      (lg_members l);
  lwf_donations :
    map_Forall (fun k d => dh_id d = k /\ 0 < k < lg_next_donation l)
      (lg_donations l);
  lwf_status :
    map_Forall (fun _ d => dh_status d ∈ status_names) (lg_donations l);
  lwf_next : 0 < lg_next_member l /\ 0 < lg_next_donation l
}.

(** The ledger was extended: counters have not gone back, what is not
    written is as before, every user is still there under the same
    identity, and every donation that is still there is the same gift. *)
Record extends (l l' : Ledger) : Prop := mkExtends {
  ext_next_member : lg_next_member l <= lg_next_member l';
  ext_next_donation : lg_next_donation l <= lg_next_donation l';
  ext_banks : lg_banks l' = lg_banks l;
  ext_stock : lg_stock l' = lg_stock l;
  ext_members : forall k u, lg_members l !! k = Some u ->
    exists u', lg_members l' !! k = Some u' /\ identity u' = identity u;
  ext_gifts : forall k d d', lg_donations l !! k = Some d ->
    lg_donations l' !! k = Some d' -> gift d' = gift d;
  ext_retired : forall k, k < lg_next_donation l ->
    lg_donations l !! k = None -> lg_donations l' !! k = None
}.

(** ** Histories *)

Lemma replay_app es1 es2 l :
  replay (es1 ++ es2) l = replay es1 l ≫= replay es2.
Proof.
  revert l. induction es1 as [|e es1 IH]; intros l; cbn; [done|].
  destruct (occur e l) as [l1|]; cbn; [apply IH|done].
Qed.

Lemma replay_snoc es e l l1 l2 :
  replay es l = Some l1 -> occur e l1 = Some l2 ->
  replay (es ++ [e]) l = Some l2.
Proof. intros H1 H2. rewrite replay_app, H1. cbn. by rewrite H2. Qed.

(** What every event keeps and carries along, every history does. *)
Lemma replay_ind (I : Ledger -> Prop) (T : relation Ledger) :
  (forall l, T l l) ->
  (forall l1 l2 l3, I l1 -> I l2 -> T l1 l2 -> T l2 l3 -> T l1 l3) ->
  (forall e l l', I l -> occur e l = Some l' -> I l' /\ T l l') ->
  forall es l l', I l -> replay es l = Some l' -> I l' /\ T l l'.
Proof.
  intros Hrefl Htrans Hstep es.
  induction es as [|e es IH]; intros l l' Hl Hes; cbn in Hes.
  - by simplify_eq.
  - destruct (occur e l) as [l1|] eqn:He; [|done]. cbn in Hes.
    destruct (Hstep e l l1 Hl He) as [Hl1 HT1].
    destruct (IH l1 l' Hl1 Hes) as [Hl' HT]. split; [done|].
    exact (Htrans l l1 l' Hl Hl1 HT1 HT).
Qed.

(** ** Every event keeps the ledger well-formed *)

Lemma set_members_wf k u n l :
  ledger_wf l -> u_id u = k -> 0 < k < n -> lg_next_member l <= n ->
  ledger_wf (set_members <[k := u]> n l).
Proof.
  intros [Hm Hd Hs Hn] Hid Hk Hle. split; cbn; [|done..|lia].
  apply map_Forall_insert_2; [done|].
  eapply map_Forall_impl; [done|]. cbn. intros; lia.
Qed.

Lemma set_gifts_wf k d n l :
  ledger_wf l -> dh_id d = k -> 0 < k < n -> lg_next_donation l <= n ->
  dh_status d ∈ status_names ->
  ledger_wf (set_gifts <[k := d]> n l).
Proof.
  intros [Hm Hd Hs Hn] Hid Hk Hle Hst. split; cbn; [done| | |lia].
  - apply map_Forall_insert_2; [done|].
    eapply map_Forall_impl; [exact Hd|]. cbn. intros; lia.
  - by apply map_Forall_insert_2.
Qed.

(** The key of a record of a well-formed ledger. *)
Lemma member_key l k u :
  ledger_wf l -> lg_members l !! k = Some u ->
  u_id u = k /\ 0 < k < lg_next_member l.
Proof. intros [Hm _ _ _] Hu. exact (Hm k u Hu). Qed.

Lemma donation_key l k d :
  ledger_wf l -> lg_donations l !! k = Some d ->
  dh_id d = k /\ 0 < k < lg_next_donation l.
Proof. intros [_ Hd _ _] Hk. exact (Hd k d Hk). Qed.

Lemma occur_wf e l l' : ledger_wf l -> occur e l = Some l' -> ledger_wf l'.
Proof.
  intros Hwf He. pose proof (lwf_next l Hwf) as [Hnm Hnd].
  destruct e as [u|k n p bt a|k h|d|k st nt|k]; cbn in He;
    repeat case_bool_decide; simplify_option_eq.
  - apply set_members_wf; [done..|lia|lia].
  - destruct (member_key l k _ Hwf Heqo). by apply set_members_wf; [..|lia].
  - destruct (member_key l k _ Hwf Heqo). by apply set_members_wf; [..|lia].
  - destruct_and!. apply set_gifts_wf; [done..|lia|lia|].
    replace (dh_status d) with "pending" by done. by_decide.
  - destruct (donation_key l k _ Hwf Heqo). by apply set_gifts_wf; [..|lia|].
  - destruct Hwf as [Hm Hd Hs _].
    split; cbn; [done|by apply map_Forall_delete..|done].
Qed.

Theorem replay_wf es l l' :
  ledger_wf l -> replay es l = Some l' -> ledger_wf l'.
Proof.
  intros Hwf Hes.
  by apply (replay_ind ledger_wf (fun _ _ => True)) in Hes as [? _];
    eauto using occur_wf.
Qed.

(** ** Every event extends the ledger *)

Lemma extends_refl l : extends l l.
Proof. split; try done; [by eauto|]. by intros; simplify_eq. Qed.

Lemma extends_trans l1 l2 l3 :
  ledger_wf l1 -> ledger_wf l2 -> extends l1 l2 -> extends l2 l3 ->
  extends l1 l3.
Proof.
  intros Hwf1 Hwf2 [] []. split; [lia|lia|congruence|congruence|..].
  - intros k u Hu. destruct (ext_members0 k u Hu) as (u2 & Hu2 & Hi2).
    destruct (ext_members1 k u2 Hu2) as (u3 & Hu3 & Hi3).
    exists u3. split; [done|congruence].
  - intros k d d3 Hd Hd3. destruct (lg_donations l2 !! k) as [d2|] eqn:Hd2.
    + rewrite (ext_gifts1 k d2 d3), (ext_gifts0 k d d2); done.
    + destruct (donation_key l1 k d Hwf1 Hd).
      rewrite ext_retired1 in Hd3; [done|lia|done].
  - intros k Hk Hnone. apply ext_retired1; [lia|]. by apply ext_retired0.
Qed.

(** A write of one user, under a key that is new or with the identity
    the key had. *)
Lemma set_members_extends k u n l :
  lg_next_member l <= n ->
  (forall u0, lg_members l !! k = Some u0 -> identity u = identity u0) ->
  extends l (set_members <[k := u]> n l).
Proof.
  intros Hn Hk.
  split; cbn; [done|lia|done|done| |by intros; simplify_eq|done].
  intros k' u0 Hu0. destruct (decide (k' = k)) as [->|Hne].
  - exists u. rewrite lookup_insert_eq. split; [done|by apply Hk].
  - exists u0. by rewrite lookup_insert_ne.
Qed.

(** A write of one donation, under the key the counter issues or with
    the gift the key had. *)
Lemma set_gifts_extends k d n l :
  lg_next_donation l <= n ->
  match lg_donations l !! k with
  | Some d0 => gift d = gift d0
  | None => lg_next_donation l <= k
  end ->
  extends l (set_gifts <[k := d]> n l).
Proof.
  intros Hn Hk. split; cbn; [lia|done|done|done|by eauto|..].
  - intros k' d0 d' Hd0. destruct (decide (k' = k)) as [->|Hne].
    + rewrite lookup_insert_eq, Hd0 in *. congruence.
    + rewrite lookup_insert_ne by done. congruence.
  - intros k' Hk' Hnone. destruct (decide (k' = k)) as [->|Hne].
    + rewrite Hnone in Hk. lia.
    + by rewrite lookup_insert_ne.
Qed.

Lemma occur_extends e l l' :
  ledger_wf l -> occur e l = Some l' -> extends l l'.
Proof.
  intros Hwf He.
  destruct e as [u|k n p bt a|k h|d|k st nt|k]; cbn in He;
    repeat case_bool_decide; simplify_option_eq.
  - apply set_members_extends; [lia|]. intros u0 Hu0.
    destruct (member_key l _ _ Hwf Hu0). lia.
  - apply set_members_extends; [lia|]. by intros; simplify_eq.
  - apply set_members_extends; [lia|]. by intros; simplify_eq.
  - destruct_and!. apply set_gifts_extends; [lia|].
    destruct (lg_donations l !! dh_id d) as [d0|] eqn:Hd0; [|lia].
    destruct (donation_key l _ _ Hwf Hd0). lia.
  - apply set_gifts_extends; [lia|]. by simplify_option_eq.
  - split; cbn; [lia|done|done|done|by eauto|..].
    + intros k' d0 d' Hd0 Hd'. apply lookup_delete_Some in Hd' as [_ Hd'].
      congruence.
    + intros k' _ Hnone. by apply lookup_delete_None; right.
Qed.

(** Whatever the history of a well-formed ledger, the ledger stays
    well-formed and is extended: counters have not gone back, no user is
    gone and none has another email, every donation still there is the
    gift it was, no key given up is in use again, and the blood banks
    and their stock are as they were. *)
Theorem replay_extends es l l' :
  ledger_wf l -> replay es l = Some l' -> ledger_wf l' /\ extends l l'.
Proof.
  apply replay_ind;
    eauto using extends_refl, extends_trans, occur_wf, occur_extends.
Qed.
