(* ===== verification/Traces.v ===== *)
(** * Traces: histories up to the order of independent writes

    An event of [Ledger] writes one table under one key: a record
    enters under the key of the counter, a record that is there is
    changed, or it leaves ([writes], [perform]).  Two events that write
    different tables, or different keys of one table without both
    taking the counter, are independent: they can occur in either
    order, with the same ledger at the end or with none
    ([occur_commute]).  Histories that differ in the order of
    independent neighbours are the same trace ([same_trace]), and the
    ledger is a function of the trace ([replay_proper]): the order in
    which two requests on different records took effect is not
    recorded. *)

From Stdlib Require Import ZArith Lia.
From stdpp Require Import base tactics option list strings relations gmap.
From S2P Require Import Prelude Store Donations Users Ledger.

#[local] Open Scope Z_scope.

(** ** Writes of one table *)

Section table.
Context {Row : Type}.

(** A write of a table by key. *)
Inductive Write : Type :=
| Enter (k : Z) (r : Row)
| Change (k : Z) (f : Row -> Row)
| Leave (k : Z).

Definition write_key (w : Write) : Z :=
  match w with Enter k _ | Change k _ | Leave k => k end.

Definition enters (w : Write) : bool :=
  match w with Enter _ _ => true | _ => false end.

(** What the write does to the table and its counter, when it can be
    done: a record enters under the key of the counter, and only what is
    there is changed or leaves. *)
Definition write (w : Write) (t : gmap Z Row * Z) : option (gmap Z Row * Z) :=
  match w with
  | Enter k r =>
      if bool_decide (k = t.2) then Some (<[k := r]> t.1, t.2 + 1) else None
  | Change k f => r ← t.1 !! k; Some (<[k := f r]> t.1, t.2)
  | Leave k => _ ← t.1 !! k; Some (delete k t.1, t.2)
  end.

(** The writes are of different keys, and at most one of them takes the
    counter. *)
Definition separate (w1 w2 : Write) : bool :=
  bool_decide (write_key w1 <> write_key w2) && negb (enters w1 && enters w2).

Lemma separate_sym w1 w2 : separate w1 w2 = separate w2 w1.
Proof.
  unfold separate. rewrite (andb_comm (enters w1)). f_equal.
  apply bool_decide_ext. naive_solver.
Qed.

(** Separate writes can be done in either order. *)
Lemma write_commute w1 w2 t :
  separate w1 w2 = true -> write w1 t ≫= write w2 = write w2 t ≫= write w1.
Proof.
  intros [Hk He%negb_true_iff]%andb_true_iff. apply bool_decide_eq_true in Hk.
  destruct t as [m n], w1 as [k1 r1|k1 f1|k1], w2 as [k2 r2|k2 f2|k2];
    try done; cbn in *;
    repeat first
      [ case_bool_decide
      | match goal with
        | |- context [m !! ?k] => destruct (m !! k) eqn:?
        end ];
    cbn; rewrite ?lookup_insert_ne, ?lookup_delete_ne by done;
    simplify_option_eq; try done;
    by rewrite 1?insert_insert_ne, 1?delete_insert_ne, 1?delete_delete
      by done.
Qed.

End table.

Arguments Write : clear implicits.

(** ** The write of an event *)

(** The table an event writes and what it does there; none when the
    event can never occur: a donation that does not enter as pending, a
    status that is not of the taxonomy. *)
Definition writes (e : Event) : option (Write User + Write Donation) :=
  match e with
  | UserRegistered u => Some (inl (Enter (u_id u) u))
  | ProfileUpdated id name phone blood_type address =>
      Some (inl (Change id (with_profile name phone blood_type address)))
  | PasswordChanged id hash => Some (inl (Change id (with_password hash)))
  | DonationRecorded d =>
      if bool_decide (dh_status d = "pending")
      then Some (inr (Enter (dh_id d) d))
      else None
  | StatusChanged id status notes =>
      if bool_decide (status ∈ status_names)
      then Some (inr (Change id (with_status status notes)))
      else None
  | DonationDeleted id => Some (inr (Leave id))
  end.

Definition perform (w : Write User + Write Donation) (l : Ledger)
  : option Ledger :=
  match w with
  | inl w =>
      t ← write w (lg_members l, lg_next_member l);
      Some (set_members (fun _ => t.1) t.2 l)
  | inr w =>
      t ← write w (lg_donations l, lg_next_donation l);
      Some (set_gifts (fun _ => t.1) t.2 l)
  end.

(** Two events are independent when they write different tables, or one
    table separately; an event that cannot occur is independent of every
    event. *)
Definition independent (e1 e2 : Event) : bool :=
  match writes e1, writes e2 with
  | Some (inl w1), Some (inl w2) => separate w1 w2
  | Some (inr w1), Some (inr w2) => separate w1 w2
  | _, _ => true
  end.

(** ** Events are their writes *)

Lemma occur_perform e l : occur e l = writes e ≫= fun w => perform w l.
Proof.
  destruct e as [u|k n p bt a|k h|d|k st nt|k]; cbn;
    repeat case_bool_decide; cbn; repeat case_bool_decide;
    try destruct (_ !! k); try done; naive_solver.
Qed.

Lemma independent_sym e1 e2 : independent e1 e2 = independent e2 e1.
Proof.
  unfold independent.
  destruct (writes e1) as [[w1|w1]|], (writes e2) as [[w2|w2]|];
    auto using separate_sym.
Qed.

(** Two writes of one table, one after the other. *)
Lemma perform_members w1 w2 l :
  perform (inl w1) l ≫= perform (inl w2)
  = t ← write w1 (lg_members l, lg_next_member l) ≫= write w2;
    Some (set_members (fun _ => t.1) t.2 l).
Proof.
  cbn. destruct (write w1 _) as [[m1 n1]|]; cbn; [|done].
  by destruct (write w2 _) as [[m2 n2]|].
Qed.

Lemma perform_gifts w1 w2 l :
  perform (inr w1) l ≫= perform (inr w2)
  = t ← write w1 (lg_donations l, lg_next_donation l) ≫= write w2;
    Some (set_gifts (fun _ => t.1) t.2 l).
Proof.
  cbn. destruct (write w1 _) as [[m1 n1]|]; cbn; [|done].
  by destruct (write w2 _) as [[m2 n2]|].
Qed.

Lemma perform_commute w1 w2 l :
  match w1, w2 with
  | inl w1, inl w2 | inr w1, inr w2 => separate w1 w2 = true
  | _, _ => True
  end ->
  perform w1 l ≫= perform w2 = perform w2 l ≫= perform w1.
Proof.
  destruct w1 as [w1|w1], w2 as [w2|w2]; intros Hw.
  - by rewrite !perform_members, write_commute.
  - cbn. destruct (write w1 _) as [[m1 n1]|] eqn:H1; cbn;
      destruct (write w2 _) as [[m2 n2]|] eqn:H2; cbn; by rewrite ?H1, ?H2.
  - cbn. destruct (write w1 _) as [[m1 n1]|] eqn:H1; cbn;
      destruct (write w2 _) as [[m2 n2]|] eqn:H2; cbn; by rewrite ?H1, ?H2.
  - by rewrite !perform_gifts, write_commute.
Qed.

(** Independent events can occur in either order: both orders end with
    the same ledger, or neither can occur. *)
Lemma occur_commute e1 e2 l :
  independent e1 e2 = true ->
  occur e1 l ≫= occur e2 = occur e2 l ≫= occur e1.
Proof.
  unfold independent. intros Hi.
  assert (forall l, occur e1 l = writes e1 ≫= fun w => perform w l) as H1
    by (intros; apply occur_perform).
  assert (forall l, occur e2 l = writes e2 ≫= fun w => perform w l) as H2
    by (intros; apply occur_perform).
  rewrite H1, H2.
  destruct (writes e1) as [w1|], (writes e2) as [w2|]; cbn.
  - erewrite option_bind_ext_fun by apply H2.
    erewrite (option_bind_ext_fun (occur e1)) by apply H1. cbn.
    apply perform_commute. by destruct w1, w2.
  - by destruct (perform w1 l); cbn; rewrite ?H2.
  - by destruct (perform w2 l); cbn; rewrite ?H1.
  - done.
Qed.

(** ** Traces *)

(** Two independent neighbours of a history change places. *)
Inductive swap : relation (list Event) :=
| swap_here e1 e2 es :
    independent e1 e2 = true -> swap (e1 :: e2 :: es) (e2 :: e1 :: es)
| swap_further e es es' : swap es es' -> swap (e :: es) (e :: es').

(** The same events, up to the order of independent neighbours. *)
Definition same_trace : relation (list Event) := rtsc swap.

#[export] Instance same_trace_equivalence : Equivalence same_trace.
Proof. apply rtsc_equivalence. Qed.

#[export] Instance cons_same_trace e :
  Proper (same_trace ==> same_trace) (cons e).
Proof. intros es es'. apply rtsc_congruence. by constructor. Qed.

Lemma swap_Permutation es es' : swap es es' -> es ≡ₚ es'.
Proof. induction 1; [apply perm_swap|by f_equiv]. Qed.

(** A trace is its events: the same, as many times. *)
#[export] Instance same_trace_Permutation :
  subrelation same_trace (≡ₚ).
Proof.
  intros es es'. induction 1 as [|es1 es2 es3 [H|H] _ IH]; [done|..];
    apply swap_Permutation in H; by rewrite <- IH, H.
Qed.

Lemma swap_replay es es' l : swap es es' -> replay es l = replay es' l.
Proof.
  intros Hs. revert l. induction Hs as [e1 e2 es Hi|e es es' _ IH]; intros l.
  - pose proof (occur_commute e1 e2 l Hi) as Hc. cbn.
    destruct (occur e1 l) as [l1|], (occur e2 l) as [l2|]; cbn in *;
      first [done|by rewrite Hc|by rewrite <- Hc].
  - cbn. destruct (occur e l); cbn; [apply IH|done].
Qed.

(** The ledger is a function of the trace. *)
#[export] Instance replay_proper : Proper (same_trace ==> (=) ==> (=)) replay.
Proof.
  intros es es' Hes l ? <-.
  induction Hes as [|es1 es2 es3 [H|H] _ IH]; [done|..];
    apply (swap_replay _ _ l) in H; congruence.
Qed.

(** ** Concrete histories *)

(** A status and a deletion of another donation are independent, in a
    history as long as one likes; two registrations are not, and neither
    are two writes of one donation. *)
Example independent_sample :
  independent (StatusChanged 2 "approved" None) (DonationDeleted 1) = true
  /\ independent (PasswordChanged 1 "h") (DonationDeleted 1) = true
  /\ independent (StatusChanged 1 "approved" None) (DonationDeleted 1) = false
  /\ same_trace
       [StatusChanged 2 "approved" None; DonationDeleted 1;
        PasswordChanged 1 "h"]
       [PasswordChanged 1 "h"; DonationDeleted 1;
        StatusChanged 2 "approved" None].
Proof.
  split_and!; [done..|].
  etrans; [apply rtsc_lr, swap_further, swap_here; done|].
  etrans; [apply rtsc_lr, swap_here; done|].
  apply rtsc_lr, swap_further, swap_here; done.
Qed.
