(* ===== verification/Auth.v ===== *)
(** * Auth: routes/auth.js and middleware/auth.js

    [register] is POST /api/auth/register (all six fields required, the
    email not yet in [users], the password stored as a digest) and [login]
    is POST /api/auth/login (the password is compared with the stored
    digest and a token that expires after seven days is signed).
    [authenticateToken] is the middleware of middleware/auth.js: it reads
    the token from the [Authorization] header and lets the request pass
    with the payload of the token, or answers 401 or 403.

    The theorems show what the handlers answer and write on every branch;
    that registration keeps emails distinct when requests run one after
    the other; that a registered user can log in and that the token of a
    login passes the middleware for seven days and not longer. *)

From Stdlib Require Import ZArith Ascii.
From stdpp Require Import base tactics option list strings gmap sorting.
From S2P Require Import Prelude Outcomes Sorting Store Donations Security Users.

#[local] Open Scope Z_scope.

(** ** Data of the responses *)

(** [{id: result.insertId, name, email, phone, blood_type, address}]: the
    key and the fields as the request gave them. *)
Record Registered : Type := mkRegistered {
  r_id : Z;
  r_name : JsVal;
  r_email : JsVal;
  r_phone : JsVal;
  r_blood_type : JsVal;
  r_address : JsVal
}.

(** [{user, token}], the user without its password. *)
Record LoginData : Type := mkLoginData {
  l_user : Profile;
  l_token : string
}.

(** ** The statements *)

Section handlers.
Context {driver : Driver} {collation : Collation} {bcrypt : Bcrypt} {jwt : Jwt}.

(** The rows of [users WHERE email = ?]. *)
Definition users_by_email (e : string) (db : Db) : list User :=
  sql_select (fun u => collates_equal (u_email u) e) (users db).

(** [SELECT id FROM users WHERE email = ?] *)
Definition select_id_by_email (email : JsVal) (db : Db)
  : option (list Z * Db) :=
  e ← bind_text email;
  Some (u_id <$> users_by_email e db, db).

(** [INSERT INTO users (name, email, password, phone, blood_type, address)
     VALUES (?, ?, ?, ?, ?, ?)]; the answer is [result.insertId]. *)
Definition insert_user (name email : JsVal) (hashedPassword : string)
    (phone blood_type address : JsVal) (db : Db) : option (Z * Db) :=
  n ← bind_text name;
  e ← bind_text email;
  p ← bind_text phone;
  bt ← bind_text blood_type;
  a ← bind_text address;
  let id := next_user_id db in
  Some (id, set_users
              (fun t => t ++ [mkUser id n e hashedPassword p bt a (db_now db)])
              (id + 1) db).

(** [SELECT * FROM users WHERE email = ?] *)
Definition select_user_by_email (email : JsVal) (db : Db)
  : option (list User * Db) :=
  e ← bind_text email;
  Some (users_by_email e db, db).

(** ** The handlers *)

(** POST /api/auth/register; [salt] is the salt [bcrypt.hash] draws. *)
Definition register (salt : string)
    (name email password phone blood_type address : JsVal)
  : Prog Db (Response Registered) :=
  try_catch
    (if negb (truthy name) || negb (truthy email) || negb (truthy password)
        || negb (truthy phone) || negb (truthy blood_type)
        || negb (truthy address)
     then mret (json_error 400 "Semua field harus diisi")
     else
       existingUser ← db_query (select_id_by_email email);
       match existingUser with
       | _ :: _ => mret (json_error 400 "Email sudah terdaftar")
       | [] =>
           hashedPassword ← bcrypt_hash salt password;
           insertId ← db_query (insert_user name email hashedPassword phone
                                  blood_type address);
           mret (json_created "Registrasi berhasil"
                   (mkRegistered insertId name email phone blood_type address))
       end)
    (mret (json_error 500 "Terjadi kesalahan saat registrasi")).

(** POST /api/auth/login; [secret] is [process.env.JWT_SECRET] and [now]
    the time of the signature. *)
Definition login (secret : option string) (now : Z) (email password : JsVal)
  : Prog Db (Response LoginData) :=
  try_catch
    (if negb (truthy email) || negb (truthy password)
     then mret (json_error 400 "Email dan password harus diisi")
     else
       users ← db_query (select_user_by_email email);
       match users with
       | [] => mret (json_error 401 "Email atau password salah")
       | user :: _ =>
           isValidPassword ← bcrypt_compare password (u_password user);
           if negb isValidPassword
           then mret (json_error 401 "Email atau password salah")
           else
             token ← jwt_sign secret now (u_id user) (u_email user);
             mret (json_ok_with "Login berhasil"
                     (mkLoginData (profile_of user) token))
       end)
    (mret (json_error 500 "Terjadi kesalahan saat login")).

(** ** The middleware *)

(** [s.split(sep)] for a separator of one character. *)
Fixpoint split_on (sep : ascii) (s : string) : list string :=
  match s with
  | "" => [""]
  | String c s' =>
      if bool_decide (c = sep) then "" :: split_on sep s'
      else match split_on sep s' with
           | [] => [String c ""]
           | word :: words => String c word :: words
           end
  end%string.

(** What the middleware does with a request: it answers, or it calls
    [next()] with [req.user] set. *)
Inductive Verdict : Type :=
| Denied (r : Response unit)
| Granted (user : Claims).

(** [authenticateToken(req, res, next)]: [authorization] is
    [req.headers['authorization']]. *)
Definition authenticateToken (secret : option string) (now : Z)
    (authorization : option string) : Verdict :=
  let token :=
    if truthy_str authorization
    then split_on " " (default "" authorization) !! 1%nat
    else None in
  if negb (truthy_str token)
  then Denied (json_error 401 "Access token tidak ditemukan")
  else match jwt_verify secret now (default "" token) with
       | None => Denied (json_error 403 "Token tidak valid atau expired")
       | Some user => Granted user
       end.

End handlers.

(** ** Emails *)

Section emails.
Context {collation : Collation}.

Lemma collates_equal_refl e : collates_equal e e = true.
Proof. apply tied_refl, _. Qed.

Lemma collates_equal_sym a b : collates_equal a b = collates_equal b a.
Proof. apply tied_sym. Qed.

(** No two users have the same email, as the store compares emails. *)
Definition emails_distinct (db : Db) : Prop :=
  StronglySorted (fun u v => collates_equal (u_email u) (u_email v) = false)
    (users db).

Lemma users_by_email_append e f n u db :
  f = (fun t => t ++ [u]) ->
  users_by_email e (set_users f n db) =
  users_by_email e db ++ (if collates_equal (u_email u) e then [u] else []).
Proof. intros ->. unfold users_by_email. cbn. by rewrite sql_select_app. Qed.

(** A user whose email no row has can be appended. *)
Lemma emails_distinct_append db u n :
  emails_distinct db -> users_by_email (u_email u) db = [] ->
  emails_distinct (set_users (fun t => t ++ [u]) n db).
Proof.
  intros Hd Hu. unfold emails_distinct. cbn. apply StronglySorted_app.
  split_and!; [|done|repeat constructor].
  intros v u' Hv ->%list_elem_of_singleton.
  by apply (proj1 (sql_select_none _ _) Hu).
Qed.

(** With distinct emails at most one user answers to an email. *)
Lemma users_by_email_unique e db :
  emails_distinct db -> (length (users_by_email e db) <= 1)%nat.
Proof.
  unfold emails_distinct, users_by_email, sql_select.
  induction 1 as [|u l _ IH Hu]; cbn [List.filter length]; [lia|].
  destruct (collates_equal (u_email u) e) eqn:E; [|done].
  enough (List.filter (fun u => collates_equal (u_email u) e) l = []) as ->
    by (cbn; lia).
  apply (proj2 (sql_select_none _ _)). intros v Hv.
  rewrite Forall_forall in Hu. specialize (Hu v Hv).
  apply not_true_iff_false. intros Hve.
  apply not_true_iff_false in Hu. apply Hu.
  rewrite (collates_equal_sym (u_email v) e) in Hve.
  by apply (tied_trans collates_before _ e).
Qed.

End emails.

(** ** What the handlers do *)

Section properties.
Context {driver : Driver} {collation : Collation} {bcrypt : Bcrypt} {jwt : Jwt}.
Implicit Types (w : World Db) (db : Db) (u : User).

(** *** POST /register *)

(** The six required fields, as the guard tests them. *)
Definition register_complete
    (name email password phone blood_type address : JsVal) : bool :=
  truthy name && truthy email && truthy password && truthy phone
  && truthy blood_type && truthy address.

Lemma register_guard name email password phone blood_type address :
  negb (truthy name) || negb (truthy email) || negb (truthy password)
  || negb (truthy phone) || negb (truthy blood_type) || negb (truthy address)
  = negb (register_complete name email password phone blood_type address).
Proof. unfold register_complete. by rewrite !negb_andb. Qed.

(** Six strings, none empty, pass the guard. *)
Lemma register_complete_strs n e pw p bt a :
  n <> "" -> e <> "" -> pw <> "" -> p <> "" -> bt <> "" -> a <> "" ->
  register_complete (JsStr n) (JsStr e) (JsStr pw) (JsStr p) (JsStr bt)
    (JsStr a) = true.
Proof.
  intros. unfold register_complete.
  by rewrite !(proj2 (truthy_str_iff _)) by done.
Qed.

(** The user a registration stores. *)
Definition registered_user (db : Db) (salt n e pw p bt a : string) : User :=
  mkUser (next_user_id db) n e (bcrypt_digest pw salt) p bt a (db_now db).

(** The handler on six non-empty strings, once the store has answered
    the first statement. *)
Lemma run_register salt n e pw p bt a w :
  n <> "" -> e <> "" -> pw <> "" -> p <> "" -> bt <> "" -> a <> "" ->
  faulty w = false ->
  run (register salt (JsStr n) (JsStr e) (JsStr pw) (JsStr p) (JsStr bt)
         (JsStr a)) w =
  match users_by_email e (w_store w) with
  | _ :: _ => (Some (json_error 400 "Email sudah terdaftar"), advance w)
  | [] =>
      if faulty (advance w)
      then (Some (json_error 500 "Terjadi kesalahan saat registrasi"),
            advance (advance w))
      else (Some (json_created "Registrasi berhasil"
                    (mkRegistered (next_user_id (w_store w)) (JsStr n)
                       (JsStr e) (JsStr p) (JsStr bt) (JsStr a))),
            mkWorld (set_users
                       (fun t => t ++ [registered_user (w_store w) salt n e pw
                                         p bt a])
                       (next_user_id (w_store w) + 1) (w_store w))
                    (tail (tail (w_faults w))))
  end.
Proof.
  intros Hn He Hpw Hp Hbt Ha Hf. unfold register.
  rewrite register_guard, register_complete_strs by done. cbn [negb].
  rewrite run_try_query, Hf. unfold select_id_by_email.
  rewrite bind_text_str. cbn [mbind option_bind].
  destruct (users_by_email e (w_store w)) as [|u rest]; [|done].
  cbn [fmap list_fmap bcrypt_hash mbind prog_mbind prog_bind].
  fold (advance w). rewrite run_try_query.
  destruct (faulty (advance w)); [done|].
  unfold insert_user. by rewrite !bind_text_str.
Qed.

(** Six non-empty strings with an email that no user has, on a store that
    answers both statements: the response is 201 with the key the counter
    held and the fields of the request; the table is the old one followed
    by the new user, whose password is a digest against which the
    password of the request passes; no other table changes. *)
Theorem register_ok salt n e pw p bt a w :
  n <> "" -> e <> "" -> pw <> "" -> p <> "" -> bt <> "" -> a <> "" ->
  calm 2 (w_faults w) = true -> users_by_email e (w_store w) = [] ->
  exists db' u,
    run (register salt (JsStr n) (JsStr e) (JsStr pw) (JsStr p) (JsStr bt)
           (JsStr a)) w =
      (Some (json_created "Registrasi berhasil"
               (mkRegistered (next_user_id (w_store w)) (JsStr n) (JsStr e)
                  (JsStr p) (JsStr bt) (JsStr a))),
       mkWorld db' (tail (tail (w_faults w))))
    /\ users db' = users (w_store w) ++ [u]
    /\ profile_of u = mkProfile (next_user_id (w_store w)) n e p bt a
                        (db_now (w_store w))
    /\ bcrypt_check pw (u_password u) = true
    /\ next_user_id db' = next_user_id (w_store w) + 1
    /\ same_but_users (w_store w) db'.
Proof.
  intros Hn He Hpw Hp Hbt Ha [Hf [Hf' _]%calm_S]%calm_S Hfree.
  rewrite run_register, Hfree, Hf' by done.
  eexists _, _. split_and!; try done. apply bcrypt_check_digest.
Qed.

(** An email that a user already has: the response is 400 and nothing is
    written. *)
Theorem register_duplicate salt n e pw p bt a u w :
  n <> "" -> e <> "" -> pw <> "" -> p <> "" -> bt <> "" -> a <> "" ->
  faulty w = false ->
  u ∈ users (w_store w) -> collates_equal (u_email u) e = true ->
  run (register salt (JsStr n) (JsStr e) (JsStr pw) (JsStr p) (JsStr bt)
         (JsStr a)) w =
    (Some (json_error 400 "Email sudah terdaftar"), advance w).
Proof.
  intros Hn He Hpw Hp Hbt Ha Hf Hu Heq. rewrite run_register by done.
  destruct (users_by_email e (w_store w)) eqn:E; [|done].
  apply (proj1 (sql_select_none _ _)) with (r := u) in E; [|done].
  congruence.
Qed.

(** A field absent, null or empty: 400 before any statement. *)
Theorem register_incomplete salt name email password phone blood_type address
    w :
  register_complete name email password phone blood_type address = false ->
  run (register salt name email password phone blood_type address) w =
    (Some (json_error 400 "Semua field harus diisi"), w)
  /\ queries_issued (register salt name email password phone blood_type
                       address) w = 0%nat.
Proof. intros Hc. unfold register. by rewrite register_guard, Hc. Qed.

(** Whatever the request and whatever fails, the store after a
    registration is the store before it, or that store with one user
    appended whose email no user had. *)
Lemma register_store_cases salt name email password phone blood_type address
    w :
  let db := w_store w in
  let db' := w_store (run (register salt name email password phone blood_type
                             address) w).2 in
  db' = db
  \/ exists u, users_by_email (u_email u) db = [] /\ u_id u = next_user_id db
        /\ db' = set_users (fun t => t ++ [u]) (next_user_id db + 1) db.
Proof.
  cbn zeta. unfold register. rewrite register_guard.
  destruct (register_complete _ _ _ _ _ _); cbn [negb]; [|by left].
  rewrite run_try_query. destruct (faulty w); [by left|].
  unfold select_id_by_email.
  destruct (bind_text email) as [e|] eqn:He; cbn [mbind option_bind];
    [|by left].
  destruct (users_by_email e (w_store w)) as [|u0 rest] eqn:Hfree; [|by left].
  destruct password; cbn [fmap list_fmap bcrypt_hash mbind prog_mbind
                           prog_bind]; try by left.
  rewrite run_try_query. cbn [w_faults w_store faulty].
  destruct (faulty _); [by left|]. unfold insert_user. rewrite He.
  destruct (bind_text name), (bind_text phone), (bind_text blood_type),
    (bind_text address); cbn [mbind option_bind]; try by left.
  right. eexists (mkUser _ _ e _ _ _ _ _). by split_and!.
Qed.

(** *** POST /login *)

(** The handler on two non-empty strings, once the store has answered. *)
Lemma run_login secret now e pw w :
  e <> "" -> pw <> "" -> faulty w = false ->
  run (login secret now (JsStr e) (JsStr pw)) w =
  (Some match users_by_email e (w_store w) with
        | [] => json_error 401 "Email atau password salah"
        | u :: _ =>
            if bcrypt_check pw (u_password u) then
              match secret with
              | Some k =>
                  json_ok_with "Login berhasil"
                    (mkLoginData (profile_of u)
                       (jwt_encode k (mkClaims (u_id u) (u_email u) now
                                        (now + week))))
              | None => json_error 500 "Terjadi kesalahan saat login"
              end
            else json_error 401 "Email atau password salah"
        end, advance w).
Proof.
  intros He Hpw Hf. unfold login.
  rewrite !(proj2 (truthy_str_iff _)) by done. cbn [negb orb].
  rewrite run_try_query, Hf. unfold select_user_by_email.
  rewrite bind_text_str. cbn [mbind option_bind].
  destruct (users_by_email e (w_store w)) as [|u rest]; [done|].
  cbn [bcrypt_compare mbind prog_mbind prog_bind].
  destruct (bcrypt_check pw (u_password u)); [|done]. by destruct secret.
Qed.

(** The password passes against the digest of the user of that email, on
    a store that answers and with a secret configured: the response is 200
    with the columns of the user other than the password and a token that
    carries the key and the email of the user and verifies from the time
    of the login until seven days later. *)
Theorem login_ok k now e pw u rest w :
  e <> "" -> pw <> "" -> faulty w = false ->
  users_by_email e (w_store w) = u :: rest ->
  bcrypt_check pw (u_password u) = true ->
  exists token,
    run (login (Some k) now (JsStr e) (JsStr pw)) w =
      (Some (json_ok_with "Login berhasil" (mkLoginData (profile_of u) token)),
       advance w)
    /\ forall t, now <= t < now + week ->
         jwt_verify (Some k) t token =
         Some (mkClaims (u_id u) (u_email u) now (now + week)).
Proof.
  intros He Hpw Hf Hu Hcheck. rewrite run_login, Hu, Hcheck by done.
  eexists. split; [done|]. intros t Ht. rewrite jwt_verify_sign.
  destruct (Z.ltb_spec t (now + week)); [done|lia].
Qed.

(** An email that no user has and a password that does not pass are
    answered alike: 401 with one message, and nothing is written. *)
Theorem login_rejected secret now e pw w :
  e <> "" -> pw <> "" -> faulty w = false ->
  match users_by_email e (w_store w) with
  | [] => True
  | u :: _ => bcrypt_check pw (u_password u) = false
  end ->
  run (login secret now (JsStr e) (JsStr pw)) w =
    (Some (json_error 401 "Email atau password salah"), advance w).
Proof.
  intros He Hpw Hf Hu. rewrite run_login by done.
  destruct (users_by_email e (w_store w)) as [|u rest]; [done|].
  by rewrite Hu.
Qed.

(** Without a secret the signature throws: a correct password is
    answered 500. *)
Theorem login_no_secret now e pw u rest w :
  e <> "" -> pw <> "" -> faulty w = false ->
  users_by_email e (w_store w) = u :: rest ->
  bcrypt_check pw (u_password u) = true ->
  run (login None now (JsStr e) (JsStr pw)) w =
    (Some (json_error 500 "Terjadi kesalahan saat login"), advance w).
Proof.
  intros He Hpw Hf Hu Hcheck. by rewrite run_login, Hu, Hcheck by done.
Qed.

(** An email or a password absent, null or empty: 400 before any
    statement. *)
Theorem login_incomplete secret now email password w :
  truthy email && truthy password = false ->
  run (login secret now email password) w =
    (Some (json_error 400 "Email dan password harus diisi"), w)
  /\ queries_issued (login secret now email password) w = 0%nat.
Proof. intros H. unfold login. by rewrite <- negb_andb, H. Qed.

(** A user who has just registered can log in with the same email and
    password. *)
Theorem login_after_register salt k now n e pw p bt a w :
  n <> "" -> e <> "" -> pw <> "" -> p <> "" -> bt <> "" -> a <> "" ->
  calm 3 (w_faults w) = true -> users_by_email e (w_store w) = [] ->
  let w1 := (run (register salt (JsStr n) (JsStr e) (JsStr pw) (JsStr p)
                    (JsStr bt) (JsStr a)) w).2 in
  res_status <$> (run (login (Some k) now (JsStr e) (JsStr pw)) w1).1
  = Some 200.
Proof.
  intros Hn He Hpw Hp Hbt Ha [Hf [Hf' [Hf'' _]%calm_S]%calm_S]%calm_S Hfree w1.
  subst w1. rewrite run_register, Hfree, Hf' by done. cbn [snd].
  rewrite run_login by done. cbn [w_store].
  rewrite (users_by_email_append e _ _ _ _ eq_refl), Hfree.
  cbn [registered_user u_email]. rewrite collates_equal_refl.
  unfold registered_user. cbn [app u_password].
  by rewrite bcrypt_check_digest.
Qed.

End properties.

(** ** The middleware *)

Section middleware.
Context {jwt : Jwt}.

Lemma split_on_plain sep s :
  sep ∉ String.list_ascii_of_string s -> split_on sep s = [s].
Proof.
  induction s as [|c s IH]; simpl; [done|].
  rewrite not_elem_of_cons. intros [Hc Hs].
  rewrite bool_decide_false by done. by rewrite IH.
Qed.

Lemma split_on_word sep word rest :
  sep ∉ String.list_ascii_of_string word ->
  split_on sep (String.append word (String sep rest)) =
  word :: split_on sep rest.
Proof.
  induction word as [|c word IH]; simpl.
  - intros _. by rewrite bool_decide_true.
  - rewrite not_elem_of_cons. intros [Hc Hw].
    rewrite bool_decide_false by done. by rewrite IH.
Qed.

Lemma truthy_str_append word c rest :
  truthy_str (Some (String.append word (String c rest))) = true.
Proof. by destruct word. Qed.

(** The token the middleware reads from a header made of a word, a space
    and a token without spaces. *)
Lemma header_token scheme token :
  " "%char ∉ String.list_ascii_of_string scheme ->
  " "%char ∉ String.list_ascii_of_string token ->
  split_on " " (String.append scheme (String " " token)) !! 1%nat = Some token.
Proof. intros Hs Ht. by rewrite split_on_word, split_on_plain. Qed.

(** The middleware on a header made of a word, a space and a token
    without spaces. *)
Lemma authenticate_header secret now scheme token :
  " "%char ∉ String.list_ascii_of_string scheme ->
  " "%char ∉ String.list_ascii_of_string token -> token <> "" ->
  authenticateToken secret now
    (Some (String.append scheme (String " " token))) =
  match jwt_verify secret now token with
  | None => Denied (json_error 403 "Token tidak valid atau expired")
  | Some user => Granted user
  end.
Proof.
  intros Hs Ht Hne. unfold authenticateToken.
  rewrite truthy_str_append. unfold default at 1. cbn [from_option id].
  rewrite header_token by done. cbn [truthy_str default from_option id].
  by rewrite (proj2 (String.eqb_neq _ _)) by done.
Qed.

(** C32. A token signed by the login at [t0] in a header ["<scheme> <token>"]
    lets the request pass with the payload of the token until seven days
    after [t0]; the scheme can be any word, [Bearer] or not. *)
Theorem authenticate_granted k t0 now scheme id email :
  " "%char ∉ String.list_ascii_of_string scheme -> now < t0 + week ->
  authenticateToken (Some k) now
    (Some (String.append scheme
             (String " " (jwt_encode k (mkClaims id email t0 (t0 + week))))))
  = Granted (mkClaims id email t0 (t0 + week)).
Proof.
  intros Hs Hnow.
  destruct (jwt_encode_plain k (mkClaims id email t0 (t0 + week))) as [Hne Hp].
  rewrite authenticate_header, jwt_verify_sign by done.
  by destruct (Z.ltb_spec now (t0 + week)); [|lia].
Qed.

(** From seven days after the signature on, the same header is answered
    403. *)
Theorem authenticate_expired k t0 now scheme id email :
  " "%char ∉ String.list_ascii_of_string scheme -> t0 + week <= now ->
  authenticateToken (Some k) now
    (Some (String.append scheme
             (String " " (jwt_encode k (mkClaims id email t0 (t0 + week))))))
  = Denied (json_error 403 "Token tidak valid atau expired").
Proof.
  intros Hs Hnow.
  destruct (jwt_encode_plain k (mkClaims id email t0 (t0 + week))) as [Hne Hp].
  rewrite authenticate_header, jwt_verify_sign by done.
  by destruct (Z.ltb_spec now (t0 + week)); [lia|].
Qed.

(** No header, or a header without a space (a bare token, say): 401. *)
Theorem authenticate_no_token secret now authorization :
  " "%char ∉ String.list_ascii_of_string (default "" authorization) ->
  authenticateToken secret now authorization =
  Denied (json_error 401 "Access token tidak ditemukan").
Proof.
  intros Hs. unfold authenticateToken.
  destruct (truthy_str authorization); [|done].
  by rewrite split_on_plain.
Qed.

(** Without a secret no token passes. *)
Theorem authenticate_no_secret now authorization :
  exists r, authenticateToken None now authorization = Denied r.
Proof.
  unfold authenticateToken. case_match; eauto.
Qed.

End middleware.

(** ** Invariants *)

Section invariants.
Context {driver : Driver} {collation : Collation} {bcrypt : Bcrypt} {jwt : Jwt}.
Context (P : Db -> Prop) (HP : users_independent P).

Let inv (db : Db) : Prop := db_wf db /\ P db.

Lemma select_id_by_email_inv (I : Db -> Prop) email :
  stmt_preserves I (select_id_by_email email).
Proof.
  intros db r db' Hdb Hq. unfold select_id_by_email in Hq.
  by simplify_option_eq.
Qed.

Lemma select_user_by_email_inv (I : Db -> Prop) email :
  stmt_preserves I (select_user_by_email email).
Proof.
  intros db r db' Hdb Hq. unfold select_user_by_email in Hq.
  by simplify_option_eq.
Qed.

Lemma insert_user_inv name email hashedPassword phone blood_type address :
  stmt_preserves inv
    (insert_user name email hashedPassword phone blood_type address).
Proof.
  intros db r db' [Hwf Hdb] Hq. unfold insert_user in Hq.
  simplify_option_eq. apply set_users_inv; [done| |done].
  by apply insert_user_wf.
Qed.

#[local] Hint Resolve select_id_by_email_inv select_user_by_email_inv
  insert_user_inv : donor.

(** Every statement of a registration keeps keys and counters
    well-formed: under any interleaving. *)
Lemma register_safe salt name email password phone blood_type address :
  safe_prog inv (register salt name email password phone blood_type address).
Proof. unfold register. eauto 15 with donor. Qed.

Lemma login_safe secret now email password :
  safe_prog inv (login secret now email password).
Proof. unfold login. eauto 15 with donor. Qed.

(** ** The router *)

(** A request to the authentication router, by route. *)
Inductive AuthReq : Type :=
| Register (salt : string)
    (name email password phone blood_type address : JsVal)
| Login (now : Z) (email password : JsVal).

(** [secret] is [process.env.JWT_SECRET]. *)
Definition auth_router (secret : option string) (req : AuthReq)
  : Prog Db Envelope :=
  match req with
  | Register salt name email password phone blood_type address =>
      respond (register salt name email password phone blood_type address)
  | Login now email password => respond (login secret now email password)
  end.

Lemma auth_router_safe secret req : safe_prog inv (auth_router secret req).
Proof.
  destruct req; apply safe_respond; auto using register_safe, login_safe.
Qed.

End invariants.

(** ** The answers of the routes *)

(** The statuses of each route. *)
Definition auth_statuses (req : AuthReq) : list Z :=
  match req with
  | Register _ _ _ _ _ _ _ => [201; 400; 500]
  | Login _ _ _ => [200; 400; 401; 500]
  end.

(** Whatever the store answers, both routes answer after at most two
    statements with a well-formed envelope whose status is one of the
    route's. *)
Lemma auth_router_typed `{Driver, Collation, Bcrypt, Jwt} secret req :
  answers 2 (fun e => typed (auth_statuses req) e = true)
    (auth_router secret req).
Proof.
  destruct req; cbn [auth_router auth_statuses]; unfold register, login,
    bcrypt_compare, bcrypt_hash, jwt_sign; within_walk; done.
Qed.

(** Requests that run one after the other keep emails distinct: a
    registration inserts an email only after it has found no user with
    it. *)
Theorem register_keeps_emails_distinct `{Driver, Collation, Bcrypt} salt name
    email password phone blood_type address w :
  emails_distinct (w_store w) ->
  emails_distinct (w_store (run (register salt name email password phone
                                   blood_type address) w).2).
Proof.
  intros Hd.
  destruct (register_store_cases salt name email password phone blood_type
              address w) as [->|(u & Hfree & _ & ->)]; [done|].
  by apply emails_distinct_append.
Qed.

(** ** Concrete runs *)

Lemma sample_emails_distinct : emails_distinct sample_db.
Proof. repeat constructor. Qed.

Lemma register_ok_witness :
  exists db' u,
    run (register "salt" (JsStr "Budi") (JsStr "budi@example.org")
           (JsStr "rahasia") (JsStr "0814") (JsStr "O+") (JsStr "Depok"))
        (mkWorld sample_db []) =
      (Some (json_created "Registrasi berhasil"
               (mkRegistered 2 (JsStr "Budi") (JsStr "budi@example.org")
                  (JsStr "0814") (JsStr "O+") (JsStr "Depok"))),
       mkWorld db' [])
    /\ users db' = users sample_db ++ [u]
    /\ profile_of u = mkProfile 2 "Budi" "budi@example.org" "0814" "O+" "Depok"
                        100
    /\ bcrypt_check "rahasia" (u_password u) = true
    /\ next_user_id db' = 3
    /\ same_but_users sample_db db'.
Proof.
  apply (register_ok "salt" "Budi" "budi@example.org" "rahasia" "0814" "O+"
           "Depok" (mkWorld sample_db [])); done.
Defined.

Lemma register_keeps_emails_distinct_witness :
  emails_distinct
    (w_store (run (register "salt" (JsStr "Budi") (JsStr "ani@example.org")
                     (JsStr "rahasia") (JsStr "0814") (JsStr "O+")
                     (JsStr "Depok")) (mkWorld sample_db [])).2).
Proof.
  apply (register_keeps_emails_distinct "salt" (JsStr "Budi")
           (JsStr "ani@example.org") (JsStr "rahasia") (JsStr "0814")
           (JsStr "O+") (JsStr "Depok") (mkWorld sample_db [])).
  exact sample_emails_distinct.
Defined.

Lemma login_ok_witness :
  exists token,
    run (login (Some "kunci") 1000 (JsStr "ani@example.org") (JsStr "hash"))
        (mkWorld sample_db []) =
      (Some (json_ok_with "Login berhasil"
               (mkLoginData (profile_of ani) token)),
       mkWorld sample_db [])
    /\ forall t, 1000 <= t < 1000 + week ->
         jwt_verify (Some "kunci") t token =
         Some (mkClaims 1 "ani@example.org" 1000 (1000 + week)).
Proof.
  apply (login_ok "kunci" 1000 "ani@example.org" "hash" ani []
           (mkWorld sample_db [])); done.
Defined.

Lemma login_rejected_witness :
  run (login (Some "kunci") 1000 (JsStr "ani@example.org") (JsStr "salah"))
      (mkWorld sample_db []) =
  (Some (json_error 401 "Email atau password salah"), mkWorld sample_db []).
Proof.
  apply (login_rejected (Some "kunci") 1000 "ani@example.org" "salah"
           (mkWorld sample_db [])); done.
Defined.

Lemma authenticate_granted_witness :
  authenticateToken (Some "kunci") 2000
    (Some (String.append "Bearer"
             (String " " (jwt_encode "kunci"
                            (mkClaims 1 "ani@example.org" 1000
                               (1000 + week))))))
  = Granted (mkClaims 1 "ani@example.org" 1000 (1000 + week)).
Proof.
  apply (authenticate_granted "kunci" 1000 2000 "Bearer" 1 "ani@example.org");
    [by_decide | done].
Defined.

Lemma authenticate_expired_witness :
  authenticateToken (Some "kunci") (1000 + week)
    (Some (String.append "Bearer"
             (String " " (jwt_encode "kunci"
                            (mkClaims 1 "ani@example.org" 1000
                               (1000 + week))))))
  = Denied (json_error 403 "Token tidak valid atau expired").
Proof.
  apply (authenticate_expired "kunci" 1000 (1000 + week) "Bearer" 1
           "ani@example.org"); [by_decide | done].
Defined.
