(* ===== verification/Roundtrips.v ===== *)
(** * Roundtrips: what one request writes, the next one reads

    The handlers share nothing but the store.  This file composes them:
    a request that writes, run to its end, followed by a request that
    reads.  The donation a POST creates is the one GET /:id of the
    answered key shows; a status update and a deletion are seen by the
    next read; a donation counts in the statistics of its user from the
    update that completes it; a profile update is read back; a user who
    registers can log in, and the token of the login passes the
    middleware with the key and the email of that user. *)

From Stdlib Require Import ZArith Lia Ascii.
From stdpp Require Import base tactics option list strings gmap.
From S2P Require Import Prelude Sorting Store Donations Stats Security Users.
From S2P Require Import Auth.

#[local] Open Scope Z_scope.

(** ** Donations *)

Section donations.
Context {driver : Driver}.
Implicit Types (w : World Db) (db : Db) (d : Donation) (key : JsVal).

(** GET /:id on a store that answers, by the three maps. *)
Lemma run_get_donation key id w :
  bind_int key = Some id -> db_wf (w_store w) -> faulty w = false ->
  run (get_donation key) w =
    (Some (match detail_of (w_store w) id with
           | Some v => json_ok v
           | None => json_error 404 "Riwayat donor tidak ditemukan"
           end), advance w).
Proof.
  intros Hk Hwf Hf. unfold get_donation. bind_key Hk.
  rewrite run_try_read, select_donation_detail_lookup by done.
  by destruct (detail_of _ id).
Qed.

(** A write to [donation_history] changes the detail of a donation only
    through the donation. *)
Lemma detail_of_set_donations f n db id :
  detail_of (set_donations f n db) id =
  dh ← table_map dh_id (f (donation_history db)) !! id;
  bb ← bank_map db !! dh_blood_bank_id dh;
  u ← user_map db !! dh_user_id dh;
  Some (mkDonationDetail dh (bb_name bb) (u_name u)).
Proof. done. Qed.

(** Create, then read: GET /:id of the key that POST / answered shows the
    donation of the request, pending, with the names of its bank and of
    its user. *)
Theorem post_then_get user_id blood_bank_id donation_date blood_type quantity
    notes uid bid date bt qty nt bb u w :
  db_wf (w_store w) ->
  complete user_id blood_bank_id donation_date blood_type quantity = true ->
  bind_int user_id = Some uid -> bind_int blood_bank_id = Some bid ->
  bind_date donation_date = Some date -> bind_text blood_type = Some bt ->
  bind_int quantity = Some qty -> bind_text_null notes = Some nt ->
  bank_map (w_store w) !! bid = Some bb ->
  user_map (w_store w) !! uid = Some u ->
  calm 2 (w_faults w) = true ->
  exists id w1,
    run (post_donation user_id blood_bank_id donation_date blood_type quantity
           notes) w
    = (Some (json_created "Permintaan donor berhasil dibuat" (mkCreated id)),
       w1)
    /\ forall key, bind_int key = Some id ->
         run (get_donation key) w1 =
         (Some (json_ok (mkDonationDetail
                           (mkDonation id uid bid date bt qty "pending" nt
                              (db_now (w_store w)))
                           (bb_name bb) (u_name u))),
          advance w1).
Proof.
  intros Hwf Hc Hu Hb Hd Ht Hq Hn Hbb Huu [Hf [Hf' _]%calm_S]%calm_S.
  rewrite (run_post_donation _ _ _ _ _ _ uid bid date bt qty nt) by done.
  eexists _, _. split; [done|]. intros key Hk.
  rewrite (run_get_donation _ _ _ Hk) by (by try apply insert_donation_wf).
  cbn [w_store]. rewrite detail_of_set_donations, table_map_append
    by by apply next_donation_id_fresh.
  cbn [created_row dh_id]. rewrite lookup_insert_eq. cbn.
  by rewrite Hbb; cbn; rewrite Huu.
Qed.

(** Update, then read: GET /:id shows the status and the notes of the
    update, and the other fields as they were. *)
Theorem put_status_then_get key id s notes nt d bb u w :
  bind_int key = Some id -> db_wf (w_store w) ->
  s ∈ status_names -> bind_text_null notes = Some nt ->
  detail_of (w_store w) id = Some (mkDonationDetail d bb u) ->
  calm 2 (w_faults w) = true ->
  exists w1,
    run (put_donation_status key (JsStr s) notes) w
    = (Some (json_msg "Status donor berhasil diupdate"), w1)
    /\ run (get_donation key) w1 =
       (Some (json_ok (mkDonationDetail (with_status s nt d) bb u)),
        advance w1).
Proof.
  intros Hk Hwf Hs Hn Hd [Hf [Hf' _]%calm_S]%calm_S.
  rewrite (run_put_status key id s notes nt) by done. eexists. split; [done|].
  rewrite (run_get_donation _ _ _ Hk) by (by try apply update_donations_wf).
  cbn [w_store]. rewrite detail_of_set_donations, table_map_update by done.
  fold (donation_map (w_store w)). unfold detail_of in Hd.
  rewrite lookup_alter_eq.
  destruct (donation_map (w_store w) !! id) as [d'|]; [|done]. cbn in *.
  destruct (bank_map _ !! _) as [bb'|]; [|done]. cbn in *.
  destruct (user_map _ !! _) as [u'|]; [|done]. cbn in *. by simplify_eq.
Qed.

(** Delete, then read: GET /:id of a deleted key answers 404. *)
Theorem delete_then_get key id w :
  bind_int key = Some id -> db_wf (w_store w) -> calm 2 (w_faults w) = true ->
  exists w1,
    run (delete_donation key) w
    = (Some (json_msg "Riwayat donor berhasil dihapus"), w1)
    /\ run (get_donation key) w1 =
       (Some (json_error 404 "Riwayat donor tidak ditemukan"), advance w1).
Proof.
  intros Hk Hwf [Hf [Hf' _]%calm_S]%calm_S.
  rewrite (run_delete_donation _ _ _ Hk) by done. eexists. split; [done|].
  rewrite (run_get_donation _ _ _ Hk) by (by try apply delete_donations_wf).
  cbn [w_store]. by rewrite detail_of_set_donations, table_map_delete,
    lookup_delete_eq.
Qed.

End donations.

(** ** Donations and statistics *)

Section stats.
Context {driver : Driver}.
Implicit Types (w : World Db) (db : Db) (d : Donation) (t : list Donation).
Implicit Types (key ukey : JsVal).

(** No row of [t] carries the key [id]. *)
Lemma sql_select_absent id t :
  id ∉ dh_id <$> t -> sql_select (fun r => dh_id r =? id) t = [].
Proof.
  intros Hid. apply sql_select_none. intros r Hr. apply Z.eqb_neq.
  intros <-. apply Hid, list_elem_of_fmap. eauto.
Qed.

Lemma completed_of_completed nt d :
  completed_of (dh_user_id d) (with_status "completed" nt d) = true.
Proof. unfold completed_of. cbn. by rewrite Z.eqb_refl. Qed.

Lemma completed_of_other uid d :
  dh_status d <> "completed" -> completed_of uid d = false.
Proof.
  intros Hst. unfold completed_of.
  by rewrite bool_decide_eq_false_2, andb_false_r.
Qed.

(** Completing a donation that was not adds it, and nothing else, to the
    completed donations of its user. *)
Lemma completed_after_completion nt d t :
  NoDup (dh_id <$> t) -> d ∈ t -> dh_status d <> "completed" ->
  let l := sql_select (completed_of (dh_user_id d)) t in
  let l' := sql_select (completed_of (dh_user_id d))
              (sql_update (fun r => dh_id r =? dh_id d)
                 (with_status "completed" nt) t) in
  length l' = Datatypes.S (length l)
  /\ total_quantity l' = total_quantity l + dh_quantity d.
Proof.
  intros Hnd Hd Hst. cbn zeta.
  induction t as [|r t IH]; [by apply elem_of_nil in Hd|].
  rewrite fmap_cons in Hnd. apply NoDup_cons in Hnd as [Hr Hnd].
  rewrite sql_update_cons, !sql_select_cons.
  apply elem_of_cons in Hd as [<-|Hd].
  - rewrite Z.eqb_refl, sql_update_none by by apply sql_select_absent.
    rewrite completed_of_completed, completed_of_other by done.
    split; [done|]. unfold total_quantity. cbn. lia.
  - destruct (Z.eqb_spec (dh_id r) (dh_id d)) as [E|_].
    { destruct Hr. rewrite E. apply list_elem_of_fmap. eauto. }
    destruct (IH Hnd Hd) as [IH1 IH2].
    destruct (completed_of _ r); [|done]. cbn [length].
    rewrite IH1. split; [done|]. unfold total_quantity in *. cbn.
    rewrite IH2. lia.
Qed.

(** C24. Complete, then count: once the status update has completed a
    donation, the statistics of its user count one donation more and its
    quantity more (behind a client that decodes the sum as a number). *)
Theorem complete_then_stats key ukey id notes nt d w :
  (forall z, decode_decimal z = JsNum z) ->
  bind_int key = Some id -> bind_int ukey = Some (dh_user_id d) ->
  db_wf (w_store w) -> bind_text_null notes = Some nt ->
  donation_map (w_store w) !! id = Some d -> dh_status d <> "completed" ->
  calm 4 (w_faults w) = true ->
  let before := completed_donations (dh_user_id d) (w_store w) in
  exists w1 last,
    run (put_donation_status key (JsStr "completed") notes) w
    = (Some (json_msg "Status donor berhasil diupdate"), w1)
    /\ (run (get_user_stats ukey) w1).1 =
       Some (json_ok (mkUserStats
                        (JsNum (Z.of_nat (length before) + 1))
                        (JsNum (total_quantity before + dh_quantity d))
                        last)).
Proof.
  intros Hdec Hk Hu Hwf Hn Hd Hst [Hf Hc]%calm_S before.
  rewrite (run_put_status key id "completed" notes nt) by (done || by_decide).
  eexists _, _. split; [done|]. rewrite (run_get_user_stats _ _ _ Hu) by done.
  cbn [fst]. unfold reported. rewrite donated_number by apply Hdec.
  unfold completed_donations, before.
  cbn [w_store set_donations donation_history].
  apply table_map_elem_of in Hd as [Hin <-].
  destruct (completed_after_completion nt d _ (wf_donation_ids _ Hwf) Hin Hst)
    as [-> ->].
  by rewrite Nat2Z.inj_succ.
Qed.

End stats.

(** ** Profiles *)

Section users.
Context {driver : Driver} {bcrypt : Bcrypt}.
Implicit Types (w : World Db) (u : User).

(** Update, then read: GET /profile/:id shows the four fields of the
    update, with the email and the creation date as they were. *)
Theorem put_profile_then_get key id name phone blood_type address n p bt a u
    w :
  bind_int key = Some id ->
  profile_complete name phone blood_type address = true ->
  bind_text name = Some n -> bind_text phone = Some p ->
  bind_text blood_type = Some bt -> bind_text address = Some a ->
  user_map (w_store w) !! id = Some u ->
  calm 2 (w_faults w) = true ->
  exists w1,
    run (put_profile key name phone blood_type address) w
    = (Some (json_msg "Profile berhasil diupdate"), w1)
    /\ run (get_profile key) w1 =
       (Some (json_ok (mkProfile id n (u_email u) p bt a (u_created_at u))),
        advance w1).
Proof.
  intros Hk Hc Hn Hp Hbt Ha Hu [Hf [Hf' _]%calm_S]%calm_S.
  rewrite (run_put_profile _ id _ _ _ _ n p bt a) by done.
  eexists. split; [done|]. rewrite (run_get_profile _ _ _ Hk) by done.
  cbn [w_store].
  rewrite user_map_set, table_map_update, lookup_alter_eq by done.
  fold (user_map (w_store w)). by rewrite Hu.
Qed.

End users.

(** ** Sessions *)

Section sessions.
Context {driver : Driver} {collation : Collation} {bcrypt : Bcrypt} {jwt : Jwt}.
Implicit Types (w : World Db) (u : User).

(** An update that keeps the email of every row commutes with the
    selection by email. *)
Lemma users_by_email_update e p (f : User -> User) n db :
  (forall u, u_email (f u) = u_email u) ->
  users_by_email e (set_users (sql_update p f) n db) =
  sql_update p f (users_by_email e db).
Proof.
  intros Hf. unfold users_by_email. cbn [users set_users].
  induction (users db) as [|u t IH]; [done|].
  rewrite sql_update_cons, !sql_select_cons.
  replace (collates_equal (u_email (if p u then f u else u)) e)
    with (collates_equal (u_email u) e) by (by destruct (p u); rewrite ?Hf).
  destruct (collates_equal (u_email u) e); [|done].
  by rewrite sql_update_cons, IH.
Qed.

(** C33. Register, log in, pass the middleware: the token of the login of a
    user who has just registered lets a request pass, during seven days,
    with the key the registration answered and the email it was given. *)
Theorem register_login_authenticate salt k t0 now scheme n e pw p bt a w :
  n <> "" -> e <> "" -> pw <> "" -> p <> "" -> bt <> "" -> a <> "" ->
  users_by_email e (w_store w) = [] -> calm 3 (w_faults w) = true ->
  " "%char ∉ String.list_ascii_of_string scheme -> now < t0 + week ->
  exists w1 user token,
    run (register salt (JsStr n) (JsStr e) (JsStr pw) (JsStr p) (JsStr bt)
           (JsStr a)) w
    = (Some (json_created "Registrasi berhasil"
               (mkRegistered (next_user_id (w_store w)) (JsStr n) (JsStr e)
                  (JsStr p) (JsStr bt) (JsStr a))), w1)
    /\ (run (login (Some k) t0 (JsStr e) (JsStr pw)) w1).1
       = Some (json_ok_with "Login berhasil" (mkLoginData user token))
    /\ user = mkProfile (next_user_id (w_store w)) n e p bt a
                (db_now (w_store w))
    /\ authenticateToken (Some k) now
         (Some (String.append scheme (String " " token)))
       = Granted (mkClaims (next_user_id (w_store w)) e t0 (t0 + week)).
Proof.
  intros Hn He Hpw Hp Hbt Ha Hfree [Hf [Hf' [Hf'' _]%calm_S]%calm_S]%calm_S
    Hs Hnow.
  rewrite run_register, Hfree, Hf' by done. eexists _, _, _.
  split; [done|]. rewrite run_login by done. cbn [w_store fst].
  rewrite (users_by_email_append e _ _ _ _ eq_refl), Hfree.
  cbn [registered_user u_email]. rewrite collates_equal_refl.
  unfold registered_user. cbn [app u_password].
  rewrite bcrypt_check_digest. split; [done|]. split; [done|].
  cbn [u_id u_email]. destruct (jwt_encode_plain k
    (mkClaims (next_user_id (w_store w)) e t0 (t0 + week))) as [Hne Hplain].
  rewrite authenticate_header, jwt_verify_sign by done.
  by rewrite (proj2 (Z.ltb_lt _ _)).
Qed.

(** Change the password, then log in: the new password opens the
    session of the same user. *)
Theorem put_password_then_login salt k now key id old new u w :
  bind_int key = Some id -> old <> "" -> new <> "" -> u_email u <> "" ->
  user_map (w_store w) !! id = Some u ->
  users_by_email (u_email u) (w_store w) = [u] ->
  bcrypt_check old (u_password u) = true ->
  calm 3 (w_faults w) = true ->
  exists w1 token,
    run (put_password salt key (JsStr old) (JsStr new)) w
    = (Some (json_msg "Password berhasil diupdate"), w1)
    /\ (run (login (Some k) now (JsStr (u_email u)) (JsStr new)) w1).1
       = Some (json_ok_with "Login berhasil"
                 (mkLoginData (profile_of u) token)).
Proof.
  intros Hk Ho Hn He Hu Hmail Hold [Hf [Hf' [Hf'' _]%calm_S]%calm_S]%calm_S.
  rewrite (run_put_password _ _ id _ _ u), Hold by done.
  rewrite run_try_query, Hf'. cbn [update_password advance w_store w_faults].
  eexists _, _. split; [done|]. rewrite run_login by done. cbn [w_store fst].
  rewrite users_by_email_update, Hmail by done. rewrite sql_update_cons.
  apply table_map_elem_of in Hu as [_ <-]. rewrite Z.eqb_refl.
  cbn [with_password u_password]. by rewrite bcrypt_check_digest.
Qed.

End sessions.

(** ** Concrete runs *)

(** The bank of [sample_db]. *)
Definition pmi : BloodBank :=
  mkBloodBank 1 "PMI Jakarta" "-6.2" "106.8" "Jl. Kramat" "021".

Lemma post_then_get_witness :
  exists id w1,
    run (post_donation (JsNum 1) (JsNum 1) (JsStr "2024-04-01") (JsStr "A+")
           (JsNum 350) JsUndefined) (mkWorld sample_db [])
    = (Some (json_created "Permintaan donor berhasil dibuat" (mkCreated id)),
       w1)
    /\ forall key, bind_int key = Some id ->
         run (get_donation key) w1 =
         (Some (json_ok (mkDonationDetail
                           (mkDonation id 1 1 20240401 "A+" 350 "pending" None
                              100)
                           "PMI Jakarta" "Ani")),
          advance w1).
Proof.
  apply (post_then_get (JsNum 1) (JsNum 1) (JsStr "2024-04-01") (JsStr "A+")
           (JsNum 350) JsUndefined 1 1 20240401 "A+" 350 None pmi ani
           (mkWorld sample_db [])); solve [done | exact sample_db_wf].
Defined.

Lemma put_status_then_get_witness :
  exists w1,
    run (put_donation_status (JsStr "2") (JsStr "approved") (JsStr "besok"))
        (mkWorld sample_db [])
    = (Some (json_msg "Status donor berhasil diupdate"), w1)
    /\ run (get_donation (JsStr "2")) w1 =
       (Some (json_ok (mkDonationDetail
                         (mkDonation 2 1 1 20240305 "A+" 200 "approved"
                            (Some "besok") 30)
                         "PMI Jakarta" "Ani")),
        advance w1).
Proof.
  apply (put_status_then_get (JsStr "2") 2 "approved" (JsStr "besok")
           (Some "besok")
           (mkDonation 2 1 1 20240305 "A+" 200 "pending" None 30)
           "PMI Jakarta" "Ani" (mkWorld sample_db []));
    solve [done | exact sample_db_wf | by_decide].
Defined.

Lemma delete_then_get_witness :
  exists w1,
    run (delete_donation (JsStr "2")) (mkWorld sample_db [])
    = (Some (json_msg "Riwayat donor berhasil dihapus"), w1)
    /\ run (get_donation (JsStr "2")) w1 =
       (Some (json_error 404 "Riwayat donor tidak ditemukan"), advance w1).
Proof.
  apply (delete_then_get (JsStr "2") 2 (mkWorld sample_db []));
    solve [done | exact sample_db_wf].
Defined.

Lemma complete_then_stats_witness :
  exists w1 last,
    run (put_donation_status (JsStr "2") (JsStr "completed") JsUndefined)
        (mkWorld sample_db [])
    = (Some (json_msg "Status donor berhasil diupdate"), w1)
    /\ (run (get_user_stats (JsStr "1")) w1).1 =
       Some (json_ok (mkUserStats (JsNum 3) (JsNum 650) last)).
Proof.
  apply (complete_then_stats (JsStr "2") (JsStr "1") 2 JsUndefined None
           (mkDonation 2 1 1 20240305 "A+" 200 "pending" None 30)
           (mkWorld sample_db [])); solve [done | exact sample_db_wf].
Defined.

Lemma put_profile_then_get_witness :
  exists w1,
    run (put_profile (JsStr "1") (JsStr "Ani B") (JsStr "0813") (JsStr "A+")
           (JsStr "Bogor")) (mkWorld sample_db [])
    = (Some (json_msg "Profile berhasil diupdate"), w1)
    /\ run (get_profile (JsStr "1")) w1 =
       (Some (json_ok (mkProfile 1 "Ani B" "ani@example.org" "0813" "A+"
                         "Bogor" 10)),
        advance w1).
Proof.
  apply (put_profile_then_get (JsStr "1") 1 (JsStr "Ani B") (JsStr "0813")
           (JsStr "A+") (JsStr "Bogor") "Ani B" "0813" "A+" "Bogor" ani
           (mkWorld sample_db [])); done.
Defined.

Lemma register_login_authenticate_witness :
  exists w1 user token,
    run (register "salt" (JsStr "Budi") (JsStr "budi@example.org")
           (JsStr "rahasia") (JsStr "0814") (JsStr "O+") (JsStr "Depok"))
        (mkWorld sample_db [])
    = (Some (json_created "Registrasi berhasil"
               (mkRegistered 2 (JsStr "Budi") (JsStr "budi@example.org")
                  (JsStr "0814") (JsStr "O+") (JsStr "Depok"))), w1)
    /\ (run (login (Some "kunci") 1000 (JsStr "budi@example.org")
              (JsStr "rahasia")) w1).1
       = Some (json_ok_with "Login berhasil" (mkLoginData user token))
    /\ user = mkProfile 2 "Budi" "budi@example.org" "0814" "O+" "Depok" 100
    /\ authenticateToken (Some "kunci") 2000
         (Some (String.append "Bearer" (String " " token)))
       = Granted (mkClaims 2 "budi@example.org" 1000 (1000 + week)).
Proof.
  apply (register_login_authenticate "salt" "kunci" 1000 2000 "Bearer" "Budi"
           "budi@example.org" "rahasia" "0814" "O+" "Depok"
           (mkWorld sample_db [])); solve [done | by_decide].
Defined.

Lemma put_password_then_login_witness :
  exists w1 token,
    run (put_password "salt" (JsStr "1") (JsStr "hash") (JsStr "baru"))
        (mkWorld sample_db [])
    = (Some (json_msg "Password berhasil diupdate"), w1)
    /\ (run (login (Some "kunci") 1000 (JsStr "ani@example.org")
              (JsStr "baru")) w1).1
       = Some (json_ok_with "Login berhasil"
                 (mkLoginData (profile_of ani) token)).
Proof.
  apply (put_password_then_login "salt" "kunci" 1000 (JsStr "1") 1 "hash"
           "baru" ani
           (mkWorld sample_db [])); done.
Defined.
