(* ===== verification/Interleaving.v ===== *)
(** * Interleaving: requests in flight over one store

    Node runs the handlers of concurrent requests on one thread: a handler
    runs until its next [await db.query(...)] and the statements of the
    requests in flight reach the store in any order.  [run] of [Prelude]
    executes one request to its end; this file holds the semantics in
    which the statements of several requests interleave ([pool_step]),
    shows that running the requests one after the other is one of its
    schedules, that every schedule keeps what every statement keeps and
    ends with every request answered ([pool_drains]), and uses it on the
    registration of routes/auth.js: two registrations with the same
    email, interleaved, both succeed, which no sequence of whole requests
    allows. *)

From Stdlib Require Import ZArith Lia.
From stdpp Require Import base tactics option list strings relations sorting.
From S2P Require Import Prelude Outcomes Sorting Store Donations Security Users.
From S2P Require Import Auth.

#[local] Open Scope Z_scope.

(** A relation whose chains from [x] have a bounded length has no
    infinite chain from [x]. *)
Lemma nsteps_bound_sn {X} (R : relation X) (bound : nat) (x : X) :
  (forall n y, nsteps R n x y -> (n <= bound)%nat) -> sn R x.
Proof.
  revert x. induction bound as [|bound IH]; intros x Hb; constructor;
    intros y Hy; unfold flip in Hy.
  - specialize (Hb 1%nat y (nsteps_once _ _ Hy)). lia.
  - apply IH. intros n z Hn.
    specialize (Hb (Datatypes.S n) z (nsteps_l _ _ _ _ _ Hy Hn)). lia.
Qed.

(** ** The semantics *)

Section pool.
Context {S A : Type}.

(** The store and the requests in flight, each at its next statement or
    at its end. *)
Definition Pool : Type := S * list (Prog S A).

(** One statement of one request reaches the store and is answered, or
    fails. *)
Inductive pool_step : Pool -> Pool -> Prop :=
| pool_resolve {R} i (q : S -> option (R * S)) k s ps r s' :
    ps !! i = Some (Await q k) -> q s = Some (r, s') ->
    pool_step (s, ps) (s', <[i := k (Resolved r)]> ps)
| pool_reject {R} i (q : S -> option (R * S)) k s ps :
    ps !! i = Some (Await q k) ->
    pool_step (s, ps) (s, <[i := k Rejected]> ps).

(** The requests that have ended, with what they returned. *)
Definition finished (ps : list (Prog S A)) : option (list A) :=
  mapM (fun p => match p with Ret a => Some a | _ => None end) ps.

(** ** Running one request to its end is a schedule *)

(** The statements of the request at position [i], issued without any
    other request in between, are steps of the pool. *)
Lemma run_pool_steps p i ps w a w' :
  ps !! i = Some p -> run p w = (Some a, w') ->
  rtc pool_step (w_store w, ps) (w_store w', <[i := Ret a]> ps).
Proof.
  revert ps w. induction p as [b| |R q k IH]; intros ps w Hi Hrun.
  - cbn in Hrun. simplify_eq. rewrite list_insert_id by done. done.
  - done.
  - cbn in Hrun. destruct (exec_query q w) as [o w1] eqn:Hq.
    specialize (IH o (<[i := k o]> ps) w1).
    rewrite list_insert_insert_eq in IH. eapply rtc_l; [|apply IH; [|done]].
    + rewrite exec_query_eq in Hq. destruct (faulty w).
      { simplify_eq. by eapply pool_reject. }
      destruct (q (w_store w)) as [[r s']|] eqn:E; simplify_eq.
      * by eapply pool_resolve.
      * by eapply pool_reject.
    + apply list_lookup_insert_eq. by eapply lookup_lt_Some.
Qed.

(** ** Invariants under interleaving *)

(** What every statement keeps, every schedule keeps. *)
Lemma pool_step_safe (I : S -> Prop) s ps s' ps' :
  pool_step (s, ps) (s', ps') ->
  I s /\ Forall (safe_prog I) ps -> I s' /\ Forall (safe_prog I) ps'.
Proof.
  intros Hstep [Hs Hps].
  inversion Hstep as [R i q k ? ? r ? Hi Hq|R i q k ? ? Hi];
    subst; pose proof (Forall_lookup_1 _ _ _ _ Hps Hi) as [Hsafe Hk].
  - split; [by eapply Hsafe|]. by apply Forall_insert.
  - split; [done|]. by apply Forall_insert.
Qed.

Lemma pool_steps_safe (I : S -> Prop) (c c' : Pool) :
  rtc pool_step c c' ->
  I c.1 /\ Forall (safe_prog I) c.2 -> I c'.1 /\ Forall (safe_prog I) c'.2.
Proof.
  induction 1 as [|[s ps] [s' ps'] c'' Hstep _ IH]; [done|].
  intros H. by apply IH, (pool_step_safe I s ps).
Qed.

(** ** Every schedule ends *)

(** What the requests in flight still owe: the request at position [i]
    answers within [(nqs !! i).1] statements with a value that satisfies
    [(nqs !! i).2]. *)
Definition pool_answers (nqs : list (nat * (A -> Prop)))
    (ps : list (Prog S A)) : Prop :=
  Forall2 (fun nq p => answers nq.1 nq.2 p) nqs ps.

(** The statements the requests in flight can still issue, at most. *)
Definition statements_left (nqs : list (nat * (A -> Prop))) : nat :=
  sum_list (fst <$> nqs).

Lemma sum_list_insert_S (l : list nat) i n :
  l !! i = Some (Datatypes.S n) ->
  Datatypes.S (sum_list (<[i := n]> l)) = sum_list l.
Proof.
  revert i. induction l as [|m l IH]; intros [|i] Hi; simplify_eq/=; [done|].
  rewrite <- (IH i Hi). lia.
Qed.

(** A request whose next statement is pending owes at least that one, and
    owes one less once it is answered. *)
Lemma pool_answers_await {R} nqs ps i (q : S -> option (R * S)) k o :
  pool_answers nqs ps -> ps !! i = Some (Await q k) ->
  exists nqs',
    pool_answers nqs' (<[i := k o]> ps)
    /\ Datatypes.S (statements_left nqs') = statements_left nqs
    /\ snd <$> nqs' = snd <$> nqs.
Proof.
  intros Hps Hi.
  destruct (Forall2_lookup_r _ _ _ _ _ Hps Hi) as ([n Q] & Hnq & Hans).
  destruct n as [|n]; [done|]. exists (<[i := (n, Q)]> nqs). split_and!.
  - apply Forall2_insert; [done|]. apply Hans.
  - unfold statements_left. rewrite list_fmap_insert.
    apply sum_list_insert_S. by rewrite list_lookup_fmap, Hnq.
  - rewrite list_fmap_insert. apply list_insert_id.
    by rewrite list_lookup_fmap, Hnq.
Qed.

(** A step leaves as many requests in flight. *)
Lemma pool_step_length (c c' : Pool) :
  pool_step c c' -> length c'.2 = length c.2.
Proof. destruct 1; cbn; by rewrite length_insert. Qed.

(** Every step consumes one of the statements owed. *)
Lemma pool_step_answers nqs (c c' : Pool) :
  pool_step c c' -> pool_answers nqs c.2 ->
  exists nqs',
    pool_answers nqs' c'.2
    /\ Datatypes.S (statements_left nqs') = statements_left nqs
    /\ snd <$> nqs' = snd <$> nqs.
Proof. destruct 1; intros Hps; by eapply pool_answers_await. Qed.

(** Along a schedule the requests go on owing the same values, within
    no more statements. *)
Lemma pool_steps_answers nqs (c c' : Pool) :
  rtc pool_step c c' -> pool_answers nqs c.2 ->
  exists nqs',
    pool_answers nqs' c'.2
    /\ (statements_left nqs' <= statements_left nqs)%nat
    /\ snd <$> nqs' = snd <$> nqs.
Proof.
  intros Hsteps. revert nqs.
  induction Hsteps as [|c c1 c' Hstep _ IH]; intros nqs Hps; [by exists nqs|].
  destruct (pool_step_answers nqs c c1 Hstep Hps) as (nqs1 & Hps1 & Hn1 & HQ1).
  destruct (IH nqs1 Hps1) as (nqs' & Hps' & Hn' & HQ').
  exists nqs'. split_and!; [done|lia|congruence].
Qed.

(** No schedule is longer than the statements owed. *)
Lemma pool_nsteps_bound nqs n (c c' : Pool) :
  nsteps pool_step n c c' -> pool_answers nqs c.2 ->
  (n <= statements_left nqs)%nat.
Proof.
  intros Hsteps. revert nqs.
  induction Hsteps as [|n c c1 c' Hstep _ IH]; intros nqs Hps; [lia|].
  destruct (pool_step_answers nqs c c1 Hstep Hps) as (nqs' & Hps' & Hn & _).
  specialize (IH nqs' Hps'). lia.
Qed.

(** No schedule is infinite. *)
Lemma pool_sn nqs (c : Pool) : pool_answers nqs c.2 -> sn pool_step c.
Proof.
  intros Hps. apply (nsteps_bound_sn _ (statements_left nqs)).
  intros n c' Hsteps. by eapply pool_nsteps_bound.
Qed.

(** A request that is not at its end can take a step: its statement may
    always fail. *)
Lemma pool_red s ps i {R} (q : S -> option (R * S)) k :
  ps !! i = Some (Await q k) -> red pool_step (s, ps).
Proof. intros Hi. eexists. by eapply pool_reject. Qed.

(** When no step is left every request has returned what it owed. *)
Lemma pool_nf_finished nqs s ps :
  nf pool_step (s, ps) -> pool_answers nqs ps ->
  exists l, finished ps = Some l /\ Forall2 (fun nq a => nq.2 a) nqs l.
Proof.
  intros Hnf Hps. induction Hps as [|[n Q] p nqs ps Hp Hps IH].
  - by exists [].
  - destruct IH as (l & Hl & HQ).
    { intros [c' Hstep]. apply Hnf.
      inversion Hstep; subst; by eapply (pool_red _ _ (Datatypes.S i)). }
    destruct p as [a| |R q k].
    + exists (a :: l). unfold finished in *. cbn. rewrite Hl.
      by split; [|constructor].
    + done.
    + destruct Hnf. by eapply (pool_red _ _ 0%nat).
Qed.

(** What requests owe that each answer within [n] statements with a
    value their request decides. *)
Definition owed {X} (n : nat) (Q : X -> A -> Prop) (xs : list X)
  : list (nat * (A -> Prop)) :=
  (fun x => (n, Q x)) <$> xs.

Lemma owed_answers {X} n (Q : X -> A -> Prop) (f : X -> Prog S A) xs :
  (forall x, answers n (Q x) (f x)) -> pool_answers (owed n Q xs) (f <$> xs).
Proof.
  intros Hf. unfold pool_answers, owed.
  apply Forall2_fmap, Forall_Forall2_diag, Forall_forall. intros x _.
  apply Hf.
Qed.

Lemma statements_left_owed {X} n (Q : X -> A -> Prop) xs :
  statements_left (owed n Q xs) = (n * length xs)%nat.
Proof.
  unfold statements_left, owed. induction xs as [|x xs IH]; cbn in *; lia.
Qed.

Lemma owed_promised {X} n (Q : X -> A -> Prop) xs l :
  Forall2 (fun P a => P a) (snd <$> owed n Q xs) l -> Forall2 Q xs l.
Proof.
  unfold owed. rewrite <- list_fmap_compose. apply Forall2_fmap_l.
Qed.

(** Liveness of the requests in flight: every schedule ends, after no
    more steps than the statements owed, and at its end every request
    has returned a value it promised. *)
Theorem pool_drains nqs (c : Pool) :
  pool_answers nqs c.2 ->
  sn pool_step c
  /\ (forall n c', nsteps pool_step n c c' -> (n <= statements_left nqs)%nat)
  /\ (forall c', rtc pool_step c c' -> nf pool_step c' ->
        exists l, finished c'.2 = Some l
                  /\ Forall2 (fun Q a => Q a) (snd <$> nqs) l).
Proof.
  intros Hps. split_and!.
  - by eapply pool_sn.
  - intros n c' Hsteps. by eapply pool_nsteps_bound.
  - intros [s ps] Hsteps Hnf.
    destruct (pool_steps_answers nqs _ _ Hsteps Hps) as (nqs' & Hps' & _ & HQ).
    destruct (pool_nf_finished nqs' s ps Hnf Hps') as (l & Hl & Hl').
    exists l. split; [done|]. rewrite <- HQ. by apply Forall2_fmap_l.
Qed.

(** ** Serial schedules *)

(** A request runs from its first statement to its end, with no
    statement of another request in between. *)
Inductive serial_step : Pool -> Pool -> Prop :=
| serial_run {R} i (q : S -> option (R * S)) k fs a w' s ps :
    ps !! i = Some (Await q k) ->
    run (Await q k) (mkWorld s fs) = (Some a, w') ->
    serial_step (s, ps) (w_store w', <[i := Ret a]> ps).

(** A request of one statement at most, that answers whatever the store
    does. *)
Definition single (p : Prog S A) : Prop := answers 1 (fun _ => True) p.

(** Requests that run one after the other are one of the schedules. *)
Lemma serial_step_pool c c' : serial_step c c' -> rtc pool_step c c'.
Proof.
  destruct 1 as [R i q k fs a w' s ps Hi Hrun].
  by apply (run_pool_steps (Await q k) i ps (mkWorld s fs) a w').
Qed.

Lemma serial_steps_pool c c' : rtc serial_step c c' -> rtc pool_step c c'.
Proof.
  induction 1 as [|c c1 c2 Hstep _ IH]; [done|].
  etrans; [by apply serial_step_pool|done].
Qed.

Lemma single_await {R} (q : S -> option (R * S)) k o :
  single (Await q k) -> exists a, k o = Ret a.
Proof. intros Hk. specialize (Hk o). destruct (k o); by eauto. Qed.

(** The statement of a request of one statement is its whole run. *)
Lemma pool_step_serial s ps c' :
  Forall single ps -> pool_step (s, ps) c' ->
  serial_step (s, ps) c' /\ Forall single c'.2.
Proof.
  intros Hps Hstep.
  inversion Hstep as [R i q k ? ? r s' Hi Hq|R i q k ? ? Hi]; subst;
    pose proof (Forall_lookup_1 _ _ _ _ Hps Hi) as Hsingle.
  - destruct (single_await q k (Resolved r) Hsingle) as [a Ha].
    rewrite Ha. split; [|by apply Forall_insert].
    apply (serial_run i q k [] a (mkWorld s' [])); [done|].
    cbn. unfold exec_query. cbn. by rewrite Hq, Ha.
  - destruct (single_await q k Rejected Hsingle) as [a Ha].
    rewrite Ha. split; [|by apply Forall_insert].
    apply (serial_run i q k [true] a (mkWorld s [])); [done|].
    cbn. by rewrite Ha.
Qed.

(** Requests of one statement are serializable: their schedules are the
    orders in which the requests can run one after the other. *)
Theorem pool_serializable (c c' : Pool) :
  Forall single c.2 -> rtc pool_step c c' <-> rtc serial_step c c'.
Proof.
  intros Hps. split; [|apply serial_steps_pool].
  intros Hsteps. induction Hsteps as [|[s ps] c1 c2 Hstep _ IH]; [done|].
  destruct (pool_step_serial s ps c1 Hps Hstep) as [Hserial Hps1].
  eapply rtc_l; [done|]. by apply IH.
Qed.

End pool.

(** ** The registration race *)

Section race.
Context {driver : Driver} {collation : Collation} {bcrypt : Bcrypt}.

(** C13. Two registrations with one email that no user has, in flight
    together: a schedule answers both with 201 and leaves two users with
    that email. *)
Theorem register_race salt1 salt2 n e pw p bt a db :
  n <> "" -> e <> "" -> pw <> "" -> p <> "" -> bt <> "" -> a <> "" ->
  users_by_email e db = [] ->
  exists db' r1 r2,
    rtc pool_step
      (db, [register salt1 (JsStr n) (JsStr e) (JsStr pw) (JsStr p) (JsStr bt)
              (JsStr a);
            register salt2 (JsStr n) (JsStr e) (JsStr pw) (JsStr p) (JsStr bt)
              (JsStr a)])
      (db', [Ret r1; Ret r2])
    /\ res_status r1 = 201 /\ res_status r2 = 201
    /\ length (users_by_email e db') = 2%nat.
Proof.
  intros Hn He Hpw Hp Hbt Ha Hfree. unfold register.
  rewrite register_guard, register_complete_strs by done. cbn [negb].
  assert (select_id_by_email (JsStr e) db = Some ([], db)) as Hsel.
  { unfold select_id_by_email. by rewrite bind_text_str; cbn; rewrite Hfree. }
  eexists _, _, _. split.
  - eapply rtc_l; [by eapply (pool_resolve 0)|]. cbn.
    eapply rtc_l; [by eapply (pool_resolve 1)|]. cbn.
    eapply rtc_l.
    { eapply (pool_resolve 0); [done|]. unfold insert_user.
      by rewrite !bind_text_str. }
    cbn. eapply rtc_l.
    { eapply (pool_resolve 1); [done|]. unfold insert_user.
      by rewrite !bind_text_str. }
    cbn. apply rtc_refl.
  - split; [done|]. split; [done|].
    rewrite !(users_by_email_append e _ _ _ _ eq_refl), Hfree.
    cbn [u_email]. by rewrite collates_equal_refl.
Qed.

(** Run one after the other, the same two registrations leave one user
    with that email: the second is answered 400. *)
Theorem register_twice salt1 salt2 n e pw p bt a w :
  n <> "" -> e <> "" -> pw <> "" -> p <> "" -> bt <> "" -> a <> "" ->
  calm 3 (w_faults w) = true -> users_by_email e (w_store w) = [] ->
  let reg salt := register salt (JsStr n) (JsStr e) (JsStr pw) (JsStr p)
                    (JsStr bt) (JsStr a) in
  let w1 := (run (reg salt1) w).2 in
  res_status <$> (run (reg salt1) w).1 = Some 201
  /\ res_status <$> (run (reg salt2) w1).1 = Some 400
  /\ length (users_by_email e (w_store (run (reg salt2) w1).2)) = 1%nat.
Proof.
  intros Hn He Hpw Hp Hbt Ha [Hf [Hf' [Hf'' _]%calm_S]%calm_S]%calm_S Hfree.
  cbv beta zeta. rewrite run_register, Hfree, Hf' by done. split; [done|].
  cbn [snd]. rewrite run_register by done. cbn [w_store].
  rewrite (users_by_email_append e _ _ _ _ eq_refl), Hfree.
  cbn [registered_user u_email]. rewrite collates_equal_refl. cbn [app].
  split; [done|]. cbn [snd advance w_store].
  rewrite (users_by_email_append e _ _ _ _ eq_refl), Hfree.
  cbn [u_email]. by rewrite collates_equal_refl.
Qed.

End race.

(** ** Concrete runs *)

Lemma register_race_witness :
  exists db' r1 r2,
    rtc pool_step
      (sample_db,
       [register "s1" (JsStr "Budi") (JsStr "budi@example.org")
          (JsStr "rahasia") (JsStr "0814") (JsStr "O+") (JsStr "Depok");
        register "s2" (JsStr "Budi") (JsStr "budi@example.org")
          (JsStr "rahasia") (JsStr "0814") (JsStr "O+") (JsStr "Depok")])
      (db', [Ret r1; Ret r2])
    /\ res_status r1 = 201 /\ res_status r2 = 201
    /\ length (users_by_email "budi@example.org" db') = 2%nat.
Proof.
  apply (register_race "s1" "s2" "Budi" "budi@example.org" "rahasia" "0814"
           "O+" "Depok" sample_db); done.
Defined.
