(* ===== verification/Connections.v ===== *)
(** * Connections: the connection pool of config/database.js

    config/database.js builds one pool for the process, with at most ten
    connections, callers that wait when all ten are in use and a queue
    without limit, tests it once at start-up, and exports its promise
    interface: every [db.query] of a handler takes a connection from the
    pool, runs its statement on it and gives the connection back.

    This file holds the options ([pool_options]), the pool as the counts
    of its open and idle connections and the queue of its waiting callers
    ([getConnection], [release]), the start-up test ([startup]) and the
    requests in flight when their statements go through the pool
    ([pooled_step]).  Its theorems: with the options of the file the pool
    refuses no caller; never more than ten statements run at once; a
    schedule through the pool is a schedule of [pool_step], so what holds
    of every interleaving holds of the pooled ones; and no state is stuck
    while a request has a statement to issue. *)

From Stdlib Require Import ZArith Lia.
From stdpp Require Import base tactics option list strings gmap relations.
From S2P Require Import Prelude Outcomes Interleaving.

(** ** The options *)

(** The options [mysql.createPool] is given. *)
Record PoolOptions : Type := mkPoolOptions {
  po_host : JsVal;
  po_user : JsVal;
  po_password : JsVal;
  po_database : JsVal;
  po_port : JsVal;
  po_waitForConnections : bool;
  po_connectionLimit : nat;
  po_queueLimit : nat
}.

(** [process.env.X]: a string, or [undefined]. *)
Definition env_var (env : string -> option string) (x : string) : JsVal :=
  from_option JsStr JsUndefined (env x).

Definition pool_options (env : string -> option string) : PoolOptions :=
  mkPoolOptions
    (js_or (env_var env "DB_HOST") (JsStr "localhost"))
    (js_or (env_var env "DB_USER") (JsStr "root"))
    (js_or (env_var env "DB_PASSWORD") (JsStr ""))
    (js_or (env_var env "DB_NAME") (JsStr "donor_darah_db"))
    (js_or (env_var env "DB_PORT") (JsNum 3306))
    true 10 0.

(** ** The pool *)

(** The connections the pool has opened, those of them that are idle,
    and the callers that wait for one, oldest first. *)
Record Conns (T : Type) : Type := mkConns {
  cn_open : nat;
  cn_free : nat;
  cn_queue : list T
}.
Arguments mkConns {T} _ _ _.
Arguments cn_open {T} _.
Arguments cn_free {T} _.
Arguments cn_queue {T} _.

Definition createPool {T} : Conns T := mkConns 0 0 [].

(** What the pool answers a caller at once: a connection, a place in the
    queue, or an error. *)
Inductive Acquire : Type :=
| Connected
| Enqueued
| Refused (message : string).

#[export] Instance Acquire_eq_dec : EqDecision Acquire.
Proof. solve_decision. Defined.

(** [pool.getConnection(cb)]: an idle connection if there is one; a new
    one while the limit allows it (0 is no limit), which fails when the
    store cannot be reached ([up] is false); otherwise an error when
    callers do not wait or the queue is full (0 is no limit), and a place
    at the end of the queue when they do. *)
Definition getConnection {T} (o : PoolOptions) (up : bool) (cb : T)
    (c : Conns T) : Acquire * Conns T :=
  if (0 <? cn_free c)%nat then
    (Connected, mkConns (cn_open c) (pred (cn_free c)) (cn_queue c))
  else if (po_connectionLimit o =? 0)%nat
          || (cn_open c <? po_connectionLimit o)%nat then
    if up then (Connected, mkConns (S (cn_open c)) (cn_free c) (cn_queue c))
    else (Refused "connect ECONNREFUSED", c)
  else if negb (po_waitForConnections o) then
    (Refused "No connections available.", c)
  else if negb (po_queueLimit o =? 0)%nat
          && (po_queueLimit o <=? length (cn_queue c))%nat then
    (Refused "Queue limit reached.", c)
  else (Enqueued, mkConns (cn_open c) (cn_free c) (cn_queue c ++ [cb])).

(** [connection.release()]: the connection goes to the oldest waiting
    caller, and is idle when there is none. *)
Definition release {T} (c : Conns T) : option T * Conns T :=
  match cn_queue c with
  | cb :: queue => (Some cb, mkConns (cn_open c) (cn_free c) queue)
  | [] => (None, mkConns (cn_open c) (S (cn_free c)) [])
  end.

(** The test at start-up: take a connection and give it back; an error is
    logged and the process goes on.  The boolean is which of the two
    messages is logged. *)
Definition startup {T} (o : PoolOptions) (up : bool) (cb : T) (c : Conns T)
  : bool * Conns T :=
  match getConnection o up cb c with
  | (Connected, c') => (true, (release c').2)
  | (_, c') => (false, c')
  end.

(** The comparisons of the pool, as propositions. *)
Ltac pool_arith :=
  repeat match goal with
         | H : context [@eq bool _ _] |- _ =>
             progress rewrite ?orb_true_iff, ?orb_false_iff, ?andb_true_iff,
               ?andb_false_iff, ?negb_true_iff, ?negb_false_iff, ?Nat.ltb_lt,
               ?Nat.ltb_ge, ?Nat.leb_le, ?Nat.leb_gt, ?Nat.eqb_eq,
               ?Nat.eqb_neq in H
         end.

(** ** Requests in flight through the pool *)

Section pooled.
Context {St A : Type} (o : PoolOptions).

(** The pool, the requests whose statement runs on a connection, and the
    store with the requests in flight.  A waiting caller is the position
    of its request. *)
Record Pooled : Type := mkPooled {
  pd_conns : Conns nat;
  pd_holding : gset nat;
  pd_pool : Pool (S := St) (A := A)
}.

(** The state after the request at [i] has given its connection back. *)
Definition released (i : nat) (c : Conns nat) (hs : gset nat)
    (p : Pool (S := St) (A := A)) : Pooled :=
  mkPooled (release c).2
    (from_option singleton ∅ (release c).1 ∪ hs ∖ {[i]}) p.

(** [promisePool.query]: the request at its next statement asks for a
    connection and gets one, waits, or is refused and sees its promise
    rejected; the statement of a request that holds a connection reaches
    the store and is answered, or fails, and the connection is given
    back. *)
Inductive pooled_step : Pooled -> Pooled -> Prop :=
| pooled_connect {R} i (q : St -> option (R * St)) k up c c' hs s ps :
    ps !! i = Some (Await q k) -> i ∉ hs -> i ∉ cn_queue c ->
    getConnection o up i c = (Connected, c') ->
    pooled_step (mkPooled c hs (s, ps)) (mkPooled c' ({[i]} ∪ hs) (s, ps))
| pooled_enqueue {R} i (q : St -> option (R * St)) k up c c' hs s ps :
    ps !! i = Some (Await q k) -> i ∉ hs -> i ∉ cn_queue c ->
    getConnection o up i c = (Enqueued, c') ->
    pooled_step (mkPooled c hs (s, ps)) (mkPooled c' hs (s, ps))
| pooled_refuse {R} i (q : St -> option (R * St)) k up message c c' hs s ps :
    ps !! i = Some (Await q k) -> i ∉ hs -> i ∉ cn_queue c ->
    getConnection o up i c = (Refused message, c') ->
    pooled_step (mkPooled c hs (s, ps))
      (mkPooled c' hs (s, <[i := k Rejected]> ps))
| pooled_resolve {R} i (q : St -> option (R * St)) k c hs s ps r s' :
    ps !! i = Some (Await q k) -> i ∈ hs -> q s = Some (r, s') ->
    pooled_step (mkPooled c hs (s, ps))
      (released i c hs (s', <[i := k (Resolved r)]> ps))
| pooled_reject {R} i (q : St -> option (R * St)) k c hs s ps :
    ps !! i = Some (Await q k) -> i ∈ hs ->
    pooled_step (mkPooled c hs (s, ps))
      (released i c hs (s, <[i := k Rejected]> ps)).

(** The request at [i] is at a statement. *)
Definition awaiting (ps : list (Prog St A)) (i : nat) : Prop :=
  exists R (q : St -> option (R * St)) k, ps !! i = Some (Await q k).

(** The pool accounts for its connections: every open connection is idle
    or held by one request, no more are open than the limit allows,
    callers wait only while every connection the limit allows is held,
    and the requests that wait or hold a connection are at a
    statement. *)
Record conns_inv (x : Pooled) : Prop := mkConnsInv {
  inv_open : (cn_free (pd_conns x) + size (pd_holding x)
              = cn_open (pd_conns x))%nat;
  inv_limit : po_connectionLimit o <> 0%nat ->
              (cn_open (pd_conns x) <= po_connectionLimit o)%nat;
  inv_busy : cn_queue (pd_conns x) <> [] ->
             cn_free (pd_conns x) = 0%nat
             /\ cn_open (pd_conns x) = po_connectionLimit o
             /\ po_connectionLimit o <> 0%nat;
  inv_queue : NoDup (cn_queue (pd_conns x));
  inv_apart : forall i, i ∈ cn_queue (pd_conns x) -> i ∉ pd_holding x;
  inv_await : forall i, i ∈ cn_queue (pd_conns x) \/ i ∈ pd_holding x ->
              awaiting (pd_pool x).2 i
}.

(** ** What the pool answers *)

Lemma getConnection_connected {T} up (cb : T) c c' :
  getConnection o up cb c = (Connected, c') ->
  cn_queue c' = cn_queue c
  /\ ((0 < cn_free c /\ cn_open c' = cn_open c
       /\ cn_free c' = pred (cn_free c))
      \/ (cn_free c = 0 /\ cn_open c' = S (cn_open c) /\ cn_free c' = 0
          /\ (po_connectionLimit o = 0
              \/ cn_open c < po_connectionLimit o)))%nat.
Proof.
  unfold getConnection. repeat case_match; intros; simplify_eq; cbn;
    (split; [done|]); pool_arith; intuition lia.
Qed.

Lemma getConnection_enqueued {T} up (cb : T) c c' :
  getConnection o up cb c = (Enqueued, c') ->
  c' = mkConns (cn_open c) (cn_free c) (cn_queue c ++ [cb])
  /\ (cn_free c = 0 /\ po_connectionLimit o <> 0
      /\ po_connectionLimit o <= cn_open c)%nat
  /\ po_waitForConnections o = true.
Proof.
  unfold getConnection. repeat case_match; intros; simplify_eq;
    pool_arith; (split; [done|]).
  split; [lia|]. by destruct (po_waitForConnections o).
Qed.

Lemma getConnection_refused {T} up (cb : T) c message c' :
  getConnection o up cb c = (Refused message, c') ->
  c' = c
  /\ (up = false \/ po_waitForConnections o = false
      \/ (po_queueLimit o <> 0
          /\ po_queueLimit o <= length (cn_queue c))%nat).
Proof.
  unfold getConnection. repeat case_match; intros; simplify_eq;
    (split; [done|]); pool_arith; first [by left | right].
  - left. by destruct (po_waitForConnections o).
  - right. lia.
Qed.

(** ** The invariant *)

Lemma awaiting_insert_ne ps i j (p : Prog St A) :
  j <> i -> awaiting ps j -> awaiting (<[i := p]> ps) j.
Proof.
  intros Hne (R & q & k & Hj). exists R, q, k.
  by rewrite list_lookup_insert_ne.
Qed.

Lemma createPool_inv s ps : conns_inv (mkPooled createPool ∅ (s, ps)).
Proof.
  split; cbn; try done; try lia.
  - constructor.
  - intros i. rewrite elem_of_nil. set_solver.
Qed.

Lemma size_remove (hs : gset nat) i :
  i ∈ hs -> size hs = S (size (hs ∖ {[i]})).
Proof.
  intros Hi. rewrite (union_difference_L {[i]} hs) at 1 by set_solver.
  by rewrite size_union, size_singleton by set_solver.
Qed.

(** A request that gives its connection back leaves the pool in order,
    whatever it does next. *)
Lemma released_inv i c hs s ps s' (p : Prog St A) :
  conns_inv (mkPooled c hs (s, ps)) -> i ∈ hs ->
  conns_inv (released i c hs (s', <[i := p]> ps)).
Proof.
  intros [Hopen Hlimit Hbusy Hqueue Hapart Hawait] Hi. cbn in *.
  pose proof (size_remove hs i Hi) as Hsize.
  unfold released, release. destruct (cn_queue c) as [|j queue] eqn:Hq.
  - split; cbn; rewrite ?(left_id_L ∅ (∪)); try done; try lia.
    + by intros j ?%elem_of_nil.
    + intros j [[]%elem_of_nil|Hj]. apply awaiting_insert_ne; [set_solver|].
      apply Hawait. set_solver.
  - apply NoDup_cons in Hqueue as [Hj Hqueue].
    pose proof (Hapart j (list_elem_of_here _ _)) as Hjh.
    split; cbn; try done.
    + rewrite size_union, size_singleton by set_solver. lia.
    + intros Hne. by apply Hbusy.
    + intros j' Hj'. pose proof (Hapart j' (list_elem_of_further _ _ _ Hj')).
      set_solver.
    + intros j' Hj'. apply awaiting_insert_ne.
      * destruct Hj' as [Hj'|Hj']; [|set_solver].
        pose proof (Hapart j' (list_elem_of_further _ _ _ Hj')). set_solver.
      * apply Hawait. rewrite elem_of_cons. set_solver.
Qed.

(** Every step keeps the invariant. *)
Lemma pooled_step_inv x y : pooled_step x y -> conns_inv x -> conns_inv y.
Proof.
  destruct 1 as [R i q k up c c' hs s ps Hi Hh Hw Hget
                |R i q k up c c' hs s ps Hi Hh Hw Hget
                |R i q k up message c c' hs s ps Hi Hh Hw Hget
                |R i q k c hs s ps r s' Hi Hh Hq
                |R i q k c hs s ps Hi Hh];
    try (by intros; eapply released_inv).
  - intros [Hopen Hlimit Hbusy Hqueue Hapart Hawait]. cbn in *.
    apply getConnection_connected in Hget as [Hq Hc].
    split; cbn; rewrite ?Hq, ?size_union, ?size_singleton by set_solver;
      try done.
    + lia.
    + intros Hne. specialize (Hlimit Hne). lia.
    + intros Hne. specialize (Hbusy Hne). lia.
    + intros j Hj. specialize (Hapart j Hj). set_solver.
    + intros j [Hj|[->%elem_of_singleton|Hj]%elem_of_union]; eauto.
      by exists R, q, k.
  - intros [Hopen Hlimit Hbusy Hqueue Hapart Hawait]. cbn in *.
    apply getConnection_enqueued in Hget as (-> & Hc & _).
    split; cbn; try done.
    + intros _. specialize (Hlimit (proj1 (proj2 Hc))). lia.
    + apply NoDup_app. split_and!; [done| |apply NoDup_singleton].
      intros j Hj ->%list_elem_of_singleton. done.
    + intros j [Hj| ->%list_elem_of_singleton]%elem_of_app; eauto.
    + intros j [[Hj| ->%list_elem_of_singleton]%elem_of_app|Hj]; eauto.
      by exists R, q, k.
  - intros [Hopen Hlimit Hbusy Hqueue Hapart Hawait]. cbn in *.
    apply getConnection_refused in Hget as [-> _].
    split; cbn; try done.
    intros j Hj. apply awaiting_insert_ne; [|by apply Hawait].
    intros ->. destruct Hj; done.
Qed.

(** A request that arrives leaves the pool as it is. *)
Lemma conns_inv_arrive c hs s ps (p : Prog St A) :
  conns_inv (mkPooled c hs (s, ps)) ->
  conns_inv (mkPooled c hs (s, ps ++ [p])).
Proof.
  intros [Hopen Hlimit Hbusy Hqueue Hapart Hawait]. split; try done.
  intros i Hi. destruct (Hawait i Hi) as (R & q & k & Hq).
  exists R, q, k. cbn. by apply lookup_app_l_Some.
Qed.

(** The statements that run are no more than the limit, and callers
    wait only while as many run. *)
Lemma conns_inv_limit x :
  conns_inv x -> po_connectionLimit o <> 0 ->
  size (pd_holding x) <= po_connectionLimit o
  /\ (cn_queue (pd_conns x) <> [] ->
      size (pd_holding x) = po_connectionLimit o).
Proof.
  intros [Hopen Hlimit Hbusy _ _ _] Hne. specialize (Hlimit Hne).
  split; [lia|]. intros Hq. destruct (Hbusy Hq) as (? & ? & _). lia.
Qed.

Lemma pooled_steps_inv x y :
  rtc pooled_step x y -> conns_inv x -> conns_inv y.
Proof. induction 1; eauto using pooled_step_inv. Qed.

(** ** Pooled schedules are schedules *)

Lemma pooled_step_pool x y :
  pooled_step x y -> pd_pool y = pd_pool x \/ pool_step (pd_pool x) (pd_pool y).
Proof.
  destruct 1; cbn; [by left|by left|right..].
  - by eapply pool_reject.
  - by eapply pool_resolve.
  - by eapply pool_reject.
Qed.

(** Refinement.  What the requests and the store go through in a
    schedule through the pool is a schedule of [pool_step]: the pool
    delays statements and fails some, and does nothing else to them. *)
Theorem pooled_refines x y :
  rtc pooled_step x y -> rtc pool_step (pd_pool x) (pd_pool y).
Proof.
  induction 1 as [|x y z Hstep _ IH]; [done|].
  destruct (pooled_step_pool x y Hstep) as [Heq|Hpool];
    [by rewrite <- Heq | by eapply rtc_l].
Qed.

(** What every statement keeps, every step through the pool keeps. *)
Lemma pooled_step_safe (I : St -> Prop) x y :
  pooled_step x y ->
  I (pd_pool x).1 /\ Forall (safe_prog I) (pd_pool x).2 ->
  I (pd_pool y).1 /\ Forall (safe_prog I) (pd_pool y).2.
Proof.
  intros [->|Hstep]%pooled_step_pool; [done|].
  destruct (pd_pool x), (pd_pool y). by apply pool_step_safe.
Qed.

Lemma pooled_steps_safe (I : St -> Prop) x y :
  rtc pooled_step x y ->
  I (pd_pool x).1 /\ Forall (safe_prog I) (pd_pool x).2 ->
  I (pd_pool y).1 /\ Forall (safe_prog I) (pd_pool y).2.
Proof. intros Hsteps. by apply pool_steps_safe, pooled_refines. Qed.

(** ** No state is stuck *)

(** While a request is at a statement a step is possible: a statement
    that runs may end, and when none runs, no caller is waiting and the
    request may ask. *)
Theorem pooled_progress x i :
  conns_inv x -> awaiting (pd_pool x).2 i -> red pooled_step x.
Proof.
  destruct x as [c hs [s ps]].
  intros [Hopen Hlimit Hbusy Hqueue Hapart Hawait] (R & q & k & Hi). cbn in *.
  destruct (decide (hs = ∅)) as [->|[j Hj]%set_choose_L].
  - rewrite size_empty in Hopen.
    assert (cn_queue c = []) as Hq.
    { destruct (cn_queue c) eqn:E; [done|]. destruct Hbusy; [done|]. lia. }
    destruct (getConnection o true i c) as [[| |message] c'] eqn:Hget;
      eexists; [eapply pooled_connect|eapply pooled_enqueue
               |eapply pooled_refuse]; rewrite ?Hq; try done;
      by apply not_elem_of_nil.
  - destruct (Hawait j (or_intror Hj)) as (R' & q' & k' & Hj').
    eexists. by eapply pooled_reject.
Qed.

(** ** Every schedule through the pool ends *)

(** The requests that hold a connection or wait for one. *)
Definition engaged (x : Pooled) : nat :=
  size (pd_holding x) + length (cn_queue (pd_conns x)).

(** Indices that each owe a statement owe as many together. *)
Lemma size_le_sum_list (W : gset nat) (l : list nat) :
  (forall i, i ∈ W -> exists n, l !! i = Some (S n)) -> size W <= sum_list l.
Proof.
  revert l. induction W as [|i W Hi IH] using set_ind_L; intros l Hl.
  { rewrite size_empty. lia. }
  rewrite size_union, size_singleton by set_solver.
  destruct (Hl i) as [n Hn]; [set_solver|].
  rewrite <- (sum_list_insert_S l i n Hn).
  enough (size W <= sum_list (<[i := n]> l)) by lia.
  apply IH. intros j Hj. destruct (Hl j) as [m Hm]; [set_solver|].
  exists m. rewrite list_lookup_insert_ne; [done|set_solver].
Qed.

(** A request that holds a connection or waits for one owes the
    statement it is at. *)
Lemma engaged_le_owed nqs x :
  conns_inv x -> pool_answers nqs (pd_pool x).2 ->
  engaged x <= statements_left nqs.
Proof.
  intros [_ _ _ Hqueue Hapart Hawait] Hps. unfold engaged.
  rewrite <- (size_list_to_set (C := gset nat) (cn_queue _)) by done.
  rewrite <- size_union by set_solver.
  apply size_le_sum_list. intros i Hi.
  destruct (Hawait i) as (R & q & k & Hi'); [set_solver|].
  destruct (Forall2_lookup_r _ _ _ _ _ Hps Hi') as ([[|n] Q] & Hnq & Hans);
    [done|].
  exists n. by rewrite list_lookup_fmap, Hnq.
Qed.

Lemma engaged_released i c hs p p' :
  conns_inv (mkPooled c hs p) -> i ∈ hs ->
  S (engaged (released i c hs p')) = engaged (mkPooled c hs p).
Proof.
  intros [_ _ _ _ Hapart _] Hi. cbn in *.
  unfold engaged, released, release. cbn. rewrite (size_remove hs i Hi).
  destruct (cn_queue c) as [|j queue]; cbn.
  - rewrite (left_id_L ∅ (∪)). lia.
  - pose proof (Hapart j (list_elem_of_here _ _)).
    rewrite size_union, size_singleton by set_solver. lia.
Qed.

(** Every step takes one of the two steps each statement owed allows:
    the request asks, and its statement ends. *)
Lemma pooled_step_owed nqs x y :
  pooled_step x y -> conns_inv x -> pool_answers nqs (pd_pool x).2 ->
  exists nqs',
    pool_answers nqs' (pd_pool y).2 /\ snd <$> nqs' = snd <$> nqs
    /\ 2 * statements_left nqs' + engaged x + 1
       <= 2 * statements_left nqs + engaged y.
Proof.
  destruct 1 as [R i q k up c c' hs s ps Hi Hh Hw Hget
                |R i q k up c c' hs s ps Hi Hh Hw Hget
                |R i q k up message c c' hs s ps Hi Hh Hw Hget
                |R i q k c hs s ps r s' Hi Hh Hq
                |R i q k c hs s ps Hi Hh]; intros Hinv Hps; cbn in Hps.
  - exists nqs. apply getConnection_connected in Hget as [Hq _].
    unfold engaged. cbn. rewrite Hq, size_union, size_singleton by set_solver.
    split_and!; [done..|lia].
  - exists nqs. apply getConnection_enqueued in Hget as (-> & _).
    unfold engaged. cbn. rewrite length_app. cbn. split_and!; [done..|lia].
  - destruct (pool_answers_await nqs ps i q k Rejected Hps Hi)
      as (nqs' & Hps' & Hn & HQ).
    apply getConnection_refused in Hget as [-> _].
    exists nqs'. unfold engaged. cbn. split_and!; [done..|lia].
  - destruct (pool_answers_await nqs ps i q k (Resolved r) Hps Hi)
      as (nqs' & Hps' & Hn & HQ).
    pose proof (engaged_released i c hs _
                  (s', <[i := k (Resolved r)]> ps) Hinv Hh).
    exists nqs'. split_and!; [done..|lia].
  - destruct (pool_answers_await nqs ps i q k Rejected Hps Hi)
      as (nqs' & Hps' & Hn & HQ).
    pose proof (engaged_released i c hs _
                  (s, <[i := k Rejected]> ps) Hinv Hh).
    exists nqs'. split_and!; [done..|lia].
Qed.

Lemma pooled_nsteps_owed nqs n x y :
  nsteps pooled_step n x y -> conns_inv x ->
  pool_answers nqs (pd_pool x).2 ->
  exists nqs',
    pool_answers nqs' (pd_pool y).2 /\ snd <$> nqs' = snd <$> nqs
    /\ conns_inv y
    /\ 2 * statements_left nqs' + engaged x + n
       <= 2 * statements_left nqs + engaged y.
Proof.
  intros Hsteps. revert nqs.
  induction Hsteps as [x|n x x1 y Hstep _ IH]; intros nqs Hinv Hps.
  { exists nqs. split_and!; [done..|lia]. }
  destruct (pooled_step_owed nqs x x1 Hstep Hinv Hps)
    as (nqs1 & Hps1 & HQ1 & Hn1).
  destruct (IH nqs1 (pooled_step_inv _ _ Hstep Hinv) Hps1)
    as (nqs' & Hps' & HQ' & Hinv' & Hn').
  exists nqs'. split_and!; [done|congruence|done|lia].
Qed.

(** When no step through the pool is left, no statement is left. *)
Lemma pooled_nf_pool x :
  conns_inv x -> nf pooled_step x -> nf pool_step (pd_pool x).
Proof.
  intros Hinv Hnf [c' Hstep]. apply Hnf.
  inversion Hstep as [R i q k s ps r s' Hi Hq Hx|R i q k s ps Hi Hx];
    apply (pooled_progress x i Hinv); rewrite <- Hx; by exists R, q, k.
Qed.

(** Liveness through the pool: every schedule ends, after at most two
    steps for each statement owed, and at its end every request has
    returned a value it promised: no caller waits for ever. *)
Theorem pooled_drains nqs x :
  conns_inv x -> pool_answers nqs (pd_pool x).2 ->
  sn pooled_step x
  /\ (forall n y, nsteps pooled_step n x y -> n <= 2 * statements_left nqs)
  /\ (forall y, rtc pooled_step x y -> nf pooled_step y ->
        exists l, finished (pd_pool y).2 = Some l
                  /\ Forall2 (fun Q a => Q a) (snd <$> nqs) l).
Proof.
  intros Hinv Hps.
  assert (forall n y, nsteps pooled_step n x y ->
                      n <= 2 * statements_left nqs) as Hbound.
  { intros n y Hsteps.
    destruct (pooled_nsteps_owed nqs n x y Hsteps Hinv Hps)
      as (nqs' & Hps' & _ & Hinv' & Hn).
    pose proof (engaged_le_owed nqs' y Hinv' Hps'). lia. }
  split_and!; [by eapply nsteps_bound_sn|done|].
  intros y [n Hsteps]%rtc_nsteps Hnf.
  destruct (pooled_nsteps_owed nqs n x y Hsteps Hinv Hps)
    as (nqs' & Hps' & HQ & Hinv' & _).
  destruct (pd_pool y) as [s ps] eqn:Hy.
  destruct (pool_nf_finished nqs' s ps) as (l & Hl & Hl'); [|done|].
  { rewrite <- Hy. by apply pooled_nf_pool. }
  exists l. split; [done|]. rewrite <- HQ. by apply Forall2_fmap_l.
Qed.

End pooled.

(** ** The pool of config/database.js *)

(** With the options of the file no caller is refused while the store
    can be reached: it gets a connection or a place in the queue. *)
Theorem pool_options_waits env {T} (cb : T) c :
  exists c', getConnection (pool_options env) true cb c = (Connected, c')
             \/ getConnection (pool_options env) true cb c = (Enqueued, c').
Proof.
  destruct (getConnection (pool_options env) true cb c) as [[| |m] c'] eqn:E;
    eauto.
  by apply getConnection_refused in E as [_ [?|[?|[? _]]]].
Qed.

(** Never more than ten statements run at once, and callers wait only
    while ten do. *)
Theorem pooled_at_most_ten {St A} env s (ps : list (Prog St A)) x :
  rtc (pooled_step (pool_options env)) (mkPooled createPool ∅ (s, ps)) x ->
  size (pd_holding x) <= 10
  /\ (cn_queue (pd_conns x) <> [] -> size (pd_holding x) = 10).
Proof.
  intros Hsteps. apply (conns_inv_limit (pool_options env)); [|done].
  apply (pooled_steps_inv _ _ _ Hsteps), createPool_inv.
Qed.

(** The callers that wait are served in the order they came: the caller
    at position [n] of the queue gets the connection of the release
    after [n] others. *)
Lemma release_fifo {T} n (cb : T) c :
  cn_queue c !! n = Some cb ->
  (release (Nat.iter n (fun c => (release c).2) c)).1 = Some cb.
Proof.
  revert c. induction n as [|n IH]; intros [op fr [|cb' queue]] Hn;
    try done.
  rewrite Nat.iter_succ_r. by apply IH.
Qed.

(** The test at start-up leaves one idle connection, which the first
    statement takes; when the store cannot be reached the test leaves the
    pool as it was created, and the process goes on. *)
Example startup_createPool env :
  startup (pool_options env) true () createPool = (true, mkConns 1 1 [])
  /\ getConnection (pool_options env) true () (mkConns 1 1 [])
     = (Connected, mkConns 1 0 [])
  /\ startup (pool_options env) false () createPool = (false, createPool).
Proof. done. Qed.

(** The environment decides the options only where it gives a value that
    is not empty. *)
Example pool_options_defaults :
  po_host (pool_options (fun _ => None)) = JsStr "localhost"
  /\ po_port (pool_options (fun _ => Some "")) = JsNum 3306
  /\ po_port (pool_options (fun _ => Some "3307")) = JsStr "3307".
Proof. done. Qed.
