(* ===== verification/Server.v ===== *)
(** * Server: server.js

    The application mounts the four routers under /api ([app]), answers
    GET / with a description of itself and every other request with 404.
    Requests arrive at any time and their statements interleave
    ([api_step]).  The theorems show that the invariant of the store
    (keys unique and below their counters, statuses in the taxonomy)
    holds in every state the application can reach, whatever requests
    arrive, however their statements interleave and whichever of them
    fail; that every request is answered, after at most three
    statements, with an envelope of its route; and that every schedule
    of the requests in flight ends with all of them answered.
    [app_routes] is the tactic that takes a request to its handler. *)

From Stdlib Require Import ZArith Lia.
From stdpp Require Import base tactics option list strings relations.
From S2P Require Import Prelude Outcomes Sorting Store Donations Stats.
From S2P Require Import BloodBanks.
From S2P Require Import Security Users Auth Interleaving.

#[local] Open Scope Z_scope.

(** ** The application *)

(** A request, by the router its path is mounted on. *)
Inductive ApiReq : Type :=
| ApiAuth (req : AuthReq)
| ApiUsers (req : UsersReq)
| ApiBloodBanks (req : BloodBanksReq)
| ApiDonations (req : DonationsReq)
| ApiRoot
| ApiOther.

Section app.
Context {driver : Driver} {collation : Collation} {bcrypt : Bcrypt} {jwt : Jwt}.

(** What [app.get('/')] answers: a description of the service, without a
    [success] field. *)
Definition root_info : Envelope :=
  mkEnvelope 200 None (Some "Donor Darah API") false ["version"; "endpoints"].

(** The final [app.use]: no route matched. *)
Definition not_found : Response unit := json_error 404 "Endpoint not found".

(** [app]: the routers under their prefixes, [app.get('/')] and the final
    [app.use] that answers 404. *)
Definition app (secret : option string) (req : ApiReq) : Prog Db Envelope :=
  match req with
  | ApiAuth req => auth_router secret req
  | ApiUsers req => users_router req
  | ApiBloodBanks req => blood_banks_router req
  | ApiDonations req => donations_router req
  | ApiRoot => mret root_info
  | ApiOther => mret (envelope not_found)
  end.

(** One step of the application: a request arrives, or a statement of a
    request in flight reaches the store. *)
Inductive api_step (secret : option string)
  : Pool (S := Db) (A := Envelope) -> Pool (S := Db) (A := Envelope) -> Prop :=
| api_arrive req db ps : api_step secret (db, ps) (db, ps ++ [app secret req])
| api_statement c c' : pool_step c c' -> api_step secret c c'.

(** ** The invariant *)

Lemma status_inv_independent : users_independent status_inv.
Proof.
  intros db db' (_ & _ & Hd & _) H. unfold status_inv. by rewrite Hd.
Qed.

(** Every statement of every route keeps the invariant of the store. *)
Lemma app_safe secret req : safe_prog donations_inv (app secret req).
Proof.
  destruct req; cbn [app].
  - apply auth_router_safe, status_inv_independent.
  - apply users_router_safe, status_inv_independent.
  - apply blood_banks_router_safe.
  - apply donations_router_safe.
  - done.
  - done.
Qed.

Lemma api_step_safe secret c c' :
  api_step secret c c' ->
  donations_inv c.1 /\ Forall (safe_prog donations_inv) c.2 ->
  donations_inv c'.1 /\ Forall (safe_prog donations_inv) c'.2.
Proof.
  destruct 1 as [req db ps|[s ps] [s' ps'] Hstep]; cbn.
  - intros [Hdb Hps]. split; [done|]. apply Forall_app. split; [done|].
    apply Forall_singleton, app_safe.
  - by apply pool_step_safe.
Qed.

Lemma api_steps_safe secret c c' :
  rtc (api_step secret) c c' ->
  donations_inv c.1 /\ Forall (safe_prog donations_inv) c.2 ->
  donations_inv c'.1 /\ Forall (safe_prog donations_inv) c'.2.
Proof.
  induction 1 as [|c c1 c2 Hstep _ IH]; [done|].
  intros H. by eapply IH, api_step_safe.
Qed.

(** From a well-formed store whose statuses are in the taxonomy and no
    request in flight, whatever requests arrive, however their statements
    interleave and whichever fail, the store stays well-formed with its
    statuses in the taxonomy. *)
Theorem api_inv_reachable secret db db' ps :
  donations_inv db -> rtc (api_step secret) (db, []) (db', ps) ->
  donations_inv db'.
Proof.
  intros Hdb Hsteps.
  by apply (api_steps_safe secret (db, []) (db', ps)) in Hsteps as [? _].
Qed.

(** ** Every request is answered *)

(** The statuses of each route. *)
Definition route_statuses (req : ApiReq) : list Z :=
  match req with
  | ApiAuth req => auth_statuses req
  | ApiUsers req => users_statuses req
  | ApiBloodBanks req => blood_banks_statuses req
  | ApiDonations req => donations_statuses req
  | ApiRoot => [200]
  | ApiOther => [404]
  end.

(** What the client of a request may receive: the description of the
    service from GET /, and from every other route a well-formed envelope
    whose status is one of the route's. *)
Definition api_envelope (req : ApiReq) (e : Envelope) : Prop :=
  match req with
  | ApiRoot => e = root_info
  | _ => typed (route_statuses req) e = true
  end.

(** No request issues more than three statements. *)
Definition statements_per_request : nat := 3.

Lemma app_typed secret req :
  answers statements_per_request (api_envelope req) (app secret req).
Proof.
  destruct req as [req|req|req|req| |]; cbn [app api_envelope route_statuses];
    [eapply answers_mono; [| |apply auth_router_typed]
    |apply users_router_typed
    |eapply answers_mono; [| |apply blood_banks_router_typed]
    |eapply answers_mono; [| |apply donations_router_typed]
    |..]; unfold statements_per_request; (lia || done).
Qed.

(** A request that runs alone is answered, after at most three
    statements, with the description of the service on GET / and
    otherwise with a well-formed envelope whose status is one of the
    route's: no exception escapes, whatever the store does. *)
Theorem app_answers secret req w :
  exists e,
    (run (app secret req) w).1 = Some e /\ api_envelope req e
    /\ (queries_issued (app secret req) w <= statements_per_request)%nat.
Proof. apply answers_run, app_typed. Qed.

(** C11. Every schedule ends.  Whatever requests are in flight, every
    schedule of their statements ends, after at most three steps per
    request, and at its end every request has been answered with an
    envelope of its route. *)
Theorem api_drains secret reqs db :
  let c := (db, app secret <$> reqs) in
  sn pool_step c
  /\ (forall n c', nsteps pool_step n c c' ->
        (n <= statements_per_request * length reqs)%nat)
  /\ (forall c', rtc pool_step c c' -> nf pool_step c' ->
        exists es, finished c'.2 = Some es /\ Forall2 api_envelope reqs es).
Proof.
  intros c.
  destruct (pool_drains (owed statements_per_request api_envelope reqs) c
              (owed_answers _ _ _ _ (app_typed secret)))
    as (Hsn & Hn & Hend).
  rewrite statements_left_owed in Hn. split_and!; [done..|].
  intros c' Hsteps Hnf. destruct (Hend c' Hsteps Hnf) as (es & Hes & HQ).
  exists es. split; [done|]. by eapply owed_promised.
Qed.

End app.

(** ** Automation *)

(** The routes of [req], each with the definition of its handler
    unfolded. *)
Ltac app_routes req :=
  destruct req as [[]|[]|[]|[]| |];
  cbn [app auth_router users_router blood_banks_router donations_router];
  unfold register, login, get_profile, put_profile, put_password,
    get_user_stats, get_blood_banks, get_blood_bank, get_blood_stock,
    get_donations_by_user, post_donation, put_donation_status, get_donation,
    delete_donation, bcrypt_compare, bcrypt_hash, jwt_sign.

(** ** A concrete run *)

(** A deletion arrives at [sample_db] and its statement is answered. *)
Lemma api_inv_reachable_witness :
  donations_inv
    (set_donations (sql_delete (fun d => dh_id d =? 1)) 4 sample_db).
Proof.
  apply (api_inv_reachable None sample_db _
           [Ret (envelope (json_msg (D := unit)
                             "Riwayat donor berhasil dihapus"))]);
    [exact sample_db_inv|].
  eapply rtc_l;
    [apply (api_arrive None (ApiDonations (DeleteDonation (JsStr "1"))))|].
  eapply rtc_l; [apply api_statement; by eapply (pool_resolve 0)|].
  apply rtc_refl.
Defined.
