(* ===== verification/Serial.v ===== *)
(** * Serial: which requests are serializable

    The statements of the requests in flight reach the store in any
    order ([Interleaving.pool_step]).  A request of one statement is
    its statement: the schedules of such requests are the orders in
    which they can run one after the other ([api_serializable]).  This
    covers every route of routes/donations.js, the list and the stock of
    routes/bloodBanks.js, the profile routes of routes/users.js and the
    login.  The three routes of more than one statement that read what
    other requests write are not serializable: the registration checks
    the email and inserts in two statements ([Interleaving.register_race]),
    the change of a password reads the digest and writes in two
    ([password_race]), and the statistics of a user are three SELECTs,
    which a completion in between tears apart ([stats_torn]): the count
    is of the store before it and the sum of the store after it. *)

From Stdlib Require Import ZArith Lia.
From stdpp Require Import base tactics option list strings relations gmap.
From S2P Require Import Prelude Outcomes Sorting Store Donations Stats.
From S2P Require Import BloodBanks Security Users Auth Roundtrips.
From S2P Require Import Interleaving Server.

#[local] Open Scope Z_scope.

(** ** Requests of one statement *)

(** The routes whose handler issues one statement at most. *)
Definition one_statement (req : ApiReq) : bool :=
  match req with
  | ApiAuth (Login _ _ _) => true
  | ApiAuth (Register _ _ _ _ _ _ _) => false
  | ApiUsers (GetProfile _) | ApiUsers (PutProfile _ _ _ _ _) => true
  | ApiUsers (PutPassword _ _ _ _) | ApiUsers (GetStats _) => false
  | ApiBloodBanks (GetBloodBank _) => false
  | ApiBloodBanks (ListBloodBanks _ _) | ApiBloodBanks (GetBloodStock _) => true
  | ApiDonations _ => true
  | ApiRoot | ApiOther => true
  end.

Section serial.
Context {driver : Driver} {collation : Collation} {bcrypt : Bcrypt} {jwt : Jwt}.

Lemma app_single secret req :
  one_statement req = true -> single (app secret req).
Proof.
  unfold single. intros Hone.
  app_routes req; try discriminate Hone; within_walk; done.
Qed.

(** C18. Requests of one statement are serializable: whatever requests of
    such routes are in flight, the states their statements can reach in
    any order are the states the requests reach when they run one after
    the other, in some order. *)
Theorem api_serializable secret reqs db c' :
  Forall (fun req => one_statement req = true) reqs ->
  rtc pool_step (db, app secret <$> reqs) c'
  <-> rtc serial_step (db, app secret <$> reqs) c'.
Proof.
  intros Hreqs. apply pool_serializable. cbn. apply Forall_fmap.
  eapply Forall_impl; [done|]. intros req. apply app_single.
Qed.

End serial.

(** ** The statistics are not *)

(** What a request in flight answers, when the requests of a pool answer
    with different types. *)
Definition answering {A B} (f : A -> B) (p : Prog Db A) : Prog Db B :=
  a ← p; mret (f a).

Section torn.
Context {driver : Driver}.

(** C29. A completion between the first and the second SELECT of the
    statistics: the handler counts the completed donations of the store
    before it and sums those of the store after it.  When the donation
    has a quantity, the answer is the statistics of neither store. *)
Theorem stats_torn key ukey id notes nt d db :
  (forall z, decode_decimal z = JsNum z) ->
  bind_int key = Some id -> bind_int ukey = Some (dh_user_id d) ->
  db_wf db -> bind_text_null notes = Some nt ->
  donation_map db !! id = Some d -> dh_status d <> "completed" ->
  let before := completed_donations (dh_user_id d) db in
  exists db' stats,
    rtc pool_step
      (db, [answering res_data (get_user_stats ukey);
            answering (fun _ => None)
              (put_donation_status key (JsStr "completed") notes)])
      (db', [Ret (Some stats); Ret None])
    /\ total_donations stats = JsNum (Z.of_nat (length before))
    /\ total_blood_donated stats
       = JsNum (total_quantity before + dh_quantity d)
    /\ (dh_quantity d <> 0 ->
        stats <> reported (dh_user_id d) db
        /\ stats <> reported (dh_user_id d) db').
Proof.
  intros Hdec Hk Hu Hwf Hn Hd Hst before.
  unfold get_user_stats, put_donation_status, answering.
  rewrite (proj2 (includes_validStatuses _))
    by (eexists; split; [done|by_decide]).
  bind_key Hk. bind_key Hu. cbn [negb].
  pose proof Hd as [Hin <-]%table_map_elem_of.
  destruct (completed_after_completion nt d _ (wf_donation_ids _ Hwf) Hin Hst)
    as [Hlen Hsum].
  eexists _, _. split.
  { eapply rtc_l; [by eapply (pool_resolve 0)|]. cbn.
    eapply rtc_l.
    { eapply (pool_resolve 1); [done|].
      by apply update_donation_status_bound. }
    cbn. eapply rtc_l; [by eapply (pool_resolve 0)|]. cbn.
    eapply rtc_l; [by eapply (pool_resolve 0)|]. cbn. apply rtc_refl. }
  cbn [total_donations total_blood_donated].
  rewrite count_completed_or, sum_completed_or, donated_number by apply Hdec.
  unfold completed_donations. cbn [set_donations donation_history].
  fold before. split_and!; [done|by rewrite Hsum|].
  intros Hq. unfold reported. rewrite !donated_number by apply Hdec.
  unfold completed_donations. cbn [set_donations donation_history].
  fold before. split; intros [= E1 E2]; lia.
Qed.

End torn.

(** ** Nor is the change of a password *)

Section stale.
Context {driver : Driver} {bcrypt : Bcrypt}.

(** Two changes of the password of one user, both with the password the
    user has: when both read the digest before either writes, both are
    answered 200 and the password is the one written last, although the
    old password of the other request no longer was the password when
    its UPDATE ran. *)
Theorem password_race salt1 salt2 key id old new1 new2 u db :
  bind_int key = Some id -> old <> "" -> new1 <> "" -> new2 <> "" ->
  user_map db !! id = Some u -> bcrypt_check old (u_password u) = true ->
  exists db',
    rtc pool_step
      (db, [put_password salt1 key (JsStr old) (JsStr new1);
            put_password salt2 key (JsStr old) (JsStr new2)])
      (db', [Ret (json_msg "Password berhasil diupdate");
             Ret (json_msg "Password berhasil diupdate")])
    /\ u_password <$> user_map db' !! id = Some (bcrypt_digest new2 salt2).
Proof.
  intros Hk Ho Hn1 Hn2 Hu Hold. unfold put_password. bind_key Hk.
  rewrite !(proj2 (truthy_str_iff _)) by done. cbn [negb orb].
  pose proof (head_select_password id db) as Hh. rewrite Hu in Hh.
  destruct (select_password id db) as [|pw rest] eqn:Hsel; simplify_eq/=.
  eexists. split.
  - eapply rtc_l; [by eapply (pool_resolve 0)|]. cbn. rewrite Hsel, Hold. cbn.
    eapply rtc_l; [by eapply (pool_resolve 1)|]. cbn. rewrite Hsel, Hold. cbn.
    eapply rtc_l; [by eapply (pool_resolve 0)|]. cbn.
    eapply rtc_l; [by eapply (pool_resolve 1)|]. cbn. apply rtc_refl.
  - unfold update_password, user_map. cbn [users set_users].
    rewrite !table_map_update, !lookup_alter_eq by done.
    fold (user_map db). by rewrite Hu.
Qed.

End stale.

(** ** A concrete run *)

(** A deletion and a reading of the stock in flight: the states their
    statements reach are those of the two orders of the requests. *)
Lemma api_serializable_witness :
  let reqs := [ApiDonations (DeleteDonation (JsStr "1"));
               ApiBloodBanks (GetBloodStock (JsStr "1"))] in
  let c' := (set_donations (sql_delete (fun d => dh_id d =? 1)) 4 sample_db,
             <[0%nat := Ret (envelope (json_msg (D := unit)
                                        "Riwayat donor berhasil dihapus"))]>
               (app None <$> reqs)) in
  rtc pool_step (sample_db, app None <$> reqs) c'
  <-> rtc serial_step (sample_db, app None <$> reqs) c'.
Proof.
  intros reqs c'. apply (api_serializable None reqs sample_db c').
  by repeat constructor.
Defined.

(** Donation 2 of [sample_db], 200 ml, is completed while the statistics
    of its user are read: two donations are counted, with the 650 ml of
    three. *)
Lemma stats_torn_witness :
  let before := completed_donations 1 sample_db in
  exists db' stats,
    rtc pool_step
      (sample_db,
       [answering res_data (get_user_stats (JsStr "1"));
        answering (fun _ => None)
          (put_donation_status (JsStr "2") (JsStr "completed") JsNull)])
      (db', [Ret (Some stats); Ret None])
    /\ total_donations stats = JsNum (Z.of_nat (length before))
    /\ total_blood_donated stats = JsNum (total_quantity before + 200)
    /\ (200 <> 0 ->
        stats <> reported 1 sample_db /\ stats <> reported 1 db').
Proof.
  exact (stats_torn (JsStr "2") (JsStr "1") 2 JsNull None
           (mkDonation 2 1 1 20240305 "A+" 200 "pending" None 30) sample_db
           (fun _ => eq_refl) eq_refl eq_refl sample_db_wf eq_refl eq_refl
           ltac:(done)).
Defined.

(** The user of [sample_db] changes the password twice at once: both
    requests are answered 200 and the second password stays. *)
Lemma password_race_witness :
  exists db',
    rtc pool_step
      (sample_db,
       [put_password "s1" (JsStr "1") (JsStr "hash") (JsStr "satu");
        put_password "s2" (JsStr "1") (JsStr "hash") (JsStr "dua")])
      (db', [Ret (json_msg "Password berhasil diupdate");
             Ret (json_msg "Password berhasil diupdate")])
    /\ u_password <$> user_map db' !! 1 = Some "dua".
Proof.
  refine (password_race "s1" "s2" (JsStr "1") 1 "hash" "satu" "dua" ani
            sample_db eq_refl _ _ _ eq_refl eq_refl); done.
Defined.
