(* ===== verification/Http.v ===== *)
(** * Http: the requests server.js receives and the routes that serve them

    server.js puts three middlewares before the routers ([cors()], and the
    JSON and URL-encoded body parsers), mounts the four routers under
    /api, answers GET / itself, and ends with an error middleware and a
    handler that answers 404.  Each router is a table of routes, tried in
    the order of registration: a method, a path whose segments are
    literals or parameters, and a handler that reads [req.params],
    [req.query] and [req.body].

    This file holds the tables ([auth_routes], [users_routes],
    [blood_banks_routes], [donations_routes]) with the matching of paths
    ([match_path], [find_route]), the classification of a request
    ([dispatch]), the whole chain ([serve]) and the server behind the
    connection pool ([pooled_server]).  Its theorems: the request a
    client writes for a route is served by the handler of that route with
    the parameters and fields it wrote (no route is shadowed by an
    earlier one), and a handler is reached only by the method and the
    path of its endpoint; the donation a client creates is the one it reads
    back; every request is answered; a request whose body the parser
    refuses is answered 500 by the error middleware; behind the pool the
    invariant of the store holds in every reachable state and every
    schedule ends with every request answered, from the start
    ([http_pooled_drains]) and from every state the server reaches
    ([http_owes], [http_owes_quiesces]).  [serve_app] carries what holds
    of every route over to the chain. *)

From Stdlib Require Import ZArith NArith Ascii Lia.
From stdpp Require Import base tactics option list strings relations gmap.
From S2P Require Import Prelude Outcomes Sorting Store Donations Stats.
From S2P Require Import BloodBanks Security Users Auth Interleaving.
From S2P Require Import Roundtrips Connections Server.

#[local] Open Scope Z_scope.

(** [const PORT = process.env.PORT || 3000]: the port [app.listen]
    is given. *)
Definition PORT (env : string -> option string) : JsVal :=
  js_or (env_var env "PORT") (JsNum 3000).

(** ** Requests *)

Inductive Method : Type := GET | POST | PUT | DELETE | PATCH | HEAD | OPTIONS.

#[export] Instance Method_eq_dec : EqDecision Method.
Proof. solve_decision. Defined.

(** [req.body] after the two parsers: the fields of the object they
    read (every field [undefined] when the request has no body they
    read), or the error a parser raised. *)
Inductive Body : Type :=
| Fields (field : string -> JsVal)
| Malformed (message : string).

(** A request: the method, the path split at its slashes, the query, the
    Authorization header, the body the parsers produce, and what the
    environment hands out while the request is served, the salt of
    [bcrypt.hash] and the time. *)
Record Request : Type := mkRequest {
  rq_method : Method;
  rq_path : list string;
  rq_query : string -> option string;
  rq_authorization : option string;
  rq_body : Body;
  rq_salt : string;
  rq_now : Z
}.

(** ** Paths *)

(** A segment of a route path: a literal, or [:name]. *)
Inductive Segment : Type :=
| Lit (s : string)
| Param (name : string).

Definition lower_ascii (c : ascii) : ascii :=
  let n := N_of_ascii c in
  if ((65 <=? n) && (n <=? 90))%N then ascii_of_N (n + 32) else c.

Fixpoint lower (s : string) : string :=
  match s with
  | EmptyString => EmptyString
  | String c s' => String (lower_ascii c) (lower s')
  end.

(** Literal segments match without regard to case. *)
Definition same_segment (a b : string) : bool :=
  String.eqb (lower a) (lower b).

(** The parameters a path binds when it matches a route path: a literal
    matches itself, a parameter any segment that is not empty, and one
    slash may follow the last segment. *)
Fixpoint match_path (pattern : list Segment) (path : list string)
  : option (list (string * string)) :=
  match pattern, path with
  | [], [] => Some []
  | [], [s] => if String.eqb s "" then Some [] else None
  | Lit l :: pattern', s :: path' =>
      if same_segment l s then match_path pattern' path' else None
  | Param x :: pattern', s :: path' =>
      if String.eqb s "" then None
      else cons (x, s) <$> match_path pattern' path'
  | _, _ => None
  end.

Fixpoint assoc {A} (k : string) (l : list (string * A)) : option A :=
  match l with
  | [] => None
  | (k', v) :: l' => if String.eqb k' k then Some v else assoc k l'
  end.

(** [req.params.x] *)
Definition param (ps : list (string * string)) (x : string) : JsVal :=
  match assoc x ps with
  | Some s => JsStr s
  | None => JsUndefined
  end.

(** The path below a mount point, when the path starts with it. *)
Fixpoint mounted (prefix path : list string) : option (list string) :=
  match prefix, path with
  | [], rest => Some rest
  | l :: prefix', s :: path' =>
      if same_segment l s then mounted prefix' path' else None
  | _ :: _, [] => None
  end.

(** ** Routes *)

(** [router.METHOD(path, handler)]: the handler reads the parameters, the
    query and the body. *)
Record Route (Req : Type) : Type := mkRoute {
  rt_method : Method;
  rt_path : list Segment;
  rt_handler :
    (string -> JsVal) -> (string -> option string) -> (string -> JsVal) -> Req
}.
Arguments mkRoute {Req} _ _ _.
Arguments rt_method {Req} _.
Arguments rt_path {Req} _.
Arguments rt_handler {Req} _.

(** A route registered for GET also serves HEAD. *)
Definition handles (registered requested : Method) : bool :=
  bool_decide (registered = requested)
  || bool_decide (registered = GET) && bool_decide (requested = HEAD).

(** The first route, in the order of registration, whose method and path
    match. *)
Fixpoint find_route {Req} (routes : list (Route Req)) (m : Method)
    (path : list string) (query : string -> option string)
    (body : string -> JsVal) : option Req :=
  match routes with
  | [] => None
  | r :: routes' =>
      match (if handles (rt_method r) m then match_path (rt_path r) path
             else None) with
      | Some ps => Some (rt_handler r (param ps) query body)
      | None => find_route routes' m path query body
      end
  end.

(** routes/auth.js *)
Definition auth_routes (salt : string) (now : Z) : list (Route AuthReq) :=
  [ mkRoute POST [Lit "register"]
      (fun _ _ b => Register salt (b "name") (b "email") (b "password")
                      (b "phone") (b "blood_type") (b "address"));
    mkRoute POST [Lit "login"]
      (fun _ _ b => Login now (b "email") (b "password")) ].

(** routes/users.js *)
Definition users_routes (salt : string) : list (Route UsersReq) :=
  [ mkRoute GET [Lit "profile"; Param "id"] (fun p _ _ => GetProfile (p "id"));
    mkRoute PUT [Lit "profile"; Param "id"]
      (fun p _ b => PutProfile (p "id") (b "name") (b "phone")
                      (b "blood_type") (b "address"));
    mkRoute PUT [Lit "password"; Param "id"]
      (fun p _ b => PutPassword salt (p "id") (b "old_password")
                      (b "new_password"));
    mkRoute GET [Lit "stats"; Param "id"] (fun p _ _ => GetStats (p "id")) ].

(** routes/bloodBanks.js *)
Definition blood_banks_routes : list (Route BloodBanksReq) :=
  [ mkRoute GET [] (fun _ q _ => ListBloodBanks (q "lat") (q "lng"));
    mkRoute GET [Param "id"] (fun p _ _ => GetBloodBank (p "id"));
    mkRoute GET [Param "id"; Lit "stock"]
      (fun p _ _ => GetBloodStock (p "id")) ].

(** routes/donations.js *)
Definition donations_routes : list (Route DonationsReq) :=
  [ mkRoute GET [Lit "user"; Param "userId"]
      (fun p _ _ => GetUserDonations (p "userId"));
    mkRoute POST []
      (fun _ _ b => PostDonation (b "user_id") (b "blood_bank_id")
                      (b "donation_date") (b "blood_type") (b "quantity")
                      (b "notes"));
    mkRoute PUT [Param "id"; Lit "status"]
      (fun p _ b => PutDonationStatus (p "id") (b "status") (b "notes"));
    mkRoute GET [Param "id"] (fun p _ _ => GetDonation (p "id"));
    mkRoute DELETE [Param "id"] (fun p _ _ => DeleteDonation (p "id")) ].

(** ** The application *)

(** [app.use(prefix, router)]: the routes of the router below the
    prefix. *)
Definition under {Req} (prefix : list string) (routes : list (Route Req))
    (rq : Request) (body : string -> JsVal) : option Req :=
  rest ← mounted prefix (rq_path rq);
  find_route routes (rq_method rq) rest (rq_query rq) body.

(** The route a request reaches: the routers in the order they are
    mounted, then [app.get('/')], then the handler of everything else. *)
Definition dispatch (rq : Request) (body : string -> JsVal) : ApiReq :=
  match under ["api"; "auth"] (auth_routes (rq_salt rq) (rq_now rq)) rq body,
        under ["api"; "users"] (users_routes (rq_salt rq)) rq body,
        under ["api"; "blood-banks"] blood_banks_routes rq body,
        under ["api"; "donations"] donations_routes rq body with
  | Some req, _, _, _ => ApiAuth req
  | None, Some req, _, _ => ApiUsers req
  | None, None, Some req, _ => ApiBloodBanks req
  | None, None, None, Some req => ApiDonations req
  | None, None, None, None =>
      if handles GET (rq_method rq) && bool_decide (rq_path rq = [])
      then ApiRoot else ApiOther
  end.

(** What [cors()] answers to a preflight request: 204 without a body. *)
Definition preflight : Envelope := mkEnvelope 204 None None false [].

(** What the error middleware answers: 500, with the message of the
    error in a field [error]. *)
Definition internal_error : Envelope :=
  mkEnvelope 500 (Some false) (Some "Internal server error") false ["error"].

(** The chain of server.js: [cors()] ends a preflight request, a body
    the parsers refuse goes to the error middleware, and every other
    request goes to its route. *)
Definition serve `{Driver, Collation, Bcrypt, Jwt} (secret : option string)
    (rq : Request) : Prog Db Envelope :=
  if bool_decide (rq_method rq = OPTIONS) then mret preflight
  else match rq_body rq with
       | Malformed _ => mret internal_error
       | Fields body => app secret (dispatch rq body)
       end.

(** What holds of every answer that is sent at once and of every route
    holds of the chain. *)
Lemma serve_app `{Driver, Collation, Bcrypt, Jwt}
    (P : Prog Db Envelope -> Prop) secret rq :
  (forall e, P (mret e)) -> (forall req, P (app secret req)) ->
  P (serve secret rq).
Proof.
  intros Hret Happ. unfold serve. case_bool_decide; [apply Hret|].
  destruct (rq_body rq); [apply Happ|apply Hret].
Qed.

(** ** The request a client writes for a route *)

(** An object with the given fields. *)
Definition fields (l : list (string * JsVal)) : string -> JsVal :=
  fun k => default JsUndefined (assoc k l).

(** A query with the given parameters, where they are given. *)
Definition query_of (l : list (string * option string))
  : string -> option string :=
  fun k => default None (assoc k l).

Definition no_query : string -> option string := fun _ => None.

(** The segment a route parameter is written as: a string that is not
    empty. *)
Definition segment_of (v : JsVal) : option string :=
  match v with
  | JsStr s => if String.eqb s "" then None else Some s
  | _ => None
  end.

(** A request without an Authorization header. *)
Definition written (m : Method) (path : list string)
    (query : string -> option string) (body : list (string * JsVal))
    (salt : string) (now : Z) : Request :=
  mkRequest m path query None (Fields (fields body)) salt now.

Definition auth_request (req : AuthReq) : Request :=
  match req with
  | Register salt name email password phone blood_type address =>
      written POST ["api"; "auth"; "register"] no_query
        [("name", name); ("email", email); ("password", password);
         ("phone", phone); ("blood_type", blood_type); ("address", address)]
        salt 0
  | Login now email password =>
      written POST ["api"; "auth"; "login"] no_query
        [("email", email); ("password", password)] "" now
  end.

Definition users_request (req : UsersReq) : option Request :=
  match req with
  | GetProfile id =>
      s ← segment_of id;
      Some (written GET ["api"; "users"; "profile"; s] no_query [] "" 0)
  | PutProfile id name phone blood_type address =>
      s ← segment_of id;
      Some (written PUT ["api"; "users"; "profile"; s] no_query
              [("name", name); ("phone", phone); ("blood_type", blood_type);
               ("address", address)] "" 0)
  | PutPassword salt id old_password new_password =>
      s ← segment_of id;
      Some (written PUT ["api"; "users"; "password"; s] no_query
              [("old_password", old_password); ("new_password", new_password)]
              salt 0)
  | GetStats id =>
      s ← segment_of id;
      Some (written GET ["api"; "users"; "stats"; s] no_query [] "" 0)
  end.

Definition blood_banks_request (req : BloodBanksReq) : option Request :=
  match req with
  | ListBloodBanks lat lng =>
      Some (written GET ["api"; "blood-banks"]
              (query_of [("lat", lat); ("lng", lng)]) [] "" 0)
  | GetBloodBank id =>
      s ← segment_of id;
      Some (written GET ["api"; "blood-banks"; s] no_query [] "" 0)
  | GetBloodStock id =>
      s ← segment_of id;
      Some (written GET ["api"; "blood-banks"; s; "stock"] no_query [] "" 0)
  end.

Definition donations_request (req : DonationsReq) : option Request :=
  match req with
  | GetUserDonations userId =>
      s ← segment_of userId;
      Some (written GET ["api"; "donations"; "user"; s] no_query [] "" 0)
  | PostDonation user_id blood_bank_id donation_date blood_type quantity
      notes =>
      Some (written POST ["api"; "donations"] no_query
              [("user_id", user_id); ("blood_bank_id", blood_bank_id);
               ("donation_date", donation_date); ("blood_type", blood_type);
               ("quantity", quantity); ("notes", notes)] "" 0)
  | PutDonationStatus id status notes =>
      s ← segment_of id;
      Some (written PUT ["api"; "donations"; s; "status"] no_query
              [("status", status); ("notes", notes)] "" 0)
  | GetDonation id =>
      s ← segment_of id;
      Some (written GET ["api"; "donations"; s] no_query [] "" 0)
  | DeleteDonation id =>
      s ← segment_of id;
      Some (written DELETE ["api"; "donations"; s] no_query [] "" 0)
  end.

(** The request for a route and its arguments, when the parameters of
    the route are segments. *)
Definition request_of (req : ApiReq) : option Request :=
  match req with
  | ApiAuth req => Some (auth_request req)
  | ApiUsers req => users_request req
  | ApiBloodBanks req => blood_banks_request req
  | ApiDonations req => donations_request req
  | ApiRoot => Some (written GET [] no_query [] "" 0)
  | ApiOther => None
  end.

(** What the routes read of a request. *)
Definition body_fields (rq : Request) : string -> JsVal :=
  match rq_body rq with
  | Fields body => body
  | Malformed _ => fun _ => JsUndefined
  end.

(** ** Matching *)

Lemma segment_of_Some v s :
  segment_of v = Some s -> v = JsStr s /\ String.eqb s "" = false.
Proof.
  destruct v as [| | | |s'|]; cbn; try done.
  destruct (String.eqb s' "") eqn:E; [done|]. by intros [= <-].
Qed.

(** Evaluate the dispatch of a written request whose parameter segments
    are not empty. *)
Ltac dispatch_eval :=
  unfold dispatch, under, written, body_fields;
  cbn [rq_path rq_method rq_query rq_salt rq_now rq_body];
  repeat first
    [ match goal with
      | H : String.eqb ?s "" = false |- context [String.eqb ?s ""] =>
          rewrite H
      | |- context [same_segment ?a ?b] =>
          first [ is_var b; destruct (same_segment a b)
                | let v := eval vm_compute in (same_segment a b) in
                  change (same_segment a b) with v ]
      | |- context [handles ?a ?b] =>
          let v := eval vm_compute in (handles a b) in
          change (handles a b) with v
      end
    | progress cbn [mounted find_route mbind option_bind auth_routes
                    users_routes blood_banks_routes donations_routes
                    rt_method rt_path rt_handler fmap option_fmap option_map
                    match_path andb orb] ].

(** ** Every route is reached *)

Lemma dispatch_auth_request req :
  dispatch (auth_request req) (body_fields (auth_request req)) = ApiAuth req.
Proof. destruct req; dispatch_eval; done. Qed.

(** Open a written request whose route parameter is a segment. *)
Ltac written_request H :=
  cbn in H; simplify_option_eq;
  repeat match goal with
         | Hs : segment_of _ = Some _ |- _ =>
             apply segment_of_Some in Hs as [-> Hs]
         end.

Lemma dispatch_users_request req rq :
  users_request req = Some rq -> dispatch rq (body_fields rq) = ApiUsers req.
Proof. intros H. destruct req; written_request H; dispatch_eval; done. Qed.

Lemma dispatch_blood_banks_request req rq :
  blood_banks_request req = Some rq ->
  dispatch rq (body_fields rq) = ApiBloodBanks req.
Proof. intros H. destruct req; written_request H; dispatch_eval; done. Qed.

Lemma dispatch_donations_request req rq :
  donations_request req = Some rq ->
  dispatch rq (body_fields rq) = ApiDonations req.
Proof. intros H. destruct req; written_request H; dispatch_eval; done. Qed.

(** The request written for a route reaches the handler of that route
    with the parameters and fields it was written with. *)
Lemma dispatch_written req rq :
  request_of req = Some rq -> dispatch rq (body_fields rq) = req.
Proof.
  destruct req as [req|req|req|req| |]; cbn [request_of]; intros H.
  - injection H as <-. apply dispatch_auth_request.
  - by apply dispatch_users_request.
  - by apply dispatch_blood_banks_request.
  - by apply dispatch_donations_request.
  - by injection H as <-.
  - done.
Qed.

(** A written request is no preflight and has a body of fields. *)
Lemma request_of_fields req rq :
  request_of req = Some rq ->
  rq_method rq <> OPTIONS /\ rq_body rq = Fields (body_fields rq).
Proof.
  intros H. destruct req as [[]|[]|[]|[]| |]; cbn in H; simplify_option_eq;
    by split.
Qed.

(** The requests that can be written: every route, with any parameter
    that is a segment. *)
Lemma request_of_is_Some req :
  is_Some (request_of req) <->
  match req with
  | ApiUsers (GetProfile id) | ApiUsers (PutProfile id _ _ _ _)
  | ApiUsers (PutPassword _ id _ _) | ApiUsers (GetStats id)
  | ApiBloodBanks (GetBloodBank id) | ApiBloodBanks (GetBloodStock id)
  | ApiDonations (GetUserDonations id)
  | ApiDonations (PutDonationStatus id _ _) | ApiDonations (GetDonation id)
  | ApiDonations (DeleteDonation id) => is_Some (segment_of id)
  | ApiOther => False
  | _ => True
  end.
Proof.
  destruct req as [[]|[]|[]|[]| |]; cbn;
    rewrite ?is_Some_alt; try (by split);
    by destruct (segment_of _).
Qed.

(** ** Only the routes are reached *)

(** What [find_route] answers comes from a route of the table whose
    method and path match. *)
Lemma find_route_sound {Req} (routes : list (Route Req)) m path q b req :
  find_route routes m path q b = Some req ->
  exists r ps,
    r ∈ routes /\ handles (rt_method r) m = true
    /\ match_path (rt_path r) path = Some ps
    /\ req = rt_handler r (param ps) q b.
Proof.
  induction routes as [|r routes IH]; [done|]. cbn.
  destruct (handles (rt_method r) m) eqn:Hm;
    [destruct (match_path (rt_path r) path) as [ps|] eqn:Hp|];
    [intros [= <-]; exists r, ps; split_and!; [left|done..]|..];
    intros (r' & ps' & ? & ? & ? & ?)%IH; exists r', ps';
    split_and!; by try right.
Qed.

(** A request that matches a route of the table is answered by the
    table. *)
Lemma find_route_complete {Req} (routes : list (Route Req)) m path q b r ps :
  r ∈ routes -> handles (rt_method r) m = true ->
  match_path (rt_path r) path = Some ps ->
  is_Some (find_route routes m path q b).
Proof.
  induction 1 as [r routes|r r' routes _ IH]; intros Hm Hp; cbn.
  - by rewrite Hm, Hp.
  - destruct (if handles _ _ then _ else _); [done|by apply IH].
Qed.

(** The request reaches [req] through a route of the router mounted at
    [prefix]. *)
Definition served {Req} (prefix : list string) (routes : list (Route Req))
    (rq : Request) (body : string -> JsVal) (req : Req) : Prop :=
  exists rest r ps,
    mounted prefix (rq_path rq) = Some rest /\ r ∈ routes
    /\ handles (rt_method r) (rq_method rq) = true
    /\ match_path (rt_path r) rest = Some ps
    /\ req = rt_handler r (param ps) (rq_query rq) body.

Lemma under_sound {Req} prefix (routes : list (Route Req)) rq body req :
  under prefix routes rq body = Some req -> served prefix routes rq body req.
Proof.
  unfold under, served.
  destruct (mounted prefix (rq_path rq)) as [rest|]; [cbn|done].
  intros (r & ps & ? & ? & ? & ?)%find_route_sound. by exists rest, r, ps.
Qed.

(** A request reaches a handler only through a route of the router the
    handler belongs to, mounted where server.js mounts it, and the
    description of the service only as GET /. *)
Lemma dispatch_sound rq body :
  match dispatch rq body with
  | ApiAuth req =>
      served ["api"; "auth"] (auth_routes (rq_salt rq) (rq_now rq)) rq body req
  | ApiUsers req =>
      served ["api"; "users"] (users_routes (rq_salt rq)) rq body req
  | ApiBloodBanks req =>
      served ["api"; "blood-banks"] blood_banks_routes rq body req
  | ApiDonations req =>
      served ["api"; "donations"] donations_routes rq body req
  | ApiRoot => rq_path rq = [] /\ handles GET (rq_method rq) = true
  | ApiOther => True
  end.
Proof.
  unfold dispatch.
  repeat match goal with
         | |- context [under ?p ?t rq body] =>
             let E := fresh "E" in
             destruct (under p t rq body) eqn:E;
             [by apply under_sound in E|]
         end.
  destruct (handles GET (rq_method rq)); [|done].
  by case_bool_decide.
Qed.

(** The endpoints of the API: the method and the path of each
    handler. *)
Definition endpoint (req : ApiReq) : option (Method * list Segment) :=
  match req with
  | ApiAuth (Register _ _ _ _ _ _ _) =>
      Some (POST, [Lit "api"; Lit "auth"; Lit "register"])
  | ApiAuth (Login _ _ _) => Some (POST, [Lit "api"; Lit "auth"; Lit "login"])
  | ApiUsers (GetProfile _) =>
      Some (GET, [Lit "api"; Lit "users"; Lit "profile"; Param "id"])
  | ApiUsers (PutProfile _ _ _ _ _) =>
      Some (PUT, [Lit "api"; Lit "users"; Lit "profile"; Param "id"])
  | ApiUsers (PutPassword _ _ _ _) =>
      Some (PUT, [Lit "api"; Lit "users"; Lit "password"; Param "id"])
  | ApiUsers (GetStats _) =>
      Some (GET, [Lit "api"; Lit "users"; Lit "stats"; Param "id"])
  | ApiBloodBanks (ListBloodBanks _ _) =>
      Some (GET, [Lit "api"; Lit "blood-banks"])
  | ApiBloodBanks (GetBloodBank _) =>
      Some (GET, [Lit "api"; Lit "blood-banks"; Param "id"])
  | ApiBloodBanks (GetBloodStock _) =>
      Some (GET, [Lit "api"; Lit "blood-banks"; Param "id"; Lit "stock"])
  | ApiDonations (GetUserDonations _) =>
      Some (GET, [Lit "api"; Lit "donations"; Lit "user"; Param "userId"])
  | ApiDonations (PostDonation _ _ _ _ _ _) =>
      Some (POST, [Lit "api"; Lit "donations"])
  | ApiDonations (PutDonationStatus _ _ _) =>
      Some (PUT, [Lit "api"; Lit "donations"; Param "id"; Lit "status"])
  | ApiDonations (GetDonation _) =>
      Some (GET, [Lit "api"; Lit "donations"; Param "id"])
  | ApiDonations (DeleteDonation _) =>
      Some (DELETE, [Lit "api"; Lit "donations"; Param "id"])
  | ApiRoot => Some (GET, [])
  | ApiOther => None
  end.

(** A path below a mount point matches the route path with the mount
    point before it. *)
Lemma match_path_mounted prefix pattern path rest ps :
  mounted prefix path = Some rest -> match_path pattern rest = Some ps ->
  match_path ((Lit <$> prefix) ++ pattern) path = Some ps.
Proof.
  revert path. induction prefix as [|l prefix IH]; intros path; cbn [mounted].
  - by intros [= ->].
  - destruct path as [|s path]; [done|].
    cbn [fmap list_fmap List.app match_path].
    destruct (same_segment l s); [apply IH|done].
Qed.

(** Every route of [routes], mounted at [prefix], is the endpoint of the
    request its handler makes. *)
Definition endpoints_of {Req} (inj : Req -> ApiReq) (prefix : list string)
    (routes : list (Route Req)) : Prop :=
  forall r p q b, r ∈ routes ->
    endpoint (inj (rt_handler r p q b))
    = Some (rt_method r, (Lit <$> prefix) ++ rt_path r).

Lemma served_endpoint {Req} (inj : Req -> ApiReq) prefix routes rq body req :
  endpoints_of inj prefix routes -> served prefix routes rq body req ->
  exists m pattern,
    endpoint (inj req) = Some (m, pattern)
    /\ handles m (rq_method rq) = true
    /\ is_Some (match_path pattern (rq_path rq)).
Proof.
  intros He (rest & r & ps & Hmount & Hr & Hm & Hp & ->).
  eexists _, _. split_and!; [by apply He|done|].
  by rewrite (match_path_mounted _ _ _ _ _ Hmount Hp).
Qed.

(** Decide [endpoints_of] for a table that is given. *)
Ltac endpoints :=
  intros r p q b Hr;
  repeat (apply elem_of_cons in Hr as [->|Hr]); try done;
  by apply elem_of_nil in Hr.

(** Soundness of the routing.  A request reaches a handler only by the
    method and the path of the endpoint of that handler: the tables of
    the four routers, as server.js mounts them, implement the endpoints
    of the API and nothing else. *)
Theorem dispatch_endpoint rq body :
  match endpoint (dispatch rq body) with
  | Some (m, pattern) =>
      handles m (rq_method rq) = true
      /\ is_Some (match_path pattern (rq_path rq))
  | None => dispatch rq body = ApiOther
  end.
Proof.
  pose proof (dispatch_sound rq body) as Hs.
  destruct (dispatch rq body) as [req|req|req|req| |];
    [eapply (served_endpoint ApiAuth) in Hs
    |eapply (served_endpoint ApiUsers) in Hs
    |eapply (served_endpoint ApiBloodBanks) in Hs
    |eapply (served_endpoint ApiDonations) in Hs|..];
    try (destruct Hs as (m & pattern & -> & Hm & Hp); done);
    try endpoints.
  - destruct Hs as [-> Hm]. by cbn.
  - done.
Qed.

(** *** The handler that deletes *)

Lemma mounted_api path rest (name : string) :
  mounted ["api"; name] path = Some rest ->
  exists a d, path = a :: d :: rest /\ same_segment "api" a = true
              /\ same_segment name d = true.
Proof.
  destruct path as [|a [|d path]]; cbn [mounted]; try done;
    destruct (same_segment "api" a) eqn:Ha; try done.
  destruct (same_segment name d) eqn:Hd; [|done].
  intros [= <-]. by exists a, d.
Qed.

Lemma match_path_key x rest ps :
  match_path [Param x] rest = Some ps ->
  exists seg, String.eqb seg "" = false /\ ps = [(x, seg)]
              /\ (rest = [seg] \/ rest = [seg; ""]).
Proof.
  destruct rest as [|seg [|s [|]]]; cbn [match_path]; try done;
    destruct (String.eqb seg "") eqn:Hseg; try done.
  - intros [= <-]. exists seg. split_and!; [done..|by left].
  - destruct (String.eqb s "") eqn:Hs; [|done]. apply String.eqb_eq in Hs as ->.
    intros [= <-]. exists seg. split_and!; [done..|by right].
Qed.

(** The deletion of a donation is reached by DELETE on
    /api/donations/<key> and by no other request: the key is the segment
    of the path, and is not empty. *)
Theorem delete_reached rq body id :
  dispatch rq body = ApiDonations (DeleteDonation id) ->
  rq_method rq = DELETE
  /\ exists a d seg,
       (rq_path rq = [a; d; seg] \/ rq_path rq = [a; d; seg; ""])
       /\ same_segment "api" a = true /\ same_segment "donations" d = true
       /\ String.eqb seg "" = false /\ id = JsStr seg.
Proof.
  intros H. pose proof (dispatch_sound rq body) as Hs. rewrite H in Hs.
  destruct Hs as (rest & r & ps & Hmount & Hr & Hm & Hp & Hreq).
  apply mounted_api in Hmount as (a & d & Hpath & Ha & Hd).
  unfold donations_routes in Hr.
  repeat (apply elem_of_cons in Hr as [->|Hr]); try done;
    [|by apply elem_of_nil in Hr].
  cbn in Hm, Hp, Hreq. split.
  { destruct (rq_method rq); by try done. }
  apply match_path_key in Hp as (seg & Hseg & -> & Hrest).
  exists a, d, seg. injection Hreq as ->. split_and!; try done.
  rewrite Hpath. by destruct Hrest as [->| ->]; [left|right].
Qed.

(** ** Every request is answered *)

Section serve.
Context {driver : Driver} {collation : Collation} {bcrypt : Bcrypt} {jwt : Jwt}.

(** What the client of a request may receive. *)
Definition http_envelope (rq : Request) (e : Envelope) : Prop :=
  if bool_decide (rq_method rq = OPTIONS) then e = preflight
  else match rq_body rq with
       | Malformed _ => e = internal_error
       | Fields body => api_envelope (dispatch rq body) e
       end.

Lemma serve_typed secret rq :
  answers statements_per_request (http_envelope rq) (serve secret rq).
Proof.
  unfold serve, http_envelope. case_bool_decide; [done|].
  destruct (rq_body rq); [apply app_typed | done].
Qed.

(** C23. Every request that runs alone is answered after at most three
    statements: a preflight request by [cors()], a request whose body the
    parsers refuse by the error middleware, and every other request by
    its route, with an envelope of that route. *)
Theorem serve_answers secret rq w :
  exists e,
    (run (serve secret rq) w).1 = Some e /\ http_envelope rq e
    /\ (queries_issued (serve secret rq) w <= statements_per_request)%nat.
Proof.
  destruct (answers_run _ _ _ w (serve_typed secret rq)) as (e & He & HQ & Hn).
  by exists e.
Qed.

(** A request with a body of fields goes to its route. *)
Lemma serve_fields secret rq body :
  rq_method rq <> OPTIONS -> rq_body rq = Fields body ->
  serve secret rq = app secret (dispatch rq body).
Proof. intros Hm Hb. unfold serve. by rewrite bool_decide_false, Hb. Qed.

Lemma serve_written secret m path query body salt now :
  m <> OPTIONS ->
  serve secret (written m path query body salt now)
  = app secret (dispatch (written m path query body salt now)
                  (body_fields (written m path query body salt now))).
Proof. intros. by apply serve_fields. Qed.

(** C25. Round trip, and with it: no route is shadowed.  The request a
    client writes for an endpoint, with parameters that are segments and
    a body of the fields of the endpoint, is served by the handler of
    that endpoint, with those parameters and fields. *)
Theorem serve_request_of secret req rq :
  request_of req = Some rq -> serve secret rq = app secret req.
Proof.
  intros H. destruct (request_of_fields req rq H) as [Hm Hb].
  rewrite (serve_fields secret rq _ Hm Hb). f_equal.
  by apply dispatch_written.
Qed.

(** C12. Create, then read, as the client sees it: POST /api/donations
    answers 201 with a key, and GET /api/donations/<key>, with the key
    written as any segment the driver binds to it, answers 200 with the
    donation of the request, pending, with the names of its bank and of
    its user. *)
Theorem http_post_then_get secret user_id blood_bank_id donation_date
    blood_type quantity notes uid bid date bt qty nt bb u w :
  db_wf (w_store w) ->
  complete user_id blood_bank_id donation_date blood_type quantity = true ->
  bind_int user_id = Some uid -> bind_int blood_bank_id = Some bid ->
  bind_date donation_date = Some date -> bind_text blood_type = Some bt ->
  bind_int quantity = Some qty -> bind_text_null notes = Some nt ->
  bank_map (w_store w) !! bid = Some bb ->
  user_map (w_store w) !! uid = Some u ->
  calm 2 (w_faults w) = true ->
  exists id w1,
    run (serve secret
           (written POST ["api"; "donations"] no_query
              [("user_id", user_id); ("blood_bank_id", blood_bank_id);
               ("donation_date", donation_date); ("blood_type", blood_type);
               ("quantity", quantity); ("notes", notes)] "" 0)) w
    = (Some (envelope (json_created "Permintaan donor berhasil dibuat"
                         (mkCreated id))), w1)
    /\ forall seg, String.eqb seg "" = false ->
         bind_int (JsStr seg) = Some id ->
         run (serve secret
                (written GET ["api"; "donations"; seg] no_query [] "" 0)) w1
         = (Some (envelope
                    (json_ok (mkDonationDetail
                                (mkDonation id uid bid date bt qty "pending"
                                   nt (db_now (w_store w)))
                                (bb_name bb) (u_name u)))),
            advance w1).
Proof.
  intros Hwf Hc Hu Hb Hd Ht Hq Hn Hbb Huu Hcalm.
  destruct (post_then_get user_id blood_bank_id donation_date blood_type
              quantity notes uid bid date bt qty nt bb u w)
    as (id & w1 & Hpost & Hget); try done.
  exists id, w1. split.
  - rewrite serve_written by done.
    rewrite (dispatch_donations_request (PostDonation _ _ _ _ _ _) _ eq_refl).
    cbn [app donations_router]. by rewrite run_respond, Hpost.
  - intros seg Hseg Hid. rewrite serve_written by done.
    rewrite (dispatch_donations_request (GetDonation (JsStr seg))).
    + cbn [app donations_router]. by rewrite run_respond, (Hget _ Hid).
    + cbn. by rewrite Hseg.
Qed.


(** Every statement of every request keeps the invariant of the
    store. *)
Lemma serve_safe secret rq : safe_prog donations_inv (serve secret rq).
Proof.
  apply serve_app; [done|apply app_safe].
Qed.

(** ** The server behind the pool of config/database.js *)

(** The server when every statement takes a connection of the pool: the
    pool as it is created, no statement running, and the requests at
    their start. *)
Definition pooled_server (secret : option string) (rqs : list Request)
    (db : Db) : Pooled :=
  mkPooled createPool ∅ (db, serve secret <$> rqs).

(** The server at work: a request arrives, or a request in flight takes
    a step through the pool. *)
Inductive http_step (secret : option string) (env : string -> option string)
  : Pooled (St := Db) (A := Envelope) -> Pooled -> Prop :=
| http_arrive rq c hs db ps :
    http_step secret env (mkPooled c hs (db, ps))
      (mkPooled c hs (db, ps ++ [serve secret rq]))
| http_statement x y :
    pooled_step (pool_options env) x y -> http_step secret env x y.

(** What the server keeps: the pool accounts for its connections, the
    store satisfies its invariant, and so will it after every statement
    of the requests in flight. *)
Definition http_inv (env : string -> option string)
    (x : Pooled (St := Db) (A := Envelope)) : Prop :=
  conns_inv (pool_options env) x
  /\ donations_inv (pd_pool x).1
  /\ Forall (safe_prog donations_inv) (pd_pool x).2.

Lemma http_step_inv secret env x y :
  http_step secret env x y -> http_inv env x -> http_inv env y.
Proof.
  intros [rq c hs db ps|x' y' Hstep] (Hconns & Hdb & Hps).
  - split_and!; [by apply conns_inv_arrive|done|].
    apply Forall_app. split; [done|]. apply Forall_singleton, serve_safe.
  - split; [by eapply pooled_step_inv|].
    by apply (pooled_step_safe (pool_options env) donations_inv x' y').
Qed.

(** The invariant of the server holds in every state it reaches from
    its start, whatever requests arrive and whenever, however their
    statements go through the pool and whichever fail: the store
    satisfies its invariant and never more than ten statements run at
    once. *)
Theorem http_inv_reachable secret env db x :
  donations_inv db ->
  rtc (http_step secret env) (pooled_server secret [] db) x ->
  donations_inv (pd_pool x).1 /\ (size (pd_holding x) <= 10)%nat
  /\ (cn_queue (pd_conns x) <> [] -> size (pd_holding x) = 10%nat).
Proof.
  intros Hdb Hsteps.
  assert (http_inv env x) as (Hconns & Hx & _).
  { eapply (rtc_ind_r (http_inv env)); [|by eauto using http_step_inv|done].
    split_and!; [apply createPool_inv|done|constructor]. }
  split; [done|]. by apply (conns_inv_limit (pool_options env)).
Qed.

(** C26. Liveness of the server.  Whatever requests are in flight, more than
    the ten connections can serve at once included, every schedule
    through the pool ends, after at most six steps per request, and at
    its end every request has been answered with a response of its
    route: no request waits for a connection for ever. *)
Theorem http_pooled_drains secret env rqs db :
  let step := pooled_step (pool_options env) in
  let x := pooled_server secret rqs db in
  sn step x
  /\ (forall n y, nsteps step n x y ->
        (n <= 2 * (statements_per_request * length rqs))%nat)
  /\ (forall y, rtc step x y -> nf step y ->
        exists es, finished (pd_pool y).2 = Some es
                   /\ Forall2 http_envelope rqs es).
Proof.
  intros step x.
  destruct (pooled_drains (pool_options env)
              (owed statements_per_request http_envelope rqs) x
              (createPool_inv _ _ _)
              (owed_answers _ _ _ _ (serve_typed secret)))
    as (Hsn & Hn & Hend).
  rewrite statements_left_owed in Hn. split_and!; [done..|].
  intros y Hsteps Hnf. destruct (Hend y Hsteps Hnf) as (es & Hes & HQ).
  exists es. split; [done|]. by eapply owed_promised.
Qed.

(** ** The server comes to rest *)

(** What the requests in flight still owe: each is the rest of a
    request the server received and answers within the statements that
    request has left, three at most each. *)
Definition http_owes (env : string -> option string)
    (x : Pooled (St := Db) (A := Envelope)) : Prop :=
  conns_inv (pool_options env) x
  /\ exists rqs nqs,
       pool_answers nqs (pd_pool x).2
       /\ snd <$> nqs = http_envelope <$> rqs
       /\ (statements_left nqs
           <= statements_per_request * length (pd_pool x).2)%nat.

Lemma http_arrive_owes secret env rq c hs db ps :
  http_owes env (mkPooled c hs (db, ps)) ->
  http_owes env (mkPooled c hs (db, ps ++ [serve secret rq])).
Proof.
  intros (Hconns & rqs & nqs & Hps & HQ & Hn).
  split; [by apply conns_inv_arrive|]. cbn [pd_pool snd] in *.
  exists (rqs ++ [rq]), (nqs ++ [(statements_per_request, http_envelope rq)]).
  split_and!.
  - apply Forall2_app; [done|]. repeat constructor. apply serve_typed.
  - by rewrite !fmap_app, HQ.
  - unfold statements_left, statements_per_request in *.
    rewrite fmap_app, sum_list_with_app, length_app. simpl. lia.
Qed.

Lemma http_step_owes secret env x y :
  http_step secret env x y -> http_owes env x -> http_owes env y.
Proof.
  intros [rq c hs db ps|x' y' Hstep] Hx; [by apply http_arrive_owes|].
  destruct Hx as (Hconns & rqs & nqs & Hps & HQ & Hn).
  split; [by eapply pooled_step_inv|].
  destruct (pooled_step_pool _ x' y' Hstep) as [->|Hpool]; [by eauto|].
  destruct (pool_step_answers nqs _ _ Hpool Hps) as (nqs' & Hps' & Hn' & HQ').
  exists rqs, nqs'. split_and!; [done|congruence|].
  rewrite (pool_step_length _ _ Hpool). lia.
Qed.

(** Liveness of the server, from wherever it is.  Whatever requests
    have arrived and whatever steps they have taken, once no more
    arrive every schedule through the pool ends, after at most six
    steps for each request in flight, and at its end every request has
    been answered with a response of a route. *)
Lemma http_owes_quiesces secret env x0 x :
  http_owes env x0 -> rtc (http_step secret env) x0 x ->
  let step := pooled_step (pool_options env) in
  sn step x
  /\ (forall n y, nsteps step n x y ->
        (n <= 2 * (statements_per_request * length (pd_pool x).2))%nat)
  /\ (forall y, rtc step x y -> nf step y ->
        exists rqs es, finished (pd_pool y).2 = Some es
                       /\ Forall2 http_envelope rqs es).
Proof.
  intros Hx0 Hsteps step.
  assert (http_owes env x) as (Hconns & rqs & nqs & Hps & HQ & Hn).
  { eapply (rtc_ind_r (http_owes env)); [|by eauto using http_step_owes|done].
    done. }
  destruct (pooled_drains (pool_options env) nqs x Hconns Hps)
    as (Hsn & Hbound & Hend).
  split_and!; [done| |].
  - intros n y Hy. specialize (Hbound n y Hy). lia.
  - intros y Hy Hnf. destruct (Hend y Hy Hnf) as (es & Hes & Hall).
    exists rqs, es. split; [done|]. rewrite HQ in Hall.
    by apply Forall2_fmap_l in Hall.
Qed.

(** The server at its start owes nothing. *)
Lemma pooled_server_owes secret env db :
  http_owes env (pooled_server secret [] db).
Proof.
  split; [apply createPool_inv|]. exists [], [].
  split_and!; [constructor|done|cbn; lia].
Qed.

End serve.

(** ** What the tables decide *)

(** The answer does not depend on the Authorization header: no route is
    behind [authenticateToken]. *)
Lemma serve_ignores_authorization `{Driver, Collation, Bcrypt, Jwt} secret m
    path query auth auth' body salt now :
  serve secret (mkRequest m path query auth body salt now) =
  serve secret (mkRequest m path query auth' body salt now).
Proof. done. Qed.

(** A path outside the mount points that is not the root reaches no
    route. *)
Lemma dispatch_unmounted rq body :
  mounted ["api"] (rq_path rq) = None -> rq_path rq <> [] ->
  dispatch rq body = ApiOther.
Proof.
  intros Hm Hp. unfold dispatch, under.
  destruct (rq_path rq) as [|s path]; [done|].
  cbn [mounted mbind option_bind] in *.
  destruct (same_segment "api" s); [done|].
  by rewrite bool_decide_false, andb_false_r.
Qed.

(** ** Concrete requests *)

(** The port is 3000 unless the environment names one: an empty PORT
    counts as none, and a port of the environment is a string. *)
Example PORT_default :
  PORT (fun _ => None) = JsNum 3000 /\ PORT (fun _ => Some "") = JsNum 3000
  /\ PORT (fun _ => Some "8080") = JsStr "8080".
Proof. done. Qed.

(** GET /api/donations/user/7 is the history of user 7, not the detail
    of a donation; GET /api/donations/user is the detail of the donation
    whose key is the text [user]. *)
Example dispatch_user_history :
  dispatch (written GET ["api"; "donations"; "user"; "7"] no_query [] "" 0)
    (fields [])
  = ApiDonations (GetUserDonations (JsStr "7"))
  /\ dispatch (written GET ["api"; "donations"; "user"] no_query [] "" 0)
       (fields [])
     = ApiDonations (GetDonation (JsStr "user")).
Proof. split; by vm_compute. Qed.

(** A method no route is registered for, and a path one segment too
    long, reach the handler that answers 404; HEAD is served by the route
    of GET; paths match without regard to case, and with a slash at their
    end. *)
Example dispatch_edges :
  dispatch (written PATCH ["api"; "donations"; "7"] no_query [] "" 0)
    (fields []) = ApiOther
  /\ dispatch (written GET ["api"; "donations"; "7"; "x"] no_query [] "" 0)
       (fields []) = ApiOther
  /\ dispatch (written HEAD ["api"; "blood-banks"; "7"] no_query [] "" 0)
       (fields []) = ApiBloodBanks (GetBloodBank (JsStr "7"))
  /\ dispatch (written GET ["API"; "Blood-Banks"; "7"; "STOCK"] no_query []
                 "" 0) (fields [])
     = ApiBloodBanks (GetBloodStock (JsStr "7"))
  /\ dispatch (written GET ["api"; "blood-banks"; ""] no_query [] "" 0)
       (fields []) = ApiBloodBanks (ListBloodBanks None None).
Proof. repeat split; by vm_compute. Qed.

(** POST /api/donations on the sample store answers the key 4, and
    GET /api/donations/4 then shows the donation; GET /api/donations/04
    shows it as well; the driver of the concrete runs refuses a key that
    is not a number, so GET /api/donations/four is answered 500. *)
Example http_create_read :
  let post :=
    written POST ["api"; "donations"] no_query
      [("user_id", JsNum 1); ("blood_bank_id", JsNum 1);
       ("donation_date", JsStr "2024-04-01"); ("blood_type", JsStr "A+");
       ("quantity", JsNum 350)] "" 0 in
  let get seg := written GET ["api"; "donations"; seg] no_query [] "" 0 in
  let w1 := (run (serve None post) (mkWorld sample_db [])).2 in
  (run (serve None post) (mkWorld sample_db [])).1
  = Some (mkEnvelope 201 (Some true)
            (Some "Permintaan donor berhasil dibuat") true [])
  /\ env_status <$> (run (serve None (get "4")) w1).1 = Some 200
  /\ (run (serve None (get "04")) w1).1 = (run (serve None (get "4")) w1).1
  /\ env_status <$> (run (serve None (get "four")) w1).1 = Some 500
  /\ env_status <$> (run (serve None (get "5")) w1).1 = Some 404.
Proof. repeat split; by vm_compute. Qed.

Lemma serve_request_of_witness :
  serve None
    (written PUT ["api"; "donations"; "7"; "status"] no_query
       [("status", JsStr "approved"); ("notes", JsNull)] "" 0)
  = app None
      (ApiDonations (PutDonationStatus (JsStr "7") (JsStr "approved") JsNull)).
Proof.
  exact (serve_request_of None
           (ApiDonations (PutDonationStatus (JsStr "7") (JsStr "approved")
                            JsNull)) _ eq_refl).
Defined.


Lemma http_post_then_get_witness :
  exists id w1,
    run (serve None
           (written POST ["api"; "donations"] no_query
              [("user_id", JsNum 1); ("blood_bank_id", JsNum 1);
               ("donation_date", JsStr "2024-04-01");
               ("blood_type", JsStr "A+"); ("quantity", JsNum 350);
               ("notes", JsUndefined)] "" 0)) (mkWorld sample_db [])
    = (Some (envelope (json_created "Permintaan donor berhasil dibuat"
                         (mkCreated id))), w1)
    /\ forall seg, String.eqb seg "" = false ->
         bind_int (JsStr seg) = Some id ->
         run (serve None
                (written GET ["api"; "donations"; seg] no_query [] "" 0)) w1
         = (Some (envelope
                    (json_ok (mkDonationDetail
                                (mkDonation id 1 1 20240401 "A+" 350 "pending"
                                   None 100)
                                "PMI Jakarta" "Ani"))),
            advance w1).
Proof.
  apply (http_post_then_get None (JsNum 1) (JsNum 1) (JsStr "2024-04-01")
           (JsStr "A+") (JsNum 350) JsUndefined 1 1 20240401 "A+" 350 None
           pmi ani (mkWorld sample_db []));
    solve [done | exact sample_db_wf].
Defined.

(** A deletion arrives at [sample_db], takes a connection and is
    answered. *)
Definition sample_deleted : Pooled (St := Db) (A := Envelope) :=
  mkPooled (mkConns 1 1 []) (∅ ∪ ({[0%nat]} ∪ ∅) ∖ {[0%nat]})
    (set_donations (sql_delete (fun d => dh_id d =? 1)) 4 sample_db,
     [Ret (envelope (json_msg (D := unit) "Riwayat donor berhasil dihapus"))]).

Lemma sample_deleted_reached :
  rtc (http_step None (fun _ => None)) (pooled_server None [] sample_db)
    sample_deleted.
Proof.
  eapply rtc_l.
  { apply (http_arrive None _
             (written DELETE ["api"; "donations"; "1"] no_query [] "" 0)). }
  eapply rtc_l.
  { apply http_statement. eapply (pooled_connect _ 0%nat _ _ true);
      [done|set_solver|by apply not_elem_of_nil|done]. }
  eapply rtc_l.
  { apply http_statement.
    eapply (pooled_resolve _ 0%nat); [done|set_solver|done]. }
  apply rtc_refl.
Qed.

Lemma http_inv_reachable_witness :
  donations_inv
    (set_donations (sql_delete (fun d => dh_id d =? 1)) 4 sample_db)
  /\ (size (∅ ∪ ({[0%nat]} ∪ ∅) ∖ {[0%nat]} : gset nat) <= 10)%nat
  /\ (@nil nat <> [] ->
      size (∅ ∪ ({[0%nat]} ∪ ∅) ∖ {[0%nat]} : gset nat) = 10%nat).
Proof.
  exact (http_inv_reachable None (fun _ => None) sample_db sample_deleted
           sample_db_inv sample_deleted_reached).
Defined.
