(* ===== verification/Routes.v ===== *)
(** * Routes: the endpoints of the API are served exactly

    A router tries its routes in the order of their registration and
    server.js its routers in the order of their mounting, so that a
    route registered late is reached only by the requests that no
    earlier one takes.  This file shows that in the four routers the
    order plays no part: no path matches the paths of two endpoints of
    one method ([apart], [endpoints_distinct]), so that a request
    reaches the handler of an endpoint exactly when its method and its
    path match that endpoint ([dispatch_exact]). *)

From Stdlib Require Import ZArith NArith Ascii Lia.
From stdpp Require Import base tactics option list strings.
From S2P Require Import Prelude Outcomes Sorting Store Donations Stats.
From S2P Require Import BloodBanks Security Users Auth Interleaving.
From S2P Require Import Roundtrips Connections Server Http.

#[export] Instance Segment_eq_dec : EqDecision Segment.
Proof. solve_decision. Defined.

(** ** Paths that no request matches both *)

(** A segment of a route path that the empty segment does not match. *)
Definition solid (s : Segment) : bool :=
  match s with
  | Lit l => negb (same_segment l "")
  | Param _ => true
  end.

(** Two route paths are apart when two of their literals at one position
    differ, or one of them ends where the other has a segment that is
    not empty. *)
Fixpoint apart (p1 p2 : list Segment) : bool :=
  match p1, p2 with
  | [], [] => false
  | [], s :: _ | s :: _, [] => solid s
  | Lit a :: p1', Lit b :: p2' => negb (same_segment a b) || apart p1' p2'
  | _ :: p1', _ :: p2' => apart p1' p2'
  end.

(** The methods a request can have. *)
Definition methods : list Method :=
  [GET; POST; PUT; DELETE; PATCH; HEAD; OPTIONS].

(** Two registrations can serve one request. *)
Definition compatible (m1 m2 : Method) : bool :=
  existsb (fun x => handles m1 x && handles m2 x) methods.

(** An endpoint: a method and a path from the root. *)
Definition Endpoint : Type := Method * list Segment.

(** The endpoints of a router mounted at [prefix]. *)
Definition mounted_at {Req} (prefix : list string) (routes : list (Route Req))
  : list Endpoint :=
  (fun r => (rt_method r, (Lit <$> prefix) ++ rt_path r)) <$> routes.

(** The endpoints of server.js: GET / and the routes of the four routers
    at their mount points. *)
Definition endpoints : list Endpoint :=
  (GET, []) :: mounted_at ["api"; "auth"] (auth_routes "" 0)
  ++ mounted_at ["api"; "users"] (users_routes "")
  ++ mounted_at ["api"; "blood-banks"] blood_banks_routes
  ++ mounted_at ["api"; "donations"] donations_routes.

(** No two endpoints of the list can serve one request. *)
Fixpoint distinct (es : list Endpoint) : bool :=
  match es with
  | [] => true
  | e :: es' =>
      forallb (fun e' => negb (compatible e.1 e'.1) || apart e.2 e'.2) es'
      && distinct es'
  end.

(** The request matches the endpoint. *)
Definition matches (rq : Request) (e : Endpoint) : Prop :=
  handles e.1 (rq_method rq) = true /\ is_Some (match_path e.2 (rq_path rq)).

(** ** Soundness of [apart] *)

Lemma same_segment_both a b x :
  same_segment a x = true -> same_segment b x = true ->
  same_segment a b = true.
Proof.
  unfold same_segment. rewrite !String.eqb_eq. congruence.
Qed.

Lemma match_path_nil path :
  is_Some (match_path [] path) -> path = [] \/ path = [""].
Proof.
  destruct path as [|s [|s' path]]; cbn; [by left| |by intros []].
  destruct (String.eqb_spec s ""); [subst; by right|by intros []].
Qed.

Lemma match_path_solid s p :
  solid s = true -> match_path (s :: p) [""] = None.
Proof.
  destruct s as [l|x]; cbn; [|done].
  by intros ->%negb_true_iff.
Qed.

Lemma apart_nil s p path :
  solid s = true ->
  match_path [] path = None \/ match_path (s :: p) path = None.
Proof.
  intros Hs. destruct (match_path [] path) eqn:Hnil; [right|by left].
  destruct (match_path_nil path) as [->| ->]; [by rewrite Hnil| |].
  - by destruct s.
  - by apply match_path_solid.
Qed.

Lemma apart_sound p1 p2 path :
  apart p1 p2 = true ->
  match_path p1 path = None \/ match_path p2 path = None.
Proof.
  revert p2 path.
  induction p1 as [|s1 p1 IH]; intros [|s2 p2] path; cbn [apart].
  - done.
  - apply apart_nil.
  - intros Hs. destruct s1; by destruct (apart_nil _ p1 path Hs); [right|left].
  - destruct path as [|x path]; [destruct s1; by left|].
    assert (apart p1 p2 = true ->
            match_path (s1 :: p1) (x :: path) = None
            \/ match_path (s2 :: p2) (x :: path) = None) as Htail.
    { intros [H|H]%(IH p2 path); [left|right]; [destruct s1|destruct s2];
        cbn; rewrite H; by repeat case_match. }
    destruct s1 as [a|x1], s2 as [b|x2]; try done.
    intros [Hab%negb_true_iff|Hp]%orb_true_iff; [|by auto]. cbn.
    destruct (same_segment a x) eqn:Ha; [|by left].
    destruct (same_segment b x) eqn:Hb; [|by right].
    by rewrite (same_segment_both a b x) in Hab.
Qed.

(** ** No two endpoints serve one request *)

Lemma handles_compatible m1 m2 x :
  handles m1 x = true -> handles m2 x = true -> compatible m1 m2 = true.
Proof. by destruct m1, m2, x. Qed.

Lemma compatible_sym m1 m2 : compatible m1 m2 = compatible m2 m1.
Proof. by destruct m1, m2. Qed.

(** Two endpoints that serve one request are not told apart. *)
Lemma matches_not_apart rq e1 e2 :
  matches rq e1 -> matches rq e2 ->
  negb (compatible e1.1 e2.1) || apart e1.2 e2.2 = false.
Proof.
  intros [Hm1 Hp1] [Hm2 Hp2]. apply orb_false_iff. split.
  - by rewrite (handles_compatible _ _ _ Hm1 Hm2).
  - destruct (apart e1.2 e2.2) eqn:Ha; [|done].
    destruct (apart_sound _ _ (rq_path rq) Ha) as [H|H]; rewrite H in *;
      by apply is_Some_None in Hp1 || apply is_Some_None in Hp2.
Qed.

Lemma distinct_unique es rq e1 e2 :
  distinct es = true -> e1 ∈ es -> e2 ∈ es ->
  matches rq e1 -> matches rq e2 -> e1 = e2.
Proof.
  intros Hes H1 H2 Hm1 Hm2.
  induction es as [|e es IH]; [by apply elem_of_nil in H1|].
  cbn [distinct] in Hes. apply andb_true_iff in Hes as [He Hes].
  rewrite forallb_forall in He. setoid_rewrite <- list_elem_of_In in He.
  apply elem_of_cons in H1 as [->|H1], H2 as [->|H2]; [done| | |by apply IH].
  - specialize (He e2 H2). cbn beta in He.
    by rewrite (matches_not_apart rq e e2) in He.
  - specialize (He e1 H1). cbn beta in He.
    by rewrite (matches_not_apart rq e e1) in He.
Qed.

Lemma endpoints_distinct : distinct endpoints = true.
Proof. by vm_compute. Qed.

(** ** The endpoints and the tables *)

(** The endpoint of every request is one of the list. *)
Lemma endpoint_listed req e : endpoint req = Some e -> e ∈ endpoints.
Proof.
  destruct req as [[]|[]|[]|[]| |]; intros [= <-];
    apply (bool_decide_unpack _); by vm_compute.
Qed.

(** A path that matches a route path behind a mount point is below the
    mount point and matches the route path there. *)
Lemma match_path_unmount prefix pattern path ps :
  match_path ((Lit <$> prefix) ++ pattern) path = Some ps ->
  exists rest,
    mounted prefix path = Some rest /\ match_path pattern rest = Some ps.
Proof.
  revert path. induction prefix as [|l prefix IH]; intros path; cbn.
  - by eauto.
  - destruct path as [|s path]; [done|].
    destruct (same_segment l s); [apply IH|done].
Qed.

(** A request that matches an endpoint of a router mounted at [prefix]
    is taken by that router. *)
Lemma under_complete {Req} prefix (routes routes' : list (Route Req)) rq body
    e :
  (fun r => (rt_method r, rt_path r)) <$> routes
  = (fun r => (rt_method r, rt_path r)) <$> routes' ->
  e ∈ mounted_at prefix routes' -> matches rq e ->
  is_Some (under prefix routes rq body).
Proof.
  intros Hshape (r' & -> & Hr')%list_elem_of_fmap [Hm [ps Hp]].
  assert ((rt_method r', rt_path r')
          ∈ (fun r => (rt_method r, rt_path r)) <$> routes) as Hr.
  { rewrite Hshape. apply list_elem_of_fmap. eauto. }
  apply list_elem_of_fmap in Hr as (r & [= Hrm Hrp] & Hr). cbn in *.
  apply match_path_unmount in Hp as (rest & Hrest & Hp).
  unfold under. rewrite Hrest. cbn.
  eapply (find_route_complete routes _ _ _ _ r ps); [done| |]; congruence.
Qed.

Lemma endpoint_is_Some req : req <> ApiOther -> is_Some (endpoint req).
Proof. destruct req as [[]|[]|[]|[]| |]; by eauto. Qed.

(** A request that matches an endpoint below /api is taken by a
    router. *)
Lemma dispatch_routed rq body e :
  e ∈ endpoints -> e <> (GET, []) -> matches rq e ->
  is_Some (endpoint (dispatch rq body)).
Proof.
  unfold endpoints. rewrite elem_of_cons, !elem_of_app.
  intros [->|[He|[He|[He|He]]]] Hroot Hrq; [done|..];
    apply endpoint_is_Some; unfold dispatch.
  - destruct (under_complete _ (auth_routes (rq_salt rq) (rq_now rq)) _ rq
                body e eq_refl He Hrq) as [req ->].
    done.
  - destruct (under_complete _ (users_routes (rq_salt rq)) _ rq body e
                eq_refl He Hrq) as [req ->].
    by repeat case_match.
  - destruct (under_complete _ blood_banks_routes _ rq body e eq_refl He Hrq)
      as [req ->].
    by repeat case_match.
  - destruct (under_complete _ donations_routes _ rq body e eq_refl He Hrq)
      as [req ->].
    by repeat case_match.
Qed.

(** ** The routing is exact *)

(** C28. A request reaches the handler of an endpoint below /api exactly when
    its method and its path match the endpoint (HEAD counts as GET,
    literals match without regard to case, one slash may end the path):
    the order in which the routes are registered and the routers mounted
    plays no part, and no request is taken by a handler of another
    endpoint. *)
Theorem dispatch_exact rq body e :
  e ∈ endpoints -> e <> (GET, []) ->
  endpoint (dispatch rq body) = Some e <-> matches rq e.
Proof.
  intros He Hroot. pose proof (dispatch_endpoint rq body) as Hsound. split.
  - intros Hd. rewrite Hd in Hsound. by destruct e.
  - intros Hrq. destruct (dispatch_routed rq body e He Hroot Hrq) as [e' He'].
    rewrite He' in *. f_equal.
    apply (distinct_unique endpoints rq);
      [apply endpoints_distinct|by eapply endpoint_listed|done| |done].
    by destruct e'.
Qed.

(** ** A concrete request *)

(** HEAD /API/Donations/7/ is the detail of donation 7. *)
Lemma dispatch_exact_witness :
  let rq := mkRequest HEAD ["API"; "Donations"; "7"; ""] no_query None
              (Fields (fun _ => JsUndefined)) "" 0 in
  endpoint (dispatch rq (fun _ => JsUndefined))
  = Some (GET, [Lit "api"; Lit "donations"; Param "id"])
  <-> matches rq (GET, [Lit "api"; Lit "donations"; Param "id"]).
Proof.
  intros rq.
  apply (dispatch_exact rq (fun _ => JsUndefined)
           (GET, [Lit "api"; Lit "donations"; Param "id"])); [|done].
  apply (bool_decide_unpack _). by vm_compute.
Defined.
