(* ===== verification/Atomicity.v ===== *)
(** * Atomicity: what an error tells the client

    Every handler of the four routers issues its one statement that
    writes as its last, and answers with a status below 400 as soon as
    the statement is answered: an INSERT, UPDATE or DELETE is never
    followed by a statement that can fail, nor by a test that answers
    with an error.  [commits] of [Outcomes] states it of the tree of a
    handler; this file proves it of every route and of the whole chain
    of server.js, so that a client that receives a 4xx or a 5xx knows
    that the store is as it was before its request, whichever statements
    failed ([serve_error_unchanged]).  Every handler also validates its
    request before it asks the store anything: a 400 is answered without
    a statement, but for the registration of an email that is taken,
    which the store must be asked about ([serve_validation_first]).  And
    no handler goes on after a statement has failed: the failure is the
    end of the request, which is answered 500 ([serve_store_failure]). *)

From Stdlib Require Import ZArith Lia.
From stdpp Require Import base tactics option list strings.
From S2P Require Import Prelude Outcomes Sorting Store Donations Stats.
From S2P Require Import BloodBanks Security Users Auth Interleaving.
From S2P Require Import Roundtrips Connections Server Http.

#[local] Open Scope Z_scope.

(** The response says that the request succeeded. *)
Definition sent_ok (e : Envelope) : Prop := env_status e < 400.

(** ** The statements that read *)

Section reads.
Context {driver : Driver} {collation : Collation}.

Lemma reads_sql_read {R} (f : Db -> R) : reads (sql_read f).
Proof. by intros db r db' [= _ <-]. Qed.

Lemma reads_keyed {R} id (q : Z -> Db -> option (R * Db)) :
  (forall n, reads (q n)) -> reads (keyed id q).
Proof.
  intros Hq. unfold keyed. destruct (bind_int id) as [n|]; [apply Hq|done].
Qed.

Lemma reads_keyed_read {R} id (f : Z -> Db -> R) :
  reads (keyed id (sql_read ∘ f)).
Proof. apply reads_keyed. intros n. apply reads_sql_read. Qed.

Lemma reads_select_id_by_email email : reads (select_id_by_email email).
Proof.
  intros db r db' Hq. unfold select_id_by_email in Hq. by simplify_option_eq.
Qed.

Lemma reads_select_user_by_email email : reads (select_user_by_email email).
Proof.
  intros db r db' Hq. unfold select_user_by_email in Hq.
  by simplify_option_eq.
Qed.

End reads.

(** Walk the tree of a handler whose definition is unfolded, down to
    what each statement must satisfy. *)
Ltac commits_walk := handler_walk ltac:(fail) ltac:(split).

(** A statement of a handler: a read, or the write the handler answers
    after. *)
Ltac commits_leaf :=
  first
    [ left;
      solve [ eapply reads_sql_read; eassumption
            | eapply reads_keyed_read; eassumption
            | eapply reads_select_id_by_email; eassumption
            | eapply reads_select_user_by_email; eassumption ]
    | right; eexists; split; [reflexivity|by unfold sent_ok] ].

(** ** The routes *)

Section routes.
Context {driver : Driver} {collation : Collation} {bcrypt : Bcrypt} {jwt : Jwt}.

Lemma donations_router_commits req : commits sent_ok (donations_router req).
Proof.
  destruct req; cbn [donations_router];
    unfold get_donations_by_user, post_donation, put_donation_status,
      get_donation, delete_donation; commits_walk; commits_leaf.
Qed.

Lemma blood_banks_router_commits req :
  commits sent_ok (blood_banks_router req).
Proof.
  destruct req; cbn [blood_banks_router];
    unfold get_blood_banks, get_blood_bank, get_blood_stock;
    commits_walk; commits_leaf.
Qed.

Lemma users_router_commits req : commits sent_ok (users_router req).
Proof.
  destruct req; cbn [users_router];
    unfold get_profile, put_profile, put_password, get_user_stats,
      bcrypt_compare, bcrypt_hash; commits_walk; commits_leaf.
Qed.

Lemma auth_router_commits secret req :
  commits sent_ok (auth_router secret req).
Proof.
  destruct req; cbn [auth_router];
    unfold register, login, bcrypt_compare, bcrypt_hash, jwt_sign;
    commits_walk; commits_leaf.
Qed.

End routes.

(** ** The server *)

Section server.
Context {driver : Driver} {collation : Collation} {bcrypt : Bcrypt} {jwt : Jwt}.

Lemma serve_commits secret rq : commits sent_ok (serve secret rq).
Proof.
  apply serve_app; [done|]. intros []; cbn [app];
    [apply auth_router_commits|apply users_router_commits
    |apply blood_banks_router_commits|apply donations_router_commits|done..].
Qed.

(** C21. An error means that nothing was written.  Whatever the request and
    whichever statements fail, a request that is answered with a status
    of 400 or above has left the store as it was. *)
Theorem serve_error_unchanged secret rq w e w' :
  run (serve secret rq) w = (Some e, w') -> 400 <= env_status e ->
  w_store w' = w_store w.
Proof.
  intros Hrun Hst.
  destruct (commits_run sent_ok _ w e w' (serve_commits secret rq) Hrun)
    as [Hok|Hsame]; [unfold sent_ok in Hok; lia|done].
Qed.

End server.

(** ** Validation comes first *)

(** The response is no 400, or it is the 400 of a registration whose
    email is taken. *)
Definition past_validation (e : Envelope) : Prop :=
  env_status e <> 400 \/ env_message e = Some "Email sudah terdaftar".

(** Walk the tree of a handler whose definition is unfolded, down to the
    responses it sends once it has asked the store. *)
Ltac asked_walk :=
  handler_walk ltac:(fail) ltac:(fail);
  try done; unfold past_validation; solve [left; done | right; done].

Section validation.
Context {driver : Driver} {collation : Collation} {bcrypt : Bcrypt} {jwt : Jwt}.

Lemma app_asked secret req : asked past_validation (app secret req).
Proof.
  app_routes req; asked_walk.
Qed.

Lemma serve_asked secret rq : asked past_validation (serve secret rq).
Proof.
  apply serve_app; [done|apply app_asked].
Qed.

(** C34. Validation comes before the store.  A request that is answered 400
    was answered before any statement was issued, unless it is the
    registration of an email that a user has. *)
Theorem serve_validation_first secret rq w e w' :
  run (serve secret rq) w = (Some e, w') -> env_status e = 400 ->
  env_message e <> Some "Email sudah terdaftar" ->
  queries_issued (serve secret rq) w = 0%nat.
Proof.
  intros Hrun Hst Hmsg.
  by destruct (asked_run past_validation _ w e w' (serve_asked secret rq) Hrun)
    as [?|[?|?]].
Qed.

End validation.

(** ** A failure of the store ends the request *)

(** Walk the tree of a handler whose definition is unfolded, along the
    statements that are answered, down to what the handler does when one
    is rejected. *)
Ltac fails_walk :=
  handler_walk ltac:(solve [eexists; split; [reflexivity|done]])
    ltac:(split).

Section failure.
Context {driver : Driver} {collation : Collation} {bcrypt : Bcrypt} {jwt : Jwt}.

Lemma app_fails_closed secret req :
  fails_closed (fun e => env_status e = 500) (app secret req).
Proof.
  app_routes req; fails_walk.
Qed.

Lemma serve_fails_closed secret rq :
  fails_closed (fun e => env_status e = 500) (serve secret rq).
Proof.
  apply serve_app; [done|apply app_fails_closed].
Qed.

(** C30. Every failure of the store is terminal.  A statement of a request
    that the environment fails is the last statement of the request: the
    handler does not retry and asks nothing more, and the request is
    answered 500. *)
Theorem serve_store_failure secret rq w i :
  w_faults w !! i = Some true ->
  (i < queries_issued (serve secret rq) w)%nat ->
  queries_issued (serve secret rq) w = S i
  /\ exists e, (run (serve secret rq) w).1 = Some e /\ env_status e = 500.
Proof. apply fails_closed_run, serve_fails_closed. Qed.

End failure.

(** ** Concrete runs *)

(** A donation whose INSERT fails. *)
Definition failed_post : Request :=
  written POST ["api"; "donations"] no_query
    [("user_id", JsNum 1); ("blood_bank_id", JsNum 1);
     ("donation_date", JsStr "2024-04-01"); ("blood_type", JsStr "A+");
     ("quantity", JsNum 350)] "" 0.

Lemma failed_post_run :
  run (serve None failed_post) (mkWorld sample_db [true])
  = (Some (envelope (json_error (D := unit) 500
                       "Gagal membuat permintaan donor")),
     mkWorld sample_db []).
Proof. by vm_compute. Qed.

Lemma serve_error_unchanged_witness :
  w_store (mkWorld sample_db []) = w_store (mkWorld sample_db [true]).
Proof.
  apply (serve_error_unchanged None failed_post (mkWorld sample_db [true])
           (envelope (json_error (D := unit) 500
                        "Gagal membuat permintaan donor"))
           (mkWorld sample_db []) failed_post_run).
  done.
Defined.

(** A donation without a quantity: 400, without a statement. *)
Definition incomplete_post : Request :=
  written POST ["api"; "donations"] no_query
    [("user_id", JsNum 1); ("blood_bank_id", JsNum 1);
     ("donation_date", JsStr "2024-04-01"); ("blood_type", JsStr "A+")] "" 0.

Lemma incomplete_post_run :
  run (serve None incomplete_post) (mkWorld sample_db [])
  = (Some (envelope (json_error (D := unit) 400 "Data tidak lengkap")),
     mkWorld sample_db []).
Proof. by vm_compute. Qed.

Lemma serve_validation_first_witness :
  queries_issued (serve None incomplete_post) (mkWorld sample_db []) = 0%nat.
Proof.
  apply (serve_validation_first None incomplete_post (mkWorld sample_db [])
           (envelope (json_error (D := unit) 400 "Data tidak lengkap"))
           (mkWorld sample_db []) incomplete_post_run); done.
Defined.

Lemma serve_store_failure_witness :
  queries_issued (serve None failed_post) (mkWorld sample_db [true]) = 1%nat
  /\ exists e, (run (serve None failed_post) (mkWorld sample_db [true])).1
               = Some e /\ env_status e = 500.
Proof.
  apply (serve_store_failure None failed_post (mkWorld sample_db [true]) 0);
    [done|by vm_compute].
Defined.
