(* ===== verification/Methods.v ===== *)
(** * Methods: what the methods of a request promise

    A client, a proxy and a crawler rely on what HTTP asks of the
    methods: a request with GET, HEAD or OPTIONS is safe, it asks for no
    change of state, and PUT and DELETE are idempotent, a request sent
    twice has the effect of the request sent once.  This file proves
    what the routers of the four route files give of it.  Every route
    registered for GET issues SELECT statements only, so a safe request
    never changes the store, alone or among other requests
    ([safe_methods_read_only]).  The update of a status, the update of a
    profile and the deletion of a donation are one statement that
    writes the same rows the same way when it is repeated
    ([routes_idempotent]); the creation of a donation is not
    ([post_twice]).  The change of a password reads before it writes
    and digests with a salt of its own: it is two statements and is
    left out. *)

From Stdlib Require Import ZArith Lia.
From stdpp Require Import base tactics option list strings relations.
From S2P Require Import Prelude Outcomes Sorting Store Donations Stats.
From S2P Require Import BloodBanks Security Users Auth Interleaving.
From S2P Require Import Connections Server Serial Http Atomicity.

#[local] Open Scope Z_scope.

(** ** Statements that can be repeated *)

Section idem.
Context {S : Type}.

(** The statement, run again on the store it left, leaves it as it
    is. *)
Definition idem {R} (q : S -> option (R * S)) : Prop :=
  forall s r s1 r' s2, q s = Some (r, s1) -> q s1 = Some (r', s2) -> s2 = s1.

Lemma reads_idem {R} (q : S -> option (R * S)) : reads q -> idem q.
Proof. intros Hq s r s1 r' s2 _ H2. by eapply Hq. Qed.

(** The store after a request of one statement is the store after its
    statement. *)
Lemma single_run_store {R A} (q : S -> option (R * S))
    (k : Outcome R -> Prog S A) w :
  answers 1 (fun _ => True) (Await q k) ->
  w_store (run (Await q k) w).2 = w_store (exec_query q w).2.
Proof.
  intros Hk. cbn. destruct (exec_query q w) as [o w1].
  specialize (Hk o). by destruct (k o).
Qed.

(** A request of one statement that can be repeated, run twice: the
    second run changes nothing, unless the first changed nothing. *)
Lemma single_idem_run {A} (p : Prog S A) w fs :
  answers 1 (fun _ => True) p -> statements (@idem) p ->
  let w1 := (run p w).2 in
  let w2 := (run p (mkWorld (w_store w1) fs)).2 in
  w_store w2 = w_store w1 \/ w_store w1 = w_store w.
Proof.
  destruct p as [a| |R q k]; intros Hone Hidem; [by left..|].
  cbv zeta. rewrite !single_run_store, !exec_query_eq by done.
  destruct (faulty w); [by right|].
  destruct (q (w_store w)) as [[r s1]|] eqn:H1; [|by right]. left.
  destruct (faulty _); [done|]. cbn.
  destruct (q s1) as [[r' s2]|] eqn:H2; [|done]. cbn.
  by eapply (proj1 Hidem).
Qed.

End idem.

(** ** The statements of the routes *)

Section statements.
Context {driver : Driver} {collation : Collation}.

Lemma keyed_idem {R} id (q : Z -> Db -> option (R * Db)) :
  (forall n, idem (q n)) -> idem (keyed id q).
Proof.
  intros Hq. unfold keyed. destruct (bind_int id) as [n|]; [apply Hq|].
  by intros s r s1 r' s2 ?.
Qed.

(** An UPDATE by key that writes given values, repeated. *)
Lemma sql_update_twice {Row} (key : Row -> Z) (f : Row -> Row) id t :
  (forall r, key (f r) = key r) -> (forall r, f (f r) = f r) ->
  sql_update (fun r => key r =? id) f (sql_update (fun r => key r =? id) f t)
  = sql_update (fun r => key r =? id) f t.
Proof.
  intros Hk Hf. unfold sql_update. rewrite <- list_fmap_compose.
  apply list_fmap_ext. intros _ r _. cbn.
  destruct (key r =? id) eqn:Hr; rewrite ?Hk, Hr; by rewrite ?Hf.
Qed.

(** A DELETE, repeated. *)
Lemma sql_delete_twice {Row} (p : Row -> bool) t :
  sql_delete p (sql_delete p t) = sql_delete p t.
Proof.
  unfold sql_delete. induction t as [|r t IH]; [done|]. cbn.
  destruct (p r) eqn:Hr; cbn; rewrite ?Hr; cbn; by rewrite IH.
Qed.

Lemma update_donation_status_idem status notes id :
  idem (update_donation_status status notes id).
Proof.
  intros db [] db1 [] db2 H1 H2. unfold update_donation_status in *.
  simplify_option_eq. unfold set_donations.
  cbn [users blood_banks blood_stock donation_history next_user_id
    next_donation_id db_now].
  by rewrite (sql_update_twice dh_id).
Qed.

Lemma delete_donation_row_idem id : idem (delete_donation_row id).
Proof.
  intros db [] db1 [] db2 [= <-] [= <-]. unfold set_donations.
  cbn [users blood_banks blood_stock donation_history next_user_id
    next_donation_id db_now].
  by rewrite sql_delete_twice.
Qed.

Lemma update_profile_idem name phone blood_type address id :
  idem (update_profile name phone blood_type address id).
Proof.
  intros db [] db1 [] db2 H1 H2. unfold update_profile in *.
  simplify_option_eq. unfold set_users.
  cbn [users blood_banks blood_stock donation_history next_user_id
    next_donation_id db_now].
  by rewrite (sql_update_twice u_id).
Qed.

End statements.

Create HintDb methods discriminated.

#[export] Hint Resolve reads_idem keyed_idem reads_sql_read reads_keyed_read
  reads_select_id_by_email reads_select_user_by_email
  update_donation_status_idem delete_donation_row_idem update_profile_idem
  : methods.

(** A statement of a route: a read, or a write that can be repeated. *)
Ltac idem_leaf :=
  idtac;
  lazymatch goal with
  | |- idem _ => solve [eauto 6 with methods]
  end.

(** ** The routes *)

(** The methods that ask for no change of state. *)
Definition safe_method (m : Method) : bool :=
  bool_decide (m ∈ [GET; HEAD; OPTIONS]).

(** The routes registered for GET, and the answers without a route. *)
Definition safe_route (req : ApiReq) : bool :=
  match endpoint req with
  | Some (m, _) => bool_decide (m = GET)
  | None => true
  end.

(** The routes of one statement that are not registered for POST. *)
Definition idempotent_route (req : ApiReq) : bool :=
  one_statement req
  && match endpoint req with
     | Some (m, _) => bool_decide (m <> POST)
     | None => true
     end.

Section routes.
Context {driver : Driver} {collation : Collation} {bcrypt : Bcrypt} {jwt : Jwt}.

Lemma app_silent secret req : safe_route req = true -> silent (app secret req).
Proof.
  intros Hsafe. unfold silent.
  app_routes req; try discriminate Hsafe; commits_walk; commits_leaf.
Qed.

Lemma app_idem secret req :
  idempotent_route req = true -> statements (@idem Db) (app secret req).
Proof.
  intros Hreq.
  app_routes req; try discriminate Hreq; handler_walk idem_leaf ltac:(split).
Qed.

(** A request with GET or HEAD reaches a route registered for GET, or
    none. *)
Lemma dispatch_safe rq body :
  rq_method rq = GET \/ rq_method rq = HEAD ->
  safe_route (dispatch rq body) = true.
Proof.
  intros Hm. pose proof (dispatch_endpoint rq body) as He. unfold safe_route.
  destruct (dispatch rq body) as [[]|[]|[]|[]| |]; cbn [endpoint] in *;
    try done; destruct He as [Hh _];
    by destruct Hm as [Hm|Hm]; rewrite Hm in Hh.
Qed.

Lemma serve_silent secret rq :
  safe_method (rq_method rq) = true -> silent (serve secret rq).
Proof.
  intros Hm%bool_decide_eq_true. unfold serve. case_bool_decide; [done|].
  destruct (rq_body rq) as [body|]; [|done].
  apply app_silent, dispatch_safe. set_solver.
Qed.

(** C22. Safe methods are safe.  A request with GET, HEAD or OPTIONS issues
    no statement that changes the store, so it changes nothing in
    whatever order its statements and those of other requests run; and
    when it runs alone, the store after it is the store before it,
    whatever it is answered and whichever statements fail. *)
Theorem safe_methods_read_only secret rq w :
  safe_method (rq_method rq) = true ->
  statements (fun R => reads) (serve secret rq)
  /\ w_store (run (serve secret rq) w).2 = w_store w.
Proof.
  intros Hm%(serve_silent secret). split; [by apply statements_silent|].
  by apply silent_run.
Qed.

(** PUT and DELETE are idempotent, where they are one statement.  The
    update of a status, the update of a profile and the deletion of a
    donation, sent twice: the second request changes nothing unless the
    first changed nothing, whichever statements fail. *)
Theorem routes_idempotent secret req w fs :
  idempotent_route req = true ->
  let w1 := (run (app secret req) w).2 in
  let w2 := (run (app secret req) (mkWorld (w_store w1) fs)).2 in
  w_store w2 = w_store w1 \/ w_store w1 = w_store w.
Proof.
  intros Hreq. apply single_idem_run; [|by apply app_idem].
  apply app_single. by apply andb_true_iff in Hreq as [? _].
Qed.

End routes.

(** ** Concrete runs *)

(** POST is not idempotent: the same donation sent twice is recorded
    twice, under two keys. *)
Example post_twice :
  let post :=
    app None
      (ApiDonations
         (PostDonation (JsNum 1) (JsNum 1) (JsStr "2024-04-01") (JsStr "A+")
            (JsNum 350) JsUndefined)) in
  let w1 := (run post (mkWorld sample_db [])).2 in
  let w2 := (run post (mkWorld (w_store w1) [])).2 in
  length (donation_history (w_store w1)) = 4%nat
  /\ length (donation_history (w_store w2)) = 5%nat.
Proof. by vm_compute. Qed.

Lemma safe_methods_read_only_witness :
  statements (fun R => reads)
    (serve None (written HEAD ["api"; "donations"; "1"] no_query [] "" 0))
  /\ w_store
       (run (serve None
               (written HEAD ["api"; "donations"; "1"] no_query [] "" 0))
          (mkWorld sample_db [])).2
     = w_store (mkWorld sample_db []).
Proof.
  exact (safe_methods_read_only None
           (written HEAD ["api"; "donations"; "1"] no_query [] "" 0)
           (mkWorld sample_db []) eq_refl).
Defined.

Lemma routes_idempotent_witness :
  let delete := app None (ApiDonations (DeleteDonation (JsStr "1"))) in
  let w1 := (run delete (mkWorld sample_db [])).2 in
  let w2 := (run delete (mkWorld (w_store w1) [])).2 in
  w_store w2 = w_store w1 \/ w_store w1 = w_store (mkWorld sample_db []).
Proof.
  exact (routes_idempotent None (ApiDonations (DeleteDonation (JsStr "1")))
           (mkWorld sample_db []) [] eq_refl).
Defined.
