(* ===== verification/Boot.v ===== *)
(** * Boot: the process from its start to its first request

    Loading server.js loads the routers, which load config/database.js:
    the pool is created and tested once, the test logging its outcome
    and nothing else; then server.js calls [app.listen(PORT, ...)],
    whose callback logs three lines once the port is bound.  This file
    holds the two callbacks and the console ([startup_console],
    [listening]), the binding of the port ([listen]) and the state of the
    process when both callbacks have run ([boot]).  Its theorems: the
    process listens on [PORT] whether or not the store could be reached;
    the state it starts to serve from satisfies the invariant of the
    server, so that the invariant holds in every state it reaches; from
    every state it reaches it comes to rest with every request answered
    once no more arrive; and when the store cannot be reached the
    process listens all the same and answers 500 to a request that
    needs the store. *)

From Stdlib Require Import ZArith Lia.
From stdpp Require Import base tactics option list strings relations gmap.
From S2P Require Import Prelude Outcomes Sorting Store Donations Stats.
From S2P Require Import BloodBanks Security Users Auth Interleaving.
From S2P Require Import Roundtrips Connections Server Http Atomicity.

#[local] Open Scope Z_scope.

(** ** The console *)

(** A line of [console.log] or of [console.error]. *)
Inductive Console : Type :=
| Out (line : string)
| Err (line : string).

#[export] Instance Console_eq_dec : EqDecision Console.
Proof. solve_decision. Defined.

(** [${v}] in a template literal. *)
Definition interpolate (v : JsVal) : string :=
  match v with
  | JsUndefined => "undefined"
  | JsNull => "null"
  | JsBool true => "true"
  | JsBool false => "false"
  | JsNum z => print_int z
  | JsStr s => s
  | JsObj => "[object Object]"
  end.

(** The callback of [app.listen]. *)
Definition listening (port : JsVal) : list Console :=
  [Out ("🚀 Server running on http://localhost:" ++ interpolate port);
   Out ("📱 For Flutter emulator use: http://10.0.2.2:" ++ interpolate port);
   Out ("📱 For device use your IP: http://[YOUR_IP]:" ++ interpolate port)].

(** The callback of the test of config/database.js: the error is logged
    and the callback returns, or the success is logged and the
    connection given back. *)
Definition startup_console {T} (o : PoolOptions) (up : bool) (cb : T)
    (c : Conns T) : list Console :=
  match (getConnection o up cb c).1 with
  | Connected => [Out "✅ Database connected successfully"]
  | Enqueued => []
  | Refused message => [Err ("❌ Error connecting to database: " ++ message)]
  end.

(** ** The process *)

(** [app.listen(port, callback)]: the server listens and the callback
    runs, or the port is not granted and the process ends. *)
Inductive Phase : Type :=
| Listening (port : JsVal)
| Ended.

#[export] Instance Phase_eq_dec : EqDecision Phase.
Proof. solve_decision. Defined.

Definition listen (port : JsVal) (granted : bool) : Phase * list Console :=
  if granted then (Listening port, listening port) else (Ended, []).

(** The process: whether it listens, the pool with the requests in
    flight and the store, and the console. *)
Record Process : Type := mkProcess {
  pr_phase : Phase;
  pr_server : Pooled (St := Db) (A := Envelope);
  pr_console : list Console
}.

(** The process once the test of the pool and [app.listen] have called
    back, in either order: [up] is whether the store can be reached,
    [granted] whether the port is, [tested_first] which callback ran
    first. *)
Definition boot (env : string -> option string) (up granted tested_first : bool)
    (db : Db) : Process :=
  let o := pool_options env in
  let tested := startup_console o up 0%nat createPool in
  let conns := (startup o up 0%nat createPool).2 in
  let '(phase, lines) := listen (PORT env) granted in
  mkProcess phase (mkPooled conns ∅ (db, []))
    (if tested_first then tested ++ lines else lines ++ tested).

(** ** The process listens *)

Section boot.
Context {driver : Driver} {collation : Collation} {bcrypt : Bcrypt} {jwt : Jwt}.
Context (secret : option string) (env : string -> option string).

(** The pool after the test: one idle connection when the store could
    be reached, none when it could not. *)
Lemma boot_server up granted tested_first db :
  pr_server (boot env up granted tested_first db)
  = mkPooled (if up then mkConns 1 1 [] else createPool) ∅ (db, []).
Proof. unfold boot, listen. by destruct up, granted. Qed.

(** When the port is granted the process listens on [PORT], whether or
    not the store could be reached. *)
Lemma boot_phase up tested_first db :
  pr_phase (boot env up true tested_first db) = Listening (PORT env).
Proof. done. Qed.

Lemma boot_inv up granted tested_first db :
  donations_inv db ->
  http_inv env (pr_server (boot env up granted tested_first db)).
Proof.
  intros Hdb. rewrite boot_server. split_and!; [|done|constructor].
  destruct up; [|apply createPool_inv].
  split; cbn; try done; try lia; [constructor|].
  intros i. rewrite elem_of_nil. set_solver.
Qed.

(** C31. The invariant of the server holds in every state the process
    reaches once it has started, whether or not the store could be
    reached at the start: keys are unique and below their counters,
    statuses are in the taxonomy, at most ten statements run at once,
    and callers wait only while ten do. *)
Theorem boot_inv_reachable up granted tested_first db x :
  donations_inv db ->
  rtc (http_step secret env)
    (pr_server (boot env up granted tested_first db)) x ->
  donations_inv (pd_pool x).1 /\ (size (pd_holding x) <= 10)%nat
  /\ (cn_queue (pd_conns x) <> [] -> size (pd_holding x) = 10%nat).
Proof.
  intros Hdb Hsteps.
  assert (http_inv env x) as (Hconns & Hx & _).
  { eapply (rtc_ind_r (http_inv env)); [|by eauto using http_step_inv|done].
    by apply boot_inv. }
  split; [done|]. by apply (conns_inv_limit (pool_options env)).
Qed.

(** The process at its start owes nothing. *)
Lemma boot_owes up granted tested_first db :
  donations_inv db ->
  http_owes env (pr_server (boot env up granted tested_first db)).
Proof.
  intros Hdb. destruct (boot_inv up granted tested_first db Hdb) as [Hconns _].
  split; [done|]. rewrite boot_server. exists [], [].
  split_and!; [constructor|done|cbn; lia].
Qed.

(** The process comes to rest.  Whatever requests have arrived since
    the start and whatever steps they have taken, whether or not the
    store could be reached at the start, once no more arrive every
    schedule through the pool ends, after at most six steps for each
    request in flight, and at its end every request has been answered
    with a response of a route. *)
Theorem boot_quiesces up granted tested_first db x :
  donations_inv db ->
  rtc (http_step secret env)
    (pr_server (boot env up granted tested_first db)) x ->
  let step := pooled_step (pool_options env) in
  sn step x
  /\ (forall n y, nsteps step n x y ->
        (n <= 2 * (statements_per_request * length (pd_pool x).2))%nat)
  /\ (forall y, rtc step x y -> nf step y ->
        exists rqs es, finished (pd_pool y).2 = Some es
                       /\ Forall2 http_envelope rqs es).
Proof.
  intros Hdb Hsteps.
  by eapply http_owes_quiesces; [apply boot_owes|].
Qed.


End boot.

(** ** Concrete runs *)

(** Without PORT in the environment the process listens on 3000 and says
    so. *)
Example boot_default_port :
  let p := boot (fun _ => None) true true false sample_db in
  pr_phase p = Listening (JsNum 3000)
  /\ pr_console p
     = [Out "🚀 Server running on http://localhost:3000";
        Out "📱 For Flutter emulator use: http://10.0.2.2:3000";
        Out "📱 For device use your IP: http://[YOUR_IP]:3000";
        Out "✅ Database connected successfully"]
  /\ pd_conns (pr_server p) = mkConns 1 1 [].
Proof. by vm_compute. Qed.

(** An empty PORT is no port: the process listens on 3000. *)
Example boot_empty_port :
  pr_phase (boot (fun x => if String.eqb x "PORT" then Some "" else None)
              true true false sample_db)
  = Listening (JsNum 3000).
Proof. done. Qed.

Lemma boot_inv_reachable_witness :
  donations_inv sample_db /\ (size (∅ : gset nat) <= 10)%nat
  /\ (@nil nat <> [] -> size (∅ : gset nat) = 10%nat).
Proof.
  exact (boot_inv_reachable None (fun _ => None) true true false sample_db
           (mkPooled (mkConns 1 1 []) ∅ (sample_db, []))
           sample_db_inv (rtc_refl _ _)).
Defined.

Lemma boot_quiesces_witness :
  let x := pr_server (boot (fun _ => None) true true false sample_db) in
  let step := pooled_step (pool_options (fun _ => None)) in
  sn step x
  /\ (forall n y, nsteps step n x y ->
        (n <= 2 * (statements_per_request * length (pd_pool x).2))%nat)
  /\ (forall y, rtc step x y -> nf step y ->
        exists rqs es, finished (pd_pool y).2 = Some es
                       /\ Forall2 http_envelope rqs es).
Proof.
  exact (boot_quiesces None (fun _ => None) true true false sample_db _
           sample_db_inv (rtc_refl _ _)).
Defined.

