(* ===== verification/Refinement.v ===== *)
(** * Refinement: the server implements the ledger

    [abs] reads a store as a ledger of [Ledger]: the tables of users and
    of donations by key, the two AUTO_INCREMENT counters, the blood
    banks and their stock.  Each of the six statements that write the
    store is one event of the ledger, or nothing when its WHERE clause
    finds no row ([insert_donation_logs] ... [update_password_logs]);
    every statement any handler can issue is one of them or a read
    ([logged]), and a handler answers with a success as soon as it has
    written ([Outcomes.commits]).  So the store of the server, whatever
    requests arrive, however their statements go through the pool and
    whichever fail, goes through a history of the ledger that has no
    more events than requests were answered with a success
    ([http_refines]).  What [Ledger] proves of every history then holds
    of the server ([http_records_kept]): no user is ever removed and no
    email changes, what was donated, by whom and where never changes, a
    key that was given up is never issued again, and blood banks and
    stock are never written. *)

From Stdlib Require Import ZArith Lia.
From stdpp Require Import base tactics option list strings relations gmap.
From S2P Require Import Prelude Outcomes Sorting Store Donations Stats.
From S2P Require Import BloodBanks Security Users Ledger Auth Interleaving.
From S2P Require Import Connections Server Http Atomicity.

#[local] Open Scope Z_scope.

(** ** The ledger of a store *)

Definition abs (db : Db) : Ledger :=
  mkLedger (user_map db) (donation_map db) (blood_banks db) (blood_stock db)
    (next_user_id db) (next_donation_id db).

(** The statement took the store from [db] to [db'] and the ledger
    through [e], or left the ledger as it was. *)
Definition logs (e : option Event) (db db' : Db) : Prop :=
  replay (option_list e) (abs db) = Some (abs db').

Lemma table_map_Forall {Row} (key : Row -> Z) (P : Row -> Prop) t :
  Forall P t -> map_Forall (fun k r => key r = k /\ P r) (table_map key t).
Proof.
  intros Ht k r [Hr Hk]%table_map_elem_of. split; [done|].
  by eapply Forall_forall in Ht.
Qed.

Lemma abs_wf db : donations_inv db -> ledger_wf (abs db).
Proof.
  intros [[] Hst]. split; cbn; [..|done].
  - eapply map_Forall_impl; [exact (table_map_Forall u_id _ _ wf_user_next)|].
    by intros k u [<- ?].
  - eapply map_Forall_impl;
      [exact (table_map_Forall dh_id _ _ wf_donation_next)|].
    by intros k d [<- ?].
  - eapply map_Forall_impl; [exact (table_map_Forall dh_id _ _ Hst)|].
    by intros k d [_ ?].
Qed.

(** ** What a write of a table is to its ledger *)

Lemma abs_insert_donation db d :
  db_wf db -> dh_id d = next_donation_id db ->
  abs (set_donations (fun t => t ++ [d]) (next_donation_id db + 1) db)
  = set_gifts <[dh_id d := d]> (next_donation_id db + 1) (abs db).
Proof.
  intros Hwf Hid. unfold abs, set_gifts, donation_map. cbn. f_equal.
  apply table_map_append. rewrite Hid. by apply next_donation_id_fresh.
Qed.

Lemma abs_insert_user db u :
  db_wf db -> u_id u = next_user_id db ->
  abs (set_users (fun t => t ++ [u]) (next_user_id db + 1) db)
  = set_members <[u_id u := u]> (next_user_id db + 1) (abs db).
Proof.
  intros [] Hid. unfold abs, set_members, user_map. cbn. f_equal.
  apply table_map_append.
  intros (u' & Hk & Hu')%list_elem_of_fmap.
  eapply Forall_forall in wf_user_next; [|done]. lia.
Qed.

(** An UPDATE by key writes the row of the key, when there is one. *)
Lemma table_map_update_key {Row} (key : Row -> Z) (f : Row -> Row) t k :
  (forall r, key (f r) = key r) ->
  table_map key (sql_update (fun r => key r =? k) f t)
  = match table_map key t !! k with
    | Some r => <[k := f r]> (table_map key t)
    | None => table_map key t
    end.
Proof.
  intros Hf. destruct (table_map key t !! k) as [r|] eqn:Hk.
  - rewrite table_map_update by done. by apply alter_present.
  - by rewrite sql_update_none by by apply table_map_lookup_None.
Qed.

Lemma abs_update_donation db f k :
  (forall d, dh_id (f d) = dh_id d) ->
  abs (set_donations (sql_update (fun d => dh_id d =? k) f)
         (next_donation_id db) db)
  = match donation_map db !! k with
    | Some d => set_gifts <[k := f d]> (next_donation_id db) (abs db)
    | None => abs db
    end.
Proof.
  intros Hf. unfold abs, donation_map. cbn -[table_map].
  rewrite table_map_update_key by done.
  by destruct (table_map dh_id _ !! k).
Qed.

Lemma abs_update_user db f k :
  (forall u, u_id (f u) = u_id u) ->
  abs (set_users (sql_update (fun u => u_id u =? k) f) (next_user_id db) db)
  = match user_map db !! k with
    | Some u => set_members <[k := f u]> (next_user_id db) (abs db)
    | None => abs db
    end.
Proof.
  intros Hf. unfold abs, user_map. cbn -[table_map].
  rewrite table_map_update_key by done.
  by destruct (table_map u_id _ !! k).
Qed.

Lemma abs_delete_donation db k :
  abs (set_donations (sql_delete (fun d => dh_id d =? k))
         (next_donation_id db) db)
  = match donation_map db !! k with
    | Some d => set_gifts (delete k) (next_donation_id db) (abs db)
    | None => abs db
    end.
Proof.
  unfold abs, donation_map. cbn -[table_map]. rewrite table_map_delete.
  destruct (table_map dh_id _ !! k) eqn:Hk; [done|]. by rewrite delete_id.
Qed.

(** ** The statements that write are events *)

Section statements.
Context {driver : Driver}.

(** The INSERT of a donation records it, pending, under the key it
    answers. *)
Lemma insert_donation_logs user_id blood_bank_id donation_date blood_type
    quantity notes db id db' :
  db_wf db ->
  insert_donation user_id blood_bank_id donation_date blood_type quantity
    notes db = Some (id, db') ->
  exists d, dh_id d = id /\ logs (Some (DonationRecorded d)) db db'.
Proof.
  intros Hwf Hq. unfold insert_donation in Hq. simplify_option_eq.
  eexists (mkDonation (next_donation_id db) _ _ _ _ _ "pending" _ _).
  split; [done|]. unfold logs. rewrite abs_insert_donation by done.
  cbn -[abs]. by rewrite bool_decide_true.
Qed.

(** The UPDATE of a status changes the status of the donation of the
    key, when there is one. *)
Lemma update_donation_status_logs status notes nt id db db' :
  status ∈ status_names -> bind_text_null notes = Some nt ->
  update_donation_status (JsStr status) notes id db = Some ((), db') ->
  logs ((fun _ => StatusChanged id status nt) <$> donation_map db !! id)
    db db'.
Proof.
  intros Hst Hnt Hq. unfold update_donation_status in Hq.
  rewrite bind_text_str, Hnt in Hq. simplify_option_eq.
  unfold logs. rewrite abs_update_donation by done.
  destruct (donation_map db !! id) as [d|] eqn:Hd; cbn -[abs]; [|done].
  change (lg_donations (abs db)) with (donation_map db). rewrite Hd. cbn.
  by rewrite bool_decide_true.
Qed.

(** The DELETE of a donation deletes the donation of the key, when there
    is one. *)
Lemma delete_donation_row_logs id db db' :
  delete_donation_row id db = Some ((), db') ->
  logs ((fun _ => DonationDeleted id) <$> donation_map db !! id) db db'.
Proof.
  intros [= <-]. unfold logs. rewrite abs_delete_donation.
  destruct (donation_map db !! id) as [d|] eqn:Hd; cbn -[abs]; [|done].
  change (lg_donations (abs db)) with (donation_map db). by rewrite Hd.
Qed.

(** The INSERT of a user registers the user under the key it answers. *)
Lemma insert_user_logs name email hashedPassword phone blood_type address
    db id db' :
  db_wf db ->
  insert_user name email hashedPassword phone blood_type address db
  = Some (id, db') ->
  exists u, u_id u = id /\ u_password u = hashedPassword
            /\ logs (Some (UserRegistered u)) db db'.
Proof.
  intros Hwf Hq. unfold insert_user in Hq. simplify_option_eq.
  eexists (mkUser (next_user_id db) _ _ _ _ _ _ _).
  split_and!; [done..|]. unfold logs. rewrite abs_insert_user by done.
  cbn -[abs]. by rewrite bool_decide_true.
Qed.

(** The UPDATE of a profile updates the profile of the user of the key,
    when there is one. *)
Lemma update_profile_logs name phone blood_type address n p bt a id db db' :
  bind_text name = Some n -> bind_text phone = Some p ->
  bind_text blood_type = Some bt -> bind_text address = Some a ->
  update_profile name phone blood_type address id db = Some ((), db') ->
  logs ((fun _ => ProfileUpdated id n p bt a) <$> user_map db !! id) db db'.
Proof.
  intros Hn Hp Hbt Ha Hq. unfold update_profile in Hq.
  rewrite Hn, Hp, Hbt, Ha in Hq. simplify_option_eq.
  unfold logs. rewrite abs_update_user by done.
  destruct (user_map db !! id) as [u|] eqn:Hu; cbn -[abs]; [|done].
  change (lg_members (abs db)) with (user_map db). by rewrite Hu.
Qed.

(** The UPDATE of a password changes the password of the user of the
    key, when there is one. *)
Lemma update_password_logs hashedPassword id db db' :
  update_password hashedPassword id db = Some ((), db') ->
  logs ((fun _ => PasswordChanged id hashedPassword) <$> user_map db !! id)
    db db'.
Proof.
  intros [= <-]. unfold logs. rewrite abs_update_user by done.
  destruct (user_map db !! id) as [u|] eqn:Hu; cbn -[abs]; [|done].
  change (lg_members (abs db)) with (user_map db). by rewrite Hu.
Qed.

End statements.

(** ** Every statement of every handler *)

(** On a sound store the statement is one event of the ledger, or leaves
    the ledger as it is. *)
Definition stmt_logs {R} (q : Db -> option (R * Db)) : Prop :=
  forall db r db', donations_inv db -> q db = Some (r, db') ->
    exists e, logs e db db'.

(** Every statement [p] can come to issue is. *)
Definition logged {A} (p : Prog Db A) : Prop := statements (@stmt_logs) p.

Create HintDb ledger discriminated.

Section handlers.
Context {driver : Driver} {collation : Collation} {bcrypt : Bcrypt} {jwt : Jwt}.

Lemma reads_logs {R} (q : Db -> option (R * Db)) : reads q -> stmt_logs q.
Proof. intros Hq db r db' _ Hdb. rewrite (Hq _ _ _ Hdb). by exists None. Qed.

Lemma keyed_logs {R} id (q : Z -> Db -> option (R * Db)) :
  (forall n, stmt_logs (q n)) -> stmt_logs (keyed id q).
Proof.
  intros Hq. unfold keyed. destruct (bind_int id) as [n|]; [apply Hq|].
  by intros db r db' _ ?.
Qed.

Lemma insert_donation_stmt user_id blood_bank_id donation_date blood_type
    quantity notes :
  stmt_logs
    (insert_donation user_id blood_bank_id donation_date blood_type quantity
       notes).
Proof.
  intros db r db' [Hwf _] Hq.
  destruct (insert_donation_logs _ _ _ _ _ _ _ _ _ Hwf Hq) as (d & _ & Hd).
  by exists (Some (DonationRecorded d)).
Qed.

Lemma update_donation_status_stmt status notes id :
  includes validStatuses status = true ->
  stmt_logs (update_donation_status status notes id).
Proof.
  intros (s & -> & Hs)%includes_validStatuses db [] db' _ Hq.
  destruct (bind_text_null notes) as [nt|] eqn:Hnt;
    [|unfold update_donation_status in Hq; by simplify_option_eq].
  eexists. by eapply update_donation_status_logs.
Qed.

Lemma delete_donation_row_stmt id : stmt_logs (delete_donation_row id).
Proof. intros db [] db' _ Hq. eexists. by eapply delete_donation_row_logs. Qed.

Lemma insert_user_stmt name email hashedPassword phone blood_type address :
  stmt_logs (insert_user name email hashedPassword phone blood_type address).
Proof.
  intros db r db' [Hwf _] Hq.
  destruct (insert_user_logs _ _ _ _ _ _ _ _ _ Hwf Hq) as (u & _ & _ & Hu).
  by exists (Some (UserRegistered u)).
Qed.

Lemma update_profile_stmt name phone blood_type address id :
  stmt_logs (update_profile name phone blood_type address id).
Proof.
  intros db [] db' _ Hq. pose proof Hq as Hq'. unfold update_profile in Hq'.
  destruct (bind_text name) eqn:Hn, (bind_text phone) eqn:Hp,
    (bind_text blood_type) eqn:Hbt, (bind_text address) eqn:Ha;
    try done.
  eexists. by apply (update_profile_logs name phone blood_type address).
Qed.

Lemma update_password_stmt hashedPassword id :
  stmt_logs (update_password hashedPassword id).
Proof. intros db [] db' _ Hq. eexists. by eapply update_password_logs. Qed.

End handlers.

#[export] Hint Resolve reads_logs keyed_logs reads_sql_read reads_keyed_read
  reads_select_id_by_email reads_select_user_by_email insert_donation_stmt
  update_donation_status_stmt delete_donation_row_stmt insert_user_stmt
  update_profile_stmt update_password_stmt : ledger.

(** A statement of a handler: a read, or one of the six that write. *)
Ltac logged_leaf :=
  idtac;
  lazymatch goal with
  | |- stmt_logs _ =>
      try match goal with
          | H : negb _ = false |- _ => apply negb_false_iff in H
          end;
      solve [eauto 6 with ledger]
  end.

Section routes.
Context {driver : Driver} {collation : Collation} {bcrypt : Bcrypt} {jwt : Jwt}.

Lemma app_logged secret req : logged (app secret req).
Proof.
  unfold logged. app_routes req; handler_walk logged_leaf ltac:(split).
Qed.

Lemma serve_logged secret rq : logged (serve secret rq).
Proof.
  apply serve_app; [done|apply app_logged].
Qed.

End routes.

(** ** The server *)

(** The requests answered with a success. *)
Definition ack (p : Prog Db Envelope) : nat :=
  match p with
  | Ret e => if bool_decide (env_status e < 400) then 1%nat else 0%nat
  | _ => 0%nat
  end.

Definition acknowledged (ps : list (Prog Db Envelope)) : nat :=
  sum_list_with ack ps.

(** What is known of a request in flight: its statements keep the
    invariant of the store, each is a read or one event, and a write is
    its last statement, answered with a success. *)
Definition sound_request (p : Prog Db Envelope) : Prop :=
  safe_prog donations_inv p /\ logged p /\ commits sent_ok p.

(** The store is sound, and its ledger has a history from [l0] with no
    more events than requests were answered with a success. *)
Record accounted (l0 : Ledger) (c : Db * list (Prog Db Envelope)) : Prop := {
  acc_inv : donations_inv c.1;
  acc_requests : Forall sound_request c.2;
  acc_history : exists es,
    replay es l0 = Some (abs c.1) /\ (length es <= acknowledged c.2)%nat
}.

Section server.
Context {driver : Driver} {collation : Collation} {bcrypt : Bcrypt} {jwt : Jwt}.
Context (l0 : Ledger).

Lemma sound_request_next {R} (q : Db -> option (R * Db)) k o :
  sound_request (Await q k) -> sound_request (k o).
Proof.
  intros ((_ & Hs) & (_ & Hl) & (_ & Hc)).
  split_and!; [apply Hs|apply Hl|apply Hc].
Qed.

Lemma serve_sound secret rq : sound_request (serve secret rq).
Proof.
  split_and!; [apply serve_safe|apply serve_logged|apply serve_commits].
Qed.

Lemma acknowledged_app ps qs :
  acknowledged (ps ++ qs) = (acknowledged ps + acknowledged qs)%nat.
Proof. apply sum_list_with_app. Qed.

Lemma acknowledged_step {R} ps i (q : Db -> option (R * Db)) k p :
  ps !! i = Some (Await q k) ->
  acknowledged (<[i := p]> ps) = (acknowledged ps + ack p)%nat.
Proof.
  unfold acknowledged. revert i.
  induction ps as [|p' ps IH]; intros [|i] Hi; simplify_eq/=; [lia|].
  rewrite (IH i Hi). lia.
Qed.

(** A statement that leaves the store as it is leaves the history. *)
Lemma accounted_same ps i {R} (q : Db -> option (R * Db)) k o db :
  ps !! i = Some (Await q k) ->
  accounted l0 (db, ps) -> accounted l0 (db, <[i := k o]> ps).
Proof.
  intros Hi [Hdb Hps (es & Hes & Hlen)]. cbn [fst snd] in *.
  split; cbn [fst snd pd_pool]; [done|..].
  - apply Forall_insert; [done|].
    eapply sound_request_next, (Forall_lookup_1 _ _ _ _ Hps Hi).
  - exists es. rewrite (acknowledged_step _ _ q k) by done. split; [done|lia].
Qed.

(** A step of a request in flight: a read or a failure leaves the
    history, a write adds its event and is answered with a success. *)
Lemma pool_step_accounted c c' :
  pool_step c c' -> accounted l0 c -> accounted l0 c'.
Proof.
  intros [R i q k db ps r db' Hi Hq|R i q k db ps Hi] Hacc;
    [|by eapply accounted_same].
  pose proof Hacc as [Hdb Hps (es & Hes & Hlen)]. cbn [fst snd] in *.
  destruct (Forall_lookup_1 _ _ _ _ Hps Hi)
    as ((Hsafe & _) & (Hlog & _) & (Hcom & _)).
  destruct (Hcom _ _ _ Hq) as [->|(e & Hk & He)]; [by eapply accounted_same|].
  destruct (Hlog _ _ _ Hdb Hq) as (ev & Hev).
  split; cbn [fst snd pd_pool]; [by eapply Hsafe|..].
  - apply Forall_insert; [done|].
    eapply sound_request_next, (Forall_lookup_1 _ _ _ _ Hps Hi).
  - exists (es ++ option_list ev).
    rewrite replay_app, Hes, (acknowledged_step _ _ q k), Hk by done. cbn.
    rewrite bool_decide_true, length_app by done.
    split; [by destruct ev|destruct ev; cbn; lia].
Qed.

Lemma http_step_accounted secret env x y :
  http_step secret env x y ->
  accounted l0 (pd_pool x) -> accounted l0 (pd_pool y).
Proof.
  intros [rq c hs db ps|x' y' Hstep] Hacc.
  - destruct Hacc as [Hdb Hps (es & Hes & Hlen)]. cbn [fst snd pd_pool] in *.
    split; cbn [fst snd pd_pool]; [done|..].
    + apply Forall_app. split; [done|]. apply Forall_singleton, serve_sound.
    + exists es. rewrite acknowledged_app. split; [done|lia].
  - destruct (pooled_step_pool _ x' y' Hstep) as [->|Hpool]; [done|].
    by eapply pool_step_accounted.
Qed.

End server.

Section refinement.
Context {driver : Driver} {collation : Collation} {bcrypt : Bcrypt} {jwt : Jwt}.

Lemma http_steps_accounted secret env db x :
  donations_inv db ->
  rtc (http_step secret env) (pooled_server secret [] db) x ->
  accounted (abs db) (pd_pool x).
Proof.
  intros Hdb Hsteps.
  eapply (rtc_ind_r (fun x => accounted _ (pd_pool x))); [| |done].
  - split; cbn [fst snd pd_pool]; [done|constructor|]. by exists [].
  - intros y z _ Hstep. by apply (http_step_accounted _ secret env).
Qed.

(** C6. Refinement.  Whatever requests arrive and whenever, however their
    statements go through the pool and whichever fail, the store the
    server reaches is reached by a history of the ledger from where it
    started, and the history has no more events than requests were
    answered with a success: the server does to its records what the
    six events do and nothing else, and it writes nothing that it does
    not acknowledge. *)
Theorem http_refines secret env db x :
  donations_inv db ->
  rtc (http_step secret env) (pooled_server secret [] db) x ->
  exists es, replay es (abs db) = Some (abs (pd_pool x).1)
             /\ (length es <= acknowledged (pd_pool x).2)%nat.
Proof. intros Hdb Hsteps. by eapply http_steps_accounted. Qed.

(** C15. What the server never does to its records.  Whatever requests it
    receives and however they interleave, it removes no user and changes
    no email, it changes of a donation nothing but the status and the
    notes, it issues no key of a deleted donation again, and it writes
    neither the blood banks nor their stock. *)
Theorem http_records_kept secret env db x :
  donations_inv db ->
  rtc (http_step secret env) (pooled_server secret [] db) x ->
  let db' := (pd_pool x).1 in
  blood_banks db' = blood_banks db /\ blood_stock db' = blood_stock db
  /\ (forall k u, user_map db !! k = Some u ->
        exists u', user_map db' !! k = Some u' /\ identity u' = identity u)
  /\ (forall k d d', donation_map db !! k = Some d ->
        donation_map db' !! k = Some d' -> gift d' = gift d)
  /\ (forall k, k < next_donation_id db -> donation_map db !! k = None ->
        donation_map db' !! k = None).
Proof.
  intros Hdb Hsteps db'.
  destruct (http_steps_accounted secret env db x Hdb Hsteps)
    as [_ _ (es & Hes & _)].
  apply replay_extends in Hes as [_ []]; [|by apply abs_wf]. done.
Qed.

End refinement.

(** ** A concrete run *)

(** The deletion of donation 1 of [sample_db] is a history of one
    event, and the request was answered with a success. *)
Example sample_deleted_history :
  replay [DonationDeleted 1] (abs sample_db)
  = Some (abs (pd_pool sample_deleted).1)
  /\ acknowledged (pd_pool sample_deleted).2 = 1%nat.
Proof. by_decide. Qed.

Lemma http_refines_witness :
  exists es, replay es (abs sample_db) = Some (abs (pd_pool sample_deleted).1)
             /\ (length es <= acknowledged (pd_pool sample_deleted).2)%nat.
Proof.
  exact (http_refines None (fun _ => None) sample_db sample_deleted
           sample_db_inv sample_deleted_reached).
Defined.

Lemma http_records_kept_witness :
  let db' := (pd_pool sample_deleted).1 in
  blood_banks db' = blood_banks sample_db
  /\ blood_stock db' = blood_stock sample_db
  /\ (forall k u, user_map sample_db !! k = Some u ->
        exists u', user_map db' !! k = Some u' /\ identity u' = identity u)
  /\ (forall k d d', donation_map sample_db !! k = Some d ->
        donation_map db' !! k = Some d' -> gift d' = gift d)
  /\ (forall k, k < next_donation_id sample_db ->
        donation_map sample_db !! k = None -> donation_map db' !! k = None).
Proof.
  exact (http_records_kept None (fun _ => None) sample_db sample_deleted
           sample_db_inv sample_deleted_reached).
Defined.
