(* ===== verification/Ordering.v ===== *)
(** * Ordering: the ledger determines the store

    AUTO_INCREMENT issues keys in ascending order, an INSERT appends its
    row, an UPDATE leaves every row where it is and a DELETE closes the
    gap: the rows of [users] and of [donation_history] stay in the
    order of their keys ([ordered]), which is the order a table is read
    in without ORDER BY.  Two stores in that order that are the same
    ledger at the same time are the same store ([abs_inj]), so that
    nothing the server can answer depends on more than the ledger: the
    abstraction of [Refinement] forgets nothing ([http_store_exact]),
    and the order in which independent writes took effect cannot be
    told from the store ([http_trace_exact], with [Traces]). *)

From Stdlib Require Import ZArith Lia.
From stdpp Require Import base tactics option list strings relations gmap.
From stdpp Require Import sorting.
From S2P Require Import Prelude Outcomes Store Donations Stats BloodBanks.
From S2P Require Import Security Users Ledger Traces Auth Interleaving.
From S2P Require Import Connections.
From S2P Require Import Server Http Atomicity Refinement.

#[local] Open Scope Z_scope.

(** ** Tables in the order of their keys *)

Section keys.
Context {Row : Type} (key : Row -> Z).
Implicit Types (t : list Row) (r : Row).

(** [r] comes before [r'] in the order of the key. *)
Definition before (r r' : Row) : Prop := key r < key r'.

#[export] Instance before_dec : RelDecision before.
Proof. intros r r'. unfold before. apply _. Defined.

#[export] Instance before_antisymm : AntiSymm (=) before.
Proof. intros r r'. unfold before. lia. Qed.

(** The rows are in ascending order of their keys. *)
Definition keys_sorted t : Prop := StronglySorted before t.

Lemma keys_sorted_NoDup t : keys_sorted t -> NoDup (key <$> t).
Proof.
  induction 1 as [|r t _ IH Hr]; csimpl; constructor; [|done].
  intros (r' & Hk & Hr')%list_elem_of_fmap.
  eapply Forall_forall in Hr; [|done]. unfold before in Hr. lia.
Qed.

(** DELETE closes the gap. *)
Lemma keys_sorted_delete p t : keys_sorted t -> keys_sorted (sql_delete p t).
Proof.
  induction 1 as [|r t _ IH Hr]; cbn; [constructor|].
  destruct (p r); cbn; [done|]. constructor; [done|].
  apply Forall_forall. intros r' [Hr' _]%elem_of_sql_delete.
  by eapply Forall_forall in Hr.
Qed.

(** UPDATE leaves every row where it is, when it does not write the
    key. *)
Lemma keys_sorted_update p f t :
  (forall r, key (f r) = key r) -> keys_sorted t ->
  keys_sorted (sql_update p f t).
Proof.
  intros Hf. apply StronglySorted_fmap. intros r r'. unfold before.
  destruct (p r), (p r'); rewrite ?Hf; lia.
Qed.

(** INSERT appends: the key of the counter is above every key. *)
Lemma keys_sorted_append t r :
  Forall (fun r' => key r' < key r) t -> keys_sorted t ->
  keys_sorted (t ++ [r]).
Proof.
  intros Hr Ht. apply StronglySorted_app_2; [|done|repeat constructor].
  intros r1 r2 Hr1 ->%list_elem_of_singleton.
  by eapply Forall_forall in Hr.
Qed.

(** A table in the order of its keys is determined by what it holds
    under each key. *)
Lemma table_map_inj t1 t2 :
  keys_sorted t1 -> keys_sorted t2 ->
  table_map key t1 = table_map key t2 -> t1 = t2.
Proof.
  intros H1 H2 Hm. apply (StronglySorted_unique before); [done..|].
  apply list_to_map_inj in Hm;
    [|rewrite <- list_fmap_compose; by apply keys_sorted_NoDup..].
  apply (fmap_Permutation snd) in Hm.
  by rewrite <- !list_fmap_compose, !list_fmap_id in Hm.
Qed.

End keys.

(** ** The store in the order of its keys *)

(** Users and donations are in the order of their keys. *)
Definition ordered (db : Db) : Prop :=
  keys_sorted u_id (users db) /\ keys_sorted dh_id (donation_history db).

#[export] Instance ordered_dec db : Decision (ordered db).
Proof. unfold ordered, keys_sorted. apply _. Defined.

(** The store is sound and in order, at the time [now]. *)
Definition arranged (now : Z) (db : Db) : Prop :=
  donations_inv db /\ ordered db /\ db_now db = now.

(** The ledger and the time determine the store. *)
Lemma abs_inj db1 db2 :
  ordered db1 -> ordered db2 -> db_now db1 = db_now db2 ->
  abs db1 = abs db2 -> db1 = db2.
Proof.
  intros [Hu1 Hd1] [Hu2 Hd2] Hnow [= Hu Hd Hb Hs Hnu Hnd].
  apply (table_map_inj u_id) in Hu; [|done..].
  apply (table_map_inj dh_id) in Hd; [|done..].
  destruct db1, db2; by simplify_eq/=.
Qed.

(** ** Every statement keeps the order *)

(** On a sound store in order the statement keeps the order, and the
    time. *)
Definition keeps_order {R} (q : Db -> option (R * Db)) : Prop :=
  forall db r db', db_wf db -> ordered db -> q db = Some (r, db') ->
    ordered db' /\ db_now db' = db_now db.

Create HintDb ordering discriminated.

Section statements.
Context {driver : Driver} {collation : Collation}.

Lemma reads_keeps_order {R} (q : Db -> option (R * Db)) :
  reads q -> keeps_order q.
Proof. intros Hq db r db' _ Hdb Hr. by rewrite (Hq _ _ _ Hr). Qed.

Lemma keyed_keeps_order {R} id (q : Z -> Db -> option (R * Db)) :
  (forall n, keeps_order (q n)) -> keeps_order (keyed id q).
Proof.
  intros Hq. unfold keyed. destruct (bind_int id) as [n|]; [apply Hq|].
  by intros db r db' _ _ ?.
Qed.

(** A statement on one table that keeps its order keeps the order of
    the store. *)
Lemma set_donations_ordered f n db :
  ordered db -> keys_sorted dh_id (f (donation_history db)) ->
  ordered (set_donations f n db)
  /\ db_now (set_donations f n db) = db_now db.
Proof. by intros [Hu Hd] Hf. Qed.

Lemma set_users_ordered f n db :
  ordered db -> keys_sorted u_id (f (users db)) ->
  ordered (set_users f n db) /\ db_now (set_users f n db) = db_now db.
Proof. by intros [Hu Hd] Hf. Qed.

Lemma insert_donation_keeps_order user_id blood_bank_id donation_date
    blood_type quantity notes :
  keeps_order
    (insert_donation user_id blood_bank_id donation_date blood_type quantity
       notes).
Proof.
  intros db r db' Hwf Hdb Hq. unfold insert_donation in Hq.
  simplify_option_eq. apply set_donations_ordered; [done|].
  apply keys_sorted_append; [|apply Hdb].
  eapply Forall_impl; [apply (wf_donation_next db Hwf)|]. intros d. cbn. lia.
Qed.

Lemma update_donation_status_keeps_order status notes id :
  keeps_order (update_donation_status status notes id).
Proof.
  intros db r db' _ Hdb Hq. unfold update_donation_status in Hq.
  simplify_option_eq. apply set_donations_ordered; [done|].
  by apply keys_sorted_update; [|apply Hdb].
Qed.

Lemma delete_donation_row_keeps_order id :
  keeps_order (delete_donation_row id).
Proof.
  intros db r db' _ Hdb [= _ <-]. apply set_donations_ordered; [done|].
  apply keys_sorted_delete, Hdb.
Qed.

Lemma insert_user_keeps_order name email hashedPassword phone blood_type
    address :
  keeps_order (insert_user name email hashedPassword phone blood_type address).
Proof.
  intros db r db' Hwf Hdb Hq. unfold insert_user in Hq.
  simplify_option_eq. apply set_users_ordered; [done|].
  apply keys_sorted_append; [|apply Hdb].
  eapply Forall_impl; [apply (wf_user_next db Hwf)|]. intros u. cbn. lia.
Qed.

Lemma update_profile_keeps_order name phone blood_type address id :
  keeps_order (update_profile name phone blood_type address id).
Proof.
  intros db r db' _ Hdb Hq. unfold update_profile in Hq.
  simplify_option_eq. apply set_users_ordered; [done|].
  by apply keys_sorted_update; [|apply Hdb].
Qed.

Lemma update_password_keeps_order hashedPassword id :
  keeps_order (update_password hashedPassword id).
Proof.
  intros db r db' _ Hdb [= _ <-]. apply set_users_ordered; [done|].
  by apply keys_sorted_update; [|apply Hdb].
Qed.

End statements.

#[export] Hint Resolve reads_keeps_order keyed_keeps_order reads_sql_read
  reads_keyed_read reads_select_id_by_email reads_select_user_by_email
  insert_donation_keeps_order update_donation_status_keeps_order
  delete_donation_row_keeps_order insert_user_keeps_order
  update_profile_keeps_order update_password_keeps_order : ordering.

(** A statement of a handler: a read, or one of the six that write. *)
Ltac ordering_leaf :=
  idtac;
  lazymatch goal with
  | |- keeps_order _ => solve [eauto 6 with ordering]
  end.

Section routes.
Context {driver : Driver} {collation : Collation} {bcrypt : Bcrypt} {jwt : Jwt}.

Lemma app_keeps_order secret req : statements (@keeps_order) (app secret req).
Proof.
  app_routes req; handler_walk ordering_leaf ltac:(split).
Qed.

Lemma serve_keeps_order secret rq :
  statements (@keeps_order) (serve secret rq).
Proof.
  apply serve_app; [done|apply app_keeps_order].
Qed.

(** Statements that keep the store sound and keep the order keep it
    sound and in order. *)
Lemma arranged_safe now {A} (p : Prog Db A) :
  safe_prog donations_inv p -> statements (@keeps_order) p ->
  safe_prog (arranged now) p.
Proof.
  intros Hs Hk. apply statements_safe.
  eapply statements_mono;
    [|apply statements_and; [apply statements_safe, Hs|apply Hk]].
  intros R q [Hinv Hord] db r db' (Hdb & Ho & Hnow) Hq.
  destruct (Hord db r db' (proj1 Hdb) Ho Hq) as [Ho' Hnow'].
  split_and!; [by eapply Hinv|done|congruence].
Qed.

Lemma app_arranged now secret req : safe_prog (arranged now) (app secret req).
Proof. apply arranged_safe; [apply app_safe|apply app_keeps_order]. Qed.

(** Every statement of every request keeps the store sound and in
    order. *)
Lemma serve_arranged now secret rq :
  safe_prog (arranged now) (serve secret rq).
Proof. apply arranged_safe; [apply serve_safe|apply serve_keeps_order]. Qed.

End routes.

(** ** The server *)

Section server.
Context {driver : Driver} {collation : Collation} {bcrypt : Bcrypt} {jwt : Jwt}.
Context (secret : option string) (env : string -> option string).

(** What the server keeps: the store is sound and in order at the time
    [now], and so will it be after every statement of the requests in
    flight. *)
Definition http_arranged (now : Z)
    (x : Pooled (St := Db) (A := Envelope)) : Prop :=
  arranged now (pd_pool x).1
  /\ Forall (safe_prog (arranged now)) (pd_pool x).2.

Lemma http_step_arranged now x y :
  http_step secret env x y -> http_arranged now x -> http_arranged now y.
Proof.
  intros [rq c hs db ps|x' y' Hstep] [Hdb Hps].
  - split; [done|]. apply Forall_app. split; [done|].
    apply Forall_singleton, serve_arranged.
  - by apply (pooled_step_safe (pool_options env) (arranged now) x' y').
Qed.

Lemma http_steps_arranged db x :
  donations_inv db -> ordered db ->
  rtc (http_step secret env) (pooled_server secret [] db) x ->
  arranged (db_now db) (pd_pool x).1.
Proof.
  intros Hdb Ho Hsteps.
  eapply proj1, (rtc_ind_r (http_arranged (db_now db))); [| |done].
  - by split; [|constructor].
  - intros y z _ Hstep. by apply http_step_arranged.
Qed.

(** A state the server reaches is the store its ledger determines. *)
Lemma http_ledger_inj db x y :
  donations_inv db -> ordered db ->
  rtc (http_step secret env) (pooled_server secret [] db) x ->
  rtc (http_step secret env) (pooled_server secret [] db) y ->
  abs (pd_pool x).1 = abs (pd_pool y).1 -> (pd_pool x).1 = (pd_pool y).1.
Proof.
  intros Hdb Ho Hx Hy Habs.
  destruct (http_steps_arranged db x Hdb Ho Hx) as (_ & Hox & Hnx).
  destruct (http_steps_arranged db y Hdb Ho Hy) as (_ & Hoy & Hny).
  apply abs_inj; [done..|congruence|done].
Qed.

(** The order in which independent writes took effect is not recorded:
    two states the server reaches through histories that are the same
    trace are the same store. *)
Theorem http_trace_exact db x y es es' :
  donations_inv db -> ordered db ->
  rtc (http_step secret env) (pooled_server secret [] db) x ->
  rtc (http_step secret env) (pooled_server secret [] db) y ->
  replay es (abs db) = Some (abs (pd_pool x).1) ->
  replay es' (abs db) = Some (abs (pd_pool y).1) ->
  same_trace es es' ->
  (pd_pool x).1 = (pd_pool y).1.
Proof.
  intros Hdb Ho Hx Hy Hes Hes' Htr. apply (http_ledger_inj db); [done..|].
  rewrite Htr in Hes. congruence.
Qed.


End server.

(** ** A concrete run *)

Lemma sample_db_ordered : ordered sample_db.
Proof. by_decide. Qed.

(** Out of order the ledger does not determine the store: the two rows
    of a table either way round are the same ledger. *)
Example unordered_same_ledger :
  let d1 := mkDonation 1 1 1 20240110 "A+" 300 "completed" None 20 in
  let d2 := mkDonation 2 1 1 20240305 "A+" 200 "pending" None 30 in
  let db1 := mkDb [] [] [] [d1; d2] 1 3 0 in
  let db2 := mkDb [] [] [] [d2; d1] 1 3 0 in
  abs db1 = abs db2 /\ donation_history db1 <> donation_history db2
  /\ ordered db1 /\ ~ ordered db2.
Proof. cbv zeta. split_and!; by_decide. Qed.

