(* ===== verification/Concrete.v ===== *)
(** * Concrete: the store of a ledger

    [Refinement.abs] reads a store as a ledger; this file goes the
    other way.  [rows] reads a map in ascending order of the key, which
    is the order in which the server keeps a table ([Ordering.ordered]),
    and [conc] lays a ledger out as the store that holds its records in
    that order at a given time.  The two are inverse ([conc_abs]): the
    store of the ledger of a store in order is that store
    ([conc_abs_ordered]), and the ledger of the store of a well-formed
    ledger is that ledger ([abs_conc_wf]), a store the server could hold
    ([conc_wf], [conc_ordered]).  A ledger can so be read wherever the
    code reads a table, which is how [Contract] specifies the
    listings. *)

From Stdlib Require Import ZArith Lia.
From stdpp Require Import base tactics option list strings relations gmap.
From stdpp Require Import sorting.
From S2P Require Import Prelude Sorting Store Donations Users Ledger.
From S2P Require Import Refinement Ordering.

#[local] Open Scope Z_scope.

(** ** A map read in the order of its keys *)

Section rows.
Context {Row : Type} (key : Row -> Z).
Implicit Types (m : gmap Z Row) (t : list Row).

(** The records of a map, the least key first. *)
Definition rows m : list Row := stable_sort (asc_by key) (map_to_list m).*2.

(** Every record is under its own key. *)
Definition keyed_by m : Prop := map_Forall (fun k r => key r = k) m.

Lemma table_map_keyed t : keyed_by (table_map key t).
Proof. by intros k r [_ ?]%table_map_elem_of. Qed.

Lemma keyed_by_pairs m :
  keyed_by m -> (fun r => (key r, r)) <$> (map_to_list m).*2 = map_to_list m.
Proof.
  intros Hm. rewrite <- list_fmap_compose.
  rewrite <- (list_fmap_id (map_to_list m)) at 2.
  apply list_fmap_ext. intros _ [k r] Hkr%list_elem_of_lookup_2. cbn.
  apply elem_of_map_to_list in Hkr. by rewrite (Hm k r Hkr).
Qed.

Lemma rows_perm m : rows m ≡ₚ (map_to_list m).*2.
Proof. apply stable_sort_perm. Qed.

Lemma elem_of_rows m r : keyed_by m -> r ∈ rows m <-> m !! key r = Some r.
Proof.
  intros Hm. unfold rows. rewrite stable_sort_elem_of, list_elem_of_fmap. split.
  - intros ([k r'] & -> & Hr%elem_of_map_to_list). cbn.
    by rewrite (Hm k r' Hr).
  - intros Hr. exists (key r, r). by rewrite elem_of_map_to_list.
Qed.

Lemma rows_keys_NoDup m : keyed_by m -> NoDup (key <$> rows m).
Proof.
  intros Hm. rewrite rows_perm.
  replace (key <$> (map_to_list m).*2) with ((map_to_list m).*1);
    [apply NoDup_fst_map_to_list|].
  by rewrite <- (keyed_by_pairs m Hm) at 1; rewrite <- list_fmap_compose.
Qed.

(** The rows are in the order of the keys. *)
Lemma rows_sorted m : keyed_by m -> keys_sorted key (rows m).
Proof.
  intros Hm%rows_keys_NoDup. unfold keys_sorted, before.
  pose proof (asc_sort_sorted key (map_to_list m).*2) as Hs.
  fold (rows m) in Hs.
  induction Hs as [|r t _ IH Hr]; constructor.
  - apply IH. by apply NoDup_cons in Hm as [_ ?].
  - apply NoDup_cons in Hm as [Hr' _]. apply Forall_forall. intros r' Hin.
    pose proof (proj1 (Forall_forall _ _) Hr r' Hin) as Hle. cbn in Hle.
    assert (key r <> key r'); [|lia].
    intros Heq. apply Hr'. rewrite Heq. by apply list_elem_of_fmap_2.
Qed.

(** The table of the rows of a map is the map. *)
Lemma table_map_rows m : keyed_by m -> table_map key (rows m) = m.
Proof.
  intros Hm. unfold table_map.
  rewrite <- (list_to_map_to_list m) at 2. apply list_to_map_proper.
  - rewrite <- list_fmap_compose. by apply rows_keys_NoDup.
  - by rewrite rows_perm, keyed_by_pairs.
Qed.

(** The rows of a table in the order of its keys are the table. *)
Lemma rows_table_map t : keys_sorted key t -> rows (table_map key t) = t.
Proof.
  intros Ht. apply (table_map_inj key); [|done|].
  - apply rows_sorted, table_map_keyed.
  - apply table_map_rows, table_map_keyed.
Qed.

End rows.

(** ** The store of a ledger *)

(** The store that holds the records of the ledger in the order of their
    keys, at the time [now]. *)
Definition conc (now : Z) (l : Ledger) : Db :=
  mkDb (rows u_id (lg_members l)) (lg_banks l) (lg_stock l)
    (rows dh_id (lg_donations l)) (lg_next_member l) (lg_next_donation l) now.

(** The ledger of a store the server could hold: well-formed, with no
    two blood banks under one key. *)
Definition ledger_ok (l : Ledger) : Prop :=
  ledger_wf l /\ NoDup (bb_id <$> lg_banks l).

Lemma ledger_members_keyed l : ledger_wf l -> keyed_by u_id (lg_members l).
Proof. intros Hwf k u Hu. by destruct (member_key l k u Hwf Hu). Qed.

Lemma ledger_donations_keyed l : ledger_wf l -> keyed_by dh_id (lg_donations l).
Proof. intros Hwf k d Hd. by destruct (donation_key l k d Hwf Hd). Qed.

Lemma abs_ok db : donations_inv db -> ledger_ok (abs db).
Proof. intros Hdb. split; [by apply abs_wf|apply Hdb]. Qed.

(** A store in order is the store of its ledger. *)
Lemma conc_abs_ordered db : ordered db -> conc (db_now db) (abs db) = db.
Proof.
  intros [Hu Hd]. unfold conc, abs, user_map, donation_map.
  cbn -[table_map rows].
  rewrite !rows_table_map by done. by destruct db.
Qed.

(** A well-formed ledger is the ledger of its store. *)
Lemma abs_conc_wf now l : ledger_wf l -> abs (conc now l) = l.
Proof.
  intros Hwf. unfold conc, abs, user_map, donation_map. cbn -[table_map rows].
  rewrite !table_map_rows
    by auto using ledger_members_keyed, ledger_donations_keyed.
  by destruct l.
Qed.

Lemma conc_ordered now l : ledger_wf l -> ordered (conc now l).
Proof.
  intros Hwf. split; cbn;
    apply rows_sorted; auto using ledger_members_keyed, ledger_donations_keyed.
Qed.

Lemma conc_wf now l : ledger_ok l -> donations_inv (conc now l).
Proof.
  intros [Hwf Hb].
  pose proof (ledger_members_keyed l Hwf) as Hm.
  pose proof (ledger_donations_keyed l Hwf) as Hd.
  split; [split|]; cbn; [by apply rows_keys_NoDup| |done
    |by apply rows_keys_NoDup| |apply Hwf|];
    apply Forall_forall; intros r Hr%elem_of_rows; try done.
  - by destruct (member_key l _ r Hwf Hr).
  - by destruct (donation_key l _ r Hwf Hr).
  - exact (lwf_status l Hwf _ r Hr).
Qed.


(** ** A concrete ledger *)

(** The ledger of the sample store is laid out as the sample store. *)
Example conc_sample : conc (db_now sample_db) (abs sample_db) = sample_db.
Proof. by vm_compute. Qed.

