(* ===== verification/Contract.v ===== *)
(** * Contract: what the donation routes promise their clients

    The five routes of routes/donations.js and the statistics of
    routes/users.js are the operations of one service: create, update
    the status, list by user, get by key, delete, and the statistics of
    a user ([Op], by the type of the data answered).  [promise] is what
    a client may expect of each, said of the ledger of [Ledger] at a
    time ([Book]) and of nothing else: the status and the data of the
    answer, and the event that took effect.  A service may also refuse
    a call with the status 500 and change nothing ([allowed]), as the
    specification lets a request end when the store fails.

    [Registry] is the interface of an implementation: its states are
    read as books and every call is answered as allowed; an
    implementation that never refuses on its own is [Calm].  What is
    proved here is proved of the interface and of no implementation:
    whatever a client does, its run is a run the contract allows
    ([exec_may]), against a calm implementation it is the run of the
    ledger itself ([exec_promise]), and what a client can rely on after
    a call that was not refused: a donation that was created is found
    as it was recorded ([created_pending]), a status that was written
    is read back ([status_read_back]), a donation that was deleted is
    not found ([deleted_not_found]).  The ledger is one implementation
    ([book_registry]); [Conformance] shows that the handlers are
    another. *)

From Stdlib Require Import ZArith Lia.
From stdpp Require Import base tactics option list strings relations gmap.
From S2P Require Import Prelude Sorting Store Donations Stats Ledger.
From S2P Require Import Refinement Concrete.

#[local] Open Scope Z_scope.

(** ** The operations *)

(** A call of the service, by the type of the data it answers.  The
    type of the data is an index: the calls live in a universe above
    it. *)
Universes op_data op_call.
Constraint op_data < op_call.

Inductive Op : Type@{op_data} -> Type@{op_call} :=
| Create (user_id blood_bank_id donation_date blood_type quantity
            notes : JsVal) : Op Created
| UpdateStatus (id status notes : JsVal) : Op unit
| GetByUser (userId : JsVal) : Op (list DonationView)
| GetById (id : JsVal) : Op DonationDetail
| Delete (id : JsVal) : Op unit
| GetUserStats (id : JsVal) : Op UserStats.

(** What a client reads of an answer: the status and the data. *)
Definition Reply (D : Type) : Type := (Z * option D)%type.

Definition reply {D} (r : Response D) : Reply D := (res_status r, res_data r).

(** ** The ledger at a time *)

Record Book : Type := mkBook {
  bk_now : Z;
  bk_ledger : Ledger
}.

(** The event takes effect, when it can occur. *)
Definition happen (e : Event) (b : Book) : Book :=
  mkBook (bk_now b) (default (bk_ledger b) (occur e (bk_ledger b))).

Definition bank_of (b : Book) (k : Z) : option BloodBank :=
  table_map bb_id (lg_banks (bk_ledger b)) !! k.

(** A donation with the name of its blood bank, when there is one. *)
Definition view_in (b : Book) (d : Donation) : option DonationView :=
  bb ← bank_of b (dh_blood_bank_id d);
  Some (mkDonationView d (bb_name bb)).

(** A donation with the names of its blood bank and of its user, when
    there are both. *)
Definition detail_in (b : Book) (d : Donation) : option DonationDetail :=
  bb ← bank_of b (dh_blood_bank_id d);
  u ← lg_members (bk_ledger b) !! dh_user_id d;
  Some (mkDonationDetail d (bb_name bb) (u_name u)).

(** The donations of a user that have a blood bank, the latest date
    first, and by key among those of one date. *)
Definition listing (b : Book) (k : Z) : list DonationView :=
  stable_sort (desc_by (fun v => dh_donation_date (dv_donation v)))
    (omap (view_in b)
       (filter (fun d => dh_user_id d = k)
          (rows dh_id (lg_donations (bk_ledger b))))).

Section promise.
Context {driver : Driver}.

(** The donation a creation records: pending, under the next key, at the
    time of the book; none when the store refuses a value. *)
Definition recorded (u b d t q n : JsVal) (bk : Book) : option Donation :=
  uid ← bind_int u;
  bid ← bind_int b;
  date ← bind_date d;
  bt ← bind_text t;
  qty ← bind_int q;
  nt ← bind_text_null n;
  Some (mkDonation (lg_next_donation (bk_ledger bk)) uid bid date bt qty
          "pending" nt (bk_now bk)).

(** The statistics of a user: the completed donations counted, their
    quantities added, the latest of their dates. *)
Definition tally (b : Book) (k : Z) : UserStats :=
  let ds := filter (fun d => dh_user_id d = k /\ dh_status d = "completed")
              (rows dh_id (lg_donations (bk_ledger b))) in
  mkUserStats (JsNum (Z.of_nat (length ds))) (donated ds) (latest_date ds).

Definition refused {D} : Reply D := (500, None).

(** What the service promises of a call: the answer, and the book after
    it. *)
Definition promise {D} (op : Op D) (b : Book) : Reply D * Book :=
  match op with
  | Create u bb d t q n =>
      if complete u bb d t q
      then match recorded u bb d t q n b with
           | Some r =>
               ((201, Some (mkCreated (dh_id r))),
                happen (DonationRecorded r) b)
           | None => (refused, b)
           end
      else ((400, None), b)
  | UpdateStatus id status notes =>
      match status with
      | JsStr st =>
          if bool_decide (st ∈ status_names)
          then match bind_int id, bind_text_null notes with
               | Some k, Some nt =>
                   ((200, None), happen (StatusChanged k st nt) b)
               | _, _ => (refused, b)
               end
          else ((400, None), b)
      | _ => ((400, None), b)
      end
  | GetByUser id =>
      (match bind_int id with
       | Some k => (200, Some (listing b k))
       | None => refused
       end, b)
  | GetById id =>
      (match bind_int id with
       | Some k =>
           match lg_donations (bk_ledger b) !! k ≫= detail_in b with
           | Some d => (200, Some d)
           | None => (404, None)
           end
       | None => refused
       end, b)
  | Delete id =>
      match bind_int id with
      | Some k => ((200, None), happen (DonationDeleted k) b)
      | None => (refused, b)
      end
  | GetUserStats id =>
      (match bind_int id with
       | Some k => (200, Some (tally b k))
       | None => refused
       end, b)
  end.

End promise.

(** What a call may answer and leave: what is promised, or a refusal
    that changes nothing. *)
Inductive allowed `{Driver} {D} (op : Op D) (b : Book)
  : Reply D -> Book -> Prop :=
| allowed_promise : allowed op b (promise op b).1 (promise op b).2
| allowed_refused : allowed op b refused b.

(** ** The interface *)

(** A service: what a call answers, if it answers, and the state it
    leaves. *)
Class Service (St : Type) : Type :=
  call : forall {D}, Op D -> St -> option (Reply D) * St.

(** A service that keeps the contract: its sound states are read as
    books, and a call on a sound state leaves a sound state and is
    answered as allowed. *)
Class Registry `{Driver} (St : Type) `{Service St} : Type := {
  book : St -> Book;
  sound : St -> Prop;
  sound_book s : sound s -> ledger_ok (bk_ledger (book s));
  call_sound {D} (op : Op D) s : sound s -> sound (call op s).2;
  call_allowed {D} (op : Op D) s :
    sound s ->
    exists r, (call op s).1 = Some r
              /\ allowed op (book s) r (book (call op s).2)
}.

(** A service that refuses what the contract refuses, and nothing
    else. *)
Class Calm `{Registry St} : Prop :=
  call_calm : forall {D} (op : Op D) s,
    sound s -> (call op s).1 = Some (promise op (book s)).1.

(** ** Clients *)

(** A client: it is done, or it calls the service and goes on with the
    answer. *)
Inductive Client (A : Type) : Type :=
| Done (a : A)
| Call {D : Type} (op : Op D) (k : option (Reply D) -> Client A).
Arguments Done {A} a.
Arguments Call {A D} op k.

(** The client runs against the service. *)
Fixpoint exec `{Service St} {A} (c : Client A) (s : St) : A * St :=
  match c with
  | Done a => (a, s)
  | Call op k => exec (k (call op s).1) (call op s).2
  end.

(** The runs of a client that the contract allows: every call is
    answered as allowed of the book the calls before have left. *)
Inductive may `{Driver} {A} : Client A -> Book -> A -> Book -> Prop :=
| may_done a b : may (Done a) b a b
| may_call {D} (op : Op D) k b r b1 a b2 :
    allowed op b r b1 -> may (k (Some r)) b1 a b2 -> may (Call op k) b a b2.

(** ** The ledger keeps the contract *)

Section book.
Context {driver : Driver}.

#[export] Instance book_service : Service Book :=
  fun D op b => (Some (promise op b).1, (promise op b).2).

Lemma happen_ok e b :
  ledger_ok (bk_ledger b) -> ledger_ok (bk_ledger (happen e b)).
Proof.
  intros [Hwf Hb]. unfold happen. cbn.
  destruct (occur e (bk_ledger b)) as [l'|] eqn:He; [|done]. split.
  - by eapply occur_wf.
  - cbn. by rewrite (ext_banks _ _ (occur_extends _ _ _ Hwf He)).
Qed.

Lemma promise_ok {D} (op : Op D) b :
  ledger_ok (bk_ledger b) -> ledger_ok (bk_ledger (promise op b).2).
Proof.
  intros Hb. destruct op; cbn; repeat case_match; cbn [snd];
    auto using happen_ok.
Qed.

(** An event of a donation leaves the users and the blood banks. *)
Definition of_donation (e : Event) : bool :=
  match e with
  | DonationRecorded _ | StatusChanged _ _ _ | DonationDeleted _ => true
  | _ => false
  end.

Lemma happen_keeps e b :
  of_donation e = true ->
  lg_banks (bk_ledger (happen e b)) = lg_banks (bk_ledger b)
  /\ lg_members (bk_ledger (happen e b)) = lg_members (bk_ledger b).
Proof.
  intros He. unfold happen. cbn.
  destruct (occur e _) as [l'|] eqn:Ho; [|done]. cbn.
  destruct e; try done; cbn in Ho; repeat case_match; by simplify_option_eq.
Qed.

Lemma detail_in_happen e b d :
  of_donation e = true -> detail_in (happen e b) d = detail_in b d.
Proof.
  intros [Hb Hm]%(happen_keeps e b). unfold detail_in, bank_of.
  by rewrite Hb, Hm.
Qed.

(** What a donation event leaves under its key. *)
Lemma happen_recorded u bb d t q n b r :
  recorded u bb d t q n b = Some r ->
  lg_donations (bk_ledger (happen (DonationRecorded r) b)) !! dh_id r = Some r.
Proof.
  intros Hr. unfold recorded in Hr. simplify_option_eq. unfold happen. cbn.
  apply lookup_insert_eq.
Qed.

Lemma happen_changed k st nt b :
  st ∈ status_names ->
  lg_donations (bk_ledger (happen (StatusChanged k st nt) b)) !! k
  = with_status st nt <$> lg_donations (bk_ledger b) !! k.
Proof.
  intros Hst. unfold happen. cbn.
  destruct (lg_donations (bk_ledger b) !! k) as [d|] eqn:Hd; cbn; [|done].
  rewrite bool_decide_true by done. cbn. apply lookup_insert_eq.
Qed.

Lemma happen_deleted k b :
  lg_donations (bk_ledger (happen (DonationDeleted k) b)) !! k = None.
Proof.
  unfold happen. cbn.
  destruct (lg_donations (bk_ledger b) !! k) as [d|] eqn:Hd; cbn; [|done].
  apply lookup_delete_eq.
Qed.

(** What is refused changes nothing. *)
Lemma promise_refused {D} (op : Op D) b :
  (promise op b).1 = refused -> (promise op b).2 = b.
Proof. destruct op; cbn; by repeat case_match. Qed.

#[export, refine] Instance book_registry : Registry Book := {|
  book b := b;
  sound b := ledger_ok (bk_ledger b)
|}.
Proof.
  - done.
  - intros D op b. apply promise_ok.
  - intros D op b _. eexists. split; [done|constructor].
Defined.

#[export] Instance book_calm : Calm (St := Book).
Proof. by intros D op b _. Qed.

End book.

(** ** What is proved of the interface *)

Section clients.
Context `{Registry St}.

(** A call that was not refused was answered and acted as promised. *)
Lemma call_answered {D} (op : Op D) s r :
  sound s -> (call op s).1 = Some r -> r <> refused ->
  r = (promise op (book s)).1
  /\ book (call op s).2 = (promise op (book s)).2.
Proof.
  intros Hs Hr Hne. destruct (call_allowed op s Hs) as (r' & Hr' & Ha).
  rewrite Hr in Hr'. injection Hr' as <-. by destruct Ha.
Qed.

(** A call is answered as promised, or refused. *)
Lemma call_answer {D} (op : Op D) s :
  sound s ->
  (call op s).1 = Some (promise op (book s)).1
  \/ (call op s).1 = Some refused.
Proof.
  intros Hs. destruct (call_allowed op s Hs) as (r & -> & Ha).
  destruct Ha; auto.
Qed.

(** A run is a run the contract allows.  Whatever a client does, calling
    the service any number of times and choosing each call by the
    answers before, every call is answered as promised of the book the
    calls before have left, or refused without a change, and the state
    stays sound. *)
Theorem exec_may {A} (c : Client A) s :
  sound s ->
  sound (exec c s).2 /\ may c (book s) (exec c s).1 (book (exec c s).2).
Proof.
  revert s. induction c as [a|D op k IH]; intros s Hs;
    [by split; [|constructor]|].
  cbn [exec]. destruct (call_allowed op s Hs) as (r & Hr & Ha).
  destruct (IH (call op s).1 (call op s).2) as [Hs' Hm]; [by apply call_sound|].
  split; [done|]. econstructor; [done|]. by rewrite <- Hr.
Qed.

(** A donation that was deleted is not found: after a DELETE of a key
    that was answered 200, GET of the key answers 404, whether or not
    there was such a donation, unless it is refused. *)
Theorem deleted_not_found id k s :
  sound s -> bind_int id = Some k ->
  (call (Delete id) s).1 = Some (200, None) ->
  (call (GetById id) (call (Delete id) s).2).1 = Some (404, None)
  \/ (call (GetById id) (call (Delete id) s).2).1 = Some refused.
Proof.
  intros Hs Hk [_ Hb]%call_answered; [|done..].
  destruct (call_answer (GetById id) (call (Delete id) s).2) as [->| ->];
    [by apply call_sound| |by right].
  left. rewrite Hb. cbn [promise]. rewrite Hk. cbn [fst snd].
  by rewrite happen_deleted.
Qed.

(** A donation that was created is found as it was recorded: when a
    creation is answered 201 with a key and GET of that key is not
    refused, it answers the donation that was recorded under the key,
    pending, with the names of its blood bank and of its user, and 404
    when one of the two does not exist. *)
Theorem created_pending u bb d t q n id r s :
  sound s ->
  (call (Create u bb d t q n) s).1 = Some (201, Some (mkCreated id)) ->
  (call (GetById (JsNum id)) (call (Create u bb d t q n) s).2).1 = Some r ->
  r <> refused ->
  exists row,
    recorded u bb d t q n (book s) = Some row
    /\ dh_id row = id /\ dh_status row = "pending"
    /\ r = match detail_in (book s) row with
           | Some x => (200, Some x)
           | None => (404, None)
           end.
Proof.
  intros Hs [Hc Hb]%call_answered; [|done..].
  intros Hr Hne. apply call_answered in Hr as [-> _];
    [|by apply call_sound|done]. clear Hne.
  revert Hc. rewrite Hb. cbn [promise]. rewrite bind_int_num.
  destruct (complete u bb d t q); [|done].
  destruct (recorded u bb d t q n (book s)) as [row|] eqn:Hr; [|done].
  intros [= ->]. exists row. cbn [fst snd].
  rewrite (happen_recorded u bb d t q n) by done. cbn [mbind option_bind].
  rewrite detail_in_happen by done. split_and!; [done..| |done].
  unfold recorded in Hr. by simplify_option_eq.
Qed.

(** A status that was written is read back: after an update of the
    status to one of the taxonomy is answered 200, GET of the key, when
    it answered the donation before and is not refused, answers the
    donation with that status and those notes, whatever its status
    was. *)
Theorem status_read_back k st notes x r s :
  sound s -> st ∈ status_names ->
  (call (GetById (JsNum k)) s).1 = Some (200, Some x) ->
  (call (UpdateStatus (JsNum k) (JsStr st) notes) s).1 = Some (200, None) ->
  (call (GetById (JsNum k))
     (call (UpdateStatus (JsNum k) (JsStr st) notes) s).2).1 = Some r ->
  r <> refused ->
  exists nt,
    bind_text_null notes = Some nt
    /\ r = (200,
            Some (mkDonationDetail (with_status st nt (dd_donation x))
                    (dd_blood_bank_name x) (dd_user_name x))).
Proof.
  intros Hs Hst [Hx _]%call_answered [Hu Hb]%call_answered; [|done..].
  intros Hr Hne. apply call_answered in Hr as [-> _];
    [|by apply call_sound|done]. clear Hne.
  revert Hx Hu. rewrite Hb. cbn [promise].
  rewrite bind_int_num, bool_decide_true by done.
  destruct (bind_text_null notes) as [nt|]; [|done]. intros Hx _.
  exists nt. split; [done|]. cbn [fst snd] in *.
  rewrite happen_changed by done.
  destruct (lg_donations (bk_ledger (book s)) !! k) as [row|]; [|done].
  cbn [fmap option_fmap option_map mbind option_bind] in *.
  rewrite detail_in_happen by done. unfold detail_in in *. cbn.
  by repeat case_match; simplify_option_eq.
Qed.

End clients.

(** *** Calm services *)

Section calm.
Context `{Calm St}.

Lemma call_book {D} (op : Op D) s :
  sound s -> book (call op s).2 = (promise op (book s)).2.
Proof.
  intros Hs. destruct (call_allowed op s Hs) as (r & Hr & Ha).
  rewrite call_calm in Hr by done. injection Hr as <-.
  inversion Ha as [Hp|Hp]; [done|]. by rewrite promise_refused.
Qed.

(** A client cannot tell a calm service from the ledger.  Whatever a
    client does, its result against a service that keeps the contract
    and refuses nothing on its own is its result against the ledger, and
    the book of the state it leaves is the book the ledger is left
    in. *)
Theorem exec_promise {A} (c : Client A) s :
  sound s ->
  (exec c s).1 = (exec c (book s)).1
  /\ book (exec c s).2 = (exec c (book s)).2.
Proof.
  revert s. induction c as [a|D op k IH]; intros s Hs; [done|].
  cbn [exec]. destruct (IH (call op s).1 (call op s).2) as [Ha Hb];
    [by apply call_sound|].
  rewrite call_calm, call_book in * by done. done.
Qed.

End calm.

(** ** A concrete book *)

(** The ledger of the sample store, at its time. *)
Definition sample_book : Book := mkBook (db_now sample_db) (abs sample_db).

Lemma sample_book_sound : sound sample_book.
Proof. apply abs_ok, sample_db_inv. Qed.

Lemma exec_may_witness :
  let c :=
    Call (Delete (JsStr "1")) (fun _ => Call (GetById (JsStr "1")) Done) in
  sound (exec c sample_book).2
  /\ may c sample_book (exec c sample_book).1 (exec c sample_book).2.
Proof. exact (exec_may _ sample_book sample_book_sound). Defined.

Lemma deleted_not_found_witness :
  (call (GetById (JsStr "1")) (call (Delete (JsStr "1")) sample_book).2).1
  = Some (404, None)
  \/ (call (GetById (JsStr "1")) (call (Delete (JsStr "1")) sample_book).2).1
     = Some refused.
Proof.
  exact (deleted_not_found (JsStr "1") 1 sample_book sample_book_sound
           eq_refl eq_refl).
Defined.

Lemma created_pending_witness :
  let create :=
    Create (JsNum 1) (JsNum 1) (JsStr "2024-04-01") (JsStr "A+") (JsNum 350)
      JsUndefined in
  let found :=
    mkDonationDetail
      (mkDonation 4 1 1 20240401 "A+" 350 "pending" None 100)
      "PMI Jakarta" "Ani" in
  exists row,
    recorded (JsNum 1) (JsNum 1) (JsStr "2024-04-01") (JsStr "A+") (JsNum 350)
      JsUndefined sample_book = Some row
    /\ dh_id row = 4 /\ dh_status row = "pending"
    /\ (200, Some found)
       = match detail_in sample_book row with
         | Some x => (200, Some x)
         | None => (404, None)
         end.
Proof.
  exact (created_pending (JsNum 1) (JsNum 1) (JsStr "2024-04-01") (JsStr "A+")
           (JsNum 350) JsUndefined 4 _ sample_book sample_book_sound
           eq_refl eq_refl ltac:(discriminate)).
Defined.

Lemma status_read_back_witness :
  exists nt,
    bind_text_null JsNull = Some nt
    /\ (200,
        Some (mkDonationDetail
                (mkDonation 1 1 1 20240110 "A+" 300 "pending" None 20)
                "PMI Jakarta" "Ani"))
       = (200,
          Some (mkDonationDetail
                  (with_status "pending" nt
                     (mkDonation 1 1 1 20240110 "A+" 300 "completed" None 20))
                  "PMI Jakarta" "Ani")).
Proof.
  exact (status_read_back 1 "pending" JsNull
           (mkDonationDetail
              (mkDonation 1 1 1 20240110 "A+" 300 "completed" None 20)
              "PMI Jakarta" "Ani") _ sample_book sample_book_sound
           ltac:(by_decide) eq_refl eq_refl eq_refl ltac:(discriminate)).
Defined.
