(* ===== verification/Conformance.v ===== *)
(** * Conformance: the handlers keep the contract

    [handler] is the handler of each operation of [Contract], [route]
    its route.  A call runs the handler alone against the store,
    whichever statements fail ([world_service]), or on a store that
    answers ([server_service]).  On a store that is sound and in the
    order of its keys, a handler whose statements all go through
    answers with the status and the data promised of the ledger of the
    store, down to the rows a join finds and the order a listing is
    sorted in, and leaves the store of the ledger that was promised; a
    handler with a statement that fails answers 500 and leaves the store
    as it was ([answered]).  So the handlers are a registry
    ([world_registry]) and on a store that answers a calm one
    ([server_registry], [server_calm]): every run of a client against
    the server is a run the contract allows ([server_fails_closed]),
    and on a store that answers it is the run of the ledger
    ([server_keeps_promise]). *)

From Stdlib Require Import ZArith Lia.
From stdpp Require Import base tactics option list strings relations gmap.
From stdpp Require Import sorting.
From S2P Require Import Prelude Outcomes Sorting Store Donations Stats.
From S2P Require Import BloodBanks Security Users Ledger Auth Server.
From S2P Require Import Refinement Ordering Concrete Contract.

#[local] Open Scope Z_scope.

(** ** The handlers of the operations *)

Section handlers.
Context {driver : Driver}.

(** The handler of a call. *)
Definition handler {D} (op : Op D) : Prog Db (Response D) :=
  match op with
  | Create u b d t q n => post_donation u b d t q n
  | UpdateStatus id st n => put_donation_status id st n
  | GetByUser id => get_donations_by_user id
  | GetById id => get_donation id
  | Delete id => delete_donation id
  | GetUserStats id => get_user_stats id
  end.


(** The statements the handler issues when none fails. *)
Definition issued {D} (op : Op D) : nat :=
  match op with
  | Create u b d t q n => if complete u b d t q then 1 else 0
  | UpdateStatus _ status _ => if includes validStatuses status then 1 else 0
  | GetByUser _ | GetById _ | Delete _ => 1
  | GetUserStats _ => 3
  end.

End handlers.

(** The route of a call. *)
Definition route {D} (op : Op D) : ApiReq :=
  match op with
  | Create u b d t q n => ApiDonations (PostDonation u b d t q n)
  | UpdateStatus id st n => ApiDonations (PutDonationStatus id st n)
  | GetByUser id => ApiDonations (GetUserDonations id)
  | GetById id => ApiDonations (GetDonation id)
  | Delete id => ApiDonations (DeleteDonation id)
  | GetUserStats id => ApiUsers (GetStats id)
  end.

(** What an answer was through the routes of the server: its
    envelope. *)
Lemma app_route `{Driver, Collation, Bcrypt, Jwt} {D} secret (op : Op D) :
  app secret (route op) = respond (handler op).
Proof. by destruct op. Qed.

(** The book of a store. *)
Definition book_of (db : Db) : Book := mkBook (db_now db) (abs db).

(** The states of the server: sound, with the rows in the order of their
    keys. *)
Definition shelved (db : Db) : Prop := donations_inv db /\ ordered db.

(** ** The services *)

Section services.
Context {driver : Driver}.

(** A handler alone against the store, whichever statements fail. *)
#[export] Instance world_service : Service (World Db) :=
  fun D op w => (reply <$> (run (handler op) w).1, (run (handler op) w).2).

(** A handler alone, on a store that answers. *)
#[export] Instance server_service : Service Db :=
  fun D op db =>
    ((call op (mkWorld db [])).1, w_store (call op (mkWorld db [])).2).

End services.

(** ** Reading the store as the book *)

(** A filter by a test is the filter by what the test decides. *)
Lemma sql_select_filter {Row} (p : Row -> bool) (P : Row -> Prop)
    `{!forall r, Decision (P r)} t :
  (forall r, p r = true <-> P r) -> sql_select p t = filter P t.
Proof.
  intros Hp. unfold sql_select. induction t as [|r t IH]; [done|].
  rewrite filter_cons, <- IH. cbn [List.filter].
  destruct (p r) eqn:Hr; case_decide as HP; try done.
  - by apply Hp in Hr.
  - apply Hp in HP. congruence.
Qed.

(** A join with at most one row for each, row by row. *)
Lemma bind_omap {A B} (f : A -> option B) (g : A -> list B) (l : list A) :
  (forall x, g x = option_list (f x)) -> l ≫= g = omap f l.
Proof.
  intros Hg. induction l as [|x l IH]; [done|].
  rewrite bind_cons, IH, Hg. cbn. by destruct (f x).
Qed.

Section reads.
Context {driver : Driver}.

Lemma rows_abs db :
  ordered db -> rows dh_id (lg_donations (abs db)) = donation_history db.
Proof. intros [_ Hd]. by apply rows_table_map. Qed.

(** *** The reads *)

Lemma view_in_join db (d : Donation) :
  db_wf db ->
  (bb ← sql_select (fun bb => dh_blood_bank_id d =? bb_id bb)
          (blood_banks db);
   [mkDonationView d (bb_name bb)])
  = option_list (view_in (book_of db) d).
Proof.
  intros Hwf. rewrite (join_key_select bb_id) by apply Hwf.
  rewrite bind_option_list. unfold view_in, bank_of.
  cbn [bk_ledger book_of lg_banks abs].
  by destruct (table_map bb_id _ !! _).
Qed.

Lemma select_listing db k :
  shelved db -> select_donations_by_user k db = listing (book_of db) k.
Proof.
  intros [[Hwf _] Ho]. unfold select_donations_by_user, listing.
  cbn [bk_ledger book_of]. rewrite rows_abs by done. f_equal.
  rewrite (sql_select_bind_outer (fun d => dh_user_id d =? k)).
  - rewrite (sql_select_filter _ (fun d => dh_user_id d = k))
      by (intros d; apply Z.eqb_eq).
    apply bind_omap. intros d. by apply view_in_join.
  - intros d v (bb & ->%list_elem_of_singleton & _)%list_elem_of_bind. done.
Qed.

Lemma reported_tally db k :
  shelved db -> reported k db = tally (book_of db) k.
Proof.
  intros [_ Ho]. unfold reported, tally, completed_donations.
  cbn [bk_ledger book_of]. rewrite rows_abs by done.
  rewrite (sql_select_filter _
             (fun d => dh_user_id d = k /\ dh_status d = "completed")); [done|].
  intros d. unfold completed_of.
  by rewrite andb_true_iff, Z.eqb_eq, bool_decide_eq_true.
Qed.

Lemma detail_of_book db k :
  detail_of db k = lg_donations (abs db) !! k ≫= detail_in (book_of db).
Proof. done. Qed.

(** *** The writes *)

(** The statement took the store through the event, where the event
    could occur, at the same time. *)
Lemma logs_happen e o db db' :
  logs o db db' -> db_now db' = db_now db ->
  o = Some e \/ o = None /\ occur e (abs db) = None ->
  book_of db' = happen e (book_of db).
Proof.
  unfold logs, happen, book_of. intros Hlog -> Ho.
  cbn [bk_now bk_ledger]. f_equal.
  destruct Ho as [->|[-> He]]; cbn [option_list replay] in Hlog.
  - revert Hlog. cbn. destruct (occur e _); cbn; congruence.
  - rewrite He. cbn in *. congruence.
Qed.

Lemma insert_donation_recorded u b d t q n db :
  insert_donation u b d t q n db
  = r ← recorded u b d t q n (book_of db);
    Some (dh_id r, set_donations (fun t => t ++ [r]) (dh_id r + 1) db).
Proof.
  unfold insert_donation, recorded.
  by repeat (match goal with |- context [bind_int ?v] => destruct (bind_int v)
             | |- context [bind_date ?v] => destruct (bind_date v)
             | |- context [bind_text ?v] => destruct (bind_text v)
             | |- context [bind_text_null ?v] => destruct (bind_text_null v)
             end; cbn; try done).
Qed.

Lemma recorded_happen u b d t q n db r :
  db_wf db -> recorded u b d t q n (book_of db) = Some r ->
  book_of (set_donations (fun t => t ++ [r]) (dh_id r + 1) db)
  = happen (DonationRecorded r) (book_of db).
Proof.
  intros Hwf Hr. unfold recorded in Hr. simplify_option_eq.
  unfold book_of, happen. cbn -[abs]. rewrite abs_insert_donation by done.
  cbn. by rewrite bool_decide_true.
Qed.

(** An event on the row of a key, when the statement found one. *)
Lemma found_or_not (e : Event) k db :
  (lg_donations (abs db) !! k = None -> occur e (abs db) = None) ->
  (fun _ => e) <$> donation_map db !! k = Some e
  \/ (fun _ => e) <$> donation_map db !! k = None /\ occur e (abs db) = None.
Proof.
  intros He. change (lg_donations (abs db)) with (donation_map db) in He.
  destruct (donation_map db !! k); [by left|right; auto].
Qed.

End reads.

(** ** The calls *)

Section calls.
Context {driver : Driver}.

(** The handler of the call against the world: when none of its
    statements fails it answers what is promised of the book of the
    store and leaves the store of the book that is promised, and when
    one fails it answers 500 and leaves the store as it was. *)
Definition answered {D} (op : Op D) (w : World Db) : Prop :=
  let r := run (handler op) w in
  let b := book_of (w_store w) in
  if calm (issued op) (w_faults w)
  then reply <$> r.1 = Some (promise op b).1
       /\ book_of (w_store r.2) = (promise op b).2
  else reply <$> r.1 = Some refused /\ w_store r.2 = w_store w.

Lemma calm_one (w : World Db) : calm 1 (w_faults w) = negb (faulty w).
Proof. unfold faulty. by destruct w as [s [|[] fs]]. Qed.

(** The first step of a handler of one statement. *)
Ltac one_statement :=
  rewrite calm_one, run_try_query;
  destruct (faulty _); cbn [negb]; [done|].

Lemma create_answered u b d t q n w :
  shelved (w_store w) -> answered (Create u b d t q n) w.
Proof.
  intros [[Hwf _] _]. unfold answered. cbn [handler promise issued].
  unfold post_donation. rewrite post_guard_complete.
  destruct (complete u b d t q); cbn [negb]; [|done]. one_statement.
  rewrite insert_donation_recorded.
  destruct (recorded u b d t q n _) as [r|] eqn:Hr; cbn; [|done].
  split; [done|]. by apply (recorded_happen u b d t q n).
Qed.

Lemma update_status_answered id status notes w :
  answered (UpdateStatus id status notes) w.
Proof.
  unfold answered. cbn [handler promise issued]. unfold put_donation_status.
  destruct (includes validStatuses status) eqn:Hs; cbn [negb].
  - apply includes_validStatuses in Hs as (st & -> & Hst).
    rewrite bool_decide_true by done. one_statement. unfold keyed.
    destruct (bind_int id) as [k|]; [|done].
    destruct (bind_text_null notes) as [nt|] eqn:Hn.
    + rewrite (update_donation_status_bound st notes nt) by done.
      split; [done|]. cbn [run snd w_store].
      eapply logs_happen;
        [by apply (update_donation_status_logs st notes nt k);
           [..|apply update_donation_status_bound]|done|].
      apply found_or_not. cbn. by intros ->.
    + unfold update_donation_status. by rewrite bind_text_str, Hn.
  - destruct status as [| | |st| |]; try done. case_bool_decide; [|done].
    apply not_true_iff_false in Hs. destruct Hs.
    apply includes_validStatuses. eauto.
Qed.

Lemma delete_answered id w : answered (Delete id) w.
Proof.
  unfold answered. cbn [handler promise issued]. unfold delete_donation.
  one_statement. unfold keyed. destruct (bind_int id) as [k|]; [|done].
  split; [done|]. cbn [run snd w_store].
  eapply logs_happen; [by apply delete_donation_row_logs|done|].
  apply found_or_not. cbn. by intros ->.
Qed.

Lemma get_by_id_answered id w : shelved (w_store w) -> answered (GetById id) w.
Proof.
  intros [[Hwf _] _]. unfold answered. cbn [handler promise issued].
  unfold get_donation. one_statement. unfold keyed.
  destruct (bind_int id) as [k|]; [|done]. cbn [compose sql_read].
  rewrite select_donation_detail_lookup, detail_of_book by done.
  by destruct (_ ≫= _).
Qed.

Lemma get_by_user_answered id w :
  shelved (w_store w) -> answered (GetByUser id) w.
Proof.
  intros Hdb. unfold answered. cbn [handler promise issued].
  unfold get_donations_by_user. one_statement. unfold keyed.
  destruct (bind_int id) as [k|]; [|done]. cbn [compose sql_read].
  by rewrite select_listing.
Qed.

Lemma get_user_stats_answered id w :
  shelved (w_store w) -> answered (GetUserStats id) w.
Proof.
  intros Hdb. unfold answered. cbn [handler promise issued].
  destruct (calm 3 (w_faults w)) eqn:Hc.
  - destruct (bind_int id) as [k|] eqn:Hk.
    + rewrite (run_get_user_stats id k) by done. by rewrite reported_tally.
    + by rewrite get_user_stats_failure, get_user_stats_reads by auto.
  - by rewrite get_user_stats_failure, get_user_stats_reads by auto.
Qed.

(** Every call is answered. *)
Lemma handler_answered {D} (op : Op D) w :
  shelved (w_store w) -> answered op w.
Proof.
  destruct op;
    auto using create_answered, update_status_answered, get_by_user_answered,
      get_by_id_answered, delete_answered, get_user_stats_answered.
Qed.

End calls.

(** ** The handlers are a registry *)

Section registry.
Context {driver : Driver}.

Lemma handler_safe {D} (op : Op D) : safe_prog donations_inv (handler op).
Proof.
  destruct op; cbn [handler];
    auto using get_donations_by_user_safe, post_donation_safe,
      put_donation_status_safe, get_donation_safe, delete_donation_safe,
      get_user_stats_safe.
Qed.

Lemma handler_keeps_order {D} (op : Op D) :
  statements (@keeps_order) (handler op).
Proof.
  destruct op; cbn [handler];
    unfold post_donation, put_donation_status, get_donations_by_user,
      get_donation, delete_donation, get_user_stats;
    handler_walk ordering_leaf ltac:(split).
Qed.

Lemma world_sound {D} (op : Op D) w :
  shelved (w_store w) -> shelved (w_store (call op w).2).
Proof.
  intros [Hdb Ho].
  destruct (safe_prog_preserves (arranged (db_now (w_store w))) (handler op)
              (arranged_safe _ _ (handler_safe op) (handler_keeps_order op))
              w) as (? & ? & _); by split.
Qed.

Lemma world_allowed {D} (op : Op D) w :
  shelved (w_store w) ->
  exists r, (call op w).1 = Some r
            /\ allowed op (book_of (w_store w)) r
                 (book_of (w_store (call op w).2)).
Proof.
  intros Ha%(handler_answered op). unfold answered in Ha.
  unfold call, world_service. cbn [fst snd].
  destruct (calm _ _); destruct Ha as [-> ->]; eexists; split; try done;
    constructor.
Qed.

#[export, refine] Instance world_registry : Registry (World Db) := {|
  book w := book_of (w_store w);
  sound w := shelved (w_store w)
|}.
Proof.
  - intros w [Hdb _]. by apply abs_ok.
  - intros D op w. apply world_sound.
  - intros D op w. apply world_allowed.
Defined.

#[export, refine] Instance server_registry : Registry Db := {|
  book := book_of;
  sound := shelved
|}.
Proof.
  - intros db [Hdb _]. by apply abs_ok.
  - intros D op db. apply (world_sound op (mkWorld db [])).
  - intros D op db. apply (world_allowed op (mkWorld db [])).
Defined.

(** On a store that answers nothing is refused but what the contract
    refuses. *)
#[export] Instance server_calm : Calm (St := Db).
Proof.
  intros D op db Ha%(handler_answered op (mkWorld db [])).
  unfold answered in Ha. rewrite calm_nil in Ha. apply Ha.
Qed.

(** C7. The handlers implement the contract.  Whatever a client does,
    calling the routes of the donations and the statistics any number of
    times, one call after the other, and choosing each call by the
    answers before, on a store that is sound and in the order of its
    keys and that answers every statement: every answer has the status
    and the data promised of the ledger, the store that is left has the
    ledger the promise leaves, and it is sound and in order again. *)
Theorem server_keeps_promise {A} (c : Client A) db :
  donations_inv db -> ordered db ->
  (donations_inv (exec c db).2 /\ ordered (exec c db).2)
  /\ (exec c db).1 = (exec c (book_of db)).1
  /\ book_of (exec c db).2 = (exec c (book_of db)).2.
Proof.
  intros Hdb Ho. split.
  - exact (proj1 (exec_may (St := Db) c db (conj Hdb Ho))).
  - exact (exec_promise (St := Db) c db (conj Hdb Ho)).
Qed.

(** C20. Whichever statements fail, the handlers stay within the contract.
    Whatever a client does, and whichever statements of its calls the
    store fails, every call is answered with the status and the data
    promised of the ledger the calls before have left, or with 500
    while the ledger stays as it is, and the store stays sound and in
    the order of its keys. *)
Theorem server_fails_closed {A} (c : Client A) w :
  donations_inv (w_store w) -> ordered (w_store w) ->
  (donations_inv (w_store (exec c w).2) /\ ordered (w_store (exec c w).2))
  /\ may c (book_of (w_store w)) (exec c w).1
       (book_of (w_store (exec c w).2)).
Proof.
  intros Hdb Ho. exact (exec_may (St := World Db) c w (conj Hdb Ho)).
Qed.

End registry.

(** ** Concrete clients *)

(** A client that records a donation, completes it and reads it back. *)
Definition give_and_read : Client (option (Reply DonationDetail)) :=
  Call (Create (JsNum 1) (JsNum 1) (JsStr "2024-04-01") (JsStr "A+")
          (JsNum 350) JsUndefined)
    (fun r =>
       match r with
       | Some (_, Some c) =>
           Call (UpdateStatus (JsNum (created_id c)) (JsStr "completed") JsNull)
             (fun _ => Call (GetById (JsNum (created_id c))) Done)
       | _ => Done None
       end).

(** Against the handlers on the sample store it reads the donation it
    gave, completed, under the key 4; when the store fails the second
    statement, the update is refused and the donation is read as it was
    recorded. *)
Example give_and_read_sample :
  (exists x,
     (exec give_and_read sample_db).1 = Some (200, Some x)
     /\ dh_id (dd_donation x) = 4
     /\ dh_status (dd_donation x) = "completed"
     /\ dh_quantity (dd_donation x) = 350)
  /\ (exists x,
        (exec give_and_read (mkWorld sample_db [false; true])).1
        = Some (200, Some x)
        /\ dh_id (dd_donation x) = 4
        /\ dh_status (dd_donation x) = "pending").
Proof. by split; eexists; vm_compute. Qed.

Lemma server_keeps_promise_witness :
  (donations_inv (exec give_and_read sample_db).2
   /\ ordered (exec give_and_read sample_db).2)
  /\ (exec give_and_read sample_db).1
     = (exec give_and_read (book_of sample_db)).1
  /\ book_of (exec give_and_read sample_db).2
     = (exec give_and_read (book_of sample_db)).2.
Proof.
  exact (server_keeps_promise give_and_read sample_db sample_db_inv
           sample_db_ordered).
Defined.

Lemma server_fails_closed_witness :
  let w := mkWorld sample_db [false; true] in
  (donations_inv (w_store (exec give_and_read w).2)
   /\ ordered (w_store (exec give_and_read w).2))
  /\ may give_and_read (book_of sample_db) (exec give_and_read w).1
       (book_of (w_store (exec give_and_read w).2)).
Proof.
  exact (server_fails_closed give_and_read (mkWorld sample_db [false; true])
           sample_db_inv sample_db_ordered).
Defined.
