(* ===== verification/Linear.v ===== *)
(** * Linear: calls in flight take effect one at a time

    The clients of [Contract] make one call after the other.  Here the
    calls are in flight together: the statements of their handlers
    reach the store in any order, and any of them may fail
    ([Interleaving.pool_step]).  On the side of the contract the calls
    sit at a desk that answers one call at a time, whole, as the
    contract allows of the ledger the calls before have left
    ([desk_step]).  Every call of the donation routes is one statement
    at most, which is where it takes effect; so whatever the schedule,
    when every call has been answered the answers and the store are
    those of the desk answering the calls in some order
    ([donations_linearizable]).  The statistics are three statements and
    are left out: a completion between them is counted and not added
    ([Serial.stats_torn]), which no order of the two calls answers. *)

From Stdlib Require Import ZArith Lia.
From stdpp Require Import base tactics option list strings relations gmap.
From S2P Require Import Prelude Outcomes Sorting Store Donations Stats.
From S2P Require Import Ledger Interleaving Serial Refinement Ordering.
From S2P Require Import Concrete Contract Conformance.

#[local] Open Scope Z_scope.

(** ** Calls in flight *)

(** A call, and an answer, whatever the type of the data. *)
Inductive Request : Type :=
| Ask {D : Type} (op : Op D).

Inductive Answer : Type :=
| Tell {D : Type} (r : Reply D).

(** The calls of one statement at most: all but the statistics. *)
Definition one_call (rq : Request) : bool :=
  match rq with
  | Ask (GetUserStats _) => false
  | Ask _ => true
  end.

(** The handler of a call in flight, up to its answer. *)
Definition flight `{Driver} (rq : Request) : Prog Db Answer :=
  match rq with
  | Ask op => answering (fun r => Tell (reply r)) (handler op)
  end.

(** ** The desk *)

(** The ledger and the calls, each waiting or answered. *)
Definition Desk : Type := Book * list (Request + Answer).

(** A call that waits is answered, as the contract allows. *)
Inductive desk_step `{Driver} : Desk -> Desk -> Prop :=
| desk_answer {D} i (op : Op D) b xs r b' :
    xs !! i = Some (inl (Ask op)) -> allowed op b r b' ->
    desk_step (b, xs) (b', <[i := inr (Tell r)]> xs).

Section linear.
Context {driver : Driver}.

(** ** A call in flight against its handler *)

Lemma run_answering {A B} (f : A -> B) (p : Prog Db A) w :
  run (answering f p) w = (f <$> (run p w).1, (run p w).2).
Proof.
  unfold answering. rewrite run_bind. by destruct (run p w) as [[a|] w'].
Qed.

Lemma flight_single rq : one_call rq = true -> single (flight rq).
Proof.
  unfold single. intros Hone. destruct rq as [D []]; try discriminate Hone;
    cbn [flight handler];
    unfold answering, post_donation, put_donation_status,
      get_donations_by_user, get_donation, delete_donation;
    within_walk; done.
Qed.

(** The run of a call in flight is a call of the service: its answer is
    allowed of the book of the store, and the store stays shelved. *)
Lemma flight_allowed {D} (op : Op D) w a w' :
  shelved (w_store w) -> run (flight (Ask op)) w = (Some a, w') ->
  shelved (w_store w')
  /\ exists r, a = Tell r
               /\ allowed op (book_of (w_store w)) r (book_of (w_store w')).
Proof.
  intros Hw. cbn [flight]. rewrite run_answering. intros [= Ha <-].
  split; [by apply (world_sound op)|].
  destruct (world_allowed op w Hw) as (r & Hr & Hal).
  unfold call, world_service in Hr, Hal. cbn [fst snd] in Hr, Hal.
  destruct (run (handler op) w).1 as [r'|]; simplify_eq/=. eauto.
Qed.

(** ** The simulation *)

(** A call in flight and its place at the desk: it waits with its
    handler not yet started, or it is answered. *)
Definition seated (p : Prog Db Answer) (x : Request + Answer) : Prop :=
  match x with
  | inl rq => one_call rq = true /\ p = flight rq
  | inr a => p = Ret a
  end.

(** The pool and the desk agree. *)
Definition agree (c : Pool (S := Db) (A := Answer)) (d : Desk) : Prop :=
  shelved c.1 /\ d.1 = book_of c.1 /\ Forall2 seated c.2 d.2.

Lemma seated_single p x : seated p x -> single p.
Proof.
  destruct x as [rq|a]; [intros [Hone ->]; by apply flight_single|].
  by intros ->.
Qed.

Lemma agree_single c d : agree c d -> Forall single c.2.
Proof.
  intros (_ & _ & Hps). apply Forall_forall. intros p Hp.
  apply list_elem_of_lookup in Hp as [i Hi].
  destruct (Forall2_lookup_l _ _ _ _ _ Hps Hi) as (x & _ & Hx).
  by eapply seated_single.
Qed.

(** A statement of a call in flight is an answer at the desk. *)
Lemma pool_step_desk c c' d :
  pool_step c c' -> agree c d -> exists d', desk_step d d' /\ agree c' d'.
Proof.
  destruct c as [s ps], d as [b xs]. intros Hstep Hag.
  destruct (pool_step_serial s ps c' (agree_single _ _ Hag) Hstep)
    as [Hserial _].
  inversion Hserial as [R i q k fs a w' s0 ps0 Hi Hrun]; subst.
  destruct Hag as (Hs & Hb & Hps). cbn [fst snd] in *. subst b.
  destruct (Forall2_lookup_l _ _ _ _ _ Hps Hi) as (x & Hx & Hseat).
  destruct x as [[D op]|a']; [destruct Hseat as [_ Hfl]|done].
  rewrite Hfl in Hrun.
  apply (flight_allowed op (mkWorld s fs)) in Hrun as (Hs' & r & -> & Hal);
    [|done].
  eexists (_, _). split; [by econstructor|].
  split_and!; [done..|]. by apply Forall2_insert.
Qed.

Lemma pool_steps_desk c c' d :
  rtc pool_step c c' -> agree c d ->
  exists d', rtc desk_step d d' /\ agree c' d'.
Proof.
  intros Hsteps. revert d.
  induction Hsteps as [c|c c1 c2 Hstep _ IH]; intros d Hag; [by exists d|].
  destruct (pool_step_desk c c1 d Hstep Hag) as (d1 & Hd & Hag1).
  destruct (IH d1 Hag1) as (d2 & Hd2 & Hag2).
  exists d2. split; [by eapply rtc_l|done].
Qed.

(** ** Calls that ask nothing *)

(** A call whose handler answers without a statement is answered at the
    desk when the others are. *)
Lemma seated_ret {D} (op : Op D) a db :
  shelved db -> Ret a = flight (Ask op) ->
  exists r, a = Tell r /\ allowed op (book_of db) r (book_of db).
Proof.
  intros Hdb Hfl.
  destruct (flight_allowed op (mkWorld db []) a (mkWorld db []) Hdb)
    as (_ & r & Hr & Hal); [by rewrite <- Hfl|eauto].
Qed.

Lemma desk_finish db front xs answers :
  shelved db -> Forall2 seated (Ret <$> answers) xs ->
  rtc desk_step (book_of db, (inr <$> front) ++ xs)
    (book_of db, inr <$> (front ++ answers)).
Proof.
  intros Hdb. revert front answers.
  induction xs as [|x xs IH]; intros front answers Hxs.
  { apply Forall2_nil_inv_r, fmap_nil_inv in Hxs as ->. by rewrite !app_nil_r. }
  destruct answers as [|a answers]; [by apply Forall2_nil_cons_inv in Hxs|].
  apply Forall2_cons_1 in Hxs as [Hx Hxs].
  specialize (IH (front ++ [a]) answers Hxs).
  rewrite fmap_app, <- !app_assoc in IH. cbn in IH.
  destruct x as [[D op]|a']; [|by injection Hx as <-].
  destruct Hx as [_ Hx].
  destruct (seated_ret op a db Hdb Hx) as (r & -> & Hal).
  eapply rtc_l; [|exact IH].
  pose proof (desk_answer (length front) op (book_of db)
                ((inr <$> front) ++ inl (Ask op) :: xs) r (book_of db)) as Hd.
  rewrite insert_app_r_alt, length_fmap, Nat.sub_diag in Hd
    by (rewrite length_fmap; lia).
  apply Hd; [|done].
  by rewrite lookup_app_r, length_fmap, Nat.sub_diag
    by (rewrite length_fmap; lia).
Qed.

(** C19. The donation routes are linearizable.  Whatever calls of the
    donation routes are in flight on a store that is sound and in the
    order of its keys, in whatever order their statements reach the
    store and whichever of them fail: when every call has been answered,
    the answers and the ledger of the store are those of the calls
    answered one at a time in some order, each with the status and the
    data the contract promises of the ledger the calls before it have
    left, or with 500 and no change of the ledger. *)
Theorem donations_linearizable rqs db db' answers :
  donations_inv db -> ordered db ->
  Forall (fun rq => one_call rq = true) rqs ->
  rtc pool_step (db, flight <$> rqs) (db', Ret <$> answers) ->
  rtc desk_step (book_of db, inl <$> rqs) (book_of db', inr <$> answers).
Proof.
  intros Hdb Ho Hone Hsteps.
  destruct (pool_steps_desk _ _ (book_of db, inl <$> rqs) Hsteps)
    as ([b xs] & Hd & Hs & Hb & Hxs).
  { split_and!; [done..|]. apply Forall2_fmap, Forall_Forall2_diag.
    eapply Forall_impl; [done|]. by intros rq Hrq. }
  cbn [fst snd] in *. subst b. etrans; [done|].
  exact (desk_finish db' [] xs answers Hs Hxs).
Qed.

End linear.

(** ** A concrete schedule *)

(** A deletion and a reading of the same donation in flight, the
    statement of the deletion first. *)
Lemma donations_linearizable_witness :
  let rqs := [Ask (GetById (JsStr "1")); Ask (Delete (JsStr "1"))] in
  let db' := set_donations (sql_delete (fun d => dh_id d =? 1)) 4 sample_db in
  let answers := [Tell (D := DonationDetail) (404, None);
                  Tell (D := unit) (200, None)] in
  rtc desk_step (book_of sample_db, inl <$> rqs)
    (book_of db', inr <$> answers).
Proof.
  intros rqs db' answers.
  apply (donations_linearizable rqs sample_db db' answers sample_db_inv
           sample_db_ordered); [by repeat constructor|].
  eapply rtc_l; [by eapply (pool_resolve 1)|]. cbn.
  eapply rtc_l; [by eapply (pool_resolve 0)|]. cbn. apply rtc_refl.
Defined.
